(** * Internal nodes of the adaptive radix trie (art_nodes.h)

    A shallow embedding of [basic_inode_impl], [basic_inode],
    [basic_inode_4], [basic_inode_16], [basic_inode_48] and
    [basic_inode_256], and the properties of their operations.

    Bytes, counters and indices are integers ([Z]) with the wrap-around of
    [std::uint8_t] written out.  Arrays ([std::array]) are lists of their
    fixed length, read with [get] and written with [put].  Nodes live in a
    heap indexed by address; a node pointer is an address with a type tag.
    The [assert] lines of the source are its contracts: they appear as the
    hypotheses of the theorems, and the functions are what the source
    computes when the contracts hold. *)

From Stdlib Require Import ZArith Lia Bool.
From stdpp Require Import base decidable option list gmap sorting.

Local Open Scope Z_scope.

(** ** Tagged pointers and iterators *)

(** Modelled from the spec: the node type tag of art_node_base.h, "one of
    {Leaf, I4, I16, I48, I256}". *)
Inductive node_type : Set := LEAF | I4 | I16 | I48 | I256.

#[global] Instance node_type_eq_dec : EqDecision node_type.
Proof. solve_decision. Defined.

(** Modelled from the spec: the tagged node pointer of art_node_base.h, "a
    value that bundles a raw pointer to a node with its type tag"; the tag
    sits in the low bits of the word, so the null pointer is the zero word:
    raw pointer 0 with the first tag. *)
Record node_ptr : Set := create { get_raw : Z; tag : node_type }.

#[global] Instance node_ptr_eq_dec : EqDecision node_ptr.
Proof. solve_decision. Defined.

Definition nullptr : node_ptr := create 0 LEAF.

#[global] Instance node_ptr_inhabited : Inhabited node_ptr := populate nullptr.

(** Modelled from the spec: the iterator of the container, "an iterator
    triple constructor (tagged_ptr child, uint8 index, tagged_ptr parent)";
    the default-constructed iterator is the empty one. *)
Record const_iterator : Set :=
  Iterator { node : node_ptr; index : Z; parent : node_ptr }.

Definition empty_iterator : const_iterator := Iterator nullptr 0 nullptr.

Definition is_empty (it : const_iterator) : bool := bool_decide (node it = nullptr).

(** ** Arrays *)

(** [a[i]] read and written.  An index outside the array is undefined
    behaviour in the source; here the read gives the default element and
    the write does nothing. *)
Definition get {A} `{Inhabited A} (l : list A) (i : Z) : A := l !!! Z.to_nat i.

Definition put {A} (i : Z) (v : A) (l : list A) : list A := <[Z.to_nat i := v]> l.

(** The first [n] elements of an array. *)
Definition firstn_Z {A} (n : Z) (l : list A) : list A := take (Z.to_nat n) l.

(** ** Nodes and the heap *)

Inductive inode_body : Set :=
| Body4 (keys : list Z) (children : list node_ptr)
| Body16 (keys : list Z) (children : list node_ptr)
| Body48 (child_indices : list Z) (children : list node_ptr)
| Body256 (children : list node_ptr).

(** [basic_inode_impl]: the prefix of [art_node_base] (modelled from the
    spec as the list of its bytes), then [parent_], [pos_in_parent] and
    [children_count], then the arrays of the derived class. *)
Record inode : Set := Inode {
  prefix : list Z;
  parent_ : node_ptr;
  pos_in_parent : Z;
  children_count : Z;
  body : inode_body
}.

#[global] Instance inode_inhabited : Inhabited inode :=
  populate (Inode [] nullptr 0 0 (Body256 [])).

Definition static_type (n : inode) : node_type :=
  match body n with
  | Body4 _ _ => I4 | Body16 _ _ => I16 | Body48 _ _ => I48 | Body256 _ => I256
  end.

Definition keys_of (n : inode) : list Z :=
  match body n with
  | Body4 ks _ | Body16 ks _ => ks
  | _ => []
  end.

Definition indices_of (n : inode) : list Z :=
  match body n with
  | Body48 ci _ => ci
  | _ => []
  end.

Definition children_of (n : inode) : list node_ptr :=
  match body n with
  | Body4 _ cs | Body16 _ cs | Body48 _ cs | Body256 cs => cs
  end.

(** The node with another array in the place of one of its own. *)
Definition set_body (b : inode_body) (n : inode) : inode :=
  Inode (prefix n) (parent_ n) (pos_in_parent n) (children_count n) b.

Definition with_keys (f : list Z → list Z) (n : inode) : inode :=
  match body n with
  | Body4 ks cs => set_body (Body4 (f ks) cs) n
  | Body16 ks cs => set_body (Body16 (f ks) cs) n
  | _ => n
  end.

Definition with_indices (f : list Z → list Z) (n : inode) : inode :=
  match body n with
  | Body48 ci cs => set_body (Body48 (f ci) cs) n
  | _ => n
  end.

Definition with_children (f : list node_ptr → list node_ptr) (n : inode) : inode :=
  Inode (prefix n) (parent_ n) (pos_in_parent n) (children_count n)
    match body n with
    | Body4 ks cs => Body4 ks (f cs)
    | Body16 ks cs => Body16 ks (f cs)
    | Body48 ci cs => Body48 ci (f cs)
    | Body256 cs => Body256 (f cs)
    end.

Definition set_count (c : Z) (n : inode) : inode :=
  Inode (prefix n) (parent_ n) (pos_in_parent n) c (body n).

Definition set_prefix (p : list Z) (n : inode) : inode :=
  Inode p (parent_ n) (pos_in_parent n) (children_count n) (body n).

(** The heap: the nodes allocated by the container, by address. *)
Abbreviation heap := (gmap Z inode).

(** A write through the pointer [a]: the object there is replaced by its
    image under [g].  The source only writes through pointers to live
    nodes. *)
Definition store (h : heap) (a : Z) (g : inode → inode) : heap :=
  <[a := g (h !!! a)]> h.

(** [std::uint8_t] arithmetic. *)
Definition u8 (x : Z) : Z := x mod 256.

Definition empty_child : Z := 0xFF.

(** ** The SSE intrinsics the nodes use

    A [__m128i] is the list of its 16 byte lanes, lane 0 first. *)

Definition _mm_set1_epi8 (b : Z) : list Z := replicate 16 b.

Definition _mm_cvtsi32_si128 (x : Z) : list Z :=
  [Z.land x 0xFF; Z.land (Z.shiftr x 8) 0xFF;
   Z.land (Z.shiftr x 16) 0xFF; Z.land (Z.shiftr x 24) 0xFF] ++ replicate 12 0.

Definition _mm_cmpeq_epi8 (a b : list Z) : list Z :=
  zip_with (λ x y, if bool_decide (x = y) then 0xFF else 0) a b.

Definition _mm_max_epu8 (a b : list Z) : list Z := zip_with Z.max a b.

Definition _mm_movemask_epi8 (v : list Z) : Z :=
  foldr (λ lane acc, Z.b2z (Z.testbit lane 7) + 2 * acc) 0 v.

Definition _mm_cmple_epu8 (x y : list Z) : list Z :=
  _mm_cmpeq_epi8 (_mm_max_epu8 y x) y.

(** Vectors of 16-, 32- and 64-bit lanes are the lists of their lanes as
    well; these are the views of one register with another lane width. *)
Definition epi32_of_epi64 (v : list Z) : list Z :=
  v ≫= λ x, [x mod 2 ^ 32; x / 2 ^ 32].

Fixpoint epi32_of_epi16 (v : list Z) : list Z :=
  match v with
  | lo :: hi :: v' => (lo + 2 ^ 16 * hi) :: epi32_of_epi16 v'
  | _ => []
  end.

Definition epi8_of_epi16 (v : list Z) : list Z :=
  v ≫= λ x, [x mod 2 ^ 8; x / 2 ^ 8].

(** [_mm_cmpeq_epi64] on the two 64-bit lanes of a register; on a pair of
    node pointers the lanes are the pointer words, which are equal when
    the tagged pointers are. *)
Definition _mm_cmpeq_epi64 {A} `{EqDecision A} (a b : list A) : list Z :=
  zip_with (λ x y, if bool_decide (x = y) then 2 ^ 64 - 1 else 0) a b.

(** The signed saturation of a 32-bit lane to 16 bits. *)
Definition saturate_epi16 (x : Z) : Z :=
  let signed := if bool_decide (x < 2 ^ 31) then x else x - 2 ^ 32 in
  Z.max (- 2 ^ 15) (Z.min (2 ^ 15 - 1) signed) mod 2 ^ 16.

(** [_mm_packs_epi32] of two registers of four 32-bit lanes into one of
    eight 16-bit lanes. *)
Definition _mm_packs_epi32 (a b : list Z) : list Z := saturate_epi16 <$> (a ++ b).

Fixpoint ctz_pos (p : positive) : Z :=
  match p with
  | xO p' => 1 + ctz_pos p'
  | _ => 0
  end.

(** [__builtin_ctz]; its value at 0 is undefined in the source. *)
Definition __builtin_ctz (x : Z) : Z :=
  match x with
  | Zpos p => ctz_pos p
  | _ => 0
  end.

(** Modelled from the spec: [ffs_nonzero] of ffs_nonzero.h (not under
    src/), with which the SSE4.2 scan does "`ctz` the first set bit". *)
Definition ffs_nonzero (x : Z) : Z := __builtin_ctz x.

(** The 32-bit integer that overlays a 4-byte key array (little endian). *)
Definition keys_integer (ks : list Z) : Z :=
  foldr (λ k acc, k + 256 * acc) 0 (take 4 ks).

(** [std::copy_backward(a + first, a + last, a + d_last)] within one
    array [a]: [while (first != last) *(--d_last) = *(--last);]. *)
Fixpoint copy_backward {A} `{Inhabited A} (fuel : nat) (first last d_last : Z)
    (a : list A) : list A :=
  match fuel with
  | O => a
  | S fuel' =>
      if bool_decide (first ≠ last)
      then copy_backward fuel' first (last - 1) (d_last - 1)
             (put (d_last - 1) (get a (last - 1)) a)
      else a
  end.

(** ** [basic_inode]: what the four node classes share *)

Definition assign_parent (parent : node_ptr) (index : Z) (n : inode) : inode :=
  Inode (prefix n) parent index (children_count n) (body n).

Definition tagged_self (NodeType : node_type) (this : Z) : node_ptr :=
  create this NodeType.

Definition reparent (NodeType : node_type) (h : heap) (this : Z)
    (node : node_ptr) (index : Z) : heap :=
  if bool_decide (tag node ≠ LEAF)
  then store h (get_raw node) (assign_parent (tagged_self NodeType this) (u8 index))
  else h.

Definition self_iterator (h : heap) (this : Z) (t : node_type) : const_iterator :=
  Iterator (create this t) (pos_in_parent (h !!! this)) (parent_ (h !!! this)).

Definition num_children (n : inode) : Z :=
  if bool_decide (children_count n ≠ 0) then children_count n else 256.

(** [basic_inode(bitwise_key)]: a node of [MinSize] children whose arrays
    are still to be filled. *)
Definition fresh_inode (count : Z) (key : list Z) (b : inode_body) : inode :=
  Inode key nullptr 0 (u8 count) b.

(** Modelled from the spec: [shift_left(byte)] of the bitwise key
    (art_node_base.h and the key class are not under src/), which
    "prepends" the byte to the prefix of a node. *)
Definition shift_left_byte (b : Z) (n : inode) : inode := set_prefix (b :: prefix n) n.

(** Modelled from the spec: [shift_left(prefix)] of the bitwise key, which
    "prepends" a whole prefix to the prefix of a node. *)
Definition shift_left_prefix (p : list Z) (n : inode) : inode :=
  set_prefix (p ++ prefix n) n.

(** ** [basic_inode_4]: min size 2, capacity 4 *)

Module basic_inode_4.

Definition min_size : Z := 2.
Definition capacity : Z := 4.

Definition is_full (n : inode) : bool := bool_decide (children_count n = capacity).
Definition is_min_size (n : inode) : bool := bool_decide (children_count n = min_size).

(** [basic_inode_4(bitwise_key)], at the address [this] the container
    allocated. *)
Definition ctor (h : heap) (this : Z) (key : list Z) : heap :=
  <[this := fresh_inode min_size key (Body4 (replicate 4 0) (replicate 4 nullptr))]> h.

(** One round of the two copy loops of the shrinking constructor. *)
Definition shrink_copy (this source : Z) (src index : Z) (h : heap) : heap :=
  let h := store h this (with_keys (put index (get (keys_of (h !!! source)) src))) in
  let h := store h this (with_children (put index (get (children_of (h !!! source)) src))) in
  reparent I4 h this (get (children_of (h !!! this)) index) index.

(** [while (source_keys_itr != source_keys + stop) { ... }]: [src] is the
    offset of the source iterators, [index] that of the destination. *)
Fixpoint shrink_loop (fuel : nat) (this source : Z) (stop src index : Z) (h : heap)
    : heap * Z :=
  match fuel with
  | O => (h, index)
  | S fuel' =>
      if bool_decide (src ≠ stop)
      then shrink_loop fuel' this source stop (src + 1) (u8 (index + 1))
             (shrink_copy this source src index h)
      else (h, index)
  end.

(** [basic_inode_4(const inode16_type&, child_to_delete)]: the base
    constructor sets the count to the capacity and takes the prefix of
    the source. *)
Definition shrink_ctor (h : heap) (this source : Z) (child_to_delete : Z) : heap :=
  let h := <[this := fresh_inode capacity (prefix (h !!! source))
                       (Body4 (replicate 4 0) (replicate 4 nullptr))]> h in
  let '(h, index) := shrink_loop 16 this source child_to_delete 0 0 h in
  fst (shrink_loop 16 this source 5 (child_to_delete + 1) index h).

(** The loop of [add] that moves the keys and children at or after the
    insert position one slot to the right, from the last one down. *)
Fixpoint add_shift (fuel : nat) (this : Z) (insert_pos_index i : Z) (h : heap) : heap :=
  match fuel with
  | O => h
  | S fuel' =>
      if bool_decide (insert_pos_index < i)
      then
        let h := store h this (with_keys (λ ks, put i (get ks (i - 1)) ks)) in
        let h := store h this (with_children (λ cs, put i (get cs (i - 1)) cs)) in
        let h := reparent I4 h this (get (children_of (h !!! this)) (i - 1)) i in
        add_shift fuel' this insert_pos_index (i - 1) h
      else h
  end.

(** The branch-free insert position of [add]. *)
Definition insert_position (n : inode) (key_byte : Z) : Z :=
  let integer := keys_integer (keys_of n) in
  let first_lt := if bool_decide (Z.land integer 0xFF < key_byte) then 1 else 0 in
  let second_lt :=
    if bool_decide (Z.land (Z.shiftr integer 8) 0xFF < key_byte) then 1 else 0 in
  let third_lt :=
    if bool_decide (children_count n = 3) &&
       bool_decide (Z.land (Z.shiftr integer 16) 0xFF < key_byte) then 1 else 0 in
  first_lt + second_lt + third_lt.

(** [add(leaf_unique_ptr child, key_byte)]; [child] is the address the
    owning pointer releases. *)
Definition add (h : heap) (this : Z) (child : Z) (key_byte : Z) : heap * const_iterator :=
  let children_count := children_count (h !!! this) in
  let insert_pos_index := insert_position (h !!! this) key_byte in
  let h := add_shift (Z.to_nat children_count) this insert_pos_index children_count h in
  let h := store h this (with_keys (put insert_pos_index (u8 key_byte))) in
  let h := store h this (with_children (put insert_pos_index (create child LEAF))) in
  let children_count := u8 (children_count + 1) in
  let h := store h this (set_count children_count) in
  (h, Iterator (get (children_of (h !!! this)) insert_pos_index) insert_pos_index
        (tagged_self I4 this)).

(** The loop of [remove]; its bound reads [this->children_count]. *)
Fixpoint remove_shift (fuel : nat) (this : Z) (i : Z) (h : heap) : heap :=
  match fuel with
  | O => h
  | S fuel' =>
      if bool_decide (i < (children_count (h !!! this) - 1) mod 2 ^ 32)
      then
        let h := store h this (with_keys (λ ks, put i (get ks (i + 1)) ks)) in
        let h := store h this (with_children (λ cs, put i (get cs (i + 1)) cs)) in
        let h := reparent I4 h this (get (children_of (h !!! this)) (i + 1)) i in
        remove_shift fuel' this (i + 1) h
      else h
  end.

Definition remove (h : heap) (this : Z) (child_index : Z) : heap :=
  let children_count := children_count (h !!! this) in
  let h := remove_shift (Z.to_nat children_count) this child_index h in
  let children_count := u8 (children_count - 1) in
  store h this (set_count children_count).

Definition leave_last_child (h : heap) (this : Z) (child_to_delete : Z)
    : heap * node_ptr :=
  let child_to_leave := u8 (1 - child_to_delete) in
  let child_to_leave_ptr := get (children_of (h !!! this)) child_to_leave in
  if bool_decide (tag child_to_leave_ptr ≠ LEAF)
  then
    let h := store h (get_raw child_to_leave_ptr)
               (shift_left_byte (get (keys_of (h !!! this)) child_to_leave)) in
    let h := store h (get_raw child_to_leave_ptr)
               (shift_left_prefix (prefix (h !!! this))) in
    let h := store h (get_raw child_to_leave_ptr) (assign_parent nullptr 0) in
    (h, child_to_leave_ptr)
  else (h, child_to_leave_ptr).

(** [find_child], the SSE2 path (the one compiled wherever
    [basic_inode_16] compiles). *)
Definition find_child (h : heap) (this : Z) (key_byte : Z) : const_iterator :=
  let replicated_search_key := _mm_set1_epi8 key_byte in
  let keys_in_sse_reg := _mm_cvtsi32_si128 (keys_integer (keys_of (h !!! this))) in
  let matching_key_positions := _mm_cmpeq_epi8 replicated_search_key keys_in_sse_reg in
  let mask := Z.shiftl 1 (children_count (h !!! this)) - 1 in
  let bit_field := Z.land (_mm_movemask_epi8 matching_key_positions) mask in
  if bool_decide (bit_field ≠ 0)
  then
    let i := __builtin_ctz bit_field in
    Iterator (get (children_of (h !!! this)) i) i (tagged_self I4 this)
  else empty_iterator.

Definition leftmost_child (h : heap) (this : Z) (start : Z) : const_iterator :=
  if bool_decide (start < children_count (h !!! this))
  then Iterator (get (children_of (h !!! this)) start) start (tagged_self I4 this)
  else empty_iterator.

Definition replace (h : heap) (this : Z) (pos : const_iterator) (child : node_ptr) : heap :=
  let child_index := u8 (index pos) in
  let h := store h this (with_children (put child_index child)) in
  reparent I4 h this child child_index.

(** [add_two_to_empty(key1, child1, key2, child2)], on a node just
    constructed. *)
Definition add_two_to_empty (h : heap) (this : Z) (key1 : Z) (child1 : node_ptr)
    (key2 : Z) (child2 : Z) : heap * const_iterator :=
  let key1_i := if bool_decide (key1 < key2) then 0 else 1 in
  let key2_i := if bool_decide (key1_i = 0) then 1 else 0 in
  let h := store h this (with_keys (put key1_i key1)) in
  let h := store h this (with_children (put key1_i child1)) in
  let h := reparent I4 h this child1 key1_i in
  let h := store h this (with_keys (put key2_i key2)) in
  let h := store h this (with_children (put key2_i (create child2 LEAF))) in
  let h := store h this (with_keys (put 2 0)) in
  let h := store h this (with_keys (put 3 0)) in
  (h, Iterator (get (children_of (h !!! this)) key2_i) key2_i (tagged_self I4 this)).

(** [delete_subtree(db_instance)].  [db_instance.deallocate] belongs to
    the database class, which is not part of these sources: the model
    records its calls, the pointers passed in their order.  [i] is a
    [std::uint8_t]. *)
Fixpoint delete_loop (fuel : nat) (n : inode) (children_count_copy i : Z) : list node_ptr :=
  match fuel with
  | O => []
  | S fuel' =>
      if bool_decide (i < children_count_copy)
      then get (children_of n) i :: delete_loop fuel' n children_count_copy (u8 (i + 1))
      else []
  end.

Definition delete_subtree (h : heap) (this : Z) : list node_ptr :=
  delete_loop 256 (h !!! this) (children_count (h !!! this)) 0.

End basic_inode_4.

(** ** [basic_inode_16]: min size 5, capacity 16 *)

Module basic_inode_16.

Definition min_size : Z := 5.
Definition capacity : Z := 16.

Definition is_full (n : inode) : bool := bool_decide (children_count n = capacity).
Definition is_min_size (n : inode) : bool := bool_decide (children_count n = min_size).

Definition ctor (h : heap) (this : Z) (key : list Z) : heap :=
  <[this := fresh_inode min_size key (Body16 (replicate 16 0) (replicate 16 nullptr))]> h.

(** The first loop of [populate]: the entries before the insert
    position keep their index. *)
Fixpoint populate_head (fuel : nat) (this source : Z) (insert_pos_index i : Z) (h : heap)
    : heap * Z :=
  match fuel with
  | O => (h, i)
  | S fuel' =>
      if bool_decide (i < insert_pos_index)
      then
        let h := store h this (with_keys (put i (get (keys_of (h !!! source)) i))) in
        let h := store h this (with_children (put i (get (children_of (h !!! source)) i))) in
        let h := reparent I16 h this (get (children_of (h !!! this)) i) i in
        populate_head fuel' this source insert_pos_index (i + 1) h
      else (h, i)
  end.

(** The second loop of [populate]: the entries after it move up by one. *)
Fixpoint populate_tail (fuel : nat) (this source : Z) (i : Z) (h : heap) : heap :=
  match fuel with
  | O => h
  | S fuel' =>
      if bool_decide (i <= basic_inode_4.capacity)
      then
        let h := store h this (with_keys (put i (get (keys_of (h !!! source)) (i - 1)))) in
        let h := store h this
                   (with_children (put i (get (children_of (h !!! source)) (i - 1)))) in
        let h := reparent I16 h this (get (children_of (h !!! this)) i) i in
        populate_tail fuel' this source (i + 1) h
      else h
  end.

(** [populate(source_node, child, key_byte)]: grow from a full
    [basic_inode_4]. *)
Definition populate (h : heap) (this source : Z) (child : Z) (key_byte : Z)
    : heap * const_iterator :=
  let keys_integer := keys_integer (keys_of (h !!! source)) in
  let first_lt := if bool_decide (Z.land keys_integer 0xFF < key_byte) then 1 else 0 in
  let second_lt :=
    if bool_decide (Z.land (Z.shiftr keys_integer 8) 0xFF < key_byte) then 1 else 0 in
  let third_lt :=
    if bool_decide (Z.land (Z.shiftr keys_integer 16) 0xFF < key_byte) then 1 else 0 in
  let fourth_lt :=
    if bool_decide (Z.land (Z.shiftr keys_integer 24) 0xFF < key_byte) then 1 else 0 in
  let insert_pos_index := first_lt + second_lt + third_lt + fourth_lt in
  let '(h, i) := populate_head 4 this source insert_pos_index 0 h in
  let h := store h this (with_keys (put i (u8 key_byte))) in
  let h := store h this (with_children (put i (create child LEAF))) in
  let inserted := Iterator (get (children_of (h !!! this)) i) i (tagged_self I16 this) in
  let i := i + 1 in
  (populate_tail 5 this source i h, inserted).

(** The loop of the shrinking constructor over the 256 key bytes of the
    source [basic_inode_48]. *)
Fixpoint shrink_loop (fuel : nat) (this source : Z) (i next_child : Z) (h : heap) : heap :=
  match fuel with
  | O => h
  | S fuel' =>
      let source_child_i := get (indices_of (h !!! source)) i in
      if bool_decide (source_child_i ≠ empty_child)
      then
        let h := store h this (with_keys (put next_child (u8 i))) in
        let source_child_ptr := get (children_of (h !!! source)) source_child_i in
        let h := store h this (with_children (put next_child source_child_ptr)) in
        let h := reparent I16 h this (get (children_of (h !!! this)) next_child)
                   next_child in
        let next_child := next_child + 1 in
        if bool_decide (next_child = capacity) then h
        else shrink_loop fuel' this source (i + 1) next_child h
      else shrink_loop fuel' this source (i + 1) next_child h
  end.

(** [basic_inode_16(inode48_type&, child_to_delete)]; it clears the entry
    of the deleted child in the source first. *)
Definition shrink_ctor (h : heap) (this source : Z) (child_to_delete : Z) : heap :=
  let h := <[this := fresh_inode capacity (prefix (h !!! source))
                       (Body16 (replicate 16 0) (replicate 16 nullptr))]> h in
  let h := store h source (with_indices (put child_to_delete empty_child)) in
  shrink_loop 256 this source 0 0 h.

(** [get_sorted_key_array_insert_position], the SSE2 path. *)
Definition get_sorted_key_array_insert_position (n : inode) (key_byte : Z) : Z :=
  let children_count := children_count n in
  let replicated_insert_key := _mm_set1_epi8 key_byte in
  let lesser_key_positions := _mm_cmple_epu8 replicated_insert_key (keys_of n) in
  let mask := Z.shiftl 1 children_count - 1 in
  let bit_field := Z.land (_mm_movemask_epi8 lesser_key_positions) mask in
  u8 (if bool_decide (bit_field ≠ 0) then __builtin_ctz bit_field else children_count).

(** [for (i = insert_pos_index; i != children_count; ++i)
      reparent(children[i], i + 1)]. *)
Fixpoint add_reparent (fuel : nat) (this : Z) (children_count i : Z) (h : heap) : heap :=
  match fuel with
  | O => h
  | S fuel' =>
      if bool_decide (i ≠ children_count)
      then add_reparent fuel' this children_count (u8 (i + 1))
             (reparent I16 h this (get (children_of (h !!! this)) i) (i + 1))
      else h
  end.

Definition add (h : heap) (this : Z) (child : Z) (key_byte : Z) : heap * const_iterator :=
  let children_count := children_count (h !!! this) in
  let insert_pos_index := get_sorted_key_array_insert_position (h !!! this) key_byte in
  let h :=
    if bool_decide (insert_pos_index ≠ children_count)
    then
      let h := store h this
                 (with_keys (copy_backward 16 insert_pos_index children_count
                               (children_count + 1))) in
      let h := add_reparent 16 this children_count insert_pos_index h in
      store h this
        (with_children (copy_backward 16 insert_pos_index children_count
                          (children_count + 1)))
    else h in
  let h := store h this (with_keys (put insert_pos_index key_byte)) in
  let h := store h this (with_children (put insert_pos_index (create child LEAF))) in
  let children_count := u8 (children_count + 1) in
  let h := store h this (set_count children_count) in
  (h, Iterator (get (children_of (h !!! this)) insert_pos_index) insert_pos_index
        (tagged_self I16 this)).

(** The loop of [remove]; its bound is the local copy of the count. *)
Fixpoint remove_shift (fuel : nat) (this : Z) (children_count i : Z) (h : heap) : heap :=
  match fuel with
  | O => h
  | S fuel' =>
      if bool_decide (i < children_count)
      then
        let h := store h this (with_keys (λ ks, put (i - 1) (get ks i) ks)) in
        let h := store h this (with_children (λ cs, put (i - 1) (get cs i) cs)) in
        let h := reparent I16 h this (get (children_of (h !!! this)) i) (i - 1) in
        remove_shift fuel' this children_count (i + 1) h
      else h
  end.

Definition remove (h : heap) (this : Z) (child_index : Z) : heap :=
  let children_count := children_count (h !!! this) in
  let h := remove_shift (Z.to_nat children_count) this children_count (child_index + 1) h in
  let children_count := u8 (children_count - 1) in
  store h this (set_count children_count).

Definition find_child (h : heap) (this : Z) (key_byte : Z) : const_iterator :=
  let replicated_search_key := _mm_set1_epi8 key_byte in
  let matching_key_positions :=
    _mm_cmpeq_epi8 replicated_search_key (keys_of (h !!! this)) in
  let mask := Z.shiftl 1 (children_count (h !!! this)) - 1 in
  let bit_field := Z.land (_mm_movemask_epi8 matching_key_positions) mask in
  if bool_decide (bit_field ≠ 0)
  then
    let i := __builtin_ctz bit_field in
    Iterator (get (children_of (h !!! this)) i) i (tagged_self I16 this)
  else empty_iterator.

Definition leftmost_child (h : heap) (this : Z) (start : Z) : const_iterator :=
  if bool_decide (start < children_count (h !!! this))
  then Iterator (get (children_of (h !!! this)) start) start (tagged_self I16 this)
  else empty_iterator.

Definition replace (h : heap) (this : Z) (pos : const_iterator) (child : node_ptr) : heap :=
  let child_index := u8 (index pos) in
  let h := store h this (with_children (put child_index child)) in
  reparent I16 h this (get (children_of (h !!! this)) child_index) child_index.

(** [delete_subtree(db_instance)].  [db_instance.deallocate] belongs to
    the database class, which is not part of these sources: the model
    records its calls, the pointers passed in their order.  [i] is a
    [std::uint8_t]. *)
Fixpoint delete_loop (fuel : nat) (n : inode) (children_count_copy i : Z) : list node_ptr :=
  match fuel with
  | O => []
  | S fuel' =>
      if bool_decide (i < children_count_copy)
      then get (children_of n) i :: delete_loop fuel' n children_count_copy (u8 (i + 1))
      else []
  end.

Definition delete_subtree (h : heap) (this : Z) : list node_ptr :=
  delete_loop 256 (h !!! this) (children_count (h !!! this)) 0.

End basic_inode_16.

(** ** [basic_inode_48]: min size 17, capacity 48 *)

Module basic_inode_48.

Definition min_size : Z := 17.
Definition capacity : Z := 48.

Definition is_full (n : inode) : bool := bool_decide (children_count n = capacity).
Definition is_min_size (n : inode) : bool := bool_decide (children_count n = min_size).

Definition ctor (h : heap) (this : Z) (key : list Z) : heap :=
  <[this := fresh_inode min_size key (Body48 (replicate 256 0) (replicate 48 nullptr))]> h.

(** The loop of [populate] over the 16 entries of the source. *)
Fixpoint populate_loop (fuel : nat) (this source : Z) (i : Z) (h : heap) : heap :=
  match fuel with
  | O => h
  | S fuel' =>
      if bool_decide (i ≠ basic_inode_16.capacity)
      then
        let existing_key_byte := get (keys_of (h !!! source)) i in
        let h := store h this (with_indices (put existing_key_byte i)) in
        let h := store h this (with_children (put i (get (children_of (h !!! source)) i))) in
        let h := reparent I48 h this (get (children_of (h !!! this)) i) existing_key_byte in
        populate_loop fuel' this source (u8 (i + 1)) h
      else h
  end.

(** [std::fill(a + first, a + last, v)] *)
Definition fill {A} (first last : Z) (v : A) (a : list A) : list A :=
  take (Z.to_nat first) a ++ replicate (Z.to_nat (Z.min last (Z.of_nat (length a)) - first)) v
    ++ drop (Z.to_nat last) a.

(** [populate(source_node, child, key_byte)]: grow from a full
    [basic_inode_16]. *)
Definition populate (h : heap) (this source : Z) (child : Z) (key_byte : Z)
    : heap * const_iterator :=
  let h := store h this (with_indices (fill 0 256 empty_child)) in
  let h := populate_loop 16 this source 0 h in
  let h := store h this (with_indices (put key_byte basic_inode_16.capacity)) in
  let h := store h this
             (with_children (put basic_inode_16.capacity (create child LEAF))) in
  let inserted :=
    Iterator (get (children_of (h !!! this)) basic_inode_16.capacity) key_byte
      (tagged_self I48 this) in
  let h := store h this
             (with_children (fill (basic_inode_16.capacity + 1) capacity nullptr)) in
  (h, inserted).

(** The loop of the shrinking constructor over the 256 slots of the
    source [basic_inode_256]. *)
Fixpoint shrink_loop (fuel : nat) (this source : Z) (child_i next_child : Z) (h : heap)
    : heap :=
  match fuel with
  | O => h
  | S fuel' =>
      if bool_decide (child_i < 256)
      then
        let child_ptr := get (children_of (h !!! source)) child_i in
        if bool_decide (child_ptr = nullptr)
        then shrink_loop fuel' this source (child_i + 1) next_child h
        else
          let h := store h this (with_indices (put child_i next_child)) in
          let h := store h this
                     (with_children (put next_child
                                       (get (children_of (h !!! source)) child_i))) in
          let h := reparent I48 h this (get (children_of (h !!! this)) next_child)
                     child_i in
          let next_child := u8 (next_child + 1) in
          if bool_decide (next_child = children_count (h !!! this)) then h
          else shrink_loop fuel' this source (child_i + 1) next_child h
      else h
  end.

(** [basic_inode_48(inode256_type&, child_to_delete)]; it nulls the slot
    of the deleted child in the source first. *)
Definition shrink_ctor (h : heap) (this source : Z) (child_to_delete : Z) : heap :=
  let h := <[this := fresh_inode capacity (prefix (h !!! source))
                       (Body48 (replicate 256 0) (replicate 48 nullptr))]> h in
  let h := store h source (with_children (put child_to_delete nullptr)) in
  let h := store h this (with_indices (fill 0 256 empty_child)) in
  shrink_loop 256 this source 0 0 h.

(** The scan of [add] for a free slot, the portable path:
    [while (true) { if (children[i] == nullptr) break; ++i; }].  It
    runs over the slots from [i] on; past the last slot the source reads
    outside the array. *)
Fixpoint first_free_slot (slots : list node_ptr) (i : Z) : Z :=
  match slots with
  | [] => i
  | child_ptr :: slots' =>
      if bool_decide (child_ptr = nullptr) then i else first_free_slot slots' (i + 1)
  end.

(** [children.pointer_vector[i]], the register that overlays the slots
    [2 * i] and [2 * i + 1]. *)
Definition pointer_vector (slots : list node_ptr) (i : Z) : list node_ptr :=
  [get slots (2 * i); get slots (2 * i + 1)].

(** The scan of [add] for a free slot, the SSE4.2 path: four registers,
    eight slots, a round; [i] counts registers.  Past the last register
    the source reads outside the array. *)
Fixpoint first_free_slot_sse42 (fuel : nat) (slots : list node_ptr) (i : Z) : Z :=
  match fuel with
  | O => i
  | S fuel' =>
      let nullptr_vector := [nullptr; nullptr] in
      let ptr_vec0 := pointer_vector slots i in
      let ptr_vec1 := pointer_vector slots (i + 1) in
      let ptr_vec2 := pointer_vector slots (i + 2) in
      let ptr_vec3 := pointer_vector slots (i + 3) in
      let vec0_cmp := _mm_cmpeq_epi64 ptr_vec0 nullptr_vector in
      let vec1_cmp := _mm_cmpeq_epi64 ptr_vec1 nullptr_vector in
      let vec2_cmp := _mm_cmpeq_epi64 ptr_vec2 nullptr_vector in
      let vec3_cmp := _mm_cmpeq_epi64 ptr_vec3 nullptr_vector in
      let vec01_cmp := _mm_packs_epi32 (epi32_of_epi64 vec0_cmp) (epi32_of_epi64 vec1_cmp) in
      let vec23_cmp := _mm_packs_epi32 (epi32_of_epi64 vec2_cmp) (epi32_of_epi64 vec3_cmp) in
      let vec_cmp := _mm_packs_epi32 (epi32_of_epi16 vec01_cmp) (epi32_of_epi16 vec23_cmp) in
      let cmp_mask := _mm_movemask_epi8 (epi8_of_epi16 vec_cmp) in
      if bool_decide (cmp_mask ≠ 0)
      then Z.shiftl i 1 + Z.shiftr (ffs_nonzero cmp_mask) 1
      else first_free_slot_sse42 fuel' slots (i + 4)
  end.

(** [add], after the scan has found the free slot [i]. *)
Definition add_at_slot (h : heap) (this : Z) (child : Z) (key_byte : Z) (i : Z)
    : heap * const_iterator :=
  let h := store h this (with_indices (put key_byte (u8 i))) in
  let h := store h this (with_children (put i (create child LEAF))) in
  let h := store h this (λ n, set_count (u8 (children_count n + 1)) n) in
  (h, Iterator (get (children_of (h !!! this)) i) key_byte (tagged_self I48 this)).

Definition add (h : heap) (this : Z) (child : Z) (key_byte : Z) : heap * const_iterator :=
  add_at_slot h this child key_byte (first_free_slot (children_of (h !!! this)) 0).

(** [add] as compiled with SSE4.2: the 48 slots are 24 registers, six
    rounds. *)
Definition add_sse42 (h : heap) (this : Z) (child : Z) (key_byte : Z)
    : heap * const_iterator :=
  add_at_slot h this child key_byte (first_free_slot_sse42 6 (children_of (h !!! this)) 0).

(** The scan of [leftmost_child] over the key bytes from [key_byte] to
    255. *)
Fixpoint leftmost_scan (fuel : nat) (n : inode) (this : Z) (key_byte : Z) : const_iterator :=
  match fuel with
  | O => empty_iterator
  | S fuel' =>
      let i := get (indices_of n) key_byte in
      if bool_decide (i ≠ empty_child)
      then Iterator (get (children_of n) i) key_byte (tagged_self I48 this)
      else if bool_decide (key_byte = 255) then empty_iterator
      else leftmost_scan fuel' n this (key_byte + 1)
  end.

Definition leftmost_child (h : heap) (this : Z) (start : Z) : const_iterator :=
  if bool_decide (start < 256)
  then leftmost_scan 256 (h !!! this) this start
  else empty_iterator.

Definition remove (h : heap) (this : Z) (child_index : Z) : heap :=
  let h := store h this
             (λ n, with_children (put (get (indices_of n) child_index) nullptr) n) in
  let h := store h this (with_indices (put child_index empty_child)) in
  store h this (λ n, set_count (u8 (children_count n - 1)) n).

Definition find_child (h : heap) (this : Z) (key_byte : Z) : const_iterator :=
  if bool_decide (get (indices_of (h !!! this)) (u8 key_byte) ≠ empty_child)
  then
    let child_i := get (indices_of (h !!! this)) (u8 key_byte) in
    Iterator (get (children_of (h !!! this)) child_i) (u8 key_byte) (tagged_self I48 this)
  else empty_iterator.

Definition replace (h : heap) (this : Z) (pos : const_iterator) (child : node_ptr) : heap :=
  let child_i := get (indices_of (h !!! this)) (index pos) in
  let h := store h this (with_children (put child_i child)) in
  reparent I48 h this (get (children_of (h !!! this)) child_i) (index pos).

(** [delete_subtree(db_instance)], over the 48 slots; the model records
    the calls of [db_instance.deallocate]. *)
Fixpoint delete_loop (fuel : nat) (n : inode) (i : Z) : list node_ptr :=
  match fuel with
  | O => []
  | S fuel' =>
      if bool_decide (i < capacity)
      then
        let child := get (children_of n) i in
        if bool_decide (child ≠ nullptr) then child :: delete_loop fuel' n (i + 1)
        else delete_loop fuel' n (i + 1)
      else []
  end.

Definition delete_subtree (h : heap) (this : Z) : list node_ptr :=
  delete_loop 48 (h !!! this) 0.

End basic_inode_48.

(** ** [basic_inode_256]: min size 49, capacity 256 *)

Module basic_inode_256.

Definition min_size : Z := 49.
Definition capacity : Z := 256.

Definition is_full (n : inode) : bool := bool_decide (children_count n = capacity).
Definition is_min_size (n : inode) : bool := bool_decide (children_count n = min_size).

Definition ctor (h : heap) (this : Z) (key : list Z) : heap :=
  <[this := fresh_inode min_size key (Body256 (replicate 256 nullptr))]> h.

(** The first loop of [populate]: it stops right after the 48th child of
    the source is copied. *)
Fixpoint populate_loop (fuel : nat) (this source : Z) (i children_copied : Z) (h : heap)
    : heap * Z :=
  match fuel with
  | O => (h, i)
  | S fuel' =>
      let children_i := get (indices_of (h !!! source)) i in
      if bool_decide (children_i = empty_child)
      then populate_loop fuel' this source (i + 1) children_copied
             (store h this (with_children (put i nullptr)))
      else
        let h := store h this
                   (with_children (put i (get (children_of (h !!! source)) children_i))) in
        let h := reparent I256 h this (get (children_of (h !!! this)) i) i in
        let children_copied := children_copied + 1 in
        if bool_decide (children_copied = basic_inode_48.capacity) then (h, i)
        else populate_loop fuel' this source (i + 1) children_copied h
  end.

(** [populate(source_node, child, key_byte)]: grow from a full
    [basic_inode_48]. *)
Definition populate (h : heap) (this source : Z) (child : Z) (key_byte : Z)
    : heap * const_iterator :=
  let '(h, i) := populate_loop 256 this source 0 0 h in
  let i := i + 1 in
  let h := store h this (with_children (basic_inode_48.fill i capacity nullptr)) in
  let h := store h this (with_children (put key_byte (create child LEAF))) in
  (h, Iterator (get (children_of (h !!! this)) key_byte) key_byte (tagged_self I256 this)).

Definition add (h : heap) (this : Z) (child : Z) (key_byte : Z) : heap * const_iterator :=
  let h := store h this (with_children (put key_byte (create child LEAF))) in
  let h := store h this (λ n, set_count (u8 (children_count n + 1)) n) in
  (h, Iterator (get (children_of (h !!! this)) key_byte) key_byte (tagged_self I256 this)).

Definition remove (h : heap) (this : Z) (child_index : Z) : heap :=
  let h := store h this (with_children (put child_index nullptr)) in
  store h this (λ n, set_count (u8 (children_count n - 1)) n).

Definition find_child (h : heap) (this : Z) (key_byte : Z) : const_iterator :=
  if bool_decide (get (children_of (h !!! this)) key_byte ≠ nullptr)
  then Iterator (get (children_of (h !!! this)) key_byte) key_byte (tagged_self I256 this)
  else empty_iterator.

(** [for (; key_byte != children.size(); ++key_byte)] *)
Fixpoint leftmost_scan (fuel : nat) (n : inode) (this : Z) (key_byte : Z) : const_iterator :=
  match fuel with
  | O => empty_iterator
  | S fuel' =>
      if bool_decide (key_byte ≠ 256)
      then
        if bool_decide (get (children_of n) key_byte ≠ nullptr)
        then Iterator (get (children_of n) key_byte) key_byte (tagged_self I256 this)
        else leftmost_scan fuel' n this (key_byte + 1)
      else empty_iterator
  end.

Definition leftmost_child (h : heap) (this : Z) (key_byte : Z) : const_iterator :=
  leftmost_scan 256 (h !!! this) this key_byte.

Definition replace (h : heap) (this : Z) (pos : const_iterator) (child : node_ptr) : heap :=
  let key_byte := u8 (index pos) in
  let h := store h this (with_children (put key_byte child)) in
  reparent I256 h this child key_byte.

(** [for_each_child(func)]: [func] is called with the key byte and the
    pointer of every child; what it does is threaded as a state of type
    [St], apart from the node, which the method reads only. *)
Fixpoint for_each_child_loop {St} (fuel : nat) (n : inode) (func : Z → node_ptr → St → St)
    (i : Z) (s : St) : St :=
  match fuel with
  | O => s
  | S fuel' =>
      if bool_decide (i ≠ 256)
      then
        let child_ptr := get (children_of n) i in
        if bool_decide (child_ptr ≠ nullptr)
        then for_each_child_loop fuel' n func (i + 1) (func i child_ptr s)
        else for_each_child_loop fuel' n func (i + 1) s
      else s
  end.

Definition for_each_child {St} (h : heap) (this : Z) (func : Z → node_ptr → St → St)
    (s : St) : St :=
  for_each_child_loop 256 (h !!! this) func 0 s.

(** [delete_subtree(db_instance)]: [for_each_child] with a call of
    [db_instance.deallocate(child)], which the model records. *)
Definition delete_subtree (h : heap) (this : Z) : list node_ptr :=
  for_each_child h this (λ _ child calls, calls ++ [child]) [].

End basic_inode_256.

(** ** [basic_inode_impl]: dispatch on the tag of a node pointer

    The default arm of each switch is [ART_DETAIL_CANNOT_HAPPEN()], which
    aborts: the dispatchers return [None] there. *)

Module basic_inode_impl.

Definition capacity (node : node_ptr) : option Z :=
  match tag node with
  | I4 => Some basic_inode_4.capacity
  | I16 => Some basic_inode_16.capacity
  | I48 => Some basic_inode_48.capacity
  | I256 => Some basic_inode_256.capacity
  | LEAF => Some 1
  end.

Definition find_child (h : heap) (node : node_ptr) (key_byte : Z) : option const_iterator :=
  match tag node with
  | I4 => Some (basic_inode_4.find_child h (get_raw node) key_byte)
  | I16 => Some (basic_inode_16.find_child h (get_raw node) key_byte)
  | I48 => Some (basic_inode_48.find_child h (get_raw node) key_byte)
  | I256 => Some (basic_inode_256.find_child h (get_raw node) key_byte)
  | LEAF => None
  end.

Definition leftmost_child (h : heap) (node : node_ptr) (start : Z) : option const_iterator :=
  match tag node with
  | I4 => Some (basic_inode_4.leftmost_child h (get_raw node) start)
  | I16 => Some (basic_inode_16.leftmost_child h (get_raw node) start)
  | I48 => Some (basic_inode_48.leftmost_child h (get_raw node) start)
  | I256 => Some (basic_inode_256.leftmost_child h (get_raw node) start)
  | LEAF => None
  end.

(** The loop of [leftmost_leaf]:
    [while (pos.tag() != LEAF) { pos = leftmost_child(pos.node(), start); start = 0; }].
    [None] when the fuel does not suffice (or a dispatcher aborted). *)
Fixpoint leftmost_leaf_loop (fuel : nat) (h : heap) (pos : const_iterator) (start : Z)
    : option const_iterator :=
  match fuel with
  | O => None
  | S fuel' =>
      if bool_decide (tag (node pos) ≠ LEAF)
      then
        match leftmost_child h (node pos) start with
        | Some pos' => leftmost_leaf_loop fuel' h pos' 0
        | None => None
        end
      else Some pos
  end.

Definition leftmost_leaf (fuel : nat) (h : heap) (node : node_ptr) (start : Z)
    : option const_iterator :=
  leftmost_leaf_loop fuel h (Iterator node 0 nullptr) start.

End basic_inode_impl.

(** ** Well-formed nodes: the invariants of the data model *)

(** Properties of all the indices of a range are decidable when they are
    at each index. *)
#[global] Instance bounded_forall_dec (P : Z → Prop) `{!∀ i, Decision (P i)} (lo hi : Z) :
  Decision (∀ i, lo ≤ i < hi → P i).
Proof.
  destruct (decide (Forall P (seqZ lo (hi - lo)))) as [HP|HP]; [left|right].
  - intros i Hi. rewrite Forall_forall in HP. apply HP, elem_of_seqZ. lia.
  - intros HQ. apply HP, Forall_forall. intros i Hi%elem_of_seqZ. apply HQ. lia.
Defined.

#[global] Instance bounded_exists_dec (P : Z → Prop) `{!∀ i, Decision (P i)} (lo hi : Z) :
  Decision (∃ i, lo ≤ i < hi ∧ P i).
Proof.
  destruct (decide (Exists P (seqZ lo (hi - lo)))) as [HP|HP]; [left|right].
  - apply Exists_exists in HP as (i & Hi%elem_of_seqZ & HPi). exists i. split; [lia|done].
  - intros (i & Hi & HPi). apply HP, Exists_exists. exists i.
    split; [apply elem_of_seqZ; lia|done].
Defined.

(** The first [count] keys are strictly increasing. *)
Definition sorted_keys (count : Z) (ks : list Z) : Prop :=
  ∀ i, 0 ≤ i < count → ∀ j, 0 ≤ j < count → i < j → get ks i < get ks j.

Definition is_byte (b : Z) : Prop := 0 ≤ b < 256.

#[global] Instance is_byte_dec b : Decision (is_byte b).
Proof. unfold is_byte. apply _. Defined.

(** The number of non-null entries of a child array. *)
Definition population (cs : list node_ptr) : Z :=
  Z.of_nat (length (filter (λ c, c ≠ nullptr) cs)).

(** The number of key bytes a 256-entry index table maps to a slot. *)
Definition mapped (ci : list Z) : Z :=
  Z.of_nat (length (filter (λ s, s ≠ empty_child) ci)).

(** The first [count] children of a sorted node are there. *)
Definition children_present (count : Z) (cs : list node_ptr) : Prop :=
  ∀ i, 0 ≤ i < count → get cs i ≠ nullptr.

(** Every key byte that the index table maps has a slot of its own among
    the 48, and a child in it. *)
Definition slots_valid (ci : list Z) (cs : list node_ptr) : Prop :=
  ∀ b, 0 ≤ b < 256 → get ci b ≠ empty_child →
       get ci b < 48 ∧ get cs (get ci b) ≠ nullptr.

Definition slots_distinct (ci : list Z) : Prop :=
  ∀ b, 0 ≤ b < 256 → ∀ b', 0 ≤ b' < 256 →
       get ci b ≠ empty_child → get ci b = get ci b' → b = b'.

(** The structural invariant of a node, without the lower bound on its
    size. *)
Definition node_inv (n : inode) : Prop :=
  match body n with
  | Body4 ks cs =>
      length ks = 4%nat ∧ length cs = 4%nat ∧ 0 ≤ children_count n ≤ 4 ∧
      Forall is_byte ks ∧ sorted_keys (children_count n) ks ∧
      children_present (children_count n) cs
  | Body16 ks cs =>
      length ks = 16%nat ∧ length cs = 16%nat ∧ 0 ≤ children_count n ≤ 16 ∧
      Forall is_byte ks ∧ sorted_keys (children_count n) ks ∧
      children_present (children_count n) cs
  | Body48 ci cs =>
      length ci = 256%nat ∧ length cs = 48%nat ∧ 0 ≤ children_count n ≤ 48 ∧
      Forall is_byte ci ∧ slots_valid ci cs ∧ slots_distinct ci ∧
      mapped ci = children_count n ∧ population cs = children_count n
  | Body256 cs =>
      length cs = 256%nat ∧ 0 ≤ children_count n < 256 ∧
      population cs = num_children n
  end.

#[global] Instance node_inv_dec n : Decision (node_inv n).
Proof.
  unfold node_inv, sorted_keys, children_present, slots_valid, slots_distinct.
  destruct (body n); apply _.
Defined.

Definition min_size_of (n : inode) : Z :=
  match body n with
  | Body4 _ _ => basic_inode_4.min_size
  | Body16 _ _ => basic_inode_16.min_size
  | Body48 _ _ => basic_inode_48.min_size
  | Body256 _ => basic_inode_256.min_size
  end.

Definition capacity_of (n : inode) : Z :=
  match body n with
  | Body4 _ _ => basic_inode_4.capacity
  | Body16 _ _ => basic_inode_16.capacity
  | Body48 _ _ => basic_inode_48.capacity
  | Body256 _ => basic_inode_256.capacity
  end.

(** A well-formed node also holds at least its minimum number of children
    and at most its capacity. *)
Definition wf_node (n : inode) : Prop :=
  node_inv n ∧ min_size_of n ≤ num_children n ≤ capacity_of n.

#[global] Instance wf_node_dec n : Decision (wf_node n).
Proof. unfold wf_node. apply _. Defined.

(** The key byte [b] has a child in the node. *)
Definition key_present (n : inode) (b : Z) : Prop :=
  match body n with
  | Body4 ks _ | Body16 ks _ => ∃ i, 0 ≤ i < children_count n ∧ get ks i = b
  | Body48 ci _ => get ci b ≠ empty_child
  | Body256 cs => get cs b ≠ nullptr
  end.

#[global] Instance key_present_dec n b : Decision (key_present n b).
Proof. unfold key_present. destruct (body n); apply _. Defined.

(** [it] is the iterator of the child of the key byte [b] in the node at
    [this]: the child pointer, its index (the array index in the sorted
    nodes, the key byte in the others) and the node as the parent. *)
Definition designates (n : inode) (this : Z) (b : Z) (it : const_iterator) : Prop :=
  match body n with
  | Body4 ks cs | Body16 ks cs =>
      ∃ i, 0 ≤ i < children_count n ∧ get ks i = b ∧
           it = Iterator (get cs i) i (create this (static_type n))
  | Body48 ci cs => it = Iterator (get cs (get ci b)) b (create this (static_type n))
  | Body256 cs => it = Iterator (get cs b) b (create this (static_type n))
  end.


(** The presence invariant of [basic_inode_256]: as many non-null slots
    as [num_children()] reports. *)
Definition presence_matches_count (n : inode) : Prop :=
  population (children_of n) = num_children n.

(** [replace] of the variant with the tag [t]. *)
Definition replace_at (t : node_type) (h : heap) (this : Z) (pos : const_iterator)
    (child : node_ptr) : heap :=
  match t with
  | I4 => basic_inode_4.replace h this pos child
  | I16 => basic_inode_16.replace h this pos child
  | I48 => basic_inode_48.replace h this pos child
  | I256 => basic_inode_256.replace h this pos child
  | LEAF => h
  end.

(** The contract of [replace]: [pos] is the iterator of a child of the
    node at [this], at the index the iterator records. *)
Definition points_at (n : inode) (this : Z) (pos : const_iterator) : Prop :=
  parent pos = create this (static_type n) ∧
  match body n with
  | Body4 _ cs | Body16 _ cs =>
      0 ≤ index pos < children_count n ∧ node pos = get cs (index pos)
  | Body48 ci cs =>
      is_byte (index pos) ∧ get ci (index pos) ≠ empty_child ∧
      node pos = get cs (get ci (index pos))
  | Body256 cs =>
      is_byte (index pos) ∧ node pos = get cs (index pos) ∧ node pos ≠ nullptr
  end.

(** The entry of the child array that [replace] writes. *)
Definition replaced_slot (n : inode) (pos : const_iterator) : Z :=
  match body n with
  | Body48 ci _ => get ci (index pos)
  | _ => index pos
  end.

(** ** The effect of the loops that shift the arrays of a sorted node *)

(** [l'] is [l] with the entries of the positions [pos .. count - 1] moved
    one position right; the entry at [pos] is still there. *)
Definition shifted_right {A} `{Inhabited A} (pos count : Z) (l l' : list A) : Prop :=
  length l' = length l ∧
  ∀ j, 0 ≤ j → get l' j = if bool_decide (pos < j ≤ count) then get l (j - 1) else get l j.

(** [l'] is [l] with the entries of the positions [idx + 1 .. count - 1]
    moved one position left, over the entry at [idx]. *)
Definition shifted_left {A} `{Inhabited A} (idx count : Z) (l l' : list A) : Prop :=
  length l' = length l ∧
  ∀ j, 0 ≤ j → get l' j = if bool_decide (idx ≤ j < count - 1) then get l (j + 1) else get l j.

(** A non-leaf child [c] records the node [self] as its parent and [j] as
    its position there. *)
Definition links_to (h : heap) (self : node_ptr) (c : node_ptr) (j : Z) : Prop :=
  tag c ≠ LEAF →
  parent_ (h !!! get_raw c) = self ∧ pos_in_parent (h !!! get_raw c) = j.

(** The non-leaf children among the first [count] are different nodes. *)
Definition distinct_children (count : Z) (cs : list node_ptr) : Prop :=
  ∀ i, 0 ≤ i < count → ∀ j, 0 ≤ j < count → i ≠ j →
       tag (get cs i) ≠ LEAF → tag (get cs j) ≠ LEAF →
       get_raw (get cs i) ≠ get_raw (get cs j).

(** ** What a node shows to the container *)

(** The children of a node by key byte, in ascending order of the key
    bytes. *)
Definition observable (n : inode) : list (Z * node_ptr) :=
  match body n with
  | Body4 ks cs | Body16 ks cs =>
      zip (firstn_Z (children_count n) ks) (firstn_Z (children_count n) cs)
  | Body48 ci cs =>
      omap (λ b, if decide (get ci b ≠ empty_child)
                 then Some (b, get cs (get ci b)) else None) (seqZ 0 256)
  | Body256 cs =>
      omap (λ b, if decide (get cs b ≠ nullptr) then Some (b, get cs b) else None)
        (seqZ 0 256)
  end.

(** [add] and [remove] of the variant with the tag [t]. *)
Definition add_at (t : node_type) (h : heap) (this : Z) (child : Z) (key_byte : Z)
    : heap * const_iterator :=
  match t with
  | I4 => basic_inode_4.add h this child key_byte
  | I16 => basic_inode_16.add h this child key_byte
  | I48 => basic_inode_48.add h this child key_byte
  | I256 => basic_inode_256.add h this child key_byte
  | LEAF => (h, empty_iterator)
  end.

Definition remove_at (t : node_type) (h : heap) (this : Z) (child_index : Z) : heap :=
  match t with
  | I4 => basic_inode_4.remove h this child_index
  | I16 => basic_inode_16.remove h this child_index
  | I48 => basic_inode_48.remove h this child_index
  | I256 => basic_inode_256.remove h this child_index
  | LEAF => h
  end.

(** ** Trees *)

(** The child pointers of a node, in ascending order of their key bytes. *)
Definition children_list (n : inode) : list node_ptr := (observable n).*2.

(** [p] is the root of a tree of height at most [d] in the heap: a leaf,
    or a pointer to a well-formed node of its tag whose children are the
    roots of trees of height at most [d - 1]. *)
Fixpoint wf_tree (d : nat) (h : heap) (p : node_ptr) : Prop :=
  match d with
  | O => tag p = LEAF
  | S d' =>
      if decide (tag p = LEAF) then True
      else
        match h !! get_raw p with
        | Some n =>
            static_type n = tag p ∧ wf_node n ∧ Forall (wf_tree d' h) (children_list n)
        | None => False
        end
  end.

#[global] Instance wf_tree_dec d h p : Decision (wf_tree d h p).
Proof.
  revert p. induction d as [|d IH]; intros p; simpl; [apply _|].
  destruct (decide (tag p = LEAF)); [apply _|].
  destruct (h !! get_raw p); apply _.
Defined.

(** The index, counted from [k], of the first null pointer of a group of
    slots. *)
Fixpoint first_null (ps : list node_ptr) (k : Z) : option Z :=
  match ps with
  | [] => None
  | p :: ps' => if bool_decide (p = nullptr) then Some k else first_null ps' (k + 1)
  end.

(** ** The children of a node as a list of entries in key order *)

(** Entries are compared by their key bytes. *)
Definition key_lt (x y : Z * node_ptr) : Prop := x.1 < y.1.

Definition key_sorted (l : list (Z * node_ptr)) : Prop := StronglySorted key_lt l.

(** The entries [l] with the child [c] of the key byte [b] put in at its
    place in the order, and without the entry of the key byte [b]. *)
Definition insert_entry (b : Z) (c : node_ptr) (l : list (Z * node_ptr))
    : list (Z * node_ptr) :=
  filter (λ kv, kv.1 < b) l ++ (b, c) :: filter (λ kv, b < kv.1) l.

Definition remove_entry (b : Z) (l : list (Z * node_ptr)) : list (Z * node_ptr) :=
  filter (λ kv, kv.1 ≠ b) l.

(** The child of the key byte [b] among the entries, the null pointer when
    there is none. *)
Definition child_of (l : list (Z * node_ptr)) (b : Z) : node_ptr :=
  match list_find (λ kv, kv.1 = b) l with
  | Some (_, kv) => kv.2
  | None => nullptr
  end.

(** The node holds the child [v] for the key byte [k], read off its
    arrays. *)
Definition has_entry (n : inode) (k : Z) (v : node_ptr) : Prop :=
  match body n with
  | Body4 ks cs | Body16 ks cs =>
      ∃ i, 0 ≤ i < children_count n ∧ get ks i = k ∧ get cs i = v
  | Body48 ci cs => is_byte k ∧ get ci k ≠ empty_child ∧ v = get cs (get ci k)
  | Body256 cs => is_byte k ∧ get cs k ≠ nullptr ∧ v = get cs k
  end.

(** ** The writes of the loops that copy children into a node *)

(** A setter that writes the arrays of a node and nothing else. *)
Definition body_only (g : inode → inode) : Prop :=
  ∀ n, prefix (g n) = prefix n ∧ parent_ (g n) = parent_ n ∧
       pos_in_parent (g n) = pos_in_parent n ∧ children_count (g n) = children_count n ∧
       static_type (g n) = static_type n.

(** [writes T this h h' W]: the heap [h'] comes from [h] by writes to the
    arrays of the node at [this] and by the calls
    [reparent(c, j)] of that node, of the variant [T], for the pairs
    [(c, j)] of [W] in their order. *)
Inductive writes (T : node_type) (this : Z) (h : heap) : heap → list (node_ptr * Z) → Prop :=
| writes_nil : writes T this h h []
| writes_body h1 W g :
    writes T this h h1 W → body_only g → writes T this h (store h1 this g) W
| writes_link h1 W c j :
    writes T this h h1 W → writes T this h (reparent T h1 this c j) (W ++ [(c, j)]).

(** The nodes behind the non-leaf pointers of a list are different. *)
Definition distinct_nodes (cs : list node_ptr) : Prop :=
  NoDup (get_raw <$> filter (λ c, tag c ≠ LEAF) cs).

(** A pair with its halves exchanged. *)
Definition swap {A B} (p : A * B) : B * A := (p.2, p.1).

(** The children of a node with the positions that their iterators
    report: the array index in the sorted nodes, the key byte in the
    others. *)
Definition positions (n : inode) : list (Z * node_ptr) :=
  match body n with
  | Body4 _ cs | Body16 _ cs =>
      zip (seqZ 0 (children_count n)) (firstn_Z (children_count n) cs)
  | _ => observable n
  end.

(** The first child of a node at a position from [start] on, with that
    position. *)
Definition first_child_from (n : inode) (start : Z) : option (Z * node_ptr) :=
  head (filter (λ jc, start ≤ jc.1) (positions n)).

(** The leftmost descent, read off the arrays of the nodes: from [pos],
    whose node is an inner node, to the iterator of its first child at a
    position from [start] on, and from there by the first child of each
    inner node, down to [it], whose node is a leaf. *)
Inductive leftmost_path (h : heap) : const_iterator → Z → const_iterator → Prop :=
| leftmost_path_leaf pos start :
    tag (node pos) = LEAF → leftmost_path h pos start pos
| leftmost_path_hop pos start j c it :
    tag (node pos) ≠ LEAF →
    first_child_from (h !!! get_raw (node pos)) start = Some (j, c) →
    leftmost_path h (Iterator c j (node pos)) 0 it →
    leftmost_path h pos start it.

(** Every non-leaf child of the node at [this] records that node as its
    parent, and its position there. *)
Definition back_linked (h : heap) (this : Z) : Prop :=
  ∀ j c, (j, c) ∈ positions (h !!! this) →
         links_to h (create this (static_type (h !!! this))) c j.

(** The array [l1] holds, in its first [count - 1] places, the first
    [count] entries of [l] without the one at [idx]. *)
Definition without_entry {A} `{Inhabited A} (idx count : Z) (l l1 : list A) : Prop :=
  ∀ j, 0 ≤ j < count - 1 → get l1 j = if bool_decide (idx ≤ j) then get l (j + 1) else get l j.

(** The array [l'] is [l] with the [len] places from [dst] on overwritten
    by the entries of [from] from [src] on. *)
Definition copied {A} `{Inhabited A} (dst len : Z) (from : list A) (src : Z)
    (l l' : list A) : Prop :=
  length l' = length l ∧
  ∀ j, 0 ≤ j →
       get l' j = if bool_decide (dst ≤ j < dst + len) then get from (src + (j - dst))
                  else get l j.

(** The array [l1] holds, in its first [count + 1] places, the first
    [count] entries of [l] with [x] put in at [pos]. *)
Definition with_entry {A} `{Inhabited A} (pos count : Z) (x : A) (l l1 : list A) : Prop :=
  ∀ j, 0 ≤ j ≤ count →
       get l1 j = if bool_decide (j = pos) then x
                  else if bool_decide (pos < j) then get l (j - 1) else get l j.

(** The entries of an index table [ci] with the slots [cs] for the key
    bytes from [i] on, in ascending order. *)
Definition entries_from (ci : list Z) (cs : list node_ptr) (i : Z) : list (Z * node_ptr) :=
  omap (λ b, if decide (get ci b ≠ empty_child) then Some (b, get cs (get ci b)) else None)
    (seqZ i (256 - i)).

(** The child that an index table [ci] with the slots [cs] holds for the
    key byte [b], the null pointer when it holds none. *)
Definition indexed_child (ci : list Z) (cs : list node_ptr) (b : Z) : node_ptr :=
  if decide (get ci b ≠ empty_child) then get cs (get ci b) else nullptr.

(** The entries of a child array [cs] indexed by the key byte, for the
    key bytes from [i] on, in ascending order. *)
Definition direct_from (cs : list node_ptr) (i : Z) : list (Z * node_ptr) :=
  omap (λ b, if decide (get cs b ≠ nullptr) then Some (b, get cs b) else None)
    (seqZ i (256 - i)).

(** [delete_subtree] of the variant with the tag [t]. *)
Definition delete_subtree_at (t : node_type) (h : heap) (this : Z) : list node_ptr :=
  match t with
  | I4 => basic_inode_4.delete_subtree h this
  | I16 => basic_inode_16.delete_subtree h this
  | I48 => basic_inode_48.delete_subtree h this
  | I256 => basic_inode_256.delete_subtree h this
  | LEAF => []
  end.

#[global] Instance links_to_dec h self c j : Decision (links_to h self c j).
Proof. unfold links_to. apply _. Defined.

#[global] Instance back_linked_dec h this : Decision (back_linked h this).
Proof.
  destruct (decide (Forall (λ jc, links_to h (create this (static_type (h !!! this))) jc.2 jc.1)
                      (positions (h !!! this)))) as [HP|HP]; [left|right].
  - intros j c Hin. rewrite Forall_forall in HP. by apply (HP (j, c)).
  - intros HQ. apply HP, Forall_forall. intros [j c] Hin. by apply HQ.
Defined.

#[global] Instance distinct_nodes_dec cs : Decision (distinct_nodes cs).
Proof. unfold distinct_nodes. apply _. Defined.

(** ** Concrete nodes, used to run the operations *)

Module examples.

(** Leaves are allocated outside the node heap; any non-null address
    stands for one. *)
Definition leaf (a : Z) : node_ptr := create a LEAF.

(** A [basic_inode_256] at address 1 that holds every key byte but 255. *)
Definition node256_almost_full : inode :=
  Inode [] nullptr 0 255
    (Body256 (map (λ i, leaf (1000 + i)) (seqZ 0 255) ++ [nullptr])).

Definition heap256_almost_full : heap := {[ 1 := node256_almost_full ]}.

(** A [basic_inode_256] at address 1 whose only child is at key byte 7. *)
Definition node256_single : inode :=
  Inode [] nullptr 0 1 (Body256 (put 7 (leaf 1007) (replicate 256 nullptr))).

Definition heap256_single : heap := {[ 1 := node256_single ]}.

(** A [basic_inode_16] at address 16 with six leaves, at the key bytes
    0x01, 0x03, 0x07, 0x0F, 0x1F and 0x3F. *)
Definition node16_six : inode :=
  Inode [] nullptr 0 6
    (Body16 ([1; 3; 7; 15; 31; 63] ++ replicate 10 0)
       (map (λ i, leaf (1000 + i)) (seqZ 0 6) ++ replicate 10 nullptr)).

Definition heap16_six : heap := {[ 16 := node16_six ]}.

(** Scenario S1: an empty [basic_inode_4] at address 4, seeded with the
    leaves of the key bytes 0x20 and 0x10, then given 0x30 and 0x05. *)
Definition heap4_seeded : heap :=
  (basic_inode_4.add_two_to_empty (basic_inode_4.ctor ∅ 4 []) 4 0x20 (leaf 1032) 0x10 1016).1.

Definition heap4_three : heap := (basic_inode_4.add heap4_seeded 4 1048 0x30).1.

Definition heap4_full : heap := (basic_inode_4.add heap4_three 4 1005 0x05).1.

(** Scenario S2: the [basic_inode_16] at address 16 grown from it by the
    key byte 0x40. *)
Definition heap16_grown : heap :=
  (basic_inode_16.populate (basic_inode_16.ctor heap4_full 16 []) 16 4 1064 0x40).1.

(** Scenario S5: a [basic_inode_4] at address 4 with the prefix
    [0xAA; 0xBB], whose child of the key byte 0x10 is a [basic_inode_16]
    at address 16 with the prefix [0x01; 0x02], and whose child of the key
    byte 0x20 is a leaf. *)
Definition node4_pair : inode :=
  Inode [0xAA; 0xBB] nullptr 0 2
    (Body4 [0x10; 0x20; 0; 0] [create 16 I16; leaf 1032; nullptr; nullptr]).

Definition node16_inner : inode :=
  Inode [0x01; 0x02] (create 4 I4) 0 6 (body node16_six).

(** A second [basic_inode_16], at address 17, not yet linked to a parent. *)
Definition node16_spare : inode := Inode [0x03] nullptr 0 6 (body node16_six).

Definition heap_pair : heap :=
  {[ 4 := node4_pair; 16 := node16_inner; 17 := node16_spare ]}.

(** Scenario S4: a full [basic_inode_48] at address 48; the key byte
    [0x4E + s] has the slot [s], so 0x55 has slot 7. *)
Definition node48_full : inode :=
  Inode [] nullptr 0 48
    (Body48 (replicate 0x4E 0xFF ++ seqZ 0 48 ++ replicate 130 0xFF)
       (map (λ s, leaf (1000 + s)) (seqZ 0 48))).

Definition heap48_full : heap := {[ 48 := node48_full ]}.

(** The chain of transitions: the [basic_inode_16] of scenario S2 filled
    up, grown into a [basic_inode_48] at address 48, that one filled up
    and grown into a [basic_inode_256] at address 256. *)
Definition heap16_full : heap :=
  foldl (λ h k, (basic_inode_16.add h 16 (2000 + k) k).1) heap16_grown
    [0x50; 0x08; 0x18; 0x28; 0x38; 0x48; 0x01; 0x60; 0x70; 0x15; 0x25].

Definition heap48_grown : heap :=
  (basic_inode_48.populate (basic_inode_48.ctor heap16_full 48 [7]) 48 16 3000 0x80).1.

Definition heap48_filled : heap :=
  foldl (λ h k, (basic_inode_48.add h 48 (3000 + k) k).1) heap48_grown (seqZ 0x90 31).

Definition heap256_grown : heap :=
  (basic_inode_256.populate (basic_inode_256.ctor heap48_filled 256 [9]) 256 48 4000 0xF0).1.

(** Scenario S6: the [basic_inode_256] of 49 children shrunk into a
    [basic_inode_48] at address 49 on the removal of the key byte 0x10. *)
Definition heap48_shrunk : heap := basic_inode_48.shrink_ctor heap256_grown 49 256 0x10.

(** The [basic_inode_48] emptied down to its minimum size and shrunk into
    a [basic_inode_16] at address 17 on the removal of the key byte 0x80;
    the [basic_inode_16] of scenario S2 shrunk into a [basic_inode_4] at
    address 5 on the removal of its child of index 2. *)
Definition heap48_min : heap :=
  foldl (λ h k, basic_inode_48.remove h 48 k) heap48_filled (seqZ 0x90 31).

Definition heap16_shrunk : heap := basic_inode_16.shrink_ctor heap48_min 17 48 0x80.

Definition heap4_shrunk : heap := basic_inode_4.shrink_ctor heap16_grown 5 16 2.

End examples.
(** * Properties *)

(** ** Arrays *)

Section arrays.
Context {A : Type} `{Inhabited A}.
Implicit Types (l : list A) (i j : Z) (v : A).

Lemma length_put i v l : length (put i v l) = length l.
Proof. apply length_insert. Qed.

Lemma get_put_eq i v l :
  0 ≤ i → i < Z.of_nat (length l) → get (put i v l) i = v.
Proof.
  intros Hi Hl. unfold get, put.
  apply list_lookup_total_insert_eq. lia.
Qed.

Lemma get_put_ne i j v l :
  0 ≤ i → 0 ≤ j → i ≠ j → get (put i v l) j = get l j.
Proof.
  intros Hi Hj Hne. unfold get, put.
  apply list_lookup_total_insert_ne. lia.
Qed.

Lemma get_put i j v l :
  0 ≤ i → 0 ≤ j → i < Z.of_nat (length l) →
  get (put i v l) j = if bool_decide (i = j) then v else get l j.
Proof.
  intros Hi Hj Hl. case_bool_decide as Hij.
  - subst j. by apply get_put_eq.
  - by apply get_put_ne.
Qed.


Lemma get_elem_of l i :
  0 ≤ i → i < Z.of_nat (length l) → get l i ∈ l.
Proof.
  intros Hi Hl. unfold get. apply list_elem_of_lookup.
  exists (Z.to_nat i). apply list_lookup_lookup_total_lt. lia.
Qed.

Lemma elem_of_get l v :
  v ∈ l → ∃ i, 0 ≤ i ∧ i < Z.of_nat (length l) ∧ get l i = v.
Proof.
  intros [k Hk]%list_elem_of_lookup.
  exists (Z.of_nat k). pose proof (lookup_lt_Some _ _ _ Hk).
  repeat split; [lia..|]. unfold get. rewrite Nat2Z.id.
  by apply list_lookup_total_correct.
Qed.

(** Two arrays of one length with the same reads are equal. *)
Lemma list_eq_get l1 l2 :
  length l1 = length l2 →
  (∀ i, 0 ≤ i → i < Z.of_nat (length l1) → get l1 i = get l2 i) → l1 = l2.
Proof.
  intros Hlen Hget. apply list_eq_same_length with (length l1); [done..|].
  intros k x y Hk Hx Hy.
  specialize (Hget (Z.of_nat k) ltac:(lia) ltac:(lia)).
  unfold get in Hget. rewrite Nat2Z.id in Hget.
  rewrite (list_lookup_total_correct _ _ _ Hx) in Hget.
  by rewrite (list_lookup_total_correct _ _ _ Hy) in Hget.
Qed.
End arrays.

(** ** The heap *)

Section heap.
Implicit Types (h : heap) (a b this : Z) (g : inode → inode) (n : inode).

Lemma store_eq h a g : store h a g !!! a = g (h !!! a).
Proof. unfold store. apply lookup_total_insert_eq. Qed.

Lemma store_ne h a b g : a ≠ b → store h a g !!! b = h !!! b.
Proof. intros. unfold store. by apply lookup_total_insert_ne. Qed.

(** A field that [g] leaves alone reads the same after a write with [g],
    at every address. *)
Lemma store_preserved {B} (acc : inode → B) h a b g :
  (∀ n, acc (g n) = acc n) → acc (store h a g !!! b) = acc (h !!! b).
Proof.
  intros Hg. destruct (decide (a = b)) as [->|Hne].
  - by rewrite store_eq.
  - by rewrite store_ne.
Qed.
End heap.

(** ** The bit fields of the SSE paths *)

Section bit_fields.

Lemma ctz_pos_spec p :
  0 ≤ ctz_pos p ∧ Z.testbit (Z.pos p) (ctz_pos p) = true ∧
  ∀ j, 0 ≤ j < ctz_pos p → Z.testbit (Z.pos p) j = false.
Proof.
  induction p as [p _|p (Hnn & Hbit & Hlow)|]; simpl ctz_pos.
  - split; [lia|]. split; [done|]. intros; lia.
  - rewrite Pos2Z.inj_xO. split; [|split].
    + lia.
    + replace (1 + ctz_pos p) with (Z.succ (ctz_pos p)) by lia.
      by rewrite Z.testbit_even_succ.
    + intros j Hj. destruct (decide (j = 0)) as [->|Hj0].
      * apply Z.testbit_even_0.
      * replace j with (Z.succ (j - 1)) by lia.
        rewrite Z.testbit_even_succ by lia. apply Hlow. lia.
  - split; [lia|]. split; [done|]. intros; lia.
Qed.

(** The lowest set bit of a positive bit field. *)
Lemma builtin_ctz_spec x :
  0 < x →
  0 ≤ __builtin_ctz x ∧ Z.testbit x (__builtin_ctz x) = true ∧
  ∀ j, 0 ≤ j < __builtin_ctz x → Z.testbit x j = false.
Proof.
  intros Hx. destruct x as [|p|p]; [exfalso; lia| |exfalso; lia].
  apply ctz_pos_spec.
Qed.

Lemma movemask_nonneg v : 0 ≤ _mm_movemask_epi8 v.
Proof.
  unfold _mm_movemask_epi8.
  induction v as [|x v IH]; cbn [foldr]; [done|].
  destruct (Z.testbit x 7); cbn [Z.b2z]; lia.
Qed.

Lemma movemask_testbit v k :
  Z.testbit (_mm_movemask_epi8 v) (Z.of_nat k) =
  match v !! k with Some x => Z.testbit x 7 | None => false end.
Proof.
  unfold _mm_movemask_epi8.
  revert k. induction v as [|x v IH]; intros k; cbn [foldr].
  - by rewrite Z.testbit_0_l, lookup_nil.
  - rewrite (Z.add_comm (Z.b2z _)). destruct k as [|k]; cbn [lookup list_lookup].
    + apply Z.testbit_0_r.
    + rewrite Nat2Z.inj_succ, Z.testbit_succ_r by lia. apply IH.
Qed.

(** Bit [i] of the mask of a lane-wise test of a 16-byte vector against
    a replicated byte. *)
Lemma movemask_zip_testbit (f : Z → Z → Z) b v i :
  length v = 16%nat → 0 ≤ i < 16 →
  Z.testbit (_mm_movemask_epi8 (zip_with f (_mm_set1_epi8 b) v)) i =
  Z.testbit (f b (get v i)) 7.
Proof.
  intros Hlen Hi. rewrite <- (Z2Nat.id i) at 1 by lia.
  rewrite movemask_testbit. unfold _mm_set1_epi8, get.
  assert (is_Some (v !! Z.to_nat i)) as [x Hx] by (apply lookup_lt_is_Some; lia).
  rewrite (list_lookup_total_correct _ _ _ Hx).
  rewrite lookup_zip_with, lookup_replicate_2 by lia. simpl. by rewrite Hx.
Qed.


Lemma mask_testbit x c i :
  0 ≤ c → 0 ≤ i →
  Z.testbit (Z.land x (Z.shiftl 1 c - 1)) i = Z.testbit x i && bool_decide (i < c).
Proof.
  intros Hc Hi. rewrite Z.land_spec, Z.shiftl_1_l.
  replace (2 ^ c - 1) with (Z.ones c) by (rewrite Z.ones_equiv; lia).
  rewrite Z.testbit_ones by lia. f_equal.
  case_bool_decide; [rewrite andb_true_iff|rewrite andb_false_iff]; lia.
Qed.

(** A non-negative bit field whose bits are given by [P]: it is zero
    exactly when [P] holds nowhere, and otherwise its count of trailing
    zeros is the least index where [P] holds. *)
Lemma bit_field_first (bf : Z) (P : Z → bool) :
  0 ≤ bf → (∀ i, 0 ≤ i → Z.testbit bf i = P i) →
  (bf = 0 → ∀ i, 0 ≤ i → P i = false) ∧
  (bf ≠ 0 → 0 ≤ __builtin_ctz bf ∧ P (__builtin_ctz bf) = true ∧
            ∀ j, 0 ≤ j < __builtin_ctz bf → P j = false).
Proof.
  intros Hnn Hbits. split.
  - intros -> i Hi. rewrite <- Hbits by done. apply Z.testbit_0_l.
  - intros Hne. destruct (builtin_ctz_spec bf) as (H0 & H1 & H2); [lia|].
    repeat split; [done|by rewrite <- Hbits|].
    intros j Hj. rewrite <- Hbits by lia. by apply H2.
Qed.

(** The masked bit field of the lane-wise test [f] against the first
    [c] lanes. *)
Lemma masked_field_testbit (f : Z → Z → Z) b v c i :
  length v = 16%nat → 0 ≤ c ≤ 16 → 0 ≤ i →
  Z.testbit (Z.land (_mm_movemask_epi8 (zip_with f (_mm_set1_epi8 b) v))
               (Z.shiftl 1 c - 1)) i =
  bool_decide (i < c) && Z.testbit (f b (get v i)) 7.
Proof.
  intros Hlen Hc Hi. rewrite mask_testbit by lia.
  case_bool_decide as Hic; simpl.
  - rewrite andb_true_r. apply movemask_zip_testbit; [done|lia].
  - apply andb_false_r.
Qed.

Lemma masked_field_nonneg v c :
  0 ≤ Z.land (_mm_movemask_epi8 v) (Z.shiftl 1 c - 1).
Proof. apply Z.land_nonneg. left. apply movemask_nonneg. Qed.

(** The four lanes of the integer that overlays a 4-byte key array. *)
Lemma cvtsi32_keys_integer ks :
  length ks = 4%nat → Forall is_byte ks →
  _mm_cvtsi32_si128 (keys_integer ks) = ks ++ replicate 12 0.
Proof.
  intros Hlen Hb.
  destruct ks as [|k0 [|k1 [|k2 [|k3 [|]]]]]; try done.
  apply Forall_cons in Hb as [H0 Hb]. apply Forall_cons in Hb as [H1 Hb].
  apply Forall_cons in Hb as [H2 Hb]. apply Forall_cons in Hb as [H3 _].
  unfold is_byte in *.
  unfold _mm_cvtsi32_si128, keys_integer. cbn [take foldr].
  change 255 with (Z.ones 8). rewrite !Z.land_ones, !Z.shiftr_div_pow2 by lia.
  cbn [app]. repeat f_equal.
  all: change (2 ^ 8) with 256; change (2 ^ 16) with 65536;
    change (2 ^ 24) with 16777216; Z.div_mod_to_equations; lia.
Qed.

End bit_fields.

(** ** [find_child] *)

Section find_child.
Implicit Types (h : heap) (n : inode) (this b : Z).

Lemma u8_byte b : is_byte b → u8 b = b.
Proof. intros Hb. unfold u8, is_byte in *. by apply Z.mod_small. Qed.

Lemma cmpeq_lane_bit (x y : Z) :
  Z.testbit (if bool_decide (x = y) then 255 else 0) 7 = bool_decide (x = y).
Proof. by case_bool_decide. Qed.

(** The lookup of the sorted nodes: the masked equality bit field of the
    key vector [v], whose first [c] lanes are the keys [ks]. *)
Lemma sorted_find_child_spec (ks v : list Z) (cs : list node_ptr) c b self :
  length v = 16%nat → 0 ≤ c ≤ 16 →
  (∀ i, 0 ≤ i < c → get v i = get ks i) →
  (∀ i, 0 ≤ i < c → get cs i ≠ nullptr) →
  let bit_field :=
    Z.land (_mm_movemask_epi8 (_mm_cmpeq_epi8 (_mm_set1_epi8 b) v))
      (Z.shiftl 1 c - 1) in
  let it :=
    if bool_decide (bit_field ≠ 0)
    then Iterator (get cs (__builtin_ctz bit_field)) (__builtin_ctz bit_field) self
    else empty_iterator in
  (is_empty it = false ↔ ∃ i, 0 ≤ i < c ∧ get ks i = b) ∧
  (is_empty it = false →
   ∃ i, 0 ≤ i < c ∧ get ks i = b ∧ it = Iterator (get cs i) i self).
Proof.
  intros Hlen Hc Hv Hcs bit_field it.
  subst it. case_bool_decide as Hbf.
  all: destruct (bit_field_first bit_field
              (λ i, bool_decide (i < c) && bool_decide (b = get v i)))
    as [Hzero Hfirst].
  all: try apply masked_field_nonneg.
  all: try (intros i Hi; unfold bit_field, _mm_cmpeq_epi8;
            rewrite masked_field_testbit by done; by rewrite cmpeq_lane_bit).
  - destruct (Hfirst Hbf) as (Hnn & [Hlt Heq]%andb_true_iff & _).
    apply bool_decide_eq_true in Hlt, Heq.
    assert (get ks (__builtin_ctz bit_field) = b) as Hk by (rewrite <- Hv by lia; done).
    assert (is_empty (Iterator (get cs (__builtin_ctz bit_field))
                        (__builtin_ctz bit_field) self) = false) as Hne.
    { unfold is_empty. simpl. apply bool_decide_eq_false. apply Hcs. lia. }
    split; [split; [|done]|]; intros _; exists (__builtin_ctz bit_field);
      repeat split; done || lia.
  - assert (bit_field = 0) as Hbf0 by (destruct (decide (bit_field = 0)); done).
    split; [split|]; [done| |done].
    intros (i & Hi & Hk). specialize (Hzero Hbf0 i ltac:(lia)). simpl in Hzero.
    apply andb_false_iff in Hzero as [Hf|Hf]; apply bool_decide_eq_false in Hf.
    + lia.
    + rewrite Hv in Hf by lia. congruence.
Qed.
End find_child.

(** ** Reads after writes *)

Section fields.
Implicit Types (h : heap) (a b this : Z) (n : inode) (c : node_ptr).

Lemma store_body_keys4 h a f ks cs :
  body (h !!! a) = Body4 ks cs →
  body (store h a (with_keys f) !!! a) = Body4 (f ks) cs.
Proof. intros Hb. rewrite store_eq. unfold with_keys. by rewrite Hb. Qed.

Lemma store_body_keys16 h a f ks cs :
  body (h !!! a) = Body16 ks cs →
  body (store h a (with_keys f) !!! a) = Body16 (f ks) cs.
Proof. intros Hb. rewrite store_eq. unfold with_keys. by rewrite Hb. Qed.

Lemma store_body_indices h a f ci cs :
  body (h !!! a) = Body48 ci cs →
  body (store h a (with_indices f) !!! a) = Body48 (f ci) cs.
Proof. intros Hb. rewrite store_eq. unfold with_indices. by rewrite Hb. Qed.

Lemma store_body_children4 h a f ks cs :
  body (h !!! a) = Body4 ks cs →
  body (store h a (with_children f) !!! a) = Body4 ks (f cs).
Proof. intros Hb. rewrite store_eq. unfold with_children. simpl. by rewrite Hb. Qed.

Lemma store_body_children16 h a f ks cs :
  body (h !!! a) = Body16 ks cs →
  body (store h a (with_children f) !!! a) = Body16 ks (f cs).
Proof. intros Hb. rewrite store_eq. unfold with_children. simpl. by rewrite Hb. Qed.

Lemma store_body_children48 h a f ci cs :
  body (h !!! a) = Body48 ci cs →
  body (store h a (with_children f) !!! a) = Body48 ci (f cs).
Proof. intros Hb. rewrite store_eq. unfold with_children. simpl. by rewrite Hb. Qed.

Lemma store_body_children256 h a f cs :
  body (h !!! a) = Body256 cs →
  body (store h a (with_children f) !!! a) = Body256 (f cs).
Proof. intros Hb. rewrite store_eq. unfold with_children. simpl. by rewrite Hb. Qed.

(** What a setter leaves alone. *)
Lemma with_keys_count f n : children_count (with_keys f n) = children_count n.
Proof. unfold with_keys. by destruct (body n). Qed.
Lemma with_keys_prefix f n : prefix (with_keys f n) = prefix n.
Proof. unfold with_keys. by destruct (body n). Qed.
Lemma with_keys_parent f n : parent_ (with_keys f n) = parent_ n.
Proof. unfold with_keys. by destruct (body n). Qed.
Lemma with_keys_pos f n : pos_in_parent (with_keys f n) = pos_in_parent n.
Proof. unfold with_keys. by destruct (body n). Qed.
Lemma with_indices_count f n : children_count (with_indices f n) = children_count n.
Proof. unfold with_indices. by destruct (body n). Qed.
Lemma with_indices_prefix f n : prefix (with_indices f n) = prefix n.
Proof. unfold with_indices. by destruct (body n). Qed.

(** [reparent] writes the two link fields of the child and nothing
    else. *)
Lemma reparent_body T h this c i a :
  body (reparent T h this c i !!! a) = body (h !!! a).
Proof. unfold reparent. case_bool_decide; [|done]. by apply store_preserved. Qed.

Lemma reparent_count T h this c i a :
  children_count (reparent T h this c i !!! a) = children_count (h !!! a).
Proof. unfold reparent. case_bool_decide; [|done]. by apply store_preserved. Qed.

Lemma reparent_prefix T h this c i a :
  prefix (reparent T h this c i !!! a) = prefix (h !!! a).
Proof. unfold reparent. case_bool_decide; [|done]. by apply store_preserved. Qed.

Lemma reparent_other T h this c i a :
  a ≠ get_raw c → reparent T h this c i !!! a = h !!! a.
Proof. intros Hne. unfold reparent. case_bool_decide; [|done]. by apply store_ne. Qed.

Lemma reparent_leaf T h this c i : tag c = LEAF → reparent T h this c i = h.
Proof. intros Ht. unfold reparent. by rewrite bool_decide_eq_false_2 by naive_solver. Qed.

Lemma reparent_link T h this c i :
  tag c ≠ LEAF →
  parent_ (reparent T h this c i !!! get_raw c) = tagged_self T this ∧
  pos_in_parent (reparent T h this c i !!! get_raw c) = u8 i.
Proof.
  intros Ht. unfold reparent. rewrite bool_decide_eq_true_2 by done.
  by rewrite store_eq.
Qed.

Lemma store_count_keys h a b f :
  children_count (store h a (with_keys f) !!! b) = children_count (h !!! b).
Proof. apply store_preserved, with_keys_count. Qed.
Lemma store_count_indices h a b f :
  children_count (store h a (with_indices f) !!! b) = children_count (h !!! b).
Proof. apply store_preserved, with_indices_count. Qed.
Lemma store_count_children h a b f :
  children_count (store h a (with_children f) !!! b) = children_count (h !!! b).
Proof. by apply store_preserved. Qed.
Lemma store_prefix_keys h a b f :
  prefix (store h a (with_keys f) !!! b) = prefix (h !!! b).
Proof. apply store_preserved, with_keys_prefix. Qed.
Lemma store_prefix_indices h a b f :
  prefix (store h a (with_indices f) !!! b) = prefix (h !!! b).
Proof. apply store_preserved, with_indices_prefix. Qed.
Lemma store_prefix_children h a b f :
  prefix (store h a (with_children f) !!! b) = prefix (h !!! b).
Proof. by apply store_preserved. Qed.
Lemma store_prefix_count h a b (f : inode → Z) :
  prefix (store h a (λ n, set_count (f n) n) !!! b) = prefix (h !!! b).
Proof. by apply store_preserved. Qed.
Lemma store_body_count h a b (f : inode → Z) :
  body (store h a (λ n, set_count (f n) n) !!! b) = body (h !!! b).
Proof. by apply store_preserved. Qed.
Lemma store_count_count h a (f : inode → Z) :
  children_count (store h a (λ n, set_count (f n) n) !!! a) = f (h !!! a).
Proof. by rewrite store_eq. Qed.
End fields.

Section find_child_claim.
Implicit Types (h : heap) (n : inode) (this b : Z).

Lemma get_app_l {A} `{Inhabited A} (l1 l2 : list A) i :
  0 ≤ i → i < Z.of_nat (length l1) → get (l1 ++ l2) i = get l1 i.
Proof. intros. unfold get. apply lookup_total_app_l. lia. Qed.

(** C1. In a node that satisfies the invariants of its variant,
    [find_child(b)] returns a non-empty iterator exactly when [b] is one
    of the key bytes present; the iterator then holds the child of [b],
    its index, and the node itself as the tagged parent. *)
Theorem find_child_iff_key_present h this n b :
  h !! this = Some n → node_inv n → is_byte b →
  ∃ it, basic_inode_impl.find_child h (create this (static_type n)) b = Some it ∧
        (is_empty it = false ↔ key_present n b) ∧
        (key_present n b → designates n this b it).
Proof.
  intros Hn Hinv Hb. apply lookup_total_correct in Hn.
  unfold basic_inode_impl.find_child, node_inv, key_present, designates, static_type in *.
  destruct (body n) as [ks cs|ks cs|ci cs|cs] eqn:Hbody; cbn [tag get_raw].
  - destruct Hinv as (Hlk & Hlc & Hc & Hbytes & _ & Hcs).
    eexists; split; [done|]. unfold basic_inode_4.find_child. rewrite Hn.
    unfold keys_of, children_of. rewrite Hbody, cvtsi32_keys_integer by done.
    destruct (sorted_find_child_spec ks (ks ++ replicate 12 0) cs (children_count n) b
                (tagged_self I4 this)) as [Hiff Hdes]; try done.
    + rewrite length_app, length_replicate. lia.
    + lia.
    + intros i Hi. apply get_app_l; lia.
    + split; [done|]. intros Hp. apply Hdes, Hiff, Hp.
  - destruct Hinv as (Hlk & Hlc & Hc & Hbytes & _ & Hcs).
    eexists; split; [done|]. unfold basic_inode_16.find_child. rewrite Hn.
    unfold keys_of, children_of. rewrite Hbody.
    destruct (sorted_find_child_spec ks ks cs (children_count n) b
                (tagged_self I16 this)) as [Hiff Hdes]; try done.
    split; [done|]. intros Hp. apply Hdes, Hiff, Hp.
  - destruct Hinv as (Hlk & Hlc & Hc & Hbytes & Hslot & _).
    eexists; split; [done|]. unfold basic_inode_48.find_child. rewrite Hn.
    unfold indices_of, children_of. rewrite Hbody, u8_byte by done.
    case_bool_decide as Hpres.
    + split; [|done]. split; [done|]. intros _. unfold is_empty. simpl.
      apply bool_decide_eq_false. by apply Hslot.
    + split; [|done]. split; [done|]. intros Hp. by destruct Hpres.
  - eexists; split; [done|]. unfold basic_inode_256.find_child. rewrite Hn.
    unfold children_of. rewrite Hbody.
    case_bool_decide as Hpres.
    + split; [|done]. split; [done|]. intros _. unfold is_empty. simpl.
      by apply bool_decide_eq_false.
    + split; [|done]. split; [done|]. intros Hp. by destruct Hpres.
Qed.
End find_child_claim.

Section find_child_examples.
Import examples.

(** The lookup of a present and of an absent key byte in a
    [basic_inode_16]. *)
Example node16_find_child_run :
  basic_inode_16.find_child heap16_six 16 0x0F = Iterator (leaf 1003) 3 (create 16 I16) ∧
  basic_inode_16.find_child heap16_six 16 0x08 = empty_iterator.
Proof. split; reflexivity. Qed.

Lemma find_child_iff_key_present_witness :
  ∃ it, basic_inode_impl.find_child heap16_six (create 16 I16) 0x0F = Some it ∧
        (is_empty it = false ↔ key_present node16_six 0x0F) ∧
        (key_present node16_six 0x0F → designates node16_six 16 0x0F it).
Proof.
  apply (find_child_iff_key_present heap16_six 16 node16_six 0x0F).
  - reflexivity.
  - apply (bool_decide_unpack _). vm_compute. exact I.
  - apply (bool_decide_unpack _). vm_compute. exact I.
Defined.
End find_child_examples.

(** ** The insert position of [basic_inode_16] *)

Section insert_position.
Implicit Types (n : inode) (b : Z) (ks : list Z).

Lemma cmple_lanes b ks :
  _mm_cmple_epu8 (_mm_set1_epi8 b) ks =
  zip_with (λ x k, if bool_decide (Z.max k x = k) then 255 else 0) (_mm_set1_epi8 b) ks.
Proof.
  unfold _mm_cmple_epu8, _mm_cmpeq_epi8, _mm_max_epu8, _mm_set1_epi8.
  generalize 16%nat as m. intros m. revert m.
  induction ks as [|k ks IH]; intros [|m]; simpl; try done.
  by rewrite IH.
Qed.

Lemma cmple_lane_bit (x k : Z) :
  Z.testbit (if bool_decide (Z.max k x = k) then 255 else 0) 7 = bool_decide (x ≤ k).
Proof. repeat case_bool_decide; try done; lia. Qed.

(** The SSE2 path finds the first of the [children_count] keys that is
    not below [b]. *)
Lemma insert_position_first_ge n ks cs b :
  body n = Body16 ks cs → length ks = 16%nat → 0 ≤ children_count n ≤ 16 →
  let r := basic_inode_16.get_sorted_key_array_insert_position n b in
  0 ≤ r ≤ children_count n ∧
  (∀ j, 0 ≤ j < r → get ks j < b) ∧
  (r < children_count n → b ≤ get ks r).
Proof.
  intros Hbody Hlk Hc r. subst r.
  unfold basic_inode_16.get_sorted_key_array_insert_position, keys_of.
  rewrite Hbody, cmple_lanes.
  set (bit_field := Z.land _ _).
  destruct (bit_field_first bit_field
              (λ i, bool_decide (i < children_count n) && bool_decide (b ≤ get ks i)))
    as [Hzero Hfirst].
  { apply masked_field_nonneg. }
  { intros i Hi. unfold bit_field.
    rewrite masked_field_testbit by (done || lia). by rewrite cmple_lane_bit. }
  destruct (decide (bit_field ≠ 0)) as [Hbf|Hbf];
    [rewrite bool_decide_eq_true_2 by done|rewrite bool_decide_eq_false_2 by done].
  - destruct (Hfirst Hbf) as (Hnn & [Hlt Hle]%andb_true_iff & Hlow).
    apply bool_decide_eq_true in Hlt, Hle.
    set (r := __builtin_ctz bit_field) in *.
    assert (u8 r = r) as -> by (unfold u8; apply Z.mod_small; lia).
    split; [lia|]. split; [|done].
    intros j Hj. specialize (Hlow j Hj). simpl in Hlow.
    apply andb_false_iff in Hlow as [Hf|Hf]; apply bool_decide_eq_false in Hf; lia.
  - assert (bit_field = 0) as Hbf0 by (destruct (decide (bit_field = 0)); done).
    assert (u8 (children_count n) = children_count n) as ->
      by (unfold u8; apply Z.mod_small; lia).
    split; [lia|]. split; [|lia].
    intros j Hj. specialize (Hzero Hbf0 j ltac:(lia)). simpl in Hzero.
    apply andb_false_iff in Hzero as [Hf|Hf]; apply bool_decide_eq_false in Hf; lia.
Qed.

(** C4. On a [basic_inode_16] that is not full and does not hold the key
    byte [b], [get_sorted_key_array_insert_position(b)] returns either
    the count of children or the least index whose key is greater than
    [b]; every key before the result is less than [b]. *)
Theorem insert_position_spec n ks cs b :
  body n = Body16 ks cs → node_inv n → children_count n < basic_inode_16.capacity →
  is_byte b →
  (∀ i, 0 ≤ i < children_count n → get ks i ≠ b) →
  let r := basic_inode_16.get_sorted_key_array_insert_position n b in
  (r = children_count n ∨
   (0 ≤ r < children_count n ∧ b < get ks r ∧
    ∀ j, 0 ≤ j < children_count n → b < get ks j → r ≤ j)) ∧
  (∀ j, 0 ≤ j < r → get ks j < b).
Proof.
  intros Hbody Hinv Hnf Hb Hfresh r.
  unfold node_inv in Hinv. rewrite Hbody in Hinv.
  destruct Hinv as (Hlk & _ & Hc & _ & _ & _).
  destruct (insert_position_first_ge n ks cs b Hbody Hlk Hc) as (Hr & Hbefore & Hat).
  fold r in Hr, Hbefore, Hat. split; [|done].
  destruct (decide (r = children_count n)) as [Heq|Hne]; [by left|right].
  split; [lia|]. split.
  - specialize (Hat ltac:(lia)). specialize (Hfresh r ltac:(lia)). lia.
  - intros j Hj Hgt. destruct (decide (r ≤ j)) as [|Hlt]; [done|].
    specialize (Hbefore j ltac:(lia)). lia.
Qed.
End insert_position.

Section insert_position_examples.
Import examples.

Lemma insert_position_spec_witness :
  basic_inode_16.get_sorted_key_array_insert_position node16_six 0x08 = 3 ∧
  ∀ j, 0 ≤ j < 3 → get (keys_of node16_six) j < 0x08.
Proof.
  destruct (insert_position_spec node16_six (keys_of node16_six) (children_of node16_six)
              0x08) as [_ Hbefore].
  - reflexivity.
  - apply (bool_decide_unpack _). vm_compute. exact I.
  - unfold basic_inode_16.capacity. simpl. lia.
  - apply (bool_decide_unpack _). vm_compute. exact I.
  - apply (bool_decide_unpack _). vm_compute. exact I.
  - split; [reflexivity|exact Hbefore].
Defined.
End insert_position_examples.

(** ** Counting the children of [basic_inode_256] *)

Section node256_count.
Implicit Types (h : heap) (this b child : Z) (cs : list node_ptr).

Lemma population_app cs1 cs2 : population (cs1 ++ cs2) = population cs1 + population cs2.
Proof. unfold population. rewrite filter_app, length_app. lia. Qed.

Lemma population_cons c cs :
  population (c :: cs) = (if bool_decide (c ≠ nullptr) then 1 else 0) + population cs.
Proof.
  unfold population. rewrite filter_cons.
  case_bool_decide; case_decide; try done; rewrite ?length_cons; lia.
Qed.

Lemma population_bounds cs : 0 ≤ population cs ≤ Z.of_nat (length cs).
Proof. unfold population. pose proof (length_filter (λ c, c ≠ nullptr) cs). lia. Qed.

(** Writing one slot changes the count by what leaves and what enters. *)
Lemma population_put cs b (v : node_ptr) :
  0 ≤ b → b < Z.of_nat (length cs) →
  population (put b v cs) =
  population cs - (if bool_decide (get cs b ≠ nullptr) then 1 else 0)
                + (if bool_decide (v ≠ nullptr) then 1 else 0).
Proof.
  intros Hb Hlen. unfold put, get.
  assert (is_Some (cs !! Z.to_nat b)) as [x Hx] by (apply lookup_lt_is_Some; lia).
  rewrite (list_lookup_total_correct _ _ _ Hx).
  rewrite insert_take_drop by lia.
  rewrite <- (take_drop_middle cs (Z.to_nat b) x Hx) at 3.
  rewrite !population_app, !population_cons. lia.
Qed.

Lemma null_is_null : bool_decide (nullptr ≠ nullptr) = false.
Proof. done. Qed.

Lemma leaf_not_null child : child ≠ 0 → bool_decide (create child LEAF ≠ nullptr) = true.
Proof. intros Hc. apply bool_decide_eq_true_2. unfold nullptr. congruence. Qed.

(** The steps of [add] and [remove] on the count of a [basic_inode_256]
    whose number of non-null children equals [num_children()]: [add] of an
    absent key byte keeps the two equal - also when the one-byte counter
    wraps from 255 to the 0 that stands for 256 - and so does [remove] of a
    present key byte from a node of at least two children. *)
Lemma node256_presence_steps h this cs b child :
  body (h !!! this) = Body256 cs → length cs = 256%nat →
  is_byte (children_count (h !!! this)) → is_byte b →
  presence_matches_count (h !!! this) →
  (get cs b = nullptr → child ≠ 0 →
   presence_matches_count ((basic_inode_256.add h this child b).1 !!! this) ∧
   (children_count (h !!! this) = 255 →
    children_count ((basic_inode_256.add h this child b).1 !!! this) = 0 ∧
    num_children ((basic_inode_256.add h this child b).1 !!! this) = 256)) ∧
  (get cs b ≠ nullptr → 2 ≤ num_children (h !!! this) →
   presence_matches_count (basic_inode_256.remove h this b !!! this)).
Proof.
  intros Hbody Hlen Hcnt Hb Hinv. unfold is_byte in *.
  unfold presence_matches_count, children_of in Hinv. rewrite Hbody in Hinv.
  pose proof (population_bounds cs) as Hpop.
  split.
  - intros Hnull Hchild.
    unfold basic_inode_256.add, presence_matches_count; cbn [fst].
    unfold num_children, children_of in *.
    rewrite store_body_count, store_count_count.
    rewrite (store_body_children256 _ _ _ cs), store_count_children by done.
    pose proof (population_bounds (put b (create child LEAF) cs)) as Hp'.
    rewrite length_put in Hp'. revert Hp'.
    rewrite population_put, Hnull, null_is_null, leaf_not_null by (done || lia).
    intros Hp'.
    unfold u8. repeat case_bool_decide; Z.div_mod_to_equations; lia.
  - intros Hpres Hmin.
    unfold basic_inode_256.remove, presence_matches_count.
    unfold num_children, children_of in *.
    rewrite store_body_count, store_count_count.
    rewrite (store_body_children256 _ _ _ cs), store_count_children by done.
    rewrite population_put by lia.
    rewrite (bool_decide_eq_true_2 (get cs b ≠ nullptr)), null_is_null by done.
    unfold u8. repeat case_bool_decide; Z.div_mod_to_equations; lia.
Qed.

(** C7. In every well-formed [basic_inode_256] the number of key bytes
    [b] with [children[b] != nullptr] is what [num_children()] reports -
    [children_count] when it is not 0, and 256 when it is - and this is
    still so after [add] of a key byte whose slot is null, also when the
    counter wraps from 255 to the 0 that stands for 256, and after
    [remove] of a key byte whose slot is not null. *)
Theorem node256_presence_count h this n b child :
  h !!! this = n → static_type n = I256 → wf_node n → is_byte b →
  presence_matches_count n ∧
  (¬ key_present n b → child ≠ 0 →
   presence_matches_count ((basic_inode_256.add h this child b).1 !!! this) ∧
   (children_count n = 255 →
    children_count ((basic_inode_256.add h this child b).1 !!! this) = 0 ∧
    num_children ((basic_inode_256.add h this child b).1 !!! this) = 256)) ∧
  (key_present n b →
   presence_matches_count (basic_inode_256.remove h this b !!! this)).
Proof.
  intros Hn Htype [Hinv Hsize] Hb. subst n.
  unfold node_inv in Hinv. unfold min_size_of in Hsize. unfold key_present.
  unfold static_type in Htype.
  destruct (body (h !!! this)) as [| | |cs] eqn:Hbody; try done.
  destruct Hinv as (Hlen & Hcount & Hpop).
  unfold basic_inode_256.min_size in Hsize.
  assert (presence_matches_count (h !!! this)) as Hpresence.
  { unfold presence_matches_count, children_of. by rewrite Hbody. }
  assert (is_byte (children_count (h !!! this))) as Hcb by (unfold is_byte; lia).
  destruct (node256_presence_steps h this cs b child Hbody Hlen Hcb Hb Hpresence)
    as [Hadd Hremove].
  split; [done|]. split.
  - intros Habsent Hchild. apply Hadd; [|done].
    by destruct (decide (get cs b = nullptr)).
  - intros Hpresent. apply Hremove; [done|lia].
Qed.
End node256_count.

Section node256_count_examples.
Import examples.

Lemma node256_presence_count_witness :
  presence_matches_count ((basic_inode_256.add heap256_almost_full 1 2000 255).1 !!! 1) ∧
  children_count ((basic_inode_256.add heap256_almost_full 1 2000 255).1 !!! 1) = 0 ∧
  num_children ((basic_inode_256.add heap256_almost_full 1 2000 255).1 !!! 1) = 256.
Proof.
  destruct (node256_presence_count heap256_almost_full 1 node256_almost_full 255 2000)
    as (_ & Hadd & _).
  - reflexivity.
  - reflexivity.
  - apply (bool_decide_unpack _). by vm_compute.
  - unfold is_byte. lia.
  - destruct Hadd as [Hinv Hwrap].
    + apply (bool_decide_unpack _). by vm_compute.
    + lia.
    + split; [exact Hinv|]. apply Hwrap. reflexivity.
Defined.

(** Below the minimum size of 49, where no well-formed node is: removing
    the only child of a [basic_inode_256] leaves no child but a counter of
    0, which [num_children()] reads as 256. *)
Lemma node256_remove_last_child_miscounts :
  presence_matches_count (heap256_single !!! 1) ∧
  get (children_of (heap256_single !!! 1)) 7 ≠ nullptr ∧
  population (children_of (basic_inode_256.remove heap256_single 1 7 !!! 1)) = 0 ∧
  num_children (basic_inode_256.remove heap256_single 1 7 !!! 1) = 256 ∧
  ¬ presence_matches_count (basic_inode_256.remove heap256_single 1 7 !!! 1).
Proof.
  split; [by vm_compute|]. split; [by vm_compute|].
  split; [by vm_compute|]. split; [by vm_compute|].
  unfold presence_matches_count. by vm_compute.
Qed.
End node256_count_examples.

(** ** The counts the transitions start from *)

Section transition_counts.
Implicit Types (h : heap) (this source a : Z).

(** The copy loops of the constructors and of [populate] write keys,
    indices, children and parent links, never a count. *)
Lemma shrink4_loop_count fuel this source stop src index h a :
  children_count ((basic_inode_4.shrink_loop fuel this source stop src index h).1 !!! a) =
  children_count (h !!! a).
Proof.
  revert src index h. induction fuel as [|fuel IH]; intros src index h; simpl; [done|].
  case_bool_decide; [|done]. rewrite IH. unfold basic_inode_4.shrink_copy.
  by rewrite reparent_count, store_count_children, store_count_keys.
Qed.

Lemma shrink16_loop_count fuel this source i next_child h a :
  children_count (basic_inode_16.shrink_loop fuel this source i next_child h !!! a) =
  children_count (h !!! a).
Proof.
  revert i next_child h. induction fuel as [|fuel IH]; intros i next_child h; simpl; [done|].
  repeat case_bool_decide; rewrite ?IH;
    by rewrite ?reparent_count, ?store_count_children, ?store_count_keys.
Qed.

Lemma shrink48_loop_count fuel this source child_i next_child h a :
  children_count (basic_inode_48.shrink_loop fuel this source child_i next_child h !!! a) =
  children_count (h !!! a).
Proof.
  revert child_i next_child h.
  induction fuel as [|fuel IH]; intros child_i next_child h; simpl; [done|].
  repeat case_bool_decide; rewrite ?IH;
    by rewrite ?reparent_count, ?store_count_children, ?store_count_indices.
Qed.

Lemma populate16_head_count fuel this source pos i h a :
  children_count ((basic_inode_16.populate_head fuel this source pos i h).1 !!! a) =
  children_count (h !!! a).
Proof.
  revert i h. induction fuel as [|fuel IH]; intros i h; simpl; [done|].
  case_bool_decide; [|done]. rewrite IH.
  by rewrite reparent_count, store_count_children, store_count_keys.
Qed.

Lemma populate16_tail_count fuel this source i h a :
  children_count (basic_inode_16.populate_tail fuel this source i h !!! a) =
  children_count (h !!! a).
Proof.
  revert i h. induction fuel as [|fuel IH]; intros i h; simpl; [done|].
  case_bool_decide; [|done]. rewrite IH.
  by rewrite reparent_count, store_count_children, store_count_keys.
Qed.

Lemma populate48_loop_count fuel this source i h a :
  children_count (basic_inode_48.populate_loop fuel this source i h !!! a) =
  children_count (h !!! a).
Proof.
  revert i h. induction fuel as [|fuel IH]; intros i h; simpl; [done|].
  case_bool_decide; [|done]. rewrite IH.
  by rewrite reparent_count, store_count_children, store_count_indices.
Qed.

Lemma populate256_loop_count fuel this source i copied h a :
  children_count ((basic_inode_256.populate_loop fuel this source i copied h).1 !!! a) =
  children_count (h !!! a).
Proof.
  revert i copied h. induction fuel as [|fuel IH]; intros i copied h; simpl; [done|].
  repeat case_bool_decide; rewrite ?IH; simpl;
    by rewrite ?reparent_count, ?store_count_children.
Qed.

Lemma populate16_count h this source child b a :
  children_count ((basic_inode_16.populate h this source child b).1 !!! a) =
  children_count (h !!! a).
Proof.
  unfold basic_inode_16.populate.
  destruct (basic_inode_16.populate_head _ _ _ _ _ _) as [h1 i] eqn:Hhead. cbn [fst].
  rewrite populate16_tail_count, store_count_children, store_count_keys.
  change h1 with (h1, i).1. rewrite <- Hhead. apply populate16_head_count.
Qed.

Lemma populate48_count h this source child b a :
  children_count ((basic_inode_48.populate h this source child b).1 !!! a) =
  children_count (h !!! a).
Proof.
  unfold basic_inode_48.populate. cbn [fst].
  by rewrite !store_count_children, store_count_indices, populate48_loop_count,
    store_count_indices.
Qed.

Lemma populate256_count h this source child b a :
  children_count ((basic_inode_256.populate h this source child b).1 !!! a) =
  children_count (h !!! a).
Proof.
  unfold basic_inode_256.populate.
  destruct (basic_inode_256.populate_loop _ _ _ _ _ _) as [h1 i] eqn:Hloop. cbn [fst].
  rewrite !store_count_children.
  change h1 with (h1, i).1. rewrite <- Hloop. apply populate256_loop_count.
Qed.

(** C9. A shrinking constructor, whose source is at its minimum size,
    builds a node whose count is the capacity of the new variant, so that
    [is_full()] holds; [populate] on a node just constructed, from a full
    source, leaves the count at the minimum size of the new variant, so
    that [is_min_size()] holds. *)
Theorem transition_counts h this source child_to_delete child key key_byte :
  (basic_inode_16.is_min_size (h !!! source) = true →
   let n := basic_inode_4.shrink_ctor h this source child_to_delete !!! this in
   children_count n = basic_inode_4.capacity ∧ basic_inode_4.is_full n = true) ∧
  (basic_inode_48.is_min_size (h !!! source) = true →
   let n := basic_inode_16.shrink_ctor h this source child_to_delete !!! this in
   children_count n = basic_inode_16.capacity ∧ basic_inode_16.is_full n = true) ∧
  (basic_inode_256.is_min_size (h !!! source) = true →
   let n := basic_inode_48.shrink_ctor h this source child_to_delete !!! this in
   children_count n = basic_inode_48.capacity ∧ basic_inode_48.is_full n = true) ∧
  (basic_inode_4.is_full (h !!! source) = true →
   let n := (basic_inode_16.populate (basic_inode_16.ctor h this key) this source
               child key_byte).1 !!! this in
   children_count n = basic_inode_16.min_size ∧ basic_inode_16.is_min_size n = true) ∧
  (basic_inode_16.is_full (h !!! source) = true →
   let n := (basic_inode_48.populate (basic_inode_48.ctor h this key) this source
               child key_byte).1 !!! this in
   children_count n = basic_inode_48.min_size ∧ basic_inode_48.is_min_size n = true) ∧
  (basic_inode_48.is_full (h !!! source) = true →
   let n := (basic_inode_256.populate (basic_inode_256.ctor h this key) this source
               child key_byte).1 !!! this in
   children_count n = basic_inode_256.min_size ∧ basic_inode_256.is_min_size n = true).
Proof.
  repeat split.
  - unfold basic_inode_4.shrink_ctor.
    destruct (basic_inode_4.shrink_loop 16 _ _ _ 0 0 _) as [h1 index] eqn:Hloop.
    rewrite shrink4_loop_count. change h1 with (h1, index).1. rewrite <- Hloop.
    by rewrite shrink4_loop_count, lookup_total_insert_eq.
  - unfold basic_inode_4.is_full, basic_inode_4.shrink_ctor.
    destruct (basic_inode_4.shrink_loop 16 _ _ _ 0 0 _) as [h1 index] eqn:Hloop.
    rewrite shrink4_loop_count. change h1 with (h1, index).1. rewrite <- Hloop.
    by rewrite shrink4_loop_count, lookup_total_insert_eq.
  - unfold basic_inode_16.shrink_ctor.
    rewrite shrink16_loop_count, store_count_indices.
    by rewrite lookup_total_insert_eq.
  - unfold basic_inode_16.is_full, basic_inode_16.shrink_ctor.
    rewrite shrink16_loop_count, store_count_indices.
    by rewrite lookup_total_insert_eq.
  - unfold basic_inode_48.shrink_ctor.
    rewrite shrink48_loop_count, store_count_indices, store_count_children.
    by rewrite lookup_total_insert_eq.
  - unfold basic_inode_48.is_full, basic_inode_48.shrink_ctor.
    rewrite shrink48_loop_count, store_count_indices, store_count_children.
    by rewrite lookup_total_insert_eq.
  - rewrite populate16_count. unfold basic_inode_16.ctor.
    by rewrite lookup_total_insert_eq.
  - unfold basic_inode_16.is_min_size. rewrite populate16_count.
    unfold basic_inode_16.ctor. by rewrite lookup_total_insert_eq.
  - rewrite populate48_count. unfold basic_inode_48.ctor.
    by rewrite lookup_total_insert_eq.
  - unfold basic_inode_48.is_min_size. rewrite populate48_count.
    unfold basic_inode_48.ctor. by rewrite lookup_total_insert_eq.
  - rewrite populate256_count. unfold basic_inode_256.ctor.
    by rewrite lookup_total_insert_eq.
  - unfold basic_inode_256.is_min_size. rewrite populate256_count.
    unfold basic_inode_256.ctor. by rewrite lookup_total_insert_eq.
Qed.
End transition_counts.

Section transition_counts_examples.
Import examples.

(** Scenario S2: growing the full [basic_inode_4] of scenario S1. *)
Example node4_grow_run :
  firstn_Z 5 (keys_of (heap16_grown !!! 16)) = [0x05; 0x10; 0x20; 0x30; 0x40] ∧
  firstn_Z 5 (children_of (heap16_grown !!! 16)) =
    [leaf 1005; leaf 1016; leaf 1032; leaf 1048; leaf 1064] ∧
  children_count (heap16_grown !!! 16) = 5.
Proof. by vm_compute. Qed.

Lemma transition_counts_witness :
  children_count (heap16_grown !!! 16) = basic_inode_16.min_size ∧
  basic_inode_16.is_min_size (heap16_grown !!! 16) = true.
Proof.
  destruct (transition_counts heap4_full 16 4 0 1064 [] 0x40)
    as (_ & _ & _ & Hgrow & _).
  apply Hgrow. by vm_compute.
Defined.
End transition_counts_examples.

(** ** [replace] *)

Section replace.
Implicit Types (h : heap) (this a : Z) (n : inode) (pos : const_iterator) (child : node_ptr).

Lemma store_children_of h a f :
  children_of (store h a (with_children f) !!! a) = f (children_of (h !!! a)).
Proof. rewrite store_eq. unfold with_children, children_of. simpl. by destruct (body _). Qed.

Lemma store_children_keys h a b f :
  keys_of (store h a (with_children f) !!! b) = keys_of (h !!! b).
Proof.
  apply store_preserved. intros n. unfold keys_of, with_children. simpl.
  by destruct (body n).
Qed.

Lemma store_children_indices h a b f :
  indices_of (store h a (with_children f) !!! b) = indices_of (h !!! b).
Proof.
  apply store_preserved. intros n. unfold indices_of, with_children. simpl.
  by destruct (body n).
Qed.

Lemma store_children_type h a b f :
  static_type (store h a (with_children f) !!! b) = static_type (h !!! b).
Proof.
  apply store_preserved. intros n. unfold static_type, with_children. simpl.
  by destruct (body n).
Qed.

Lemma reparent_children T h this c i a :
  children_of (reparent T h this c i !!! a) = children_of (h !!! a).
Proof. unfold children_of. by rewrite reparent_body. Qed.

Lemma reparent_keys T h this c i a :
  keys_of (reparent T h this c i !!! a) = keys_of (h !!! a).
Proof. unfold keys_of. by rewrite reparent_body. Qed.

Lemma reparent_indices T h this c i a :
  indices_of (reparent T h this c i !!! a) = indices_of (h !!! a).
Proof. unfold indices_of. by rewrite reparent_body. Qed.

Lemma reparent_type T h this c i a :
  static_type (reparent T h this c i !!! a) = static_type (h !!! a).
Proof. unfold static_type. by rewrite reparent_body. Qed.

(** A node that is not the child keeps its own links when the child is
    reparented. *)
Lemma reparent_unlinked T h this c i a :
  (tag c ≠ LEAF → get_raw c ≠ a) → reparent T h this c i !!! a = h !!! a.
Proof.
  intros Hc. destruct (decide (tag c = LEAF)) as [Hl|Hl].
  - by rewrite reparent_leaf.
  - apply reparent_other. intros ->. by apply Hc.
Qed.

(** What [replace] does, whatever the slot [s] it writes and the position
    [i] it records in the child. *)
Lemma replace_steps T h this s i child :
  0 ≤ s → s < Z.of_nat (length (children_of (h !!! this))) →
  (tag child ≠ LEAF → get_raw child ≠ this) →
  let h1 := store h this (with_children (put s child)) in
  let h' := reparent T h1 this (get (children_of (h1 !!! this)) s) i in
  get (children_of (h1 !!! this)) s = child ∧
  children_of (h' !!! this) = put s child (children_of (h !!! this)) ∧
  keys_of (h' !!! this) = keys_of (h !!! this) ∧
  indices_of (h' !!! this) = indices_of (h !!! this) ∧
  static_type (h' !!! this) = static_type (h !!! this) ∧
  children_count (h' !!! this) = children_count (h !!! this) ∧
  prefix (h' !!! this) = prefix (h !!! this) ∧
  parent_ (h' !!! this) = parent_ (h !!! this) ∧
  pos_in_parent (h' !!! this) = pos_in_parent (h !!! this) ∧
  (tag child ≠ LEAF →
   parent_ (h' !!! get_raw child) = tagged_self T this ∧
   pos_in_parent (h' !!! get_raw child) = u8 i) ∧
  (∀ a, a ≠ this → (tag child ≠ LEAF → a ≠ get_raw child) → h' !!! a = h !!! a).
Proof.
  intros Hs Hlen Halias h1 h'.
  assert (get (children_of (h1 !!! this)) s = child) as Hread.
  { unfold h1. rewrite store_children_of. by apply get_put_eq. }
  subst h'. rewrite Hread. split; [done|].
  rewrite reparent_children, reparent_keys, reparent_indices, reparent_type,
    reparent_count, reparent_prefix.
  unfold h1.
  rewrite store_children_of, store_children_keys, store_children_indices,
    store_children_type, store_count_children, store_prefix_children.
  repeat split.
  - rewrite reparent_unlinked by done. by rewrite store_eq.
  - rewrite reparent_unlinked by done. by rewrite store_eq.
  - by apply reparent_link.
  - by apply reparent_link.
  - intros a Ha Hchild. rewrite reparent_unlinked by naive_solver.
    by apply store_ne.
Qed.

(** C10. [replace(pos, child)], where [pos] is the iterator of a child of
    this node and [child] is not the node itself, writes [child] into one
    entry of the child array - the one at the index of [pos], or in a
    [basic_inode_48] the slot of that key byte - and records this node
    and that index in a non-leaf [child]; the keys or the index table, the
    count, the prefix and the links of the node, every other entry of
    its child array, and every other node are as before. *)
Theorem replace_frame h this n pos child :
  h !!! this = n → node_inv n → points_at n this pos →
  (tag child ≠ LEAF → get_raw child ≠ this) →
  let h' := replace_at (static_type n) h this pos child in
  children_of (h' !!! this) = put (replaced_slot n pos) child (children_of n) ∧
  keys_of (h' !!! this) = keys_of n ∧
  indices_of (h' !!! this) = indices_of n ∧
  static_type (h' !!! this) = static_type n ∧
  children_count (h' !!! this) = children_count n ∧
  prefix (h' !!! this) = prefix n ∧
  parent_ (h' !!! this) = parent_ n ∧
  pos_in_parent (h' !!! this) = pos_in_parent n ∧
  (tag child ≠ LEAF →
   parent_ (h' !!! get_raw child) = create this (static_type n) ∧
   pos_in_parent (h' !!! get_raw child) = index pos) ∧
  (∀ a, a ≠ this → (tag child ≠ LEAF → a ≠ get_raw child) → h' !!! a = h !!! a).
Proof.
  intros Hn Hinv [Hparent Hpos] Halias. subst n.
  unfold node_inv in Hinv. unfold replaced_slot, static_type in *.
  destruct (body (h !!! this)) as [ks cs|ks cs|ci cs|cs] eqn:Hbody; cbn [replace_at].
  - destruct Hinv as (_ & Hlc & Hc & _). destruct Hpos as [Hi _].
    assert (u8 (index pos) = index pos) as Hu8 by (apply u8_byte; unfold is_byte; lia).
    unfold basic_inode_4.replace. rewrite Hu8.
    destruct (replace_steps I4 h this (index pos) (index pos) child) as (Hread & Hrest);
      [lia|unfold children_of; rewrite Hbody; lia|done|].
    rewrite Hread, Hu8 in Hrest. unfold static_type in Hrest. by rewrite Hbody in Hrest.
  - destruct Hinv as (_ & Hlc & Hc & _). destruct Hpos as [Hi _].
    assert (u8 (index pos) = index pos) as Hu8 by (apply u8_byte; unfold is_byte; lia).
    unfold basic_inode_16.replace. rewrite Hu8.
    destruct (replace_steps I16 h this (index pos) (index pos) child) as (Hread & Hrest);
      [lia|unfold children_of; rewrite Hbody; lia|done|].
    rewrite Hu8 in Hrest. unfold static_type in Hrest. by rewrite Hbody in Hrest.
  - destruct Hinv as (Hlk & Hlc & _ & Hbytes & Hslots & _).
    destruct Hpos as (Hi & Hmapped & _). unfold is_byte in Hi.
    destruct (Hslots (index pos) Hi Hmapped) as [Hlt _].
    assert (0 ≤ get ci (index pos)) as Hnn.
    { rewrite Forall_forall in Hbytes. apply Hbytes, get_elem_of; lia. }
    assert (u8 (index pos) = index pos) as Hu8 by (apply u8_byte; unfold is_byte; lia).
    unfold basic_inode_48.replace, indices_of. rewrite Hbody.
    destruct (replace_steps I48 h this (get ci (index pos)) (index pos) child)
      as (Hread & Hrest); [lia|unfold children_of; rewrite Hbody; lia|done|].
    rewrite Hu8 in Hrest. unfold static_type, indices_of in Hrest.
    by rewrite Hbody in Hrest.
  - destruct Hinv as (Hlc & _). destruct Hpos as (Hi & _). unfold is_byte in Hi.
    assert (u8 (index pos) = index pos) as Hu8 by (apply u8_byte; unfold is_byte; lia).
    unfold basic_inode_256.replace. rewrite Hu8.
    destruct (replace_steps I256 h this (index pos) (index pos) child) as (Hread & Hrest);
      [lia|unfold children_of; rewrite Hbody; lia|done|].
    rewrite Hread, Hu8 in Hrest. unfold static_type in Hrest. by rewrite Hbody in Hrest.
Qed.
End replace.

Section replace_examples.
Import examples.

Lemma replace_frame_witness :
  let h' := replace_at (static_type node4_pair) heap_pair 4
              (Iterator (create 16 I16) 0 (create 4 I4)) (create 17 I16) in
  children_of (h' !!! 4) =
    put (replaced_slot node4_pair (Iterator (create 16 I16) 0 (create 4 I4)))
      (create 17 I16) (children_of node4_pair) ∧
  keys_of (h' !!! 4) = keys_of node4_pair ∧
  parent_ (h' !!! 17) = create 4 (static_type node4_pair) ∧
  pos_in_parent (h' !!! 17) = 0.
Proof.
  destruct (replace_frame heap_pair 4 node4_pair
              (Iterator (create 16 I16) 0 (create 4 I4)) (create 17 I16))
    as (Hchildren & Hkeys & _ & _ & _ & _ & _ & _ & Hlink & _).
  - by vm_compute.
  - apply (bool_decide_unpack _). by vm_compute.
  - by vm_compute.
  - intros _. by vm_compute.
  - destruct Hlink as [Hparent Hindex]; [done|].
    split; [exact Hchildren|]. split; [exact Hkeys|]. split; [exact Hparent|exact Hindex].
Defined.
End replace_examples.

(** ** The collapse of a [basic_inode_4] *)

Section leave_last_child.
Implicit Types (h : heap) (this a : Z) (n : inode).

(** C5. In a [basic_inode_4] of two children, [leave_last_child] returns
    the child that stays, [children[1 - child_to_delete]].  When it is not
    a leaf, its prefix becomes the prefix of the collapsing node, then
    the key byte of the child, then its former prefix, and its parent is
    the null pointer; no other node changes.  When it is a leaf, nothing
    changes. *)
Theorem leave_last_child_spec h this ks cs child_to_delete :
  body (h !!! this) = Body4 ks cs →
  basic_inode_4.is_min_size (h !!! this) = true →
  0 ≤ child_to_delete ≤ 1 →
  let survivor := get cs (1 - child_to_delete) in
  (tag survivor ≠ LEAF → get_raw survivor ≠ this) →
  let h' := (basic_inode_4.leave_last_child h this child_to_delete).1 in
  (basic_inode_4.leave_last_child h this child_to_delete).2 = survivor ∧
  (tag survivor ≠ LEAF →
   prefix (h' !!! get_raw survivor) =
     prefix (h !!! this) ++ [get ks (1 - child_to_delete)] ++
     prefix (h !!! get_raw survivor) ∧
   parent_ (h' !!! get_raw survivor) = nullptr ∧
   body (h' !!! get_raw survivor) = body (h !!! get_raw survivor) ∧
   children_count (h' !!! get_raw survivor) = children_count (h !!! get_raw survivor) ∧
   ∀ a, a ≠ get_raw survivor → h' !!! a = h !!! a) ∧
  (tag survivor = LEAF → h' = h).
Proof.
  intros Hbody _ Hd survivor Halias h'. subst h'.
  unfold basic_inode_4.leave_last_child.
  assert (u8 (1 - child_to_delete) = 1 - child_to_delete) as ->
    by (apply u8_byte; unfold is_byte; lia).
  unfold children_of, keys_of. rewrite Hbody. fold survivor.
  destruct (decide (tag survivor = LEAF)) as [Hleaf|Hinner].
  - rewrite bool_decide_eq_false_2 by (intros Hne; by apply Hne).
    cbn [fst snd]. by repeat split.
  - rewrite bool_decide_eq_true_2 by done. cbn [fst snd].
    specialize (Halias Hinner).
    split; [done|]. split; [|done]. intros _.
    rewrite !store_eq. rewrite !(store_ne _ (get_raw survivor) this) by done.
    repeat split.
    intros a Ha. by rewrite !store_ne.
Qed.
End leave_last_child.

Section leave_last_child_examples.
Import examples.

(** Scenario S5. *)
Lemma leave_last_child_spec_witness :
  let r := basic_inode_4.leave_last_child heap_pair 4 1 in
  r.2 = create 16 I16 ∧
  prefix (r.1 !!! 16) = [0xAA; 0xBB] ++ [0x10] ++ [0x01; 0x02] ∧
  parent_ (r.1 !!! 16) = nullptr.
Proof.
  destruct (leave_last_child_spec heap_pair 4 [0x10; 0x20; 0; 0]
              [create 16 I16; leaf 1032; nullptr; nullptr] 1)
    as (Hret & Hinner & _).
  - reflexivity.
  - reflexivity.
  - lia.
  - intros _. simpl. lia.
  - destruct Hinner as (Hprefix & Hparent & _); [done|].
    split; [exact Hret|]. split; [exact Hprefix|exact Hparent].
Defined.
End leave_last_child_examples.

(** ** Shifting the entries of a sorted node *)

Section shifts.
Context {A : Type} `{Inhabited A}.
Implicit Types (l : list A) (i j pos count : Z).

Lemma shifted_right_refl pos l : shifted_right pos pos l l.
Proof. split; [done|]. intros j Hj. rewrite bool_decide_eq_false_2; [done|lia]. Qed.

(** One more round of the loop that shifts right, from the top down. *)
Lemma shifted_right_step pos i l l' :
  0 ≤ pos → pos < i → i < Z.of_nat (length l) →
  shifted_right pos (i - 1) (put i (get l (i - 1)) l) l' →
  shifted_right pos i l l'.
Proof.
  intros Hpos Hi Hlen [Hlen' Hget]. rewrite length_put in Hlen'. split; [done|].
  intros j Hj. rewrite Hget by done.
  destruct (decide (j = i)) as [->|Hne].
  - rewrite bool_decide_eq_false_2, bool_decide_eq_true_2 by lia.
    by rewrite get_put_eq by lia.
  - repeat case_bool_decide; try lia; rewrite get_put_ne by lia; done.
Qed.

Lemma shifted_left_refl idx count l : count - 1 ≤ idx → shifted_left idx count l l.
Proof. intros. split; [done|]. intros j Hj. rewrite bool_decide_eq_false_2; [done|lia]. Qed.

(** One more round of the loop that shifts left, from the bottom up. *)
Lemma shifted_left_step i count l l' :
  0 ≤ i → i < count - 1 → count - 1 < Z.of_nat (length l) →
  shifted_left (i + 1) count (put i (get l (i + 1)) l) l' →
  shifted_left i count l l'.
Proof.
  intros Hi Hc Hlen [Hlen' Hget]. rewrite length_put in Hlen'. split; [done|].
  intros j Hj. rewrite Hget by done.
  destruct (decide (j = i)) as [->|Hne].
  - rewrite bool_decide_eq_false_2, bool_decide_eq_true_2 by lia.
    by rewrite get_put_eq by lia.
  - repeat case_bool_decide; try lia; rewrite get_put_ne by lia; done.
Qed.

(** Shifting right from [pos], writing [pos], and shifting left over [pos]
    gives back the first [count] entries. *)
Lemma shift_round_trip pos count v l l1 l2 :
  0 ≤ pos ≤ count → count < Z.of_nat (length l) →
  shifted_right pos count l l1 →
  shifted_left pos (count + 1) (put pos v l1) l2 →
  firstn_Z count l2 = firstn_Z count l.
Proof.
  intros Hpos Hlen [Hlen1 Hget1] [Hlen2 Hget2]. rewrite length_put in Hlen2.
  unfold firstn_Z. apply list_eq_get.
  { rewrite !length_take. lia. }
  intros j Hj Hjlen. rewrite length_take in Hjlen.
  unfold get. rewrite !lookup_total_take_lt by lia.
  fold (get l2 j). fold (get l j). rewrite Hget2 by done.
  case_bool_decide as Hcase.
  - rewrite get_put_ne, Hget1 by lia.
    rewrite bool_decide_eq_true_2 by lia. f_equal. lia.
  - rewrite get_put_ne, Hget1 by lia.
    by rewrite bool_decide_eq_false_2 by lia.
Qed.
End shifts.

(** ** [add] of [basic_inode_4] *)

Section node4_add.
Implicit Types (h : heap) (this a b : Z) (ks : list Z) (cs : list node_ptr).

Lemma store_parent_keys h a b f :
  parent_ (store h a (with_keys f) !!! b) = parent_ (h !!! b).
Proof. apply store_preserved, with_keys_parent. Qed.
Lemma store_pos_keys h a b f :
  pos_in_parent (store h a (with_keys f) !!! b) = pos_in_parent (h !!! b).
Proof. apply store_preserved, with_keys_pos. Qed.
Lemma store_parent_children h a b f :
  parent_ (store h a (with_children f) !!! b) = parent_ (h !!! b).
Proof. by apply store_preserved. Qed.
Lemma store_pos_children h a b f :
  pos_in_parent (store h a (with_children f) !!! b) = pos_in_parent (h !!! b).
Proof. by apply store_preserved. Qed.

(** Writes to the arrays of one node leave the bodies of the others. *)
Lemma store_body_other h a b g : a ≠ b → body (store h a g !!! b) = body (h !!! b).
Proof. intros. by rewrite store_ne. Qed.


(** The loop of [add]: the arrays of the node are shifted, every moved
    non-leaf child records its new index, and the links of all other
    nodes are as before. *)
Lemma add4_shift_spec fuel this pos i h ks cs :
  body (h !!! this) = Body4 ks cs →
  0 ≤ pos ≤ i → i < Z.of_nat (length ks) → i < Z.of_nat (length cs) → i < 256 →
  i - pos ≤ Z.of_nat fuel →
  let h' := basic_inode_4.add_shift fuel this pos i h in
  (∃ ks' cs', body (h' !!! this) = Body4 ks' cs' ∧
              shifted_right pos i ks ks' ∧ shifted_right pos i cs cs') ∧
  (∀ a, children_count (h' !!! a) = children_count (h !!! a) ∧
        prefix (h' !!! a) = prefix (h !!! a)) ∧
  (∀ a, a ≠ this → body (h' !!! a) = body (h !!! a)) ∧
  (∀ a, (∀ j, pos < j ≤ i → tag (get cs (j - 1)) ≠ LEAF → get_raw (get cs (j - 1)) ≠ a) →
        parent_ (h' !!! a) = parent_ (h !!! a) ∧
        pos_in_parent (h' !!! a) = pos_in_parent (h !!! a)) ∧
  (distinct_children i cs →
   ∀ j, pos < j ≤ i → links_to h' (tagged_self I4 this) (get cs (j - 1)) j).
Proof.
  revert i h ks cs.
  induction fuel as [|fuel IH]; intros i h ks cs Hbody Hpos Hlk Hlc Hi8 Hfuel h';
    subst h'; cbn [basic_inode_4.add_shift].
  { assert (i = pos) as -> by lia.
    split; [exists ks, cs; split; [done|]; split; apply shifted_right_refl|].
    do 3 (split; [done|]). intros _ j Hj; lia. }
  case_bool_decide as Hlt.
  2:{ assert (i = pos) as -> by lia.
      split; [exists ks, cs; split; [done|]; split; apply shifted_right_refl|].
      do 3 (split; [done|]). intros _ j Hj; lia. }
  set (h1 := store h this (with_keys (λ ks0, put i (get ks0 (i - 1)) ks0))).
  set (h2 := store h1 this (with_children (λ cs0, put i (get cs0 (i - 1)) cs0))).
  assert (body (h2 !!! this) =
          Body4 (put i (get ks (i - 1)) ks) (put i (get cs (i - 1)) cs)) as Hbody2.
  { unfold h2. erewrite store_body_children4; [done|].
    unfold h1. by erewrite store_body_keys4. }
  assert (get (children_of (h2 !!! this)) (i - 1) = get cs (i - 1)) as Hread.
  { unfold children_of. rewrite Hbody2. apply get_put_ne; lia. }
  rewrite Hread.
  set (h3 := reparent I4 h2 this (get cs (i - 1)) i).
  assert (body (h3 !!! this) =
          Body4 (put i (get ks (i - 1)) ks) (put i (get cs (i - 1)) cs)) as Hbody3.
  { unfold h3. by rewrite reparent_body. }
  destruct (IH (i - 1) h3 _ _ Hbody3) as (Hbody' & Hcount & Hother & Hframe & Hlinks);
    [lia|rewrite length_put; lia|rewrite length_put; lia|lia|lia|].
  assert (∀ a, parent_ (h3 !!! a) = parent_ (h2 !!! a) →
               parent_ (h3 !!! a) = parent_ (h !!! a)) as Hp3.
  { intros a ->. unfold h2, h1. by rewrite store_parent_children, store_parent_keys. }
  assert (∀ a, pos_in_parent (h3 !!! a) = pos_in_parent (h2 !!! a) →
               pos_in_parent (h3 !!! a) = pos_in_parent (h !!! a)) as Hq3.
  { intros a ->. unfold h2, h1. by rewrite store_pos_children, store_pos_keys. }
  split; [|split; [|split; [|split]]].
  - destruct Hbody' as (ks' & cs' & Hb' & Hks & Hcs). exists ks', cs'.
    split; [done|]. split; (apply shifted_right_step; [lia..|done]).
  - intros a. destruct (Hcount a) as [-> ->]. unfold h3, h2, h1.
    rewrite reparent_count, reparent_prefix.
    by rewrite store_count_children, store_count_keys, store_prefix_children,
      store_prefix_keys.
  - intros a Ha. rewrite Hother by done. unfold h3, h2, h1.
    rewrite reparent_body. by rewrite !store_body_other.
  - intros a Ha. destruct (Hframe a) as [Hp Hq].
    { intros j Hj Htag. rewrite get_put_ne in Htag |- * by lia. apply Ha; [lia|done]. }
    rewrite Hp, Hq. split; [apply Hp3|apply Hq3]; unfold h3;
      rewrite reparent_unlinked; try done; intros Htag; apply Ha; try done; lia.
  - intros Hdist j Hj Htag. destruct (decide (j = i)) as [->|Hne].
    + destruct (Hframe (get_raw (get cs (i - 1)))) as [Hp Hq].
      { intros j' Hj'. rewrite get_put_ne by lia. intros Htag' Heq.
        by apply (Hdist (j' - 1) ltac:(lia) (i - 1) ltac:(lia) ltac:(lia) Htag' Htag). }
      rewrite Hp, Hq. unfold h3.
      destruct (reparent_link I4 h2 this (get cs (i - 1)) i Htag) as [-> ->].
      split; [done|]. apply u8_byte. unfold is_byte. lia.
    + assert (distinct_children (i - 1) (put i (get cs (i - 1)) cs)) as Hdist'.
      { intros j1 Hj1 j2 Hj2 Hne'. rewrite !get_put_ne by lia. apply Hdist; lia. }
      specialize (Hlinks Hdist' j ltac:(lia)). rewrite get_put_ne in Hlinks by lia.
      by apply Hlinks.
Qed.
End node4_add.

Section node4_add_position.
Implicit Types (h : heap) (this a b : Z) (ks : list Z) (cs : list node_ptr) (n : inode).

Lemma get4 {A} `{Inhabited A} (x0 x1 x2 x3 : A) :
  get [x0; x1; x2; x3] 0 = x0 ∧ get [x0; x1; x2; x3] 1 = x1 ∧
  get [x0; x1; x2; x3] 2 = x2 ∧ get [x0; x1; x2; x3] 3 = x3.
Proof. done. Qed.

(** The three compares of [add] count the keys below [key_byte], which in
    a sorted array are the first ones. *)
Lemma node4_insert_position n ks cs b :
  body n = Body4 ks cs → length ks = 4%nat → Forall is_byte ks →
  2 ≤ children_count n ≤ 3 → sorted_keys (children_count n) ks →
  (∀ i, 0 ≤ i < children_count n → get ks i ≠ b) →
  let pos := basic_inode_4.insert_position n b in
  pos = Z.of_nat (length (filter (λ k, k < b) (firstn_Z (children_count n) ks))) ∧
  0 ≤ pos ≤ children_count n ∧
  (∀ i, 0 ≤ i < pos → get ks i < b) ∧
  (∀ i, pos ≤ i < children_count n → b < get ks i).
Proof.
  intros Hbody Hlen Hbytes Hc Hsorted Hfresh pos. subst pos.
  unfold basic_inode_4.insert_position, keys_of. rewrite Hbody.
  pose proof (cvtsi32_keys_integer ks Hlen Hbytes) as Hlanes.
  destruct ks as [|k0 [|k1 [|k2 [|k3 [|]]]]]; try done.
  unfold _mm_cvtsi32_si128 in Hlanes. cbn [app] in Hlanes.
  injection Hlanes as -> -> -> _.
  destruct (get4 k0 k1 k2 k3) as (Hg0 & Hg1 & Hg2 & Hg3).
  pose proof (Hsorted 0 ltac:(lia) 1 ltac:(lia) ltac:(lia)) as H01.
  pose proof (Hfresh 0 ltac:(lia)) as Hf0. pose proof (Hfresh 1 ltac:(lia)) as Hf1.
  rewrite ?Hg0, ?Hg1 in H01, Hf0, Hf1.
  destruct (decide (children_count n = 3)) as [H3|H3].
  - pose proof (Hsorted 1 ltac:(lia) 2 ltac:(lia) ltac:(lia)) as H12.
    pose proof (Hfresh 2 ltac:(lia)) as Hf2.
    rewrite ?Hg1, ?Hg2 in H12, Hf2.
    rewrite H3. change (firstn_Z 3 [k0; k1; k2; k3]) with [k0; k1; k2].
    rewrite !filter_cons, filter_nil.
    repeat case_bool_decide; repeat case_decide; try lia; cbn [andb length].
    all: split; [done|]; split; [lia|]; split; intros i Hi;
      assert (i = 0 ∨ i = 1 ∨ i = 2) as [-> | [-> | ->]] by lia;
      rewrite ?Hg0, ?Hg1, ?Hg2; lia.
  - assert (children_count n = 2) as H2 by lia.
    rewrite H2. change (firstn_Z 2 [k0; k1; k2; k3]) with [k0; k1].
    rewrite !filter_cons, filter_nil.
    repeat case_bool_decide; repeat case_decide; try lia; cbn [andb length].
    all: split; [done|]; split; [lia|]; split; intros i Hi;
      assert (i = 0 ∨ i = 1) as [-> | ->] by lia; rewrite ?Hg0, ?Hg1; lia.
Qed.
End node4_add_position.

Section node4_add_claim.
Implicit Types (h : heap) (this a b : Z) (ks : list Z) (cs : list node_ptr) (n : inode).

(** Shifting the keys at or after the insert position and writing the new
    key there keeps the keys sorted. *)
Lemma sorted_after_insert pos count b ks ks1 :
  0 ≤ pos ≤ count → count < Z.of_nat (length ks) →
  sorted_keys count ks →
  (∀ i, 0 ≤ i < pos → get ks i < b) → (∀ i, pos ≤ i < count → b < get ks i) →
  shifted_right pos count ks ks1 →
  sorted_keys (count + 1) (put pos b ks1).
Proof.
  intros Hpos Hlen Hsorted Hlow Hhigh [Hlen1 Hget] i Hi j Hj Hij.
  assert (∀ k, 0 ≤ k ≤ count →
            get (put pos b ks1) k =
            if bool_decide (k = pos) then b
            else if bool_decide (pos < k) then get ks (k - 1) else get ks k) as Hread.
  { intros k Hk. rewrite get_put by lia. repeat case_bool_decide; try lia; try done.
    - rewrite Hget by lia. by rewrite bool_decide_eq_true_2 by lia.
    - rewrite Hget by lia. by rewrite bool_decide_eq_false_2 by lia. }
  rewrite !Hread by lia.
  repeat case_bool_decide; try lia;
    first [apply Hhigh; lia|apply Hlow; lia|apply Hsorted; lia].
Qed.

(** [add] as a whole: the shifted arrays with the new entry written at
    the insert position. *)
Lemma node4_add_arrays h this ks cs child b :
  body (h !!! this) = Body4 ks cs → length ks = 4%nat → length cs = 4%nat →
  0 ≤ children_count (h !!! this) < 4 → is_byte b →
  let count := children_count (h !!! this) in
  let pos := basic_inode_4.insert_position (h !!! this) b in
  let r := basic_inode_4.add h this child b in
  0 ≤ pos ≤ count →
  ∃ ks1 cs1,
    shifted_right pos count ks ks1 ∧ shifted_right pos count cs cs1 ∧
    body (r.1 !!! this) = Body4 (put pos b ks1) (put pos (create child LEAF) cs1) ∧
    children_count (r.1 !!! this) = count + 1 ∧
    prefix (r.1 !!! this) = prefix (h !!! this) ∧
    r.2 = Iterator (create child LEAF) pos (tagged_self I4 this) ∧
    (distinct_children count cs →
     ∀ j, pos < j ≤ count → links_to r.1 (tagged_self I4 this) (get cs (j - 1)) j).
Proof.
  intros Hbody Hlk Hlc Hc Hb count pos r Hpos.
  subst r. unfold basic_inode_4.add. fold count pos.
  rewrite (u8_byte b Hb).
  assert (u8 (count + 1) = count + 1) as -> by (apply u8_byte; unfold is_byte; lia).
  destruct (add4_shift_spec (Z.to_nat count) this pos count h ks cs Hbody)
    as ((ks1 & cs1 & Hbody1 & Hks & Hcs) & Hcnt & _ & _ & Hlinks); [lia..|].
  set (hs := basic_inode_4.add_shift (Z.to_nat count) this pos count h) in *.
  set (h1 := store hs this (with_keys (put pos b))).
  set (h2 := store h1 this (with_children (put pos (create child LEAF)))).
  set (h3 := store h2 this (set_count (count + 1))).
  assert (body (h3 !!! this) = Body4 (put pos b ks1) (put pos (create child LEAF) cs1))
    as Hbody3.
  { unfold h3. rewrite (store_preserved body) by done.
    unfold h2. erewrite store_body_children4; [done|].
    unfold h1. by erewrite store_body_keys4. }
  cbn [fst snd]. exists ks1, cs1.
  split; [done|]. split; [done|]. split; [done|].
  split; [|split; [|split]].
  - unfold h3. by rewrite store_eq.
  - unfold h3, h2, h1. rewrite (store_preserved prefix) by done.
    rewrite store_prefix_children, store_prefix_keys. apply Hcnt.
  - unfold children_of. rewrite Hbody3. f_equal. apply get_put_eq; [lia|].
    destruct Hcs as [-> _]. lia.
  - intros Hdist j Hj Htag. specialize (Hlinks Hdist j Hj Htag).
    unfold h3, h2, h1.
    rewrite (store_preserved parent_), (store_preserved pos_in_parent) by done.
    by rewrite store_parent_children, store_pos_children, store_parent_keys,
      store_pos_keys.
Qed.

(** C3. [add(leaf, b)] on a [basic_inode_4] of two or three sorted keys
    without [b]: the insert position is the number of keys below [b]; the
    keys and children before it stay, those at or after it move one slot
    right, and every moved non-leaf child records its new index; the
    position holds [b] and the leaf; the count grows by one and the keys
    are sorted.  In scenario S1 the node ends with the keys
    0x05, 0x10, 0x20, 0x30 and is full. *)
Theorem node4_add_spec :
  (∀ h this ks cs child b,
     body (h !!! this) = Body4 ks cs → node_inv (h !!! this) →
     2 ≤ children_count (h !!! this) < 4 → is_byte b →
     (∀ i, 0 ≤ i < children_count (h !!! this) → get ks i ≠ b) →
     distinct_children (children_count (h !!! this)) cs →
     let count := children_count (h !!! this) in
     let pos := Z.of_nat (length (filter (λ k, k < b) (firstn_Z count ks))) in
     let r := basic_inode_4.add h this child b in
     ∃ ks' cs',
       body (r.1 !!! this) = Body4 ks' cs' ∧
       length ks' = 4%nat ∧ length cs' = 4%nat ∧
       (∀ j, 0 ≤ j < pos → get ks' j = get ks j ∧ get cs' j = get cs j) ∧
       get ks' pos = b ∧ get cs' pos = create child LEAF ∧
       (∀ j, pos ≤ j < count →
             get ks' (j + 1) = get ks j ∧ get cs' (j + 1) = get cs j ∧
             links_to r.1 (tagged_self I4 this) (get cs j) (j + 1)) ∧
       children_count (r.1 !!! this) = count + 1 ∧
       sorted_keys (count + 1) ks' ∧
       r.2 = Iterator (create child LEAF) pos (tagged_self I4 this)) ∧
  (keys_of (examples.heap4_full !!! 4) = [0x05; 0x10; 0x20; 0x30] ∧
   children_count (examples.heap4_full !!! 4) = 4 ∧
   basic_inode_4.is_full (examples.heap4_full !!! 4) = true).
Proof.
  split; [|by vm_compute].
  intros h this ks cs child b Hbody Hinv Hc Hb Hfresh Hdist count pos r.
  unfold node_inv in Hinv. rewrite Hbody in Hinv.
  destruct Hinv as (Hlk & Hlc & _ & Hbytes & Hsorted & _).
  destruct (node4_insert_position (h !!! this) ks cs b Hbody Hlk Hbytes
              ltac:(lia) Hsorted Hfresh) as (Hpos_eq & Hpos & Hlow & Hhigh).
  fold count in Hpos_eq, Hpos, Hhigh. fold pos in Hpos_eq.
  destruct (node4_add_arrays h this ks cs child b Hbody Hlk Hlc ltac:(lia) Hb Hpos)
    as (ks1 & cs1 & Hks & Hcs & Hbody' & Hcount & _ & Hit & Hlinks).
  fold count r in Hbody', Hcount, Hit, Hlinks, Hks, Hcs.
  rewrite Hpos_eq in Hpos, Hlow, Hhigh, Hbody', Hit, Hlinks, Hks, Hcs.
  destruct Hks as [Hlk1 Hgk]. destruct Hcs as [Hlc1 Hgc].
  exists (put pos b ks1), (put pos (create child LEAF) cs1).
  split; [done|]. rewrite !length_put.
  split; [lia|]. split; [lia|]. split; [|split; [|split; [|split; [|split; [|split]]]]].
  - intros j Hj. rewrite !get_put_ne, Hgk, Hgc by lia.
    by rewrite !bool_decide_eq_false_2 by lia.
  - apply get_put_eq; lia.
  - apply get_put_eq; lia.
  - intros j Hj. rewrite !get_put_ne, Hgk, Hgc by lia.
    rewrite !bool_decide_eq_true_2 by lia.
    replace (j + 1 - 1) with j by lia. split; [done|]. split; [done|].
    specialize (Hlinks Hdist (j + 1) ltac:(lia)).
    by replace (j + 1 - 1) with j in Hlinks by lia.
  - done.
  - apply (sorted_after_insert pos count b ks ks1); try done; lia.
  - done.
Qed.
End node4_add_claim.

Section node4_add_examples.
Import examples.

Lemma node4_add_spec_witness :
  ∃ ks' cs',
    body ((basic_inode_4.add heap4_three 4 1005 0x05).1 !!! 4) = Body4 ks' cs' ∧
    get ks' 0 = 0x05 ∧ get cs' 0 = leaf 1005 ∧ sorted_keys 4 ks'.
Proof.
  destruct (proj1 node4_add_spec heap4_three 4 [0x10; 0x20; 0x30; 0]
              [leaf 1016; leaf 1032; leaf 1048; nullptr] 1005 0x05)
    as (ks' & cs' & Hbody & _ & _ & _ & Hkey & Hchild & _ & _ & Hsorted & _).
  - by vm_compute.
  - apply (bool_decide_unpack _). by vm_compute.
  - by vm_compute.
  - by vm_compute.
  - apply (bool_decide_unpack _). by vm_compute.
  - apply (bool_decide_unpack _). by vm_compute.
  - exists ks', cs'. split; [exact Hbody|]. split; [exact Hkey|].
    split; [exact Hchild|exact Hsorted].
Defined.
End node4_add_examples.

(** ** [remove] of the sorted nodes, and [add] of [basic_inode_16] *)

Section sorted_remove.
Implicit Types (h : heap) (this a b : Z) (ks : list Z) (cs : list node_ptr) (n : inode).

(** The loop of [remove] of [basic_inode_4]. *)
Lemma remove4_shift_spec fuel this i h ks cs count :
  body (h !!! this) = Body4 ks cs → children_count (h !!! this) = count →
  0 ≤ i → 1 ≤ count ≤ 256 →
  count ≤ Z.of_nat (length ks) → count ≤ Z.of_nat (length cs) →
  count - 1 - i ≤ Z.of_nat fuel →
  let h' := basic_inode_4.remove_shift fuel this i h in
  (∃ ks' cs', body (h' !!! this) = Body4 ks' cs' ∧
              shifted_left i count ks ks' ∧ shifted_left i count cs cs') ∧
  (∀ a, children_count (h' !!! a) = children_count (h !!! a) ∧
        prefix (h' !!! a) = prefix (h !!! a)).
Proof.
  revert i h ks cs.
  induction fuel as [|fuel IH]; intros i h ks cs Hbody Hcount Hi Hc Hlk Hlc Hfuel h';
    subst h'; cbn [basic_inode_4.remove_shift].
  { split; [|done]. exists ks, cs. split; [done|]. split; apply shifted_left_refl; lia. }
  rewrite Hcount. rewrite (Z.mod_small (count - 1)) by lia.
  case_bool_decide as Hlt.
  2:{ split; [|done]. exists ks, cs. split; [done|].
      split; apply shifted_left_refl; lia. }
  set (h1 := store h this (with_keys (λ ks0, put i (get ks0 (i + 1)) ks0))).
  set (h2 := store h1 this (with_children (λ cs0, put i (get cs0 (i + 1)) cs0))).
  assert (body (h2 !!! this) =
          Body4 (put i (get ks (i + 1)) ks) (put i (get cs (i + 1)) cs)) as Hbody2.
  { unfold h2. erewrite store_body_children4; [done|].
    unfold h1. by erewrite store_body_keys4. }
  set (h3 := reparent I4 h2 this (get (children_of (h2 !!! this)) (i + 1)) i).
  assert (∀ a, children_count (h3 !!! a) = children_count (h !!! a) ∧
               prefix (h3 !!! a) = prefix (h !!! a)) as Hframe.
  { intros a. unfold h3, h2, h1. rewrite reparent_count, reparent_prefix.
    by rewrite store_count_children, store_count_keys, store_prefix_children,
      store_prefix_keys. }
  destruct (IH (i + 1) h3 (put i (get ks (i + 1)) ks) (put i (get cs (i + 1)) cs))
    as ((ks' & cs' & Hbody' & Hks & Hcs) & Hframe');
    [unfold h3; by rewrite reparent_body|by rewrite (proj1 (Hframe this))|lia|lia
    |rewrite length_put; lia|rewrite length_put; lia|lia|].
  split.
  - exists ks', cs'. split; [done|]. split; (apply shifted_left_step; [lia..|done]).
  - intros a. destruct (Hframe' a) as [-> ->]. apply Hframe.
Qed.

(** The loop of [remove] of [basic_inode_16], whose index runs one ahead. *)
Lemma remove16_shift_spec fuel this i h ks cs count :
  body (h !!! this) = Body16 ks cs →
  1 ≤ i → 1 ≤ count →
  count ≤ Z.of_nat (length ks) → count ≤ Z.of_nat (length cs) →
  count - i ≤ Z.of_nat fuel →
  let h' := basic_inode_16.remove_shift fuel this count i h in
  (∃ ks' cs', body (h' !!! this) = Body16 ks' cs' ∧
              shifted_left (i - 1) count ks ks' ∧ shifted_left (i - 1) count cs cs') ∧
  (∀ a, children_count (h' !!! a) = children_count (h !!! a) ∧
        prefix (h' !!! a) = prefix (h !!! a)).
Proof.
  revert i h ks cs.
  induction fuel as [|fuel IH]; intros i h ks cs Hbody Hi Hc Hlk Hlc Hfuel h';
    subst h'; cbn [basic_inode_16.remove_shift].
  { split; [|done]. exists ks, cs. split; [done|]. split; apply shifted_left_refl; lia. }
  case_bool_decide as Hlt.
  2:{ split; [|done]. exists ks, cs. split; [done|].
      split; apply shifted_left_refl; lia. }
  set (h1 := store h this (with_keys (λ ks0, put (i - 1) (get ks0 i) ks0))).
  set (h2 := store h1 this (with_children (λ cs0, put (i - 1) (get cs0 i) cs0))).
  assert (body (h2 !!! this) =
          Body16 (put (i - 1) (get ks i) ks) (put (i - 1) (get cs i) cs)) as Hbody2.
  { unfold h2. erewrite store_body_children16; [done|].
    unfold h1. by erewrite store_body_keys16. }
  set (h3 := reparent I16 h2 this (get (children_of (h2 !!! this)) i) (i - 1)).
  assert (∀ a, children_count (h3 !!! a) = children_count (h !!! a) ∧
               prefix (h3 !!! a) = prefix (h !!! a)) as Hframe.
  { intros a. unfold h3, h2, h1. rewrite reparent_count, reparent_prefix.
    by rewrite store_count_children, store_count_keys, store_prefix_children,
      store_prefix_keys. }
  destruct (IH (i + 1) h3 (put (i - 1) (get ks i) ks) (put (i - 1) (get cs i) cs))
    as ((ks' & cs' & Hbody' & Hks & Hcs) & Hframe');
    [unfold h3; by rewrite reparent_body|lia|lia
    |rewrite length_put; lia|rewrite length_put; lia|lia|].
  replace (i + 1 - 1) with (i - 1 + 1) in Hks, Hcs by lia.
  replace (get ks i) with (get ks (i - 1 + 1)) in Hks by (f_equal; lia).
  replace (get cs i) with (get cs (i - 1 + 1)) in Hcs by (f_equal; lia).
  split.
  - exists ks', cs'. split; [done|]. split; (apply shifted_left_step; [lia..|done]).
  - intros a. destruct (Hframe' a) as [-> ->]. apply Hframe.
Qed.

(** [std::copy_backward] of [first .. last) to the range that ends one
    past [last] shifts that range right by one. *)
Lemma copy_backward_shift {A} `{Inhabited A} fuel first last (l : list A) :
  0 ≤ first ≤ last → last < Z.of_nat (length l) → last - first ≤ Z.of_nat fuel →
  shifted_right first last l (copy_backward fuel first last (last + 1) l).
Proof.
  revert last l. induction fuel as [|fuel IH]; intros last l Hfirst Hlen Hfuel;
    cbn [copy_backward].
  { assert (last = first) as -> by lia. apply shifted_right_refl. }
  case_bool_decide as Hne.
  2:{ assert (last = first) as -> by lia. apply shifted_right_refl. }
  replace (last + 1 - 1) with last by lia.
  apply shifted_right_step; [lia..|].
  pose proof (IH (last - 1) (put last (get l (last - 1)) l)) as HIH.
  replace (last - 1 + 1) with last in HIH by lia.
  apply HIH; [lia|rewrite length_put; lia|lia].
Qed.

(** The loop of [add] of [basic_inode_16] that reparents the children to
    move writes links only. *)
Lemma add16_reparent_frame fuel this count i h a :
  body (basic_inode_16.add_reparent fuel this count i h !!! a) = body (h !!! a) ∧
  children_count (basic_inode_16.add_reparent fuel this count i h !!! a) =
    children_count (h !!! a) ∧
  prefix (basic_inode_16.add_reparent fuel this count i h !!! a) = prefix (h !!! a).
Proof.
  revert i h. induction fuel as [|fuel IH]; intros i h; cbn [basic_inode_16.add_reparent];
    [done|].
  case_bool_decide; [|done].
  destruct (IH (u8 (i + 1)) (reparent I16 h this (get (children_of (h !!! this)) i) (i + 1)))
    as (-> & -> & ->).
  by rewrite reparent_body, reparent_count, reparent_prefix.
Qed.
End sorted_remove.

Section sorted_operations.
Implicit Types (h : heap) (this a b : Z) (ks : list Z) (cs : list node_ptr) (n : inode).

(** [remove] of [basic_inode_4] as a whole. *)
Lemma node4_remove_arrays h this ks cs child_index :
  body (h !!! this) = Body4 ks cs → length ks = 4%nat → length cs = 4%nat →
  1 ≤ children_count (h !!! this) ≤ 4 → 0 ≤ child_index →
  let count := children_count (h !!! this) in
  let h' := basic_inode_4.remove h this child_index in
  ∃ ks' cs',
    body (h' !!! this) = Body4 ks' cs' ∧
    shifted_left child_index count ks ks' ∧ shifted_left child_index count cs cs' ∧
    children_count (h' !!! this) = count - 1 ∧
    prefix (h' !!! this) = prefix (h !!! this).
Proof.
  intros Hbody Hlk Hlc Hc Hi count h'. subst h'. unfold basic_inode_4.remove. fold count.
  destruct (remove4_shift_spec (Z.to_nat count) this child_index h ks cs count Hbody)
    as ((ks' & cs' & Hbody' & Hks & Hcs) & Hframe); [done|lia..|].
  exists ks', cs'.
  rewrite (store_preserved body), (store_preserved prefix) by done.
  split; [done|]. split; [done|]. split; [done|]. split.
  - rewrite store_eq. simpl. apply u8_byte. unfold is_byte. lia.
  - apply Hframe.
Qed.

(** [add] of [basic_inode_16] as a whole. *)
Lemma node16_add_arrays h this ks cs child b :
  body (h !!! this) = Body16 ks cs → length ks = 16%nat → length cs = 16%nat →
  0 ≤ children_count (h !!! this) < 16 →
  let count := children_count (h !!! this) in
  let pos := basic_inode_16.get_sorted_key_array_insert_position (h !!! this) b in
  let r := basic_inode_16.add h this child b in
  ∃ ks1 cs1,
    shifted_right pos count ks ks1 ∧ shifted_right pos count cs cs1 ∧
    body (r.1 !!! this) = Body16 (put pos b ks1) (put pos (create child LEAF) cs1) ∧
    children_count (r.1 !!! this) = count + 1 ∧
    prefix (r.1 !!! this) = prefix (h !!! this) ∧
    r.2 = Iterator (create child LEAF) pos (tagged_self I16 this).
Proof.
  intros Hbody Hlk Hlc Hc count pos r.
  destruct (insert_position_first_ge (h !!! this) ks cs b Hbody Hlk ltac:(lia))
    as (Hpos & _). fold pos count in Hpos.
  subst r. unfold basic_inode_16.add. fold count pos.
  assert (u8 (count + 1) = count + 1) as -> by (apply u8_byte; unfold is_byte; lia).
  set (hs := if bool_decide (pos ≠ count) then _ else h).
  assert (∃ ks1 cs1, shifted_right pos count ks ks1 ∧ shifted_right pos count cs cs1 ∧
                     body (hs !!! this) = Body16 ks1 cs1 ∧
                     prefix (hs !!! this) = prefix (h !!! this))
    as (ks1 & cs1 & Hks & Hcs & Hbody1 & Hprefix).
  { subst hs. case_bool_decide as Hne.
    - exists (copy_backward 16 pos count (count + 1) ks),
        (copy_backward 16 pos count (count + 1) cs).
      split; [apply copy_backward_shift; lia|].
      split; [apply copy_backward_shift; lia|].
      set (h1 := store h this (with_keys _)).
      destruct (add16_reparent_frame 16 this count pos h1 this) as (Hb2 & _ & Hp2).
      split.
      + erewrite store_body_children16; [done|]. rewrite Hb2.
        unfold h1. by erewrite store_body_keys16.
      + rewrite store_prefix_children, Hp2. unfold h1. by rewrite store_prefix_keys.
    - exists ks, cs. assert (pos = count) as -> by lia.
      split; [apply shifted_right_refl|]. split; [apply shifted_right_refl|]. done. }
  set (h1 := store hs this (with_keys (put pos b))).
  set (h2 := store h1 this (with_children (put pos (create child LEAF)))).
  set (h3 := store h2 this (set_count (count + 1))).
  assert (body (h3 !!! this) = Body16 (put pos b ks1) (put pos (create child LEAF) cs1))
    as Hbody3.
  { unfold h3. rewrite (store_preserved body) by done.
    unfold h2. erewrite store_body_children16; [done|].
    unfold h1. by erewrite store_body_keys16. }
  cbn [fst snd]. exists ks1, cs1.
  split; [done|]. split; [done|]. split; [done|]. split; [|split].
  - unfold h3. by rewrite store_eq.
  - unfold h3, h2, h1. rewrite (store_preserved prefix) by done.
    by rewrite store_prefix_children, store_prefix_keys.
  - unfold children_of. rewrite Hbody3. f_equal. apply get_put_eq; [lia|].
    destruct Hcs as [-> _]. lia.
Qed.

(** [remove] of [basic_inode_16] as a whole. *)
Lemma node16_remove_arrays h this ks cs child_index :
  body (h !!! this) = Body16 ks cs → length ks = 16%nat → length cs = 16%nat →
  1 ≤ children_count (h !!! this) ≤ 16 → 0 ≤ child_index →
  let count := children_count (h !!! this) in
  let h' := basic_inode_16.remove h this child_index in
  ∃ ks' cs',
    body (h' !!! this) = Body16 ks' cs' ∧
    shifted_left child_index count ks ks' ∧ shifted_left child_index count cs cs' ∧
    children_count (h' !!! this) = count - 1 ∧
    prefix (h' !!! this) = prefix (h !!! this).
Proof.
  intros Hbody Hlk Hlc Hc Hi count h'. subst h'. unfold basic_inode_16.remove. fold count.
  destruct (remove16_shift_spec (Z.to_nat count) this (child_index + 1) h ks cs count Hbody)
    as ((ks' & cs' & Hbody' & Hks & Hcs) & Hframe); [lia..|].
  replace (child_index + 1 - 1) with child_index in Hks, Hcs by lia.
  exists ks', cs'.
  rewrite (store_preserved body), (store_preserved prefix) by done.
  split; [done|]. split; [done|]. split; [done|]. split.
  - rewrite store_eq. simpl. apply u8_byte. unfold is_byte. lia.
  - apply Hframe.
Qed.
End sorted_operations.

(** ** [add] and [remove] of [basic_inode_48] *)

Section node48.
Implicit Types (h : heap) (this a b : Z) (ci : list Z) (cs : list node_ptr) (n : inode).


Lemma get_cons_pos {A} `{Inhabited A} (x : A) l j : 0 < j → get (x :: l) j = get l (j - 1).
Proof.
  intros Hj. unfold get. replace (Z.to_nat j) with (S (Z.to_nat (j - 1))) by lia. done.
Qed.

(** The scan for a free slot stops at the first null slot, when there is
    one. *)
Lemma first_free_slot_spec cs i0 :
  population cs < Z.of_nat (length cs) →
  let s := basic_inode_48.first_free_slot cs i0 in
  i0 ≤ s < i0 + Z.of_nat (length cs) ∧ get cs (s - i0) = nullptr ∧
  ∀ j, 0 ≤ j < s - i0 → get cs j ≠ nullptr.
Proof.
  revert i0. induction cs as [|c cs IH]; intros i0 Hpop s; subst s.
  { unfold population in Hpop. simpl in Hpop. lia. }
  cbn [basic_inode_48.first_free_slot]. rewrite population_cons in Hpop.
  rewrite length_cons in *. destruct (decide (c = nullptr)) as [->|Hc].
  - rewrite bool_decide_eq_true_2 by done.
    replace (i0 - i0) with 0 by lia. split; [lia|]. split; [done|]. lia.
  - rewrite bool_decide_eq_false_2 by done.
    rewrite bool_decide_eq_true_2 in Hpop by done.
    destruct (IH (i0 + 1) ltac:(lia)) as (Hs & Hnull & Hbefore).
    set (s := basic_inode_48.first_free_slot cs (i0 + 1)) in *.
    split; [lia|]. split.
    + rewrite get_cons_pos by lia. rewrite <- Hnull. f_equal. lia.
    + intros j Hj. destruct (decide (j = 0)) as [->|Hj0]; [done|].
      rewrite get_cons_pos by lia. apply Hbefore. lia.
Qed.

(** In a full child array every slot holds a child. *)
Lemma population_full cs j :
  population cs = Z.of_nat (length cs) → 0 ≤ j < Z.of_nat (length cs) →
  get cs j ≠ nullptr.
Proof.
  revert j. induction cs as [|c cs IH]; intros j Hpop Hj; [simpl in Hj; lia|].
  rewrite population_cons, length_cons in *. pose proof (population_bounds cs).
  destruct (decide (c = nullptr)) as [->|Hc];
    [rewrite null_is_null in Hpop; lia|].
  rewrite bool_decide_eq_true_2 in Hpop by done.
  destruct (decide (j = 0)) as [->|Hj0]; [done|].
  rewrite get_cons_pos by lia. apply IH; lia.
Qed.

Lemma put_put {A} (i : Z) (v w : A) l : put i v (put i w l) = put i v l.
Proof. unfold put. apply list_insert_insert_eq. Qed.

Lemma put_same {A} `{Inhabited A} (i : Z) (l : list A) :
  0 ≤ i < Z.of_nat (length l) → put i (get l i) l = l.
Proof.
  intros Hi. unfold put, get. apply list_insert_id.
  apply list_lookup_lookup_total_lt. lia.
Qed.

(** [add] of [basic_inode_48] as a whole. *)
Lemma node48_add_arrays h this ci cs child b :
  body (h !!! this) = Body48 ci cs → length cs = 48%nat → population cs < 48 →
  let s := basic_inode_48.first_free_slot cs 0 in
  let r := basic_inode_48.add h this child b in
  0 ≤ s < 48 ∧ get cs s = nullptr ∧ (∀ j, 0 ≤ j < s → get cs j ≠ nullptr) ∧
  body (r.1 !!! this) = Body48 (put b s ci) (put s (create child LEAF) cs) ∧
  children_count (r.1 !!! this) = u8 (children_count (h !!! this) + 1) ∧
  prefix (r.1 !!! this) = prefix (h !!! this) ∧
  r.2 = Iterator (create child LEAF) b (tagged_self I48 this).
Proof.
  intros Hbody Hlc Hpop s r.
  destruct (first_free_slot_spec cs 0 ltac:(lia)) as (Hs & Hnull & Hbefore).
  fold s in Hs, Hnull, Hbefore. replace (s - 0) with s in Hnull, Hbefore by lia.
  split; [lia|]. split; [done|]. split; [done|].
  assert (basic_inode_48.first_free_slot (children_of (h !!! this)) 0 = s) as Hscan
    by (unfold children_of; by rewrite Hbody).
  subst r. unfold basic_inode_48.add, basic_inode_48.add_at_slot. rewrite Hscan.
  assert (u8 s = s) as -> by (apply u8_byte; unfold is_byte; lia).
  set (h1 := store h this (with_indices (put b s))).
  set (h2 := store h1 this (with_children (put s (create child LEAF)))).
  set (h3 := store h2 this (λ n, set_count (u8 (children_count n + 1)) n)).
  assert (body (h3 !!! this) = Body48 (put b s ci) (put s (create child LEAF) cs))
    as Hbody3.
  { unfold h3. rewrite store_body_count.
    unfold h2. erewrite store_body_children48; [done|].
    unfold h1. by erewrite store_body_indices. }
  cbn [fst snd]. split; [done|]. split; [|split].
  - unfold h3. rewrite store_count_count. unfold h2, h1.
    by rewrite store_count_children, store_count_indices.
  - unfold h3, h2, h1.
    by rewrite store_prefix_count, store_prefix_children, store_prefix_indices.
  - unfold children_of. rewrite Hbody3. f_equal. apply get_put_eq; lia.
Qed.

(** [remove] of [basic_inode_48] as a whole. *)
Lemma node48_remove_arrays h this ci cs b :
  body (h !!! this) = Body48 ci cs →
  let h' := basic_inode_48.remove h this b in
  body (h' !!! this) = Body48 (put b empty_child ci) (put (get ci b) nullptr cs) ∧
  children_count (h' !!! this) = u8 (children_count (h !!! this) - 1) ∧
  prefix (h' !!! this) = prefix (h !!! this).
Proof.
  intros Hbody h'. subst h'. unfold basic_inode_48.remove.
  set (h1 := store h this (λ n, with_children (put (get (indices_of n) b) nullptr) n)).
  assert (body (h1 !!! this) = Body48 ci (put (get ci b) nullptr cs)) as Hbody1.
  { unfold h1. rewrite store_eq. unfold with_children, indices_of. simpl.
    by rewrite Hbody. }
  assert (children_count (h1 !!! this) = children_count (h !!! this) ∧
          prefix (h1 !!! this) = prefix (h !!! this)) as [Hc1 Hp1].
  { unfold h1. by rewrite store_eq. }
  rewrite store_body_count, store_count_count, store_prefix_count.
  rewrite store_count_indices, store_prefix_indices.
  split; [by erewrite store_body_indices|]. by rewrite Hc1.
Qed.
End node48.

(** ** The SSE4.2 scan of [basic_inode_48::add] *)

Section node48_sse42.
Implicit Types (cs ps rest : list node_ptr) (p : node_ptr) (i s k : Z).

(** The mask of one round tells the first null pointer of its eight
    slots. *)
Lemma sse42_round_mask p0 p1 p2 p3 p4 p5 p6 p7 :
  let vec01_cmp :=
    _mm_packs_epi32 (epi32_of_epi64 (_mm_cmpeq_epi64 [p0; p1] [nullptr; nullptr]))
      (epi32_of_epi64 (_mm_cmpeq_epi64 [p2; p3] [nullptr; nullptr])) in
  let vec23_cmp :=
    _mm_packs_epi32 (epi32_of_epi64 (_mm_cmpeq_epi64 [p4; p5] [nullptr; nullptr]))
      (epi32_of_epi64 (_mm_cmpeq_epi64 [p6; p7] [nullptr; nullptr])) in
  let cmp_mask :=
    _mm_movemask_epi8
      (epi8_of_epi16 (_mm_packs_epi32 (epi32_of_epi16 vec01_cmp) (epi32_of_epi16 vec23_cmp))) in
  match first_null [p0; p1; p2; p3; p4; p5; p6; p7] 0 with
  | Some k => cmp_mask ≠ 0 ∧ Z.shiftr (ffs_nonzero cmp_mask) 1 = k
  | None => cmp_mask = 0
  end.
Proof.
  unfold _mm_cmpeq_epi64. cbn [zip_with first_null].
  destruct (bool_decide (p0 = nullptr)); destruct (bool_decide (p1 = nullptr));
    destruct (bool_decide (p2 = nullptr)); destruct (bool_decide (p3 = nullptr));
    destruct (bool_decide (p4 = nullptr)); destruct (bool_decide (p5 = nullptr));
    destruct (bool_decide (p6 = nullptr)); destruct (bool_decide (p7 = nullptr));
    by vm_compute.
Qed.

(** The portable scan over a group of slots and the rest. *)
Lemma first_free_slot_app ps rest i :
  basic_inode_48.first_free_slot (ps ++ rest) i =
  match first_null ps i with
  | Some s => s
  | None => basic_inode_48.first_free_slot rest (i + Z.of_nat (length ps))
  end.
Proof.
  revert i. induction ps as [|p ps IH]; intros i; cbn [app first_null length].
  { cbn [basic_inode_48.first_free_slot]. f_equal. lia. }
  cbn [basic_inode_48.first_free_slot]. case_bool_decide; [done|].
  rewrite IH. destruct (first_null ps (i + 1)); [done|]. f_equal. lia.
Qed.

Lemma first_null_shift ps k :
  first_null ps k = (λ s, s + k) <$> first_null ps 0.
Proof.
  revert k. induction ps as [|p ps IH]; intros k; cbn [first_null]; [done|].
  case_bool_decide; [done|]. rewrite (IH (k + 1)), (IH (0 + 1)).
  destruct (first_null ps 0); cbn; [f_equal; lia|done].
Qed.

Lemma first_null_None ps k j :
  first_null ps k = None → 0 ≤ j < Z.of_nat (length ps) → get ps j ≠ nullptr.
Proof.
  revert k j. induction ps as [|p ps IH]; intros k j Hnone Hj; [simpl in Hj; lia|].
  cbn [first_null] in Hnone. rewrite length_cons in Hj.
  destruct (decide (p = nullptr)) as [->|Hp];
    [by rewrite bool_decide_eq_true_2 in Hnone|].
  rewrite bool_decide_eq_false_2 in Hnone by done.
  destruct (decide (j = 0)) as [->|Hj0]; [done|].
  rewrite get_cons_pos by lia. apply (IH (k + 1)); [done|lia].
Qed.

Lemma get8 {A} `{Inhabited A} (x0 x1 x2 x3 x4 x5 x6 x7 : A) k :
  0 ≤ k < 8 →
  get [x0; x1; x2; x3; x4; x5; x6; x7] k =
  if bool_decide (k = 0) then x0 else if bool_decide (k = 1) then x1
  else if bool_decide (k = 2) then x2 else if bool_decide (k = 3) then x3
  else if bool_decide (k = 4) then x4 else if bool_decide (k = 5) then x5
  else if bool_decide (k = 6) then x6 else x7.
Proof.
  intros Hk.
  assert (k = 0 ∨ k = 1 ∨ k = 2 ∨ k = 3 ∨ k = 4 ∨ k = 5 ∨ k = 6 ∨ k = 7)
    as [-> | [-> | [-> | [-> | [-> | [-> | [-> | ->]]]]]]] by lia; done.
Qed.

(** The eight slots of the round that starts at the slot [s]. *)
Lemma drop_round cs s :
  0 ≤ s → s + 8 ≤ Z.of_nat (length cs) →
  drop (Z.to_nat s) cs =
  [get cs s; get cs (s + 1); get cs (s + 2); get cs (s + 3);
   get cs (s + 4); get cs (s + 5); get cs (s + 6); get cs (s + 7)]
  ++ drop (Z.to_nat (s + 8)) cs.
Proof.
  intros Hs Hlen.
  assert (∀ t, 0 ≤ t < Z.of_nat (length cs) →
            drop (Z.to_nat t) cs = get cs t :: drop (Z.to_nat (t + 1)) cs) as Hstep.
  { intros t Ht. replace (Z.to_nat (t + 1)) with (S (Z.to_nat t)) by lia.
    apply drop_S. unfold get. apply list_lookup_lookup_total_lt. lia. }
  rewrite (Hstep s) by lia. cbn [app]. f_equal.
  rewrite (Hstep (s + 1)) by lia. f_equal. replace (s + 1 + 1) with (s + 2) by lia.
  rewrite (Hstep (s + 2)) by lia. f_equal. replace (s + 2 + 1) with (s + 3) by lia.
  rewrite (Hstep (s + 3)) by lia. f_equal. replace (s + 3 + 1) with (s + 4) by lia.
  rewrite (Hstep (s + 4)) by lia. f_equal. replace (s + 4 + 1) with (s + 5) by lia.
  rewrite (Hstep (s + 5)) by lia. f_equal. replace (s + 5 + 1) with (s + 6) by lia.
  rewrite (Hstep (s + 6)) by lia. f_equal. replace (s + 6 + 1) with (s + 7) by lia.
  rewrite (Hstep (s + 7)) by lia. f_equal. f_equal. lia.
Qed.

(** With a free slot ahead, the rounds over the registers from [i] on
    find the slot that the portable scan finds from the slot [2 * i] on. *)
Lemma first_free_slot_sse42_spec fuel cs i :
  0 ≤ i → 2 * i + 8 * Z.of_nat fuel = Z.of_nat (length cs) →
  (∃ s, 2 * i ≤ s < Z.of_nat (length cs) ∧ get cs s = nullptr) →
  basic_inode_48.first_free_slot_sse42 fuel cs i =
  basic_inode_48.first_free_slot (drop (Z.to_nat (2 * i)) cs) (2 * i).
Proof.
  revert i. induction fuel as [|fuel IH]; intros i Hi Hlen (s & Hs & Hnull).
  { lia. }
  cbn [basic_inode_48.first_free_slot_sse42]. unfold basic_inode_48.pointer_vector.
  rewrite (drop_round cs (2 * i)) by lia. rewrite first_free_slot_app.
  replace (2 * (i + 1) + 1) with (2 * i + 3) by lia.
  replace (2 * (i + 1)) with (2 * i + 2) by lia.
  replace (2 * (i + 2) + 1) with (2 * i + 5) by lia.
  replace (2 * (i + 2)) with (2 * i + 4) by lia.
  replace (2 * (i + 3) + 1) with (2 * i + 7) by lia.
  replace (2 * (i + 3)) with (2 * i + 6) by lia.
  pose proof (sse42_round_mask (get cs (2 * i)) (get cs (2 * i + 1)) (get cs (2 * i + 2))
                (get cs (2 * i + 3)) (get cs (2 * i + 4)) (get cs (2 * i + 5))
                (get cs (2 * i + 6)) (get cs (2 * i + 7))) as Hmask.
  cbv zeta in Hmask. rewrite first_null_shift.
  set (round := [get cs (2 * i); get cs (2 * i + 1); get cs (2 * i + 2); get cs (2 * i + 3);
                 get cs (2 * i + 4); get cs (2 * i + 5); get cs (2 * i + 6);
                 get cs (2 * i + 7)]) in *.
  destruct (first_null round 0) as [k|] eqn:Hround; cbn [fmap option_fmap option_map].
  - destruct Hmask as [Hne ->]. rewrite bool_decide_eq_true_2 by done.
    rewrite Z.shiftl_mul_pow2 by lia. lia.
  - rewrite Hmask. rewrite bool_decide_eq_false_2 by (intros Hne; by apply Hne).
    rewrite IH; [|lia|lia|].
    + unfold round. cbn [length]. f_equal; [f_equal; lia|lia].
    + exists s. split; [|done].
      destruct (decide (2 * i + 8 ≤ s)) as [|Hlt]; [lia|]. exfalso.
      apply (first_null_None round 0 (s - 2 * i) Hround);
        [unfold round; cbn [length]; lia|].
      rewrite <- Hnull. unfold round. rewrite get8 by lia.
      repeat case_bool_decide; f_equal; lia.
Qed.

(** On a [basic_inode_48] with a free slot, the two builds of [add] do
    the same. *)
Lemma node48_add_sse42_eq h this child b :
  length (children_of (h !!! this)) = 48%nat →
  population (children_of (h !!! this)) < 48 →
  basic_inode_48.add_sse42 h this child b = basic_inode_48.add h this child b.
Proof.
  intros Hlen Hpop. unfold basic_inode_48.add_sse42, basic_inode_48.add. f_equal.
  assert (population (children_of (h !!! this)) <
          Z.of_nat (length (children_of (h !!! this)))) as Hfree by (rewrite Hlen; lia).
  destruct (first_free_slot_spec (children_of (h !!! this)) 0 Hfree) as (Hs & Hnull & _).
  rewrite (first_free_slot_sse42_spec 6); [done|lia|rewrite Hlen; lia|].
  eexists. split; [|exact Hnull]. lia.
Qed.
End node48_sse42.

Section node48_claim.
Implicit Types (h : heap) (this a b : Z) (ci : list Z) (cs : list node_ptr) (n : inode).

(** C2. [add(leaf, b)] on a [basic_inode_48] that is not full and has no
    child for [b] puts the leaf into the null slot [s] of lowest index,
    sets [child_indices[b] = s], adds one to the count, and returns an
    iterator whose index is the key byte [b]; the SSE4.2 build does the
    same as the portable one.  After the removal of a key byte from a
    full node, the next [add] takes the slot just freed. *)
Theorem node48_add_spec :
  (∀ h this ci cs child b,
     body (h !!! this) = Body48 ci cs → node_inv (h !!! this) →
     children_count (h !!! this) < 48 → is_byte b → get ci b = empty_child →
     let s := basic_inode_48.first_free_slot cs 0 in
     let r := basic_inode_48.add h this child b in
     0 ≤ s < 48 ∧ get cs s = nullptr ∧ (∀ j, 0 ≤ j < s → get cs j ≠ nullptr) ∧
     body (r.1 !!! this) = Body48 (put b s ci) (put s (create child LEAF) cs) ∧
     get (indices_of (r.1 !!! this)) b = s ∧
     get (children_of (r.1 !!! this)) s = create child LEAF ∧
     children_count (r.1 !!! this) = children_count (h !!! this) + 1 ∧
     r.2 = Iterator (create child LEAF) b (tagged_self I48 this) ∧
     basic_inode_48.add_sse42 h this child b = r) ∧
  (∀ h this ci cs child k b,
     body (h !!! this) = Body48 ci cs → node_inv (h !!! this) →
     children_count (h !!! this) = 48 →
     is_byte k → get ci k ≠ empty_child → is_byte b →
     let r := basic_inode_48.add (basic_inode_48.remove h this k) this child b in
     get (indices_of (r.1 !!! this)) b = get ci k ∧
     get (children_of (r.1 !!! this)) (get ci k) = create child LEAF).
Proof.
  split.
  - intros h this ci cs child b Hbody Hinv Hc Hb Hfresh s r.
    unfold node_inv in Hinv. rewrite Hbody in Hinv.
    destruct Hinv as (Hlk & Hlc & Hc0 & _ & _ & _ & _ & Hpop).
    destruct (node48_add_arrays h this ci cs child b Hbody Hlc ltac:(lia))
      as (Hs & Hnull & Hbefore & Hbody' & Hcount & _ & Hit).
    fold s r in Hs, Hnull, Hbefore, Hbody', Hcount, Hit.
    unfold is_byte in Hb.
    split; [done|]. split; [done|]. split; [done|]. split; [done|].
    unfold indices_of, children_of. rewrite Hbody'.
    split; [apply get_put_eq; lia|]. split; [apply get_put_eq; lia|].
    split; [rewrite Hcount; apply u8_byte; unfold is_byte; lia|]. split; [done|].
    apply node48_add_sse42_eq; unfold children_of; rewrite Hbody; [done|lia].
  - intros h this ci cs child k b Hbody Hinv Hc Hk Hpresent Hb r.
    unfold node_inv in Hinv. rewrite Hbody in Hinv.
    destruct Hinv as (Hlk & Hlc & _ & Hbytes & Hslots & _ & _ & Hpop).
    unfold is_byte in Hk, Hb.
    destruct (Hslots k Hk Hpresent) as [Hlt Hchild].
    assert (0 ≤ get ci k) as Hnn.
    { rewrite Forall_forall in Hbytes. apply Hbytes, get_elem_of; lia. }
    destruct (node48_remove_arrays h this ci cs k Hbody) as (Hbody1 & _).
    set (h1 := basic_inode_48.remove h this k) in *.
    set (cs1 := put (get ci k) nullptr cs) in *.
    assert (population cs1 = 47) as Hpop1.
    { unfold cs1. rewrite population_put by lia.
      rewrite bool_decide_eq_true_2, null_is_null by done. lia. }
    destruct (node48_add_arrays h1 this _ cs1 child b Hbody1)
      as (Hs & Hnull & _ & Hbody' & _); [unfold cs1; by rewrite length_put|lia|].
    fold r in Hbody'.
    set (s := basic_inode_48.first_free_slot cs1 0) in *.
    assert (s = get ci k) as Hslot.
    { destruct (decide (s = get ci k)) as [|Hne]; [done|]. exfalso.
      unfold cs1 in Hnull. rewrite get_put_ne in Hnull by lia.
      by apply (population_full cs s); [lia|lia|]. }
    unfold indices_of, children_of. rewrite Hbody', Hslot.
    split; apply get_put_eq; unfold cs1; rewrite ?length_put; lia.
Qed.
End node48_claim.

Section node48_examples.
Import examples.

(** Scenario S4. *)
Lemma node48_add_spec_witness :
  let r := basic_inode_48.add (basic_inode_48.remove heap48_full 48 0x55) 48 2000 0xAA in
  get (indices_of (r.1 !!! 48)) 0xAA = get (indices_of node48_full) 0x55 ∧
  get (indices_of node48_full) 0x55 = 7.
Proof.
  destruct (proj2 node48_add_spec heap48_full 48 (indices_of node48_full)
              (children_of node48_full) 2000 0x55 0xAA) as [Hslot _].
  - reflexivity.
  - apply (bool_decide_unpack _). by vm_compute.
  - reflexivity.
  - by vm_compute.
  - by vm_compute.
  - by vm_compute.
  - split; [exact Hslot|reflexivity].
Defined.
End node48_examples.

(** ** [add] followed by [remove] *)

Section round_trip.
Implicit Types (h : heap) (this a b : Z) (ks ci : list Z) (cs : list node_ptr) (n : inode).

(** C6. In a well-formed node that is not full and has no child for the
    key byte [b], [add(leaf, b)] followed by [remove] of the entry just
    added - at the index of the iterator that [add] returned, which is
    the array index in the sorted nodes and [b] in the others - gives
    back the children by key byte and the count of before. *)
Theorem add_remove_round_trip h this n child b :
  h !!! this = n → wf_node n → num_children n < capacity_of n →
  is_byte b → ¬ key_present n b →
  let r := add_at (static_type n) h this child b in
  let h' := remove_at (static_type n) r.1 this (index r.2) in
  observable (h' !!! this) = observable n ∧
  children_count (h' !!! this) = children_count n ∧
  static_type (h' !!! this) = static_type n ∧
  prefix (h' !!! this) = prefix n.
Proof.
  intros Hn [Hinv Hmin] Hfull Hb Hfresh. subst n.
  unfold node_inv in Hinv.
  unfold min_size_of in Hmin. unfold capacity_of in Hfull.
  unfold key_present in Hfresh. unfold observable at 2. unfold static_type.
  unfold num_children in Hmin, Hfull.
  destruct (body (h !!! this)) as [ks cs|ks cs|ci cs|cs] eqn:Hbody;
    cbn zeta; cbn [add_at remove_at].
  - destruct Hinv as (Hlk & Hlc & Hc & Hbytes & Hsorted & _).
    unfold basic_inode_4.min_size, basic_inode_4.capacity in *.
    assert (2 ≤ children_count (h !!! this) ≤ 3) as Hc' by (case_bool_decide; lia).
    destruct (node4_insert_position (h !!! this) ks cs b Hbody Hlk Hbytes Hc' Hsorted)
      as (_ & Hpos & _).
    { intros i Hi Heq. apply Hfresh. by exists i. }
    destruct (node4_add_arrays h this ks cs child b Hbody Hlk Hlc ltac:(lia) Hb Hpos)
      as (ks1 & cs1 & Hks & Hcs & Hbody1 & Hcount1 & Hprefix1 & Hit & _).
    set (r := basic_inode_4.add h this child b) in *.
    set (pos := basic_inode_4.insert_position (h !!! this) b) in *.
    destruct (node4_remove_arrays r.1 this _ _ pos Hbody1)
      as (ks2 & cs2 & Hbody2 & Hks2 & Hcs2 & Hcount2 & Hprefix2);
      [rewrite length_put; destruct Hks as [-> _]; lia
      |rewrite length_put; destruct Hcs as [-> _]; lia|lia|lia|].
    rewrite Hcount1 in Hks2, Hcs2, Hcount2. rewrite Hit. cbn [index].
    unfold observable. rewrite Hbody2, Hcount2, Hprefix2, Hprefix1.
    replace (children_count (h !!! this) + 1 - 1) with (children_count (h !!! this)) by lia.
    rewrite (shift_round_trip pos _ b ks ks1 ks2), (shift_round_trip pos _ (create child LEAF) cs cs1 cs2);
      try done; lia.
  - destruct Hinv as (Hlk & Hlc & Hc & Hbytes & Hsorted & _).
    unfold basic_inode_16.min_size, basic_inode_16.capacity in *.
    assert (5 ≤ children_count (h !!! this) ≤ 15) as Hc' by (case_bool_decide; lia).
    destruct (insert_position_first_ge (h !!! this) ks cs b Hbody Hlk Hc) as (Hpos & _).
    destruct (node16_add_arrays h this ks cs child b Hbody Hlk Hlc ltac:(lia))
      as (ks1 & cs1 & Hks & Hcs & Hbody1 & Hcount1 & Hprefix1 & Hit).
    set (r := basic_inode_16.add h this child b) in *.
    set (pos := basic_inode_16.get_sorted_key_array_insert_position (h !!! this) b) in *.
    destruct (node16_remove_arrays r.1 this _ _ pos Hbody1)
      as (ks2 & cs2 & Hbody2 & Hks2 & Hcs2 & Hcount2 & Hprefix2);
      [rewrite length_put; destruct Hks as [-> _]; lia
      |rewrite length_put; destruct Hcs as [-> _]; lia|lia|lia|].
    rewrite Hcount1 in Hks2, Hcs2, Hcount2. rewrite Hit. cbn [index].
    unfold observable. rewrite Hbody2, Hcount2, Hprefix2, Hprefix1.
    replace (children_count (h !!! this) + 1 - 1) with (children_count (h !!! this)) by lia.
    rewrite (shift_round_trip pos _ b ks ks1 ks2), (shift_round_trip pos _ (create child LEAF) cs cs1 cs2);
      try done; lia.
  - destruct Hinv as (Hlk & Hlc & Hc & Hbytes & _ & _ & _ & Hpop).
    unfold basic_inode_48.min_size, basic_inode_48.capacity in *.
    assert (17 ≤ children_count (h !!! this) ≤ 47) as Hc' by (case_bool_decide; lia).
    assert (get ci b = empty_child) as Hfree
      by (destruct (decide (get ci b = empty_child)); [done|by exfalso; apply Hfresh]).
    destruct (node48_add_arrays h this ci cs child b Hbody Hlc ltac:(lia))
      as (Hs & Hnull & _ & Hbody1 & Hcount1 & Hprefix1 & Hit).
    set (r := basic_inode_48.add h this child b) in *.
    set (s := basic_inode_48.first_free_slot cs 0) in *.
    destruct (node48_remove_arrays r.1 this _ _ b Hbody1) as (Hbody2 & Hcount2 & Hprefix2).
    unfold is_byte in Hb.
    rewrite Hit. cbn [index].
    unfold observable. rewrite Hbody2, Hcount2, Hcount1, Hprefix2, Hprefix1.
    rewrite get_put_eq, !put_put by lia.
    pose proof (put_same b ci ltac:(lia)) as Hci. rewrite Hfree in Hci.
    pose proof (put_same s cs ltac:(lia)) as Hcs. rewrite Hnull in Hcs.
    rewrite Hci, Hcs.
    repeat split. unfold u8. Z.div_mod_to_equations. lia.
  - destruct Hinv as (Hlc & Hc & Hpop).
    assert (get cs b = nullptr) as Hfree
      by (destruct (decide (get cs b = nullptr)); [done|by exfalso; apply Hfresh]).
    unfold is_byte in Hb.
    unfold basic_inode_256.add, basic_inode_256.remove. cbn [fst snd index].
    set (h1 := store h this (with_children (put b (create child LEAF)))).
    set (h2 := store h1 this (λ n, set_count (u8 (children_count n + 1)) n)).
    set (h3 := store h2 this (with_children (put b nullptr))).
    set (h4 := store h3 this (λ n, set_count (u8 (children_count n - 1)) n)).
    assert (body (h4 !!! this) = Body256 cs) as Hbody4.
    { unfold h4. rewrite store_body_count. unfold h3.
      erewrite store_body_children256;
        [|unfold h2; rewrite store_body_count; unfold h1;
          by erewrite store_body_children256].
      rewrite put_put. pose proof (put_same b cs ltac:(lia)) as Hcs.
      rewrite Hfree in Hcs. by rewrite Hcs. }
    assert (children_count (h4 !!! this) = children_count (h !!! this)) as Hcount4.
    { unfold h4. rewrite store_count_count. unfold h3. rewrite store_count_children.
      unfold h2. rewrite store_count_count. unfold h1. rewrite store_count_children.
      unfold u8. Z.div_mod_to_equations. lia. }
    unfold observable. rewrite Hbody4, Hcount4.
    repeat split. unfold h4, h3, h2, h1.
    by rewrite store_prefix_count, store_prefix_children, store_prefix_count,
      store_prefix_children.
Qed.
End round_trip.

Section round_trip_examples.
Import examples.

Lemma add_remove_round_trip_witness :
  let r := add_at (static_type node16_six) heap16_six 16 2000 0x08 in
  let h' := remove_at (static_type node16_six) r.1 16 (index r.2) in
  observable (h' !!! 16) = observable node16_six ∧
  children_count (h' !!! 16) = children_count node16_six ∧
  static_type (h' !!! 16) = static_type node16_six ∧
  prefix (h' !!! 16) = prefix node16_six.
Proof.
  apply (add_remove_round_trip heap16_six 16 node16_six 2000 0x08).
  - reflexivity.
  - apply (bool_decide_unpack _). by vm_compute.
  - by vm_compute.
  - by vm_compute.
  - apply (bool_decide_unpack _). by vm_compute.
Defined.
End round_trip_examples.

(** ** [leftmost_child] and [leftmost_leaf] *)

Section leftmost.
Implicit Types (h : heap) (this a b : Z) (ks ci : list Z) (cs : list node_ptr) (n : inode).

Lemma sorted_child_in_list n ks cs i :
  (body n = Body4 ks cs ∨ body n = Body16 ks cs) →
  children_count n ≤ Z.of_nat (length ks) → children_count n ≤ Z.of_nat (length cs) →
  0 ≤ i < children_count n → get cs i ∈ children_list n.
Proof.
  intros Hbody Hlk Hlc Hi. unfold children_list, observable.
  assert ((zip (firstn_Z (children_count n) ks) (firstn_Z (children_count n) cs)).*2 =
          firstn_Z (children_count n) cs) as Hzip.
  { apply snd_zip. unfold firstn_Z. rewrite !length_take. lia. }
  destruct Hbody as [-> | ->]; rewrite Hzip; unfold firstn_Z.
  all: apply list_elem_of_lookup; exists (Z.to_nat i); rewrite lookup_take_lt by lia.
  all: apply list_lookup_lookup_total_lt; lia.
Qed.

Lemma indexed_child_in_list n ci cs b :
  body n = Body48 ci cs → is_byte b → get ci b ≠ empty_child →
  get cs (get ci b) ∈ children_list n.
Proof.
  intros Hbody Hb Hpresent. unfold children_list, observable. rewrite Hbody.
  apply list_elem_of_fmap. exists (b, get cs (get ci b)). split; [done|].
  apply list_elem_of_omap. exists b. split.
  - apply elem_of_seqZ. unfold is_byte in Hb. lia.
  - by rewrite decide_True by done.
Qed.

Lemma direct_child_in_list n cs b :
  body n = Body256 cs → is_byte b → get cs b ≠ nullptr → get cs b ∈ children_list n.
Proof.
  intros Hbody Hb Hpresent. unfold children_list, observable. rewrite Hbody.
  apply list_elem_of_fmap. exists (b, get cs b). split; [done|].
  apply list_elem_of_omap. exists b. split.
  - apply elem_of_seqZ. unfold is_byte in Hb. lia.
  - by rewrite decide_True by done.
Qed.

(** The scan of [basic_inode_48]: a result that is not the empty iterator
    is the child of a mapped key byte from [key_byte] on. *)
Lemma node48_scan_spec fuel n ci cs this key_byte :
  body n = Body48 ci cs → 0 ≤ key_byte ≤ 255 → slots_valid ci cs →
  let it := basic_inode_48.leftmost_scan fuel n this key_byte in
  (is_empty it = false → node it ∈ children_list n) ∧
  (255 - key_byte < Z.of_nat fuel →
   (∃ b, key_byte ≤ b ≤ 255 ∧ get ci b ≠ empty_child) → is_empty it = false).
Proof.
  intros Hbody Hk Hslots. revert key_byte Hk.
  induction fuel as [|fuel IH]; intros key_byte Hk it; subst it;
    cbn [basic_inode_48.leftmost_scan].
  { split; [done|]. intros Hfuel. lia. }
  unfold indices_of, children_of. rewrite Hbody.
  case_bool_decide as Hmapped.
  - unfold is_empty. cbn [node]. destruct (Hslots key_byte ltac:(lia) Hmapped) as [_ Hchild].
    split; intros;
      [apply (indexed_child_in_list n ci cs key_byte); [done|unfold is_byte; lia|done]|].
    by apply bool_decide_eq_false.
  - case_bool_decide as Hlast.
    + split; [done|]. intros _ (b & Hb & Hpresent).
      assert (b = key_byte) as -> by lia. done.
    + destruct (IH (key_byte + 1) ltac:(lia)) as [Hin Hfound].
      split; [done|]. intros Hfuel (b & Hb & Hpresent). apply Hfound; [lia|].
      exists b. split; [|done].
      destruct (decide (b = key_byte)) as [->|]; [done|lia].
Qed.

(** The scan of [basic_inode_256]. *)
Lemma node256_scan_spec fuel n cs this key_byte :
  body n = Body256 cs → 0 ≤ key_byte ≤ 256 →
  let it := basic_inode_256.leftmost_scan fuel n this key_byte in
  (is_empty it = false → node it ∈ children_list n) ∧
  (256 - key_byte ≤ Z.of_nat fuel →
   (∃ b, key_byte ≤ b ≤ 255 ∧ get cs b ≠ nullptr) → is_empty it = false).
Proof.
  intros Hbody. revert key_byte.
  induction fuel as [|fuel IH]; intros key_byte Hk it; subst it;
    cbn [basic_inode_256.leftmost_scan].
  { split; [done|]. intros Hfuel (b & Hb & _). lia. }
  unfold children_of. rewrite Hbody.
  case_bool_decide as Hend.
  2:{ split; [done|]. intros _ (b & Hb & _). lia. }
  case_bool_decide as Hpresent.
  - unfold is_empty. cbn [node].
    split; intros;
      [apply (direct_child_in_list n cs key_byte); [done|unfold is_byte; lia|done]|].
    by apply bool_decide_eq_false.
  - destruct (IH (key_byte + 1) ltac:(lia)) as [Hin Hfound].
    split; [done|]. intros Hfuel (b & Hb & Hchild). apply Hfound; [lia|].
    exists b. split; [|done].
    destruct (decide (b = key_byte)) as [->|]; [done|lia].
Qed.

(** A table that maps some key byte has a mapped entry to show, and a
    child array with a child has a non-null slot. *)
Lemma mapped_exists ci :
  0 < mapped ci → ∃ b, 0 ≤ b < Z.of_nat (length ci) ∧ get ci b ≠ empty_child.
Proof.
  unfold mapped. intros Hpos.
  destruct (filter (λ s, s ≠ empty_child) ci) as [|x l] eqn:Hfilter; [simpl in Hpos; lia|].
  assert (x ∈ filter (λ s, s ≠ empty_child) ci) as Hx by (rewrite Hfilter; left).
  apply list_elem_of_filter in Hx as [Hne Hin].
  apply elem_of_get in Hin as (b & Hb0 & Hb1 & Hget). exists b. by rewrite Hget.
Qed.

Lemma population_exists cs :
  0 < population cs → ∃ b, 0 ≤ b < Z.of_nat (length cs) ∧ get cs b ≠ nullptr.
Proof.
  unfold population. intros Hpos.
  destruct (filter (λ c, c ≠ nullptr) cs) as [|x l] eqn:Hfilter; [simpl in Hpos; lia|].
  assert (x ∈ filter (λ c, c ≠ nullptr) cs) as Hx by (rewrite Hfilter; left).
  apply list_elem_of_filter in Hx as [Hne Hin].
  apply elem_of_get in Hin as (b & Hb0 & Hb1 & Hget). exists b. by rewrite Hget.
Qed.
End leftmost.

Section leftmost_leaf.
Implicit Types (h : heap) (this a b : Z) (ks ci : list Z) (cs : list node_ptr) (n : inode)
  (p : node_ptr) (pos it : const_iterator).

Lemma get_ge {A} `{Inhabited A} (l : list A) i :
  Z.of_nat (length l) ≤ i → get l i = inhabitant.
Proof.
  intros Hi. unfold get. rewrite list_lookup_total_alt.
  by rewrite lookup_ge_None_2 by lia.
Qed.

Ltac goal_decide P H :=
  destruct (decide P) as [H|H];
  [rewrite (bool_decide_eq_true_2 P) by exact H
  |rewrite (bool_decide_eq_false_2 P) by exact H].

(** One hop of the descent: the leftmost child of a well-formed inner
    node, when there is one at or after [start], is the root of a tree
    that is less high; and there is one when [start] is 0. *)
Lemma leftmost_child_hop d h p start :
  tag p ≠ LEAF → wf_tree (S d) h p → 0 ≤ start →
  ∃ pos', basic_inode_impl.leftmost_child h p start = Some pos' ∧
          (is_empty pos' = false → wf_tree d h (node pos')) ∧
          (start = 0 → is_empty pos' = false).
Proof.
  intros Htag Hwf Hstart. cbn [wf_tree] in Hwf. rewrite decide_False in Hwf by done.
  destruct (h !! get_raw p) as [n|] eqn:Hn; [|done].
  destruct Hwf as (Htype & [Hinv Hmin] & Hchildren).
  apply lookup_total_correct in Hn. rewrite Forall_forall in Hchildren.
  unfold node_inv in Hinv. unfold min_size_of, capacity_of, num_children in Hmin.
  unfold basic_inode_impl.leftmost_child. rewrite <- Htype. unfold static_type.
  destruct (body n) as [ks cs|ks cs|ci cs|cs] eqn:Hbody.
  - destruct Hinv as (Hlk & Hlc & Hc & _ & _ & Hpresent).
    unfold basic_inode_4.min_size, basic_inode_4.capacity in Hmin.
    assert (2 ≤ children_count n) as Hc2 by (case_bool_decide; lia).
    eexists. split; [done|]. unfold basic_inode_4.leftmost_child.
    rewrite Hn. unfold children_of. rewrite Hbody.
    goal_decide (start < children_count n) Hlt;
      [|split; [by intros Hne; vm_compute in Hne|intros ->; exfalso; lia]].
    unfold is_empty. cbn [node]. split.
    + intros _. apply Hchildren, (sorted_child_in_list n ks cs); [by left|lia..].
    + intros ->. apply bool_decide_eq_false. apply Hpresent. lia.
  - destruct Hinv as (Hlk & Hlc & Hc & _ & _ & Hpresent).
    unfold basic_inode_16.min_size, basic_inode_16.capacity in Hmin.
    assert (5 ≤ children_count n) as Hc2 by (case_bool_decide; lia).
    eexists. split; [done|]. unfold basic_inode_16.leftmost_child.
    rewrite Hn. unfold children_of. rewrite Hbody.
    goal_decide (start < children_count n) Hlt;
      [|split; [by intros Hne; vm_compute in Hne|intros ->; exfalso; lia]].
    unfold is_empty. cbn [node]. split.
    + intros _. apply Hchildren, (sorted_child_in_list n ks cs); [by right|lia..].
    + intros ->. apply bool_decide_eq_false. apply Hpresent. lia.
  - destruct Hinv as (Hlk & Hlc & Hc & _ & Hslots & _ & Hmapped & _).
    unfold basic_inode_48.min_size, basic_inode_48.capacity in Hmin.
    assert (17 ≤ children_count n) as Hc2 by (case_bool_decide; lia).
    eexists. split; [done|]. unfold basic_inode_48.leftmost_child. rewrite Hn.
    goal_decide (start < 256) Hlt;
      [|split; [by intros Hne; vm_compute in Hne|intros ->; exfalso; lia]].
    destruct (node48_scan_spec 256 n ci cs (get_raw p) start Hbody ltac:(lia) Hslots)
      as [Hin Hfound].
    split; [intros Hne; by apply Hchildren, Hin|].
    intros ->. apply Hfound; [lia|].
    destruct (mapped_exists ci ltac:(lia)) as (b & Hb & Hpresent).
    exists b. split; [lia|done].
  - destruct Hinv as (Hlc & Hc & Hpop).
    unfold basic_inode_256.min_size, basic_inode_256.capacity in Hmin.
    unfold num_children in Hpop.
    eexists. split; [done|]. unfold basic_inode_256.leftmost_child. rewrite Hn.
    destruct (decide (start ≤ 256)) as [Hle|Hgt].
    + destruct (node256_scan_spec 256 n cs (get_raw p) start Hbody ltac:(lia))
        as [Hin Hfound].
      split; [intros Hne; by apply Hchildren, Hin|].
      intros ->. apply Hfound; [lia|].
      destruct (population_exists cs) as (b & Hb & Hpresent);
        [case_bool_decide; lia|].
      exists b. split; [lia|done].
    + split; [|intros ->; exfalso; lia]. intros Hne. exfalso. revert Hne.
      assert (∀ fuel k, 256 < k →
                basic_inode_256.leftmost_scan fuel n (get_raw p) k = empty_iterator)
        as Hpast.
      { induction fuel as [|fuel IH]; intros k Hk; cbn [basic_inode_256.leftmost_scan];
          [done|].
        rewrite bool_decide_eq_true_2 by lia. unfold children_of. rewrite Hbody.
        rewrite get_ge by lia. change (@inhabitant node_ptr _) with nullptr.
        rewrite null_is_null. apply IH. lia. }
      by rewrite Hpast by lia.
Qed.
End leftmost_leaf.

Section leftmost_leaf_examples.
Import examples.

(** The descent from the [basic_inode_4] of scenario S5 through its inner
    child to the first leaf of that one. *)
Example leftmost_leaf_run :
  basic_inode_impl.leftmost_leaf 3 heap_pair (create 4 I4) 0 =
    Some (Iterator (leaf 1000) 0 (create 16 I16)) ∧
  basic_inode_impl.leftmost_leaf 3 heap_pair (create 4 I4) 1 =
    Some (Iterator (leaf 1032) 1 (create 4 I4)).
Proof. by vm_compute. Qed.
End leftmost_leaf_examples.

(** ** The transitions, run *)

Section scenarios.
Import examples.

(** Growing: each new node is well formed, at its minimum size, and has
    the children of its source and the new leaf. *)
Example grow_16_to_48_run :
  children_count (heap16_full !!! 16) = 16 ∧
  wf_node (heap48_grown !!! 48) ∧
  basic_inode_48.is_min_size (heap48_grown !!! 48) = true ∧
  observable (heap48_grown !!! 48) =
    observable (heap16_full !!! 16) ++ [(0x80, leaf 3000)].
Proof.
  split; [by vm_compute|]. split; [apply (bool_decide_unpack _); by vm_compute|].
  by vm_compute.
Qed.

Example grow_48_to_256_run :
  basic_inode_48.is_full (heap48_filled !!! 48) = true ∧
  wf_node (heap256_grown !!! 256) ∧
  basic_inode_256.is_min_size (heap256_grown !!! 256) = true ∧
  observable (heap256_grown !!! 256) =
    observable (heap48_filled !!! 48) ++ [(0xF0, leaf 4000)].
Proof.
  split; [by vm_compute|]. split; [apply (bool_decide_unpack _); by vm_compute|].
  by vm_compute.
Qed.

(** Scenario S6: the shrunk node is well formed and full, and its
    children are those of the source without the removed one, in ascending
    order of the key bytes. *)
Example shrink_256_to_48_run :
  wf_node (heap48_shrunk !!! 49) ∧
  basic_inode_48.is_full (heap48_shrunk !!! 49) = true ∧
  observable (heap48_shrunk !!! 49) =
    filter (λ kc, kc.1 ≠ 0x10) (observable (heap256_grown !!! 256)) ∧
  prefix (heap48_shrunk !!! 49) = prefix (heap256_grown !!! 256).
Proof.
  split; [apply (bool_decide_unpack _); by vm_compute|]. by vm_compute.
Qed.

Example shrink_48_to_16_run :
  basic_inode_48.is_min_size (heap48_min !!! 48) = true ∧
  wf_node (heap16_shrunk !!! 17) ∧
  basic_inode_16.is_full (heap16_shrunk !!! 17) = true ∧
  observable (heap16_shrunk !!! 17) = observable (heap16_full !!! 16).
Proof.
  split; [by vm_compute|]. split; [apply (bool_decide_unpack _); by vm_compute|].
  by vm_compute.
Qed.

Example shrink_16_to_4_run :
  wf_node (heap4_shrunk !!! 5) ∧
  basic_inode_4.is_full (heap4_shrunk !!! 5) = true ∧
  keys_of (heap4_shrunk !!! 5) = [0x05; 0x10; 0x30; 0x40].
Proof.
  split; [apply (bool_decide_unpack _); by vm_compute|]. by vm_compute.
Qed.
End scenarios.

(** ** The entries of a node *)

Section entries_lemmas.
Implicit Types (h : heap) (this a b k : Z) (ks ci : list Z) (cs : list node_ptr) (n : inode)
  (c v : node_ptr) (l : list (Z * node_ptr)).

Lemma key_sorted_NoDup l : key_sorted l → NoDup l.
Proof.
  induction 1 as [|x l _ IH Hx]; constructor; [|done].
  intros Hin. rewrite Forall_forall in Hx. specialize (Hx x Hin). unfold key_lt in Hx. lia.
Qed.

(** Two lists of entries in key order with the same entries are equal. *)
Lemma key_sorted_eq l1 l2 :
  key_sorted l1 → key_sorted l2 → (∀ kv, kv ∈ l1 ↔ kv ∈ l2) → l1 = l2.
Proof.
  intros H1 H2 Hiff. apply (StronglySorted_unique_strong key_lt); [|done..|].
  - unfold key_lt. intros; lia.
  - apply NoDup_Permutation; auto using key_sorted_NoDup.
Qed.

Lemma key_sorted_filter (P : Z * node_ptr → Prop) `{!∀ x, Decision (P x)} l :
  key_sorted l → key_sorted (filter P l).
Proof.
  induction 1 as [|x l _ IH Hx]; [constructor|].
  rewrite filter_cons. case_decide; [|done]. constructor; [done|].
  rewrite Forall_forall in *. intros y [_ Hy]%list_elem_of_filter. by apply Hx.
Qed.

Lemma insert_entry_sorted b c l : key_sorted l → key_sorted (insert_entry b c l).
Proof.
  intros Hl. unfold insert_entry. apply StronglySorted_app_2.
  - intros x y [Hx _]%list_elem_of_filter Hy. unfold key_lt.
    apply elem_of_cons in Hy as [->|[Hy _]%list_elem_of_filter]; simpl in *; lia.
  - by apply key_sorted_filter.
  - constructor; [by apply key_sorted_filter|].
    rewrite Forall_forall. by intros y [Hy _]%list_elem_of_filter.
Qed.

Lemma elem_of_insert_entry b c l kv :
  kv ∈ insert_entry b c l ↔ kv = (b, c) ∨ (kv ∈ l ∧ kv.1 ≠ b).
Proof.
  unfold insert_entry. rewrite elem_of_app, elem_of_cons, !list_elem_of_filter.
  split; [intros [[? ?]|[?|[? ?]]]|intros [?|[? ?]]]; auto; try (right; split; [done|lia]).
  destruct (decide (kv.1 < b)); [left; done|right; right; split; [lia|done]].
Qed.

Lemma elem_of_remove_entry b l kv : kv ∈ remove_entry b l ↔ kv ∈ l ∧ kv.1 ≠ b.
Proof. unfold remove_entry. rewrite list_elem_of_filter. tauto. Qed.

(** In a list in key order the child of a key byte is the second half of
    its entry. *)
Lemma child_of_elem l b c : key_sorted l → (b, c) ∈ l → child_of l b = c.
Proof.
  intros Hl Hin. unfold child_of.
  destruct (list_find_elem_of (λ kv, kv.1 = b) l (b, c) Hin eq_refl) as [[i [k v]] Hfind].
  rewrite Hfind. apply list_find_Some in Hfind as (Hi%list_elem_of_lookup_2 & Hk & _).
  simpl in *. subst k.
  apply key_sorted_NoDup in Hl as Hnd.
  apply list_elem_of_lookup in Hin as [j Hj]. apply list_elem_of_lookup in Hi as [i' Hi'].
  destruct (decide (i' = j)) as [->|Hne]; [congruence|].
  exfalso. clear Hnd.
  assert (∀ i j x y, (i < j)%nat → l !! i = Some x → l !! j = Some y → key_lt x y) as Hlt.
  { clear -Hl. induction Hl as [|x l _ IH Hx]; intros i j y z Hij Hy Hz; [done|].
    destruct i as [|i], j as [|j]; try lia; simpl in *.
    - injection Hy as <-. rewrite Forall_forall in Hx. by eapply Hx, list_elem_of_lookup_2.
    - eapply (IH i j); [lia|done..]. }
  destruct (decide (i' < j)%nat).
  - specialize (Hlt i' j _ _ ltac:(lia) Hi' Hj). unfold key_lt in Hlt. simpl in Hlt. lia.
  - specialize (Hlt j i' _ _ ltac:(lia) Hj Hi'). unfold key_lt in Hlt. simpl in Hlt. lia.
Qed.

Lemma child_of_absent l b : (∀ c, (b, c) ∉ l) → child_of l b = nullptr.
Proof.
  intros Hno. unfold child_of.
  destruct (list_find _ l) as [[i [k v]]|] eqn:Hfind; [|done].
  apply list_find_Some in Hfind as (Hi%list_elem_of_lookup_2 & Hk & _). simpl in Hk. subst k.
  by destruct (Hno v).
Qed.
End entries_lemmas.

Section observable_lemmas.
Implicit Types (h : heap) (this a b k : Z) (ks ci : list Z) (cs : list node_ptr) (n : inode)
  (c v : node_ptr) (l : list (Z * node_ptr)).

Lemma elem_of_zip_take ks cs count k v :
  0 ≤ count → count ≤ Z.of_nat (length ks) → count ≤ Z.of_nat (length cs) →
  (k, v) ∈ zip (firstn_Z count ks) (firstn_Z count cs) ↔
  ∃ i, 0 ≤ i < count ∧ get ks i = k ∧ get cs i = v.
Proof.
  intros Hc Hlk Hlc. unfold firstn_Z, get. rewrite list_elem_of_lookup. split.
  - intros [i Hi]. apply lookup_zip_with_Some in Hi as (x & y & [= <- <-] & Hx & Hy).
    apply lookup_take_Some in Hx as [Hx Hlt]. apply lookup_take_Some in Hy as [Hy _].
    exists (Z.of_nat i). rewrite Nat2Z.id. split; [lia|].
    by rewrite (list_lookup_total_correct _ _ _ Hx), (list_lookup_total_correct _ _ _ Hy).
  - intros (i & Hi & <- & <-). exists (Z.to_nat i).
    apply lookup_zip_with_Some. eexists _, _. split; [done|].
    rewrite !lookup_take_lt by lia. split; apply list_lookup_lookup_total_lt; lia.
Qed.

Lemma zip_take_sorted ks cs count :
  0 ≤ count → count ≤ Z.of_nat (length ks) → count ≤ Z.of_nat (length cs) →
  sorted_keys count ks → key_sorted (zip (firstn_Z count ks) (firstn_Z count cs)).
Proof.
  intros Hc Hlk Hlc Hsorted.
  assert (∀ l, (∀ i j x y, (i < j)%nat → l !! i = Some x → l !! j = Some y → key_lt x y) →
               key_sorted l) as Hgen.
  { induction l as [|x l IH]; intros Hl; constructor.
    - apply IH. intros i j y z Hij Hy Hz. by apply (Hl (S i) (S j)); [lia|..].
    - apply Forall_forall. intros y [j Hj]%list_elem_of_lookup.
      by apply (Hl 0%nat (S j)); [lia|..]. }
  apply Hgen. intros i j [k1 v1] [k2 v2] Hij Hi Hj. unfold firstn_Z in *.
  apply lookup_zip_with_Some in Hi as (x & y & [= <- <-] & Hx & Hy).
  apply lookup_zip_with_Some in Hj as (x' & y' & [= <- <-] & Hx' & Hy').
  apply lookup_take_Some in Hx as [Hx Hlt]. apply lookup_take_Some in Hx' as [Hx' Hlt'].
  unfold key_lt. simpl.
  specialize (Hsorted (Z.of_nat i) ltac:(lia) (Z.of_nat j) ltac:(lia) ltac:(lia)).
  unfold get in Hsorted. rewrite !Nat2Z.id in Hsorted.
  by rewrite (list_lookup_total_correct _ _ _ Hx), (list_lookup_total_correct _ _ _ Hx')
    in Hsorted.
Qed.

(** The entries that a scan of the key bytes [lo .. lo + len - 1] collects. *)
Lemma elem_of_indexed (P : Z → Prop) `{!∀ b, Decision (P b)} (val : Z → node_ptr) lo len k v :
  (k, v) ∈ omap (λ b, if decide (P b) then Some (b, val b) else None) (seqZ lo len) ↔
  lo ≤ k < lo + len ∧ P k ∧ v = val k.
Proof.
  rewrite list_elem_of_omap. split.
  - intros (b & Hb%elem_of_seqZ & Hsome). case_decide; [|done].
    injection Hsome as <- <-. done.
  - intros (Hk & HP & ->). exists k. split; [by apply elem_of_seqZ|].
    by rewrite decide_True.
Qed.

Lemma indexed_sorted (P : Z → Prop) `{!∀ b, Decision (P b)} (val : Z → node_ptr) lo len :
  key_sorted (omap (λ b, if decide (P b) then Some (b, val b) else None) (seqZ lo len)).
Proof.
  destruct (decide (0 < len)) as [Hpos|Hneg].
  2:{ unfold seqZ. replace (Z.to_nat len) with 0%nat by lia. constructor. }
  rewrite <- (Z2Nat.id len) by lia. generalize (Z.to_nat len) as m. clear.
  intros m. revert lo. induction m as [|m IH]; intros lo; [constructor|].
  rewrite seqZ_cons by lia. cbn [omap list_omap].
  replace (Z.pred (Z.of_nat (S m))) with (Z.of_nat m) by lia.
  case_decide; [|apply IH]. constructor; [apply IH|].
  apply Forall_forall. intros [k v] Hin. apply elem_of_indexed in Hin.
  unfold key_lt. simpl. lia.
Qed.

Lemma length_indexed (P : Z → Prop) `{!∀ b, Decision (P b)} (val : Z → node_ptr) lo len :
  length (omap (λ b, if decide (P b) then Some (b, val b) else None) (seqZ lo len)) =
  length (filter P (seqZ lo len)).
Proof.
  induction (seqZ lo len) as [|x l IH]; [done|].
  cbn [omap list_omap]. rewrite filter_cons. case_decide; simpl; by rewrite IH.
Qed.

Lemma elem_of_observable n k v :
  node_inv n → (k, v) ∈ observable n ↔ has_entry n k v.
Proof.
  unfold node_inv, observable, has_entry, is_byte.
  destruct (body n) as [ks cs|ks cs|ci cs|cs].
  - intros (Hlk & Hlc & Hc & _). apply elem_of_zip_take; lia.
  - intros (Hlk & Hlc & Hc & _). apply elem_of_zip_take; lia.
  - intros _.
    rewrite (elem_of_indexed (λ b, get ci b ≠ empty_child) (λ b, get cs (get ci b))).
    by replace (0 + 256) with 256 by lia.
  - intros _. rewrite (elem_of_indexed (λ b, get cs b ≠ nullptr) (λ b, get cs b)).
    by replace (0 + 256) with 256 by lia.
Qed.

Lemma observable_key_sorted n : node_inv n → key_sorted (observable n).
Proof.
  unfold node_inv, observable.
  destruct (body n) as [ks cs|ks cs|ci cs|cs].
  - intros (Hlk & Hlc & Hc & _ & Hsorted & _). apply zip_take_sorted; lia || done.
  - intros (Hlk & Hlc & Hc & _ & Hsorted & _). apply zip_take_sorted; lia || done.
  - intros _. apply (indexed_sorted (λ b, get ci b ≠ empty_child) (λ b, get cs (get ci b))).
  - intros _. apply (indexed_sorted (λ b, get cs b ≠ nullptr) (λ b, get cs b)).
Qed.

(** A key byte has an entry exactly when it is present. *)
Lemma has_entry_present n k : is_byte k → (∃ v, has_entry n k v) ↔ key_present n k.
Proof.
  intros Hk. unfold has_entry, key_present. destruct (body n); split.
  all: try (intros (v & i & ? & ? & ?); by exists i).
  all: try (intros (i & ? & ?); by eexists _, i).
  all: try (intros (v & _ & ? & _); done).
  all: intros; by eexists.
Qed.

(** A node is determined, for the container, by its entries. *)
Lemma observable_eq n l :
  node_inv n → key_sorted l → (∀ k v, (k, v) ∈ l ↔ has_entry n k v) → observable n = l.
Proof.
  intros Hinv Hl Hiff. apply key_sorted_eq; [by apply observable_key_sorted|done|].
  intros [k v]. by rewrite elem_of_observable, Hiff.
Qed.
End observable_lemmas.

(** ** The arrays of a sorted node after [add] and [remove] *)

Section sorted_arrays.
Context {A : Type} `{Inhabited A}.
Implicit Types (l : list A) (i j pos count : Z).

Lemma Forall_get (P : A → Prop) l :
  (∀ i, 0 ≤ i → i < Z.of_nat (length l) → P (get l i)) → Forall P l.
Proof.
  intros Hget. apply Forall_forall. intros x Hx.
  apply elem_of_get in Hx as (i & Hi & Hlen & <-). by apply Hget.
Qed.

Lemma Forall_get_1 (P : A → Prop) l i :
  Forall P l → 0 ≤ i → i < Z.of_nat (length l) → P (get l i).
Proof. intros Hl Hi Hlen. rewrite Forall_forall in Hl. by apply Hl, get_elem_of. Qed.

(** The reads of an array whose entries from [pos] on were moved right
    and whose position [pos] was written. *)
Lemma inserted_read pos count x l l1 j :
  0 ≤ pos ≤ count → count < Z.of_nat (length l) → shifted_right pos count l l1 →
  0 ≤ j →
  get (put pos x l1) j =
  if bool_decide (j = pos) then x
  else if bool_decide (pos < j ≤ count) then get l (j - 1) else get l j.
Proof.
  intros Hpos Hlen [Hlen1 Hget] Hj. rewrite get_put by lia.
  repeat case_bool_decide; try lia; try done.
  - rewrite Hget by lia. by rewrite bool_decide_eq_true_2 by lia.
  - rewrite Hget by lia. by rewrite bool_decide_eq_false_2 by lia.
Qed.

(** The reads of an array whose entries after [idx] were moved left. *)
Lemma removed_read idx count l l1 j :
  shifted_left idx count l l1 → 0 ≤ j →
  get l1 j = if bool_decide (idx ≤ j < count - 1) then get l (j + 1) else get l j.
Proof. intros [_ Hget] Hj. by apply Hget. Qed.
End sorted_arrays.

Section sorted_entries.
Implicit Types (h : heap) (this a b k : Z) (ks ci : list Z) (cs : list node_ptr) (n : inode)
  (c v : node_ptr) (l : list (Z * node_ptr)).

(** The entries of the arrays after the insertion of [(b, c)] at [pos]. *)
Lemma with_entries pos count b c ks ks1 cs cs1 k v :
  0 ≤ pos ≤ count → with_entry pos count b ks ks1 → with_entry pos count c cs cs1 →
  (∃ i, 0 ≤ i < count + 1 ∧ get ks1 i = k ∧ get cs1 i = v) ↔
  (k = b ∧ v = c) ∨ ∃ i, 0 ≤ i < count ∧ get ks i = k ∧ get cs i = v.
Proof.
  intros Hpos Hks Hcs. split.
  - intros (i & Hi & Hk & Hv). rewrite Hks in Hk by lia. rewrite Hcs in Hv by lia.
    repeat case_bool_decide; try lia.
    + by left.
    + right. exists (i - 1). split; [lia|done].
    + right. exists i. split; [lia|done].
  - intros [[-> ->]|(i & Hi & Hk & Hv)].
    + exists pos. split; [lia|]. rewrite Hks, Hcs by lia.
      by rewrite !bool_decide_eq_true_2 by done.
    + destruct (decide (i < pos)) as [Hlt|Hge].
      * exists i. split; [lia|]. rewrite Hks, Hcs by lia.
        by rewrite !(bool_decide_eq_false_2 (i = pos)),
          !(bool_decide_eq_false_2 (pos < i)) by lia.
      * exists (i + 1). split; [lia|]. rewrite Hks, Hcs by lia.
        rewrite !(bool_decide_eq_false_2 (i + 1 = pos)),
          !(bool_decide_eq_true_2 (pos < i + 1)) by lia.
        by replace (i + 1 - 1) with i by lia.
Qed.

Lemma with_inv pos count b c ks ks1 cs cs1 :
  0 ≤ pos ≤ count → count ≤ Z.of_nat (length ks) →
  with_entry pos count b ks ks1 → with_entry pos count c cs cs1 →
  is_byte b → c ≠ nullptr →
  (∀ i, 0 ≤ i < pos → get ks i < b) → (∀ i, pos ≤ i < count → b < get ks i) →
  Forall is_byte ks → sorted_keys count ks → children_present count cs →
  (∀ j, 0 ≤ j ≤ count → is_byte (get ks1 j)) ∧
  sorted_keys (count + 1) ks1 ∧ children_present (count + 1) cs1.
Proof.
  intros Hpos Hlk Hks Hcs Hb Hc Hlow Hhigh Hbytes Hsorted Hpresent. split; [|split].
  - intros j Hj. rewrite Hks by done.
    repeat case_bool_decide; [done|apply Forall_get_1; done || lia..].
  - intros i Hi j Hj Hij. rewrite !Hks by lia.
    repeat case_bool_decide; try lia;
      first [apply Hhigh; lia|apply Hlow; lia|apply Hsorted; lia].
  - intros j Hj. rewrite Hcs by lia.
    repeat case_bool_decide; [done|apply Hpresent; lia..].
Qed.

Lemma shifted_right_with {A} `{Inhabited A} pos count (x : A) (l l1 : list A) :
  0 ≤ pos ≤ count → count < Z.of_nat (length l) → shifted_right pos count l l1 →
  with_entry pos count x l (put pos x l1).
Proof.
  intros Hpos Hlen Hl j Hj. rewrite (inserted_read pos count x l l1) by (done || lia).
  repeat case_bool_decide; done || lia.
Qed.

Lemma sorted_insert_entries pos count b c ks ks1 cs cs1 k v :
  0 ≤ pos ≤ count → count < Z.of_nat (length ks) → count < Z.of_nat (length cs) →
  shifted_right pos count ks ks1 → shifted_right pos count cs cs1 →
  (∃ i, 0 ≤ i < count + 1 ∧ get (put pos b ks1) i = k ∧ get (put pos c cs1) i = v) ↔
  (k = b ∧ v = c) ∨ ∃ i, 0 ≤ i < count ∧ get ks i = k ∧ get cs i = v.
Proof.
  intros Hpos Hlk Hlc Hks Hcs.
  apply (with_entries pos count b c ks _ cs); [done| |]; by apply shifted_right_with.
Qed.

Lemma sorted_insert_bytes pos count b ks ks1 :
  0 ≤ pos ≤ count → count < Z.of_nat (length ks) → shifted_right pos count ks ks1 →
  is_byte b → Forall is_byte ks → Forall is_byte (put pos b ks1).
Proof.
  intros Hpos Hlk Hks Hb Hbytes. apply Forall_get. intros j Hj Hlen.
  rewrite length_put in Hlen. destruct Hks as [Hlen1 Hget] eqn:E. rewrite Hlen1 in Hlen.
  rewrite (inserted_read pos count b ks ks1) by (done || lia).
  repeat case_bool_decide; [done|apply Forall_get_1; done || lia..].
Qed.

Lemma sorted_insert_present pos count c cs cs1 :
  0 ≤ pos ≤ count → count < Z.of_nat (length cs) → shifted_right pos count cs cs1 →
  c ≠ nullptr → children_present count cs → children_present (count + 1) (put pos c cs1).
Proof.
  intros Hpos Hlc Hcs Hc Hpresent j Hj.
  rewrite (inserted_read pos count c cs cs1) by (done || lia).
  repeat case_bool_decide; [done|apply Hpresent; lia..].
Qed.

(** The entries of the arrays after the removal of the entry at [idx]. *)
Lemma shifted_left_without {A} `{Inhabited A} idx count (l l1 : list A) :
  shifted_left idx count l l1 → without_entry idx count l l1.
Proof.
  intros [_ Hget] j Hj. rewrite Hget by lia.
  repeat case_bool_decide; done || lia.
Qed.

Lemma without_entries idx count ks ks1 cs cs1 k v :
  0 ≤ idx < count → sorted_keys count ks →
  without_entry idx count ks ks1 → without_entry idx count cs cs1 →
  (∃ i, 0 ≤ i < count - 1 ∧ get ks1 i = k ∧ get cs1 i = v) ↔
  (∃ i, 0 ≤ i < count ∧ get ks i = k ∧ get cs i = v) ∧ k ≠ get ks idx.
Proof.
  intros Hidx Hsorted Hks Hcs. split.
  - intros (i & Hi & Hk & Hv). rewrite Hks in Hk by done. rewrite Hcs in Hv by done.
    case_bool_decide as Hcase.
    + split; [exists (i + 1); split; [lia|done]|].
      subst k. specialize (Hsorted idx ltac:(lia) (i + 1) ltac:(lia) ltac:(lia)). lia.
    + split; [exists i; split; [lia|done]|].
      subst k. specialize (Hsorted i ltac:(lia) idx ltac:(lia) ltac:(lia)). lia.
  - intros [(i & Hi & Hk & Hv) Hne].
    assert (i ≠ idx) as Hi' by (intros ->; done).
    destruct (decide (i < idx)) as [Hlt|Hge].
    + exists i. split; [lia|]. rewrite Hks, Hcs by lia.
      by rewrite !bool_decide_eq_false_2 by lia.
    + exists (i - 1). split; [lia|]. rewrite Hks, Hcs by lia.
      rewrite !bool_decide_eq_true_2 by lia. by replace (i - 1 + 1) with i by lia.
Qed.

Lemma without_inv idx count ks ks1 cs cs1 :
  0 ≤ idx < count → count ≤ Z.of_nat (length ks) →
  without_entry idx count ks ks1 → without_entry idx count cs cs1 →
  Forall is_byte ks → sorted_keys count ks → children_present count cs →
  (∀ j, 0 ≤ j < count - 1 → is_byte (get ks1 j)) ∧
  sorted_keys (count - 1) ks1 ∧ children_present (count - 1) cs1.
Proof.
  intros Hidx Hlk Hks Hcs Hbytes Hsorted Hpresent. split; [|split].
  - intros j Hj. rewrite Hks by done. case_bool_decide; apply Forall_get_1; done || lia.
  - intros i Hi j Hj Hij. rewrite !Hks by done.
    repeat case_bool_decide; apply Hsorted; lia.
  - intros j Hj. rewrite Hcs by done. case_bool_decide; apply Hpresent; lia.
Qed.

Lemma sorted_remove_entries idx count ks ks1 cs cs1 k v :
  0 ≤ idx < count → sorted_keys count ks →
  shifted_left idx count ks ks1 → shifted_left idx count cs cs1 →
  (∃ i, 0 ≤ i < count - 1 ∧ get ks1 i = k ∧ get cs1 i = v) ↔
  (∃ i, 0 ≤ i < count ∧ get ks i = k ∧ get cs i = v) ∧ k ≠ get ks idx.
Proof.
  intros Hidx Hsorted Hks Hcs.
  apply without_entries; [done|done| |]; by apply shifted_left_without.
Qed.

Lemma sorted_remove_inv idx count ks ks1 cs cs1 :
  0 ≤ idx < count → count ≤ Z.of_nat (length ks) → count ≤ Z.of_nat (length cs) →
  shifted_left idx count ks ks1 → shifted_left idx count cs cs1 →
  Forall is_byte ks → sorted_keys count ks → children_present count cs →
  Forall is_byte ks1 ∧ sorted_keys (count - 1) ks1 ∧ children_present (count - 1) cs1.
Proof.
  intros Hidx Hlk Hlc Hks Hcs Hbytes Hsorted Hpresent.
  destruct (without_inv idx count ks ks1 cs cs1) as (_ & Hs & Hp);
    [done|done|by apply shifted_left_without|by apply shifted_left_without
    |done|done|done|].
  split; [|done].
  apply Forall_get. intros j Hj Hlen. destruct Hks as [Hlen1 Hget].
  rewrite Hlen1 in Hlen. rewrite Hget by lia.
  case_bool_decide; apply Forall_get_1; done || lia.
Qed.
End sorted_entries.

(** ** [add] keeps the invariant and adds one entry *)

Section add_entries.
Implicit Types (h : heap) (this a b k : Z) (ks ci : list Z) (cs : list node_ptr) (n : inode)
  (c v : node_ptr) (l : list (Z * node_ptr)).

Lemma mapped_app ci1 ci2 : mapped (ci1 ++ ci2) = mapped ci1 + mapped ci2.
Proof. unfold mapped. rewrite filter_app, length_app. lia. Qed.

Lemma mapped_cons s ci :
  mapped (s :: ci) = (if bool_decide (s ≠ empty_child) then 1 else 0) + mapped ci.
Proof.
  unfold mapped. rewrite filter_cons.
  case_bool_decide; case_decide; try done; rewrite ?length_cons; lia.
Qed.

Lemma mapped_put ci b s :
  0 ≤ b → b < Z.of_nat (length ci) →
  mapped (put b s ci) =
  mapped ci - (if bool_decide (get ci b ≠ empty_child) then 1 else 0)
            + (if bool_decide (s ≠ empty_child) then 1 else 0).
Proof.
  intros Hb Hlen. unfold put, get.
  assert (is_Some (ci !! Z.to_nat b)) as [x Hx] by (apply lookup_lt_is_Some; lia).
  rewrite (list_lookup_total_correct _ _ _ Hx).
  rewrite insert_take_drop by lia.
  rewrite <- (take_drop_middle ci (Z.to_nat b) x Hx) at 3.
  rewrite !mapped_app, !mapped_cons. lia.
Qed.

Lemma node4_add_inv h this n ks cs child b :
  h !!! this = n → body n = Body4 ks cs → wf_node n → children_count n < 4 →
  is_byte b → ¬ key_present n b → child ≠ 0 →
  let r := basic_inode_4.add h this child b in
  let n' := r.1 !!! this in
  node_inv n' ∧ static_type n' = I4 ∧
  (∀ k v, has_entry n' k v ↔ (k = b ∧ v = create child LEAF) ∨ has_entry n k v) ∧
  children_count n' = children_count n + 1 ∧ prefix n' = prefix n ∧
  r.2 = Iterator (create child LEAF) (basic_inode_4.insert_position n b)
          (tagged_self I4 this) ∧
  designates n' this b r.2.
Proof.
  intros Hn Hbody [Hinv Hmin] Hfull Hb Hfresh Hchild r n'. subst n.
  unfold node_inv in Hinv. unfold min_size_of, num_children in Hmin.
  unfold key_present in Hfresh. rewrite Hbody in *.
  destruct Hinv as (Hlk & Hlc & Hc & Hbytes & Hsorted & Hpresent).
  unfold capacity_of in Hmin. rewrite Hbody in Hmin. cbv beta iota in Hmin.
  unfold basic_inode_4.min_size, basic_inode_4.capacity in Hmin.
  assert (2 ≤ children_count (h !!! this) ≤ 3) as Hc' by (case_bool_decide; lia).
  destruct (node4_insert_position (h !!! this) ks cs b Hbody Hlk Hbytes Hc' Hsorted)
    as (_ & Hpos & Hlow & Hhigh).
  { intros i Hi Heq. apply Hfresh. by exists i. }
  destruct (node4_add_arrays h this ks cs child b Hbody Hlk Hlc ltac:(lia) Hb Hpos)
    as (ks1 & cs1 & Hks & Hcs & Hbody1 & Hcount1 & Hprefix1 & Hit & _).
  fold r in Hbody1, Hcount1, Hprefix1, Hit. fold n' in Hbody1, Hcount1, Hprefix1.
  set (pos := basic_inode_4.insert_position (h !!! this) b) in *.
  set (count := children_count (h !!! this)) in *.
  assert (create child LEAF ≠ nullptr) as Hleaf by (unfold nullptr; congruence).
  split; [|split; [|split; [|split; [done|split; [done|split; [done|]]]]]].
  - unfold node_inv. rewrite Hbody1, Hcount1. rewrite !length_put.
    destruct Hks as [Hlk1 ?] eqn:Eks. destruct Hcs as [Hlc1 ?] eqn:Ecs.
    split; [lia|]. split; [lia|]. split; [lia|].
    split; [apply (sorted_insert_bytes pos count b ks); done || lia|].
    split; [apply (sorted_after_insert pos count b ks); done || lia|].
    apply (sorted_insert_present pos count _ cs); done || lia.
  - unfold static_type. by rewrite Hbody1.
  - intros k v. unfold has_entry. rewrite Hbody1, Hbody, Hcount1.
    apply sorted_insert_entries; done || lia.
  - unfold designates, static_type. rewrite Hbody1, Hcount1, Hit.
    exists pos. destruct Hks as [Hlk1 ?]. destruct Hcs as [Hlc1 ?].
    split; [lia|]. rewrite !get_put_eq by lia. done.
Qed.

Lemma node16_add_inv h this n ks cs child b :
  h !!! this = n → body n = Body16 ks cs → node_inv n → children_count n < 16 →
  is_byte b → ¬ key_present n b → child ≠ 0 →
  let r := basic_inode_16.add h this child b in
  let n' := r.1 !!! this in
  node_inv n' ∧ static_type n' = I16 ∧
  (∀ k v, has_entry n' k v ↔ (k = b ∧ v = create child LEAF) ∨ has_entry n k v) ∧
  children_count n' = children_count n + 1 ∧ prefix n' = prefix n ∧
  r.2 = Iterator (create child LEAF)
          (basic_inode_16.get_sorted_key_array_insert_position n b) (tagged_self I16 this) ∧
  designates n' this b r.2.
Proof.
  intros Hn Hbody Hinv Hfull Hb Hfresh Hchild r n'. subst n.
  unfold node_inv in Hinv. unfold key_present in Hfresh. rewrite Hbody in *.
  destruct Hinv as (Hlk & Hlc & Hc & Hbytes & Hsorted & Hpresent).
  destruct (insert_position_first_ge (h !!! this) ks cs b Hbody Hlk Hc)
    as (Hpos & Hlow & Hat).
  destruct (node16_add_arrays h this ks cs child b Hbody Hlk Hlc ltac:(lia))
    as (ks1 & cs1 & Hks & Hcs & Hbody1 & Hcount1 & Hprefix1 & Hit).
  fold r in Hbody1, Hcount1, Hprefix1, Hit. fold n' in Hbody1, Hcount1, Hprefix1.
  set (pos := basic_inode_16.get_sorted_key_array_insert_position (h !!! this) b) in *.
  set (count := children_count (h !!! this)) in *.
  assert (∀ i, pos ≤ i < count → b < get ks i) as Hhigh.
  { intros i Hi. specialize (Hat ltac:(lia)).
    assert (get ks pos ≠ b) by (intros Heq; apply Hfresh; exists pos; split; [lia|done]).
    destruct (decide (i = pos)) as [->|Hne]; [lia|].
    specialize (Hsorted pos ltac:(lia) i ltac:(lia) ltac:(lia)). lia. }
  assert (create child LEAF ≠ nullptr) as Hleaf by (unfold nullptr; congruence).
  split; [|split; [|split; [|split; [done|split; [done|split; [done|]]]]]].
  - unfold node_inv. rewrite Hbody1, Hcount1. rewrite !length_put.
    destruct Hks as [Hlk1 ?] eqn:Eks. destruct Hcs as [Hlc1 ?] eqn:Ecs.
    split; [lia|]. split; [lia|]. split; [lia|].
    split; [apply (sorted_insert_bytes pos count b ks); done || lia|].
    split; [apply (sorted_after_insert pos count b ks); done || lia|].
    apply (sorted_insert_present pos count _ cs); done || lia.
  - unfold static_type. by rewrite Hbody1.
  - intros k v. unfold has_entry. rewrite Hbody1, Hbody, Hcount1.
    apply sorted_insert_entries; done || lia.
  - unfold designates, static_type. rewrite Hbody1, Hcount1, Hit.
    exists pos. destruct Hks as [Hlk1 ?]. destruct Hcs as [Hlc1 ?].
    split; [lia|]. rewrite !get_put_eq by lia. done.
Qed.

Lemma node48_add_inv h this n ci cs child b :
  h !!! this = n → body n = Body48 ci cs → node_inv n → children_count n < 48 →
  is_byte b → ¬ key_present n b → child ≠ 0 →
  let r := basic_inode_48.add h this child b in
  let n' := r.1 !!! this in
  node_inv n' ∧ static_type n' = I48 ∧
  (∀ k v, has_entry n' k v ↔ (k = b ∧ v = create child LEAF) ∨ has_entry n k v) ∧
  children_count n' = children_count n + 1 ∧ prefix n' = prefix n ∧
  r.2 = Iterator (create child LEAF) b (tagged_self I48 this) ∧
  designates n' this b r.2.
Proof.
  intros Hn Hbody Hinv Hfull Hb Hfresh Hchild r n'. subst n.
  unfold node_inv in Hinv. unfold key_present in Hfresh. rewrite Hbody in *.
  destruct Hinv as (Hlk & Hlc & Hc & Hbytes & Hvalid & Hdistinct & Hmapped & Hpop).
  assert (get ci b = empty_child) as Hfree
    by (destruct (decide (get ci b = empty_child)); [done|by exfalso; apply Hfresh]).
  destruct (node48_add_arrays h this ci cs child b Hbody Hlc ltac:(lia))
    as (Hs & Hnull & _ & Hbody1 & Hcount1 & Hprefix1 & Hit).
  fold r in Hbody1, Hcount1, Hprefix1, Hit. fold n' in Hbody1, Hcount1, Hprefix1.
  set (s := basic_inode_48.first_free_slot cs 0) in *.
  rewrite u8_byte in Hcount1 by (unfold is_byte; lia).
  assert (create child LEAF ≠ nullptr) as Hleaf by (unfold nullptr; congruence).
  unfold is_byte in Hb. unfold empty_child in *.
  assert (∀ k, 0 ≤ k < 256 → get (put b s ci) k = if bool_decide (b = k) then s else get ci k)
    as Hci by (intros; apply get_put; lia).
  assert (∀ j, 0 ≤ j → get (put s (create child LEAF) cs) j =
               if bool_decide (s = j) then create child LEAF else get cs j)
    as Hcs by (intros; apply get_put; lia).
  assert (∀ k, 0 ≤ k < 256 → get ci k ≠ 255 → 0 ≤ get ci k ∧ get ci k ≠ s) as Hother.
  { intros k Hk Hne. destruct (Hvalid k Hk Hne) as [_ Hchild'].
    split; [|by intros Heq; rewrite Heq in Hchild'].
    apply (Forall_get_1 is_byte ci k Hbytes); lia. }
  split; [|split; [|split; [|split; [done|split; [done|split; [done|]]]]]].
  4:{ unfold designates, static_type. rewrite Hbody1, Hit.
      rewrite Hci by done. rewrite bool_decide_eq_true_2 by done.
      rewrite Hcs by lia. by rewrite bool_decide_eq_true_2. }
  - unfold node_inv. rewrite Hbody1, Hcount1, !length_put.
    split; [done|]. split; [done|]. split; [lia|]. split; [|split; [|split; [|split]]].
    + apply Forall_get. intros k Hk Hlen. rewrite length_put in Hlen.
      rewrite Hci by lia. case_bool_decide; [unfold is_byte; lia|].
      apply Forall_get_1; done || lia.
    + intros k Hk Hne. rewrite Hci in Hne |- * by done.
      case_bool_decide as Hbk.
      * split; [lia|]. rewrite Hcs by lia. by rewrite bool_decide_eq_true_2.
      * destruct (Hother k Hk Hne) as [Hnn Hns]. destruct (Hvalid k Hk Hne) as [Hlt Hchild'].
        split; [done|]. rewrite Hcs by done. by rewrite bool_decide_eq_false_2.
    + intros k Hk k' Hk' Hne Heq. rewrite Hci in Hne by done. rewrite !Hci in Heq by done.
      repeat case_bool_decide; try lia.
      * subst. destruct (Hother k' Hk'); [lia|]. lia.
      * subst. destruct (Hother k Hk Hne). lia.
      * by apply Hdistinct.
    + rewrite mapped_put by lia. rewrite Hfree. unfold empty_child.
      rewrite (bool_decide_eq_false_2 (255 ≠ 255)), (bool_decide_eq_true_2 (s ≠ 255)) by lia.
      lia.
    + rewrite population_put by lia. rewrite Hnull, null_is_null.
      rewrite bool_decide_eq_true_2 by done. lia.
  - unfold static_type. by rewrite Hbody1.
  - intros k v. unfold has_entry, is_byte, empty_child. rewrite Hbody1, Hbody. split.
    + intros (Hk & Hne & ->). rewrite Hci in Hne |- * by done.
      case_bool_decide as Hbk.
      * left. split; [done|]. rewrite Hcs by lia. by rewrite bool_decide_eq_true_2.
      * right. destruct (Hother k Hk Hne) as [Hnn Hns].
        rewrite Hcs by done. by rewrite bool_decide_eq_false_2.
    + intros [[-> ->]|(Hk & Hne & ->)].
      * split; [done|]. rewrite Hci by done. rewrite bool_decide_eq_true_2 by done.
        split; [lia|]. rewrite Hcs by lia. by rewrite bool_decide_eq_true_2.
      * destruct (Hother k Hk Hne) as [Hnn Hns].
        assert (b ≠ k) by (intros ->; done).
        split; [done|]. rewrite Hci by done. rewrite bool_decide_eq_false_2 by done.
        split; [done|]. rewrite Hcs by done. by rewrite bool_decide_eq_false_2.
Qed.

Lemma node256_add_inv h this n cs child b :
  h !!! this = n → body n = Body256 cs → node_inv n → num_children n < 256 →
  is_byte b → ¬ key_present n b → child ≠ 0 →
  let r := basic_inode_256.add h this child b in
  let n' := r.1 !!! this in
  node_inv n' ∧ static_type n' = I256 ∧
  (∀ k v, has_entry n' k v ↔ (k = b ∧ v = create child LEAF) ∨ has_entry n k v) ∧
  num_children n' = num_children n + 1 ∧ prefix n' = prefix n ∧
  r.2 = Iterator (create child LEAF) b (tagged_self I256 this) ∧
  designates n' this b r.2.
Proof.
  intros Hn Hbody Hinv Hfull Hb Hfresh Hchild r n'. subst n.
  unfold node_inv in Hinv. unfold key_present in Hfresh. rewrite Hbody in *.
  destruct Hinv as (Hlc & Hc & Hpop).
  assert (get cs b = nullptr) as Hfree
    by (destruct (decide (get cs b = nullptr)); [done|by exfalso; apply Hfresh]).
  assert (create child LEAF ≠ nullptr) as Hleaf by (unfold nullptr; congruence).
  unfold is_byte in Hb.
  subst n' r. unfold basic_inode_256.add. cbn [fst snd].
  set (h1 := store h this (with_children (put b (create child LEAF)))).
  set (h2 := store h1 this (λ n, set_count (u8 (children_count n + 1)) n)).
  assert (body (h2 !!! this) = Body256 (put b (create child LEAF) cs)) as Hbody2.
  { unfold h2. rewrite store_body_count. unfold h1. by erewrite store_body_children256. }
  assert (children_count (h2 !!! this) = u8 (children_count (h !!! this) + 1)) as Hcount2.
  { unfold h2. rewrite store_count_count. unfold h1. by rewrite store_count_children. }
  assert (num_children (h2 !!! this) = num_children (h !!! this) + 1) as Hnum.
  { unfold num_children in *. rewrite Hcount2. unfold u8.
    repeat case_bool_decide; Z.div_mod_to_equations; lia. }
  assert (∀ j, 0 ≤ j → get (put b (create child LEAF) cs) j =
               if bool_decide (b = j) then create child LEAF else get cs j)
    as Hcs by (intros; apply get_put; lia).
  assert (get (children_of (h2 !!! this)) b = create child LEAF) as Hread.
  { unfold children_of. rewrite Hbody2. apply get_put_eq; lia. }
  split; [|split; [|split; [|split; [done|split; [|split]]]]].
  6:{ unfold designates, static_type. rewrite Hbody2, Hread.
      rewrite Hcs by lia. by rewrite bool_decide_eq_true_2. }
  - unfold node_inv. rewrite Hbody2, Hnum, length_put. split; [done|]. split.
    + rewrite Hcount2. unfold u8. Z.div_mod_to_equations. lia.
    + rewrite population_put by lia. rewrite Hfree, null_is_null.
      rewrite bool_decide_eq_true_2 by done. lia.
  - unfold static_type. by rewrite Hbody2.
  - intros k v. unfold has_entry, is_byte. rewrite Hbody2, Hbody. split.
    + intros (Hk & Hne & ->). rewrite Hcs in Hne |- * by lia.
      case_bool_decide; [left; done|right; done].
    + intros [[-> ->]|(Hk & Hne & ->)].
      * rewrite Hcs by lia. by rewrite bool_decide_eq_true_2.
      * assert (b ≠ k) by (intros ->; done).
        rewrite Hcs by lia. by rewrite bool_decide_eq_false_2.
  - unfold h2, h1. by rewrite store_prefix_count, store_prefix_children.
  - by rewrite Hread.
Qed.
End add_entries.

Section add_at_lemmas.
Implicit Types (h : heap) (this a b k : Z) (ks ci : list Z) (cs : list node_ptr) (n : inode)
  (c v : node_ptr) (l : list (Z * node_ptr)) (it : const_iterator).

(** The sizes of a variant go with its tag. *)
Lemma sizes_of_type n n' :
  static_type n' = static_type n →
  min_size_of n' = min_size_of n ∧ capacity_of n' = capacity_of n.
Proof. unfold static_type, min_size_of, capacity_of. by destruct (body n), (body n'). Qed.

(** A key byte has one child at most. *)
Lemma has_entry_functional n k v w :
  node_inv n → has_entry n k v → has_entry n k w → v = w.
Proof.
  unfold node_inv, has_entry. destruct (body n) as [ks cs|ks cs|ci cs|cs].
  1,2: intros (_ & _ & _ & _ & Hsorted & _) (i & Hi & Hki & <-) (j & Hj & Hkj & <-);
    destruct (decide (i = j)) as [->|Hne]; [done|exfalso];
    destruct (decide (i < j));
    [specialize (Hsorted i Hi j Hj ltac:(lia))|specialize (Hsorted j Hj i Hi ltac:(lia))];
    lia.
  all: by intros _ (_ & _ & ->) (_ & _ & ->).
Qed.

(** The iterator of the child of a key byte is determined. *)
Lemma designates_unique n this b it it' :
  node_inv n → designates n this b it → designates n this b it' → it = it'.
Proof.
  unfold node_inv, designates. destruct (body n) as [ks cs|ks cs|ci cs|cs].
  1,2: intros (_ & _ & _ & _ & Hsorted & _) (i & Hi & Hki & ->) (j & Hj & Hkj & ->);
    destruct (decide (i = j)) as [->|Hne]; [done|exfalso];
    destruct (decide (i < j));
    [specialize (Hsorted i Hi j Hj ltac:(lia))|specialize (Hsorted j Hj i Hi ltac:(lia))];
    lia.
  all: by intros _ -> ->.
Qed.

Lemma designates_entry n this b it :
  is_byte b → key_present n b → designates n this b it →
  has_entry n b (node it) ∧ parent it = create this (static_type n).
Proof.
  unfold key_present, designates, has_entry. intros Hb.
  destruct (body n) as [ks cs|ks cs|ci cs|cs].
  1,2: intros _ (i & Hi & Hk & ->); split; [by exists i|done].
  all: by intros Hp ->.
Qed.

(** [add] of every variant. *)
Lemma add_at_spec h this n child b :
  h !!! this = n → wf_node n → num_children n < capacity_of n →
  is_byte b → ¬ key_present n b → child ≠ 0 →
  let r := add_at (static_type n) h this child b in
  let n' := r.1 !!! this in
  node_inv n' ∧ static_type n' = static_type n ∧
  (∀ k v, has_entry n' k v ↔ (k = b ∧ v = create child LEAF) ∨ has_entry n k v) ∧
  num_children n' = num_children n + 1 ∧ prefix n' = prefix n ∧
  node r.2 = create child LEAF ∧ designates n' this b r.2.
Proof.
  intros Hn Hwf Hfull Hb Hfresh Hchild. pose proof Hwf as [Hinv Hmin].
  unfold capacity_of, min_size_of in Hfull, Hmin. unfold static_type.
  destruct (body n) as [ks cs|ks cs|ci cs|cs] eqn:Hbody; cbn [add_at].
  - unfold basic_inode_4.capacity, basic_inode_4.min_size, num_children in *.
    assert (children_count n < 4) as Hlt by (case_bool_decide; lia).
    destruct (node4_add_inv h this n ks cs child b Hn Hbody Hwf Hlt Hb Hfresh Hchild)
      as (H1 & H2 & H3 & H4 & H5 & H6 & H7).
    split; [exact H1|]. split; [exact H2|]. split; [exact H3|].
    split; [rewrite H4; repeat case_bool_decide; lia|].
    split; [exact H5|]. split; [by rewrite H6|exact H7].
  - unfold basic_inode_16.capacity, basic_inode_16.min_size, num_children in *.
    assert (children_count n < 16) as Hlt by (case_bool_decide; lia).
    destruct (node16_add_inv h this n ks cs child b Hn Hbody Hinv Hlt Hb Hfresh Hchild)
      as (H1 & H2 & H3 & H4 & H5 & H6 & H7).
    split; [exact H1|]. split; [exact H2|]. split; [exact H3|].
    split; [rewrite H4; repeat case_bool_decide; lia|].
    split; [exact H5|]. split; [by rewrite H6|exact H7].
  - unfold basic_inode_48.capacity, basic_inode_48.min_size, num_children in *.
    assert (children_count n < 48) as Hlt by (case_bool_decide; lia).
    destruct (node48_add_inv h this n ci cs child b Hn Hbody Hinv Hlt Hb Hfresh Hchild)
      as (H1 & H2 & H3 & H4 & H5 & H6 & H7).
    split; [exact H1|]. split; [exact H2|]. split; [exact H3|].
    split; [rewrite H4; repeat case_bool_decide; lia|].
    split; [exact H5|]. split; [by rewrite H6|exact H7].
  - destruct (node256_add_inv h this n cs child b Hn Hbody Hinv Hfull Hb Hfresh Hchild)
      as (H1 & H2 & H3 & H4 & H5 & H6 & H7).
    split; [exact H1|]. split; [exact H2|]. split; [exact H3|].
    split; [exact H4|]. split; [exact H5|]. split; [by rewrite H6|exact H7].
Qed.
End add_at_lemmas.

Section find_child_entries.
Implicit Types (h : heap) (this a b k : Z) (ks ci : list Z) (cs : list node_ptr) (n : inode)
  (c v : node_ptr) (l : list (Z * node_ptr)) (it : const_iterator).

(** The masked bit field of the lookup of a sorted node is zero when the
    key byte is not among the keys. *)
Lemma sorted_find_child_miss (ks v : list Z) count b :
  length v = 16%nat → 0 ≤ count ≤ 16 →
  (∀ i, 0 ≤ i < count → get v i = get ks i) →
  (∀ i, 0 ≤ i < count → get ks i ≠ b) →
  Z.land (_mm_movemask_epi8 (_mm_cmpeq_epi8 (_mm_set1_epi8 b) v))
    (Z.shiftl 1 count - 1) = 0.
Proof.
  intros Hlen Hc Hv Hmiss. set (bit_field := Z.land _ _).
  destruct (bit_field_first bit_field
              (λ i, bool_decide (i < count) && bool_decide (b = get v i)))
    as [_ Hfirst].
  { apply masked_field_nonneg. }
  { intros i Hi. unfold bit_field, _mm_cmpeq_epi8.
    rewrite masked_field_testbit by done. by rewrite cmpeq_lane_bit. }
  destruct (decide (bit_field = 0)) as [|Hne]; [done|exfalso].
  destruct (Hfirst Hne) as (Hnn & [Hlt Heq]%andb_true_iff & _).
  apply bool_decide_eq_true in Hlt, Heq.
  apply (Hmiss (__builtin_ctz bit_field)); [lia|]. rewrite <- Hv by lia. done.
Qed.

(** [find_child] through the dispatcher, on the entries of the node: the
    iterator of the child of a key byte that has one, the empty iterator
    for a key byte that has none. *)
Lemma find_child_entry h this n b :
  h !!! this = n → node_inv n → is_byte b →
  ∃ it, basic_inode_impl.find_child h (create this (static_type n)) b = Some it ∧
        (key_present n b → designates n this b it ∧ node it ≠ nullptr) ∧
        (¬ key_present n b → it = empty_iterator).
Proof.
  intros Hn Hinv Hb.
  unfold basic_inode_impl.find_child, node_inv, key_present, designates, static_type in *.
  destruct (body n) as [ks cs|ks cs|ci cs|cs] eqn:Hbody; cbn [tag get_raw].
  - destruct Hinv as (Hlk & Hlc & Hc & Hbytes & _ & Hcs).
    eexists; split; [done|]. unfold basic_inode_4.find_child. rewrite Hn.
    unfold keys_of, children_of. rewrite Hbody, cvtsi32_keys_integer by done.
    assert (∀ i, 0 ≤ i < children_count n → get (ks ++ replicate 12 0) i = get ks i) as Hv.
    { intros i Hi. apply get_app_l; lia. }
    assert (length (ks ++ replicate 12 0) = 16%nat) as Hlen
      by (rewrite length_app, length_replicate; lia).
    split.
    + intros Hp.
      destruct (sorted_find_child_spec ks (ks ++ replicate 12 0) cs (children_count n) b
                  (tagged_self I4 this) Hlen ltac:(lia) Hv Hcs) as [Hiff Hdes].
      apply Hiff in Hp as Hne. destruct (Hdes Hne) as (i & Hi & Hk & Hit).
      split; [by exists i|]. rewrite Hit. simpl. apply Hcs. lia.
    + intros Hmiss.
      assert (∀ i, 0 ≤ i < children_count n → get ks i ≠ b) as Hne
        by (intros i Hi Heq; apply Hmiss; by exists i).
      by rewrite (sorted_find_child_miss ks _ (children_count n) b Hlen ltac:(lia) Hv Hne).
  - destruct Hinv as (Hlk & Hlc & Hc & Hbytes & _ & Hcs).
    eexists; split; [done|]. unfold basic_inode_16.find_child. rewrite Hn.
    unfold keys_of, children_of. rewrite Hbody.
    split.
    + intros Hp.
      destruct (sorted_find_child_spec ks ks cs (children_count n) b
                  (tagged_self I16 this) Hlk Hc ltac:(done) Hcs) as [Hiff Hdes].
      apply Hiff in Hp as Hne. destruct (Hdes Hne) as (i & Hi & Hk & Hit).
      split; [by exists i|]. rewrite Hit. simpl. apply Hcs. lia.
    + intros Hmiss.
      assert (∀ i, 0 ≤ i < children_count n → get ks i ≠ b) as Hne
        by (intros i Hi Heq; apply Hmiss; by exists i).
      by rewrite (sorted_find_child_miss ks ks _ b Hlk Hc ltac:(done) Hne).
  - destruct Hinv as (Hlk & Hlc & Hc & Hbytes & Hslot & _).
    eexists; split; [done|]. unfold basic_inode_48.find_child. rewrite Hn.
    unfold indices_of, children_of. rewrite Hbody, u8_byte by done.
    split; intros Hp.
    + rewrite bool_decide_eq_true_2 by done. split; [done|]. simpl. by apply Hslot.
    + by rewrite bool_decide_eq_false_2.
  - eexists; split; [done|]. unfold basic_inode_256.find_child. rewrite Hn.
    unfold children_of. rewrite Hbody.
    split; intros Hp.
    + by rewrite bool_decide_eq_true_2.
    + by rewrite bool_decide_eq_false_2.
Qed.
End find_child_entries.

Section add_theorems.
Implicit Types (h : heap) (this a b k : Z) (ks ci : list Z) (cs : list node_ptr) (n : inode)
  (c v : node_ptr) (l : list (Z * node_ptr)) (it : const_iterator).

(** X1. [add(leaf, b)] on a well-formed node of any variant that is not
    full and has no child for the key byte [b] leaves a well-formed node
    of the same variant whose children, in ascending order of the key
    bytes, are those of before with the new leaf put in at the place of
    [b]; the number of children grows by one and the prefix stays. *)
Theorem add_inserts_entry h this n child b :
  h !!! this = n → wf_node n → num_children n < capacity_of n →
  is_byte b → ¬ key_present n b → child ≠ 0 →
  let r := add_at (static_type n) h this child b in
  let n' := r.1 !!! this in
  observable n' = insert_entry b (create child LEAF) (observable n) ∧
  wf_node n' ∧ static_type n' = static_type n ∧
  num_children n' = num_children n + 1 ∧ prefix n' = prefix n.
Proof.
  intros Hn Hwf Hfull Hb Hfresh Hchild r n'.
  destruct (add_at_spec h this n child b Hn Hwf Hfull Hb Hfresh Hchild)
    as (Hinv' & Htype & Hentries & Hnum & Hprefix & _).
  fold r in Hinv', Htype, Hentries, Hnum, Hprefix.
  fold n' in Hinv', Htype, Hentries, Hnum, Hprefix.
  destruct Hwf as [Hinv Hmin]. destruct (sizes_of_type n n' Htype) as [Hmin' Hcap'].
  split; [|split; [split; [exact Hinv'|lia]|]].
  2:{ split; [exact Htype|]. split; [exact Hnum|exact Hprefix]. }
  apply observable_eq; [exact Hinv'|by apply insert_entry_sorted, observable_key_sorted|].
  intros k v. rewrite elem_of_insert_entry, elem_of_observable, Hentries by exact Hinv.
  simpl. split.
  - intros [[= -> ->]|[Hin Hne]]; [by left|by right].
  - intros [[-> ->]|Hin]; [by left|right]. split; [exact Hin|].
    intros ->. apply Hfresh, has_entry_present; [exact Hb|by exists v].
Qed.

(** X2. After [add(leaf, b)], [find_child(b)] returns the iterator that
    [add] returned, and [find_child] of every other key byte finds the
    child it found before. *)
Theorem find_child_after_add h this n child b :
  h !!! this = n → wf_node n → num_children n < capacity_of n →
  is_byte b → ¬ key_present n b → child ≠ 0 →
  let r := add_at (static_type n) h this child b in
  let self := create this (static_type n) in
  basic_inode_impl.find_child r.1 self b = Some r.2 ∧
  node r.2 = create child LEAF ∧
  ∀ b', is_byte b' → b' ≠ b →
    ∃ it it', basic_inode_impl.find_child h self b' = Some it ∧
              basic_inode_impl.find_child r.1 self b' = Some it' ∧
              node it' = node it.
Proof.
  intros Hn Hwf Hfull Hb Hfresh Hchild r self.
  destruct (add_at_spec h this n child b Hn Hwf Hfull Hb Hfresh Hchild)
    as (Hinv' & Htype & Hentries & _ & _ & Hnode & Hdes).
  fold r in Hinv', Htype, Hentries, Hnode, Hdes.
  set (n' := r.1 !!! this) in *. destruct Hwf as [Hinv _].
  assert (∀ b', is_byte b' → key_present n' b' ↔ b' = b ∨ key_present n b') as Hpresent.
  { intros b' Hb'. rewrite <- !has_entry_present by exact Hb'. split.
    - intros (v & [[-> _]|Hv]%Hentries); [by left|right; by exists v].
    - intros [->|(v & Hv)]; eexists; apply Hentries; [by left|by right]. }
  split; [|split; [exact Hnode|]].
  - destruct (find_child_entry r.1 this n' b eq_refl Hinv' Hb) as (it & Hfind & Hhit & _).
    rewrite Htype in Hfind. fold self in Hfind. rewrite Hfind. f_equal.
    destruct Hhit as [Hdes' _]; [apply Hpresent; [exact Hb|by left]|].
    by apply (designates_unique n' this b).
  - intros b' Hb' Hne.
    destruct (find_child_entry h this n b' Hn Hinv Hb') as (it & Hfind & Hhit & Hmiss).
    destruct (find_child_entry r.1 this n' b' eq_refl Hinv' Hb')
      as (it' & Hfind' & Hhit' & Hmiss').
    rewrite Htype in Hfind'. exists it, it'. split; [exact Hfind|]. split; [exact Hfind'|].
    destruct (decide (key_present n b')) as [Hp|Hp].
    + destruct (Hhit Hp) as [Hdes1 _].
      assert (key_present n' b') as Hp' by (apply Hpresent; [exact Hb'|by right]).
      destruct (Hhit' Hp') as [Hdes2 _].
      apply (designates_entry n this b' it Hb' Hp) in Hdes1 as [He1 _].
      apply (designates_entry n' this b' it' Hb' Hp') in Hdes2 as [He2 _].
      apply (has_entry_functional n' b'); [exact Hinv'|exact He2|].
      apply Hentries. by right.
    + rewrite (Hmiss Hp), Hmiss'; [done|]. rewrite Hpresent by exact Hb'.
      intros [?|?]; done.
Qed.
End add_theorems.

Section add_examples.
Import examples.

Lemma add_inserts_entry_witness :
  let r := add_at (static_type node16_six) heap16_six 16 2000 0x08 in
  let n' := r.1 !!! 16 in
  observable n' = insert_entry 0x08 (create 2000 LEAF) (observable node16_six) ∧
  wf_node n' ∧ static_type n' = static_type node16_six ∧
  num_children n' = num_children node16_six + 1 ∧ prefix n' = prefix node16_six.
Proof.
  apply (add_inserts_entry heap16_six 16 node16_six 2000 0x08).
  - reflexivity.
  - apply (bool_decide_unpack _). by vm_compute.
  - by vm_compute.
  - by vm_compute.
  - apply (bool_decide_unpack _). by vm_compute.
  - lia.
Defined.

Lemma find_child_after_add_witness :
  let r := add_at (static_type node16_six) heap16_six 16 2000 0x08 in
  let self := create 16 (static_type node16_six) in
  basic_inode_impl.find_child r.1 self 0x08 = Some r.2 ∧
  node r.2 = create 2000 LEAF ∧
  ∀ b', is_byte b' → b' ≠ 0x08 →
    ∃ it it', basic_inode_impl.find_child heap16_six self b' = Some it ∧
              basic_inode_impl.find_child r.1 self b' = Some it' ∧
              node it' = node it.
Proof.
  apply (find_child_after_add heap16_six 16 node16_six 2000 0x08).
  - reflexivity.
  - apply (bool_decide_unpack _). by vm_compute.
  - by vm_compute.
  - by vm_compute.
  - apply (bool_decide_unpack _). by vm_compute.
  - lia.
Defined.

End add_examples.

(** ** [remove] keeps the invariant and takes one entry away *)

Section remove_entries.
Implicit Types (h : heap) (this a b k : Z) (ks ci : list Z) (cs : list node_ptr) (n : inode)
  (c v : node_ptr) (l : list (Z * node_ptr)) (it : const_iterator).

Lemma node4_remove_inv h this n ks cs idx :
  h !!! this = n → body n = Body4 ks cs → node_inv n → 0 ≤ idx < children_count n →
  let n' := basic_inode_4.remove h this idx !!! this in
  node_inv n' ∧ static_type n' = I4 ∧
  (∀ k v, has_entry n' k v ↔ has_entry n k v ∧ k ≠ get ks idx) ∧
  children_count n' = children_count n - 1 ∧ prefix n' = prefix n.
Proof.
  intros Hn Hbody Hinv Hidx n'. subst n.
  unfold node_inv in Hinv. rewrite Hbody in Hinv.
  destruct Hinv as (Hlk & Hlc & Hc & Hbytes & Hsorted & Hpresent).
  destruct (node4_remove_arrays h this ks cs idx Hbody Hlk Hlc ltac:(lia) ltac:(lia))
    as (ks' & cs' & Hbody' & Hks & Hcs & Hcount' & Hprefix').
  fold n' in Hbody', Hcount', Hprefix'.
  set (count := children_count (h !!! this)) in *.
  destruct (sorted_remove_inv idx count ks ks' cs cs') as (Hb' & Hs' & Hp');
    [lia..|done|done|done|done|done|].
  split; [|split; [|split; [|done]]].
  - unfold node_inv. rewrite Hbody', Hcount'.
    destruct Hks as [Hlk' ?]. destruct Hcs as [Hlc' ?].
    split; [lia|]. split; [lia|]. split; [lia|]. done.
  - unfold static_type. by rewrite Hbody'.
  - intros k v. unfold has_entry. rewrite Hbody', Hbody, Hcount'.
    by apply sorted_remove_entries.
Qed.

Lemma node16_remove_inv h this n ks cs idx :
  h !!! this = n → body n = Body16 ks cs → node_inv n → 0 ≤ idx < children_count n →
  let n' := basic_inode_16.remove h this idx !!! this in
  node_inv n' ∧ static_type n' = I16 ∧
  (∀ k v, has_entry n' k v ↔ has_entry n k v ∧ k ≠ get ks idx) ∧
  children_count n' = children_count n - 1 ∧ prefix n' = prefix n.
Proof.
  intros Hn Hbody Hinv Hidx n'. subst n.
  unfold node_inv in Hinv. rewrite Hbody in Hinv.
  destruct Hinv as (Hlk & Hlc & Hc & Hbytes & Hsorted & Hpresent).
  destruct (node16_remove_arrays h this ks cs idx Hbody Hlk Hlc ltac:(lia) ltac:(lia))
    as (ks' & cs' & Hbody' & Hks & Hcs & Hcount' & Hprefix').
  fold n' in Hbody', Hcount', Hprefix'.
  set (count := children_count (h !!! this)) in *.
  destruct (sorted_remove_inv idx count ks ks' cs cs') as (Hb' & Hs' & Hp');
    [lia..|done|done|done|done|done|].
  split; [|split; [|split; [|done]]].
  - unfold node_inv. rewrite Hbody', Hcount'.
    destruct Hks as [Hlk' ?]. destruct Hcs as [Hlc' ?].
    split; [lia|]. split; [lia|]. split; [lia|]. done.
  - unfold static_type. by rewrite Hbody'.
  - intros k v. unfold has_entry. rewrite Hbody', Hbody, Hcount'.
    by apply sorted_remove_entries.
Qed.

Lemma node48_remove_inv h this n ci cs b :
  h !!! this = n → body n = Body48 ci cs → node_inv n → is_byte b → key_present n b →
  let n' := basic_inode_48.remove h this b !!! this in
  node_inv n' ∧ static_type n' = I48 ∧
  (∀ k v, has_entry n' k v ↔ has_entry n k v ∧ k ≠ b) ∧
  children_count n' = children_count n - 1 ∧ prefix n' = prefix n ∧
  1 ≤ children_count n.
Proof.
  intros Hn Hbody Hinv Hb Hp n'. subst n.
  unfold node_inv in Hinv. unfold key_present in Hp. rewrite Hbody in *.
  destruct Hinv as (Hlk & Hlc & Hc & Hbytes & Hvalid & Hdistinct & Hmapped & Hpop).
  destruct (node48_remove_arrays h this ci cs b Hbody) as (Hbody' & Hcount' & Hprefix').
  fold n' in Hbody', Hcount', Hprefix'. unfold is_byte in Hb.
  destruct (Hvalid b Hb Hp) as [Hslot Hchild].
  assert (0 ≤ get ci b) as Hnn by (apply (Forall_get_1 is_byte ci b Hbytes); lia).
  assert (∀ k, 0 ≤ k < 256 →
               get (put b empty_child ci) k = if bool_decide (b = k) then empty_child
                                              else get ci k)
    as Hci by (intros; apply get_put; lia).
  assert (∀ j, 0 ≤ j → get (put (get ci b) nullptr cs) j =
               if bool_decide (get ci b = j) then nullptr else get cs j)
    as Hcs by (intros; apply get_put; lia).
  assert (∀ k, 0 ≤ k < 256 → k ≠ b → get ci k ≠ empty_child →
               0 ≤ get ci k ∧ get ci k ≠ get ci b) as Hother.
  { intros k Hk Hkb Hne. split; [apply (Forall_get_1 is_byte ci k Hbytes); lia|].
    intros Heq. apply Hkb. by apply Hdistinct. }
  assert (1 ≤ children_count (h !!! this)) as Hc1.
  { rewrite <- Hpop. pose proof (population_put cs (get ci b) nullptr Hnn ltac:(lia)) as Hput.
    rewrite null_is_null, bool_decide_eq_true_2 in Hput by done.
    pose proof (population_bounds (put (get ci b) nullptr cs)). lia. }
  rewrite u8_byte in Hcount' by (unfold is_byte; lia).
  split; [|split; [|split; [|done]]].
  - unfold node_inv. rewrite Hbody', Hcount', !length_put.
    split; [done|]. split; [done|]. split; [lia|]. split; [|split; [|split; [|split]]].
    + apply Forall_get. intros k Hk Hlen. rewrite length_put in Hlen.
      rewrite Hci by lia. case_bool_decide; [by vm_compute|].
      apply Forall_get_1; done || lia.
    + intros k Hk Hne. rewrite Hci in Hne |- * by done.
      case_bool_decide as Hbk; [done|].
      destruct (Hother k Hk ltac:(lia) Hne) as [Hnn' Hns].
      destruct (Hvalid k Hk Hne) as [Hlt Hchild'].
      split; [done|]. rewrite Hcs by done. by rewrite bool_decide_eq_false_2.
    + intros k Hk k' Hk' Hne Heq. rewrite Hci in Hne by done. rewrite !Hci in Heq by done.
      repeat case_bool_decide; try done. by apply Hdistinct.
    + rewrite mapped_put by lia. rewrite (bool_decide_eq_true_2 _ Hp).
      rewrite bool_decide_eq_false_2 by (intros Hne; by apply Hne). lia.
    + rewrite population_put by lia.
      rewrite null_is_null, bool_decide_eq_true_2 by done. lia.
  - unfold static_type. by rewrite Hbody'.
  - intros k v. unfold has_entry, is_byte. rewrite Hbody', Hbody. split.
    + intros (Hk & Hne & ->). rewrite Hci in Hne |- * by done.
      case_bool_decide as Hbk; [done|].
      destruct (Hother k Hk ltac:(lia) Hne) as [Hnn' Hns].
      rewrite Hcs by done. rewrite bool_decide_eq_false_2 by done.
      split; [done|lia].
    + intros [(Hk & Hne & ->) Hkb].
      destruct (Hother k Hk Hkb Hne) as [Hnn' Hns].
      rewrite Hci by done. rewrite bool_decide_eq_false_2 by lia.
      split; [done|]. split; [done|]. rewrite Hcs by done.
      by rewrite bool_decide_eq_false_2.
Qed.

Lemma node256_remove_inv h this n cs b :
  h !!! this = n → body n = Body256 cs → node_inv n → 2 ≤ num_children n →
  is_byte b → key_present n b →
  let n' := basic_inode_256.remove h this b !!! this in
  node_inv n' ∧ static_type n' = I256 ∧
  (∀ k v, has_entry n' k v ↔ has_entry n k v ∧ k ≠ b) ∧
  num_children n' = num_children n - 1 ∧ prefix n' = prefix n.
Proof.
  intros Hn Hbody Hinv Hmin Hb Hp n'. subst n.
  unfold node_inv in Hinv. unfold key_present in Hp. rewrite Hbody in *.
  destruct Hinv as (Hlc & Hc & Hpop). unfold is_byte in Hb.
  subst n'. unfold basic_inode_256.remove.
  set (h1 := store h this (with_children (put b nullptr))).
  set (h2 := store h1 this (λ n, set_count (u8 (children_count n - 1)) n)).
  assert (body (h2 !!! this) = Body256 (put b nullptr cs)) as Hbody2.
  { unfold h2. rewrite store_body_count. unfold h1. by erewrite store_body_children256. }
  assert (children_count (h2 !!! this) = u8 (children_count (h !!! this) - 1)) as Hcount2.
  { unfold h2. rewrite store_count_count. unfold h1. by rewrite store_count_children. }
  assert (num_children (h2 !!! this) = num_children (h !!! this) - 1) as Hnum.
  { unfold num_children in *. rewrite Hcount2. unfold u8.
    repeat case_bool_decide; Z.div_mod_to_equations; lia. }
  assert (∀ j, 0 ≤ j → get (put b nullptr cs) j =
               if bool_decide (b = j) then nullptr else get cs j)
    as Hcs by (intros; apply get_put; lia).
  split; [|split; [|split; [|split; [done|]]]].
  - unfold node_inv. rewrite Hbody2, Hnum, length_put. split; [done|]. split.
    + rewrite Hcount2. unfold u8. Z.div_mod_to_equations. lia.
    + rewrite population_put by lia.
      rewrite null_is_null, bool_decide_eq_true_2 by done. lia.
  - unfold static_type. by rewrite Hbody2.
  - intros k v. unfold has_entry, is_byte. rewrite Hbody2, Hbody. split.
    + intros (Hk & Hne & ->). rewrite Hcs in Hne |- * by lia.
      case_bool_decide; [done|]. split; [done|lia].
    + intros [(Hk & Hne & ->) Hkb].
      rewrite Hcs by lia. by rewrite bool_decide_eq_false_2 by lia.
  - unfold h2, h1. by rewrite store_prefix_count, store_prefix_children.
Qed.

(** [remove] of every variant, at the index of the iterator of the child
    of the key byte [b]. *)
Lemma remove_at_spec h this n b it :
  h !!! this = n → node_inv n → 2 ≤ num_children n →
  is_byte b → key_present n b → designates n this b it →
  let n' := remove_at (static_type n) h this (index it) !!! this in
  node_inv n' ∧ static_type n' = static_type n ∧
  (∀ k v, has_entry n' k v ↔ has_entry n k v ∧ k ≠ b) ∧
  num_children n' = num_children n - 1 ∧ prefix n' = prefix n.
Proof.
  intros Hn Hinv Hmin Hb Hp Hdes.
  unfold key_present in Hp. unfold designates in Hdes. unfold static_type.
  destruct (body n) as [ks cs|ks cs|ci cs|cs] eqn:Hbody; cbn [remove_at].
  - destruct Hdes as (i & Hi & Hk & ->). cbn [index].
    destruct (node4_remove_inv h this n ks cs i Hn Hbody Hinv Hi)
      as (H1 & H2 & H3 & H4 & H5).
    rewrite Hk in H3.
    split; [exact H1|]. split; [exact H2|]. split; [exact H3|]. split; [|exact H5].
    unfold num_children in *. rewrite H4. repeat case_bool_decide; lia.
  - destruct Hdes as (i & Hi & Hk & ->). cbn [index].
    destruct (node16_remove_inv h this n ks cs i Hn Hbody Hinv Hi)
      as (H1 & H2 & H3 & H4 & H5).
    rewrite Hk in H3.
    split; [exact H1|]. split; [exact H2|]. split; [exact H3|]. split; [|exact H5].
    unfold num_children in *. rewrite H4. repeat case_bool_decide; lia.
  - rewrite Hdes. cbn [index].
    assert (key_present n b) as Hp' by (unfold key_present; by rewrite Hbody).
    destruct (node48_remove_inv h this n ci cs b Hn Hbody Hinv Hb Hp')
      as (H1 & H2 & H3 & H4 & H5 & H6).
    split; [exact H1|]. split; [exact H2|]. split; [exact H3|]. split; [|exact H5].
    unfold num_children in *. rewrite H4. repeat case_bool_decide; lia.
  - rewrite Hdes. cbn [index].
    assert (key_present n b) as Hp' by (unfold key_present; by rewrite Hbody).
    exact (node256_remove_inv h this n cs b Hn Hbody Hinv Hmin Hb Hp').
Qed.
End remove_entries.

Section remove_theorems.
Implicit Types (h : heap) (this a b k : Z) (ks ci : list Z) (cs : list node_ptr) (n : inode)
  (c v : node_ptr) (l : list (Z * node_ptr)) (it : const_iterator).

(** The iterator that [find_child] returns for a key byte, when it is not
    the empty one, is the iterator of the child of a present key byte. *)
Lemma find_child_hit h this n b it :
  h !!! this = n → node_inv n → is_byte b →
  basic_inode_impl.find_child h (create this (static_type n)) b = Some it →
  is_empty it = false →
  key_present n b ∧ designates n this b it.
Proof.
  intros Hn Hinv Hb Hfind Hne.
  destruct (find_child_entry h this n b Hn Hinv Hb) as (it' & Hfind' & Hhit & Hmiss).
  rewrite Hfind in Hfind'. injection Hfind' as <-.
  destruct (decide (key_present n b)) as [Hp|Hp].
  - split; [exact Hp|]. by destruct (Hhit Hp).
  - rewrite (Hmiss Hp) in Hne. done.
Qed.

(** X3. [remove] at the index of the iterator that [find_child(b)]
    returned, on a node of any variant with two children at least, leaves
    a node of the same variant that satisfies the invariant and whose
    children, in ascending order of the key bytes, are those of before
    without the child of [b]; the number of children drops by one and
    the prefix stays. *)
Theorem remove_deletes_entry h this n b it :
  h !!! this = n → node_inv n → 2 ≤ num_children n → is_byte b →
  basic_inode_impl.find_child h (create this (static_type n)) b = Some it →
  is_empty it = false →
  let n' := remove_at (static_type n) h this (index it) !!! this in
  observable n' = remove_entry b (observable n) ∧
  node_inv n' ∧ static_type n' = static_type n ∧
  num_children n' = num_children n - 1 ∧ prefix n' = prefix n.
Proof.
  intros Hn Hinv Hmin Hb Hfind Hne n'.
  destruct (find_child_hit h this n b it Hn Hinv Hb Hfind Hne) as [Hp Hdes].
  destruct (remove_at_spec h this n b it Hn Hinv Hmin Hb Hp Hdes)
    as (Hinv' & Htype & Hentries & Hnum & Hprefix).
  fold n' in Hinv', Htype, Hentries, Hnum, Hprefix.
  split; [|split; [exact Hinv'|split; [exact Htype|split; [exact Hnum|exact Hprefix]]]].
  apply observable_eq; [exact Hinv'| |].
  - by apply key_sorted_filter, observable_key_sorted.
  - intros k v. rewrite elem_of_remove_entry, elem_of_observable, Hentries by exact Hinv.
    done.
Qed.

(** X4. After that [remove], [find_child(b)] returns the empty iterator,
    and [find_child] of every other key byte finds the child it found
    before. *)
Theorem find_child_after_remove h this n b it :
  h !!! this = n → node_inv n → 2 ≤ num_children n → is_byte b →
  let self := create this (static_type n) in
  basic_inode_impl.find_child h self b = Some it → is_empty it = false →
  let h' := remove_at (static_type n) h this (index it) in
  basic_inode_impl.find_child h' self b = Some empty_iterator ∧
  ∀ b', is_byte b' → b' ≠ b →
    ∃ it1 it2, basic_inode_impl.find_child h self b' = Some it1 ∧
               basic_inode_impl.find_child h' self b' = Some it2 ∧
               node it2 = node it1.
Proof.
  intros Hn Hinv Hmin Hb self Hfind Hne h'.
  destruct (find_child_hit h this n b it Hn Hinv Hb Hfind Hne) as [Hp Hdes].
  destruct (remove_at_spec h this n b it Hn Hinv Hmin Hb Hp Hdes)
    as (Hinv' & Htype & Hentries & _).
  fold h' in Hinv', Htype, Hentries. set (n' := h' !!! this) in *.
  assert (∀ b', is_byte b' → key_present n' b' ↔ key_present n b' ∧ b' ≠ b) as Hpresent.
  { intros b' Hb'. rewrite <- !has_entry_present by exact Hb'. split.
    - intros (v & [Hv Hk]%Hentries). split; [by exists v|exact Hk].
    - intros [(v & Hv) Hk]. exists v. by apply Hentries. }
  split.
  - destruct (find_child_entry h' this n' b eq_refl Hinv' Hb) as (it' & Hfind' & _ & Hmiss).
    rewrite Htype in Hfind'. fold self in Hfind'. rewrite Hfind'. f_equal.
    apply Hmiss. rewrite Hpresent by exact Hb. by intros [_ ?].
  - intros b' Hb' Hk.
    destruct (find_child_entry h this n b' Hn Hinv Hb') as (it1 & Hfind1 & Hhit1 & Hmiss1).
    destruct (find_child_entry h' this n' b' eq_refl Hinv' Hb')
      as (it2 & Hfind2 & Hhit2 & Hmiss2).
    rewrite Htype in Hfind2. exists it1, it2. split; [exact Hfind1|]. split; [exact Hfind2|].
    destruct (decide (key_present n b')) as [Hp1|Hp1].
    + destruct (Hhit1 Hp1) as [Hdes1 _].
      assert (key_present n' b') as Hp2 by (by apply Hpresent).
      destruct (Hhit2 Hp2) as [Hdes2 _].
      apply (designates_entry n this b' it1 Hb' Hp1) in Hdes1 as [He1 _].
      apply (designates_entry n' this b' it2 Hb' Hp2) in Hdes2 as [He2 _].
      apply Hentries in He2 as [He2 _].
      by apply (has_entry_functional n b').
    + rewrite (Hmiss1 Hp1), Hmiss2; [done|]. rewrite Hpresent by exact Hb'.
      by intros [? _].
Qed.
End remove_theorems.

Section remove_examples.
Import examples.

Lemma remove_deletes_entry_witness :
  let n' := remove_at (static_type node16_six) heap16_six 16 2 !!! 16 in
  observable n' = remove_entry 7 (observable node16_six) ∧
  node_inv n' ∧ static_type n' = static_type node16_six ∧
  num_children n' = num_children node16_six - 1 ∧ prefix n' = prefix node16_six.
Proof.
  apply (remove_deletes_entry heap16_six 16 node16_six 7
           (Iterator (leaf 1002) 2 (create 16 I16))).
  - reflexivity.
  - apply (bool_decide_unpack _). by vm_compute.
  - by vm_compute.
  - by vm_compute.
  - by vm_compute.
  - reflexivity.
Defined.

Lemma find_child_after_remove_witness :
  let self := create 16 (static_type node16_six) in
  let h' := remove_at (static_type node16_six) heap16_six 16 2 in
  basic_inode_impl.find_child h' self 7 = Some empty_iterator ∧
  ∀ b', is_byte b' → b' ≠ 7 →
    ∃ it1 it2, basic_inode_impl.find_child heap16_six self b' = Some it1 ∧
               basic_inode_impl.find_child h' self b' = Some it2 ∧
               node it2 = node it1.
Proof.
  apply (find_child_after_remove heap16_six 16 node16_six 7
           (Iterator (leaf 1002) 2 (create 16 I16))).
  - reflexivity.
  - apply (bool_decide_unpack _). by vm_compute.
  - by vm_compute.
  - by vm_compute.
  - by vm_compute.
  - reflexivity.
Defined.

End remove_examples.

(** ** Writes to the arrays of a node and to the links of its children *)

Section writes_lemmas.
Implicit Types (h : heap) (this a b k : Z) (ks ci : list Z) (cs : list node_ptr) (n : inode)
  (c v : node_ptr) (W : list (node_ptr * Z)) (T : node_type).

Lemma with_keys_body_only f : body_only (with_keys f).
Proof.
  intros n. unfold with_keys, static_type.
  destruct (body n) eqn:Hbody; simpl; by rewrite ?Hbody.
Qed.

Lemma with_indices_body_only f : body_only (with_indices f).
Proof.
  intros n. unfold with_indices, static_type.
  destruct (body n) eqn:Hbody; simpl; by rewrite ?Hbody.
Qed.

Lemma with_children_body_only f : body_only (with_children f).
Proof. intros n. unfold with_children, static_type. simpl. by destruct (body n). Qed.

Lemma writes_app T this h h1 h2 W1 W2 :
  writes T this h h1 W1 → writes T this h1 h2 W2 → writes T this h h2 (W1 ++ W2).
Proof.
  intros H1 H2. induction H2 as [|h2 W2 g _ IH Hg|h2 W2 c j _ IH].
  - by rewrite app_nil_r.
  - by constructor.
  - rewrite app_assoc. by constructor.
Qed.

Lemma writes_one_body T this h g : body_only g → writes T this h (store h this g) [].
Proof. intros Hg. apply writes_body; [constructor|done]. Qed.

Lemma writes_one_link T this h c j : writes T this h (reparent T h this c j) [(c, j)].
Proof. apply (writes_link T this h h [] c j). constructor. Qed.

(** What the writes leave alone: the counts, prefixes and tags of all
    nodes, and the arrays of all nodes but the one at [this]. *)
Lemma writes_frame T this h h' W a :
  writes T this h h' W →
  children_count (h' !!! a) = children_count (h !!! a) ∧
  prefix (h' !!! a) = prefix (h !!! a) ∧
  static_type (h' !!! a) = static_type (h !!! a) ∧
  (a ≠ this → body (h' !!! a) = body (h !!! a)).
Proof.
  induction 1 as [|h1 W g _ IH Hg|h1 W c j _ IH]; [done| |].
  - destruct IH as (IH1 & IH2 & IH3 & IH4).
    destruct (decide (this = a)) as [->|Hne].
    + rewrite store_eq. destruct (Hg (h1 !!! a)) as (-> & _ & _ & -> & ->). done.
    + by rewrite store_ne.
  - rewrite reparent_count, reparent_prefix, reparent_body.
    destruct IH as (IH1 & IH2 & IH3 & IH4). split; [done|]. split; [done|]. split; [|done].
    unfold static_type in *. by rewrite reparent_body.
Qed.

(** The links of a node that is not among the reparented ones stay. *)
Lemma writes_unlinked T this h h' W a :
  writes T this h h' W →
  (∀ c j, (c, j) ∈ W → tag c ≠ LEAF → get_raw c ≠ a) →
  parent_ (h' !!! a) = parent_ (h !!! a) ∧
  pos_in_parent (h' !!! a) = pos_in_parent (h !!! a).
Proof.
  induction 1 as [|h1 W g _ IH Hg|h1 W c j _ IH]; intros Hout; [done| |].
  - destruct (IH Hout) as [<- <-].
    destruct (decide (this = a)) as [->|Hne].
    + rewrite store_eq. by destruct (Hg (h1 !!! a)) as (_ & -> & -> & _).
    + by rewrite store_ne.
  - destruct IH as [<- <-].
    { intros c' j' Hin. apply (Hout c' j'). apply elem_of_app. by left. }
    destruct (decide (tag c = LEAF)) as [Hleaf|Hinner].
    + by rewrite reparent_leaf.
    + rewrite reparent_other; [done|]. intros ->.
      apply (Hout c j); [|done..]. apply elem_of_app. right. by left.
Qed.

(** A pair whose node no later pair reparents again holds in the end. *)
Lemma writes_linked T this h h' W1 c j W2 :
  writes T this h h' (W1 ++ (c, j) :: W2) →
  (∀ c' j', (c', j') ∈ W2 → tag c' ≠ LEAF → get_raw c' ≠ get_raw c) →
  links_to h' (tagged_self T this) c (u8 j).
Proof.
  intros Hw. remember (W1 ++ (c, j) :: W2) as W eqn:HW.
  revert W2 HW. induction Hw as [|h1 W g _ IH Hg|h1 W c' j' Hw IH]; intros W2 HW Hlater Hinner.
  - by destruct W1.
  - destruct (IH W2 HW Hlater Hinner) as [<- <-].
    destruct (decide (this = get_raw c)) as [->|Hne].
    + rewrite store_eq. by destruct (Hg (h1 !!! get_raw c)) as (_ & -> & -> & _).
    + by rewrite store_ne.
  - destruct W2 as [|p W2 _] using rev_ind.
    + apply app_inj_tail in HW as [-> [= -> ->]]. by apply reparent_link.
    + rewrite app_comm_cons, app_assoc in HW. apply app_inj_tail in HW as [-> <-].
      destruct (IH W2 eq_refl) as [<- <-]; [|done|].
      { intros c1 j1 Hin. apply (Hlater c1 j1). apply elem_of_app. by left. }
      destruct (decide (tag c' = LEAF)) as [Hleaf|Hinner'].
      * by rewrite reparent_leaf.
      * rewrite reparent_other; [done|]. intros Heq.
        apply (Hlater c' j'); [|done..]. apply elem_of_app. right. by left.
Qed.
End writes_lemmas.

(** ** The arrays of a node after writes through its setters *)

Section accessors.
Implicit Types (h : heap) (this a b k : Z) (ks ci : list Z) (cs : list node_ptr) (n : inode)
  (c v : node_ptr) (W : list (node_ptr * Z)) (T : node_type).

Lemma sorted_type n : static_type n = I4 ∨ static_type n = I16 ↔
                      ∃ ks cs, body n = Body4 ks cs ∨ body n = Body16 ks cs.
Proof.
  unfold static_type. destruct (body n) as [ks cs|ks cs|ci cs|cs]; split.
  all: try (intros _; eexists _, _; by (left + right)).
  all: try (intros _; by (left + right)).
  all: try (intros [?|?]; done).
  all: intros (? & ? & [?|?]); done.
Qed.

Lemma store_keys_of h a f :
  static_type (h !!! a) = I4 ∨ static_type (h !!! a) = I16 →
  keys_of (store h a (with_keys f) !!! a) = f (keys_of (h !!! a)).
Proof.
  intros (ks & cs & [Hb|Hb])%sorted_type; rewrite store_eq; unfold with_keys, keys_of;
    by rewrite Hb.
Qed.

Lemma store_keys_children h a b f :
  children_of (store h a (with_keys f) !!! b) = children_of (h !!! b).
Proof.
  apply store_preserved. intros n. unfold children_of, with_keys.
  destruct (body n) eqn:Hbody; simpl; by rewrite ?Hbody.
Qed.

Lemma store_keys_type h a b f :
  static_type (store h a (with_keys f) !!! b) = static_type (h !!! b).
Proof. apply store_preserved. intros n. apply with_keys_body_only. Qed.

Lemma store_indices_of h a f :
  static_type (h !!! a) = I48 →
  indices_of (store h a (with_indices f) !!! a) = f (indices_of (h !!! a)).
Proof.
  intros Ht. rewrite store_eq. unfold with_indices, indices_of, static_type in *.
  by destruct (body (h !!! a)).
Qed.

Lemma store_indices_children h a b f :
  children_of (store h a (with_indices f) !!! b) = children_of (h !!! b).
Proof.
  apply store_preserved. intros n. unfold children_of, with_indices.
  destruct (body n) eqn:Hbody; simpl; by rewrite ?Hbody.
Qed.

Lemma store_indices_type h a b f :
  static_type (store h a (with_indices f) !!! b) = static_type (h !!! b).
Proof. apply store_preserved. intros n. apply with_indices_body_only. Qed.

(** The body of a node from its tag and its arrays. *)
Lemma body_of_arrays n :
  body n = match static_type n with
           | I4 | LEAF => Body4 (keys_of n) (children_of n)
           | I16 => Body16 (keys_of n) (children_of n)
           | I48 => Body48 (indices_of n) (children_of n)
           | I256 => Body256 (children_of n)
           end.
Proof. unfold static_type, keys_of, indices_of, children_of. by destruct (body n). Qed.

(** The links after the calls [reparent] for the images under [F] of a
    list of places of the source, when the children there are different
    nodes. *)
Lemma writes_linked_all {X} `{EqDecision X} T this h h' (F : X → node_ptr * Z) (L : list X) :
  writes T this h h' (F <$> L) → NoDup L →
  (∀ x y, x ∈ L → y ∈ L → x ≠ y → tag (F x).1 ≠ LEAF → tag (F y).1 ≠ LEAF →
          get_raw (F x).1 ≠ get_raw (F y).1) →
  ∀ x, x ∈ L → links_to h' (tagged_self T this) (F x).1 (u8 (F x).2).
Proof.
  intros Hw Hnd Hdistinct x Hx Hinner.
  apply list_elem_of_split in Hx as (L1 & L2 & ->).
  rewrite fmap_app, fmap_cons in Hw. destruct (F x) as [c j] eqn:HF. simpl in *.
  apply (writes_linked T this h h' (F <$> L1) c j (F <$> L2)); [done| |done].
  intros c' j' (y & Hy & Hin)%list_elem_of_fmap Hinner' Heq.
  apply NoDup_app in Hnd as (_ & _ & Hnd). apply NoDup_cons in Hnd as [Hnotin _].
  apply (Hdistinct y x); rewrite ?HF, <- ?Hy; simpl; try done.
  - apply elem_of_app. right. by right.
  - apply elem_of_app. right. by left.
  - by intros ->.
Qed.

Lemma writes_linked_at {X} `{EqDecision X} T this h h' (F : X → node_ptr * Z) (L : list X)
    x c j :
  writes T this h h' (F <$> L) → NoDup L →
  (∀ x y, x ∈ L → y ∈ L → x ≠ y → tag (F x).1 ≠ LEAF → tag (F y).1 ≠ LEAF →
          get_raw (F x).1 ≠ get_raw (F y).1) →
  x ∈ L → F x = (c, j) → is_byte j → links_to h' (tagged_self T this) c j.
Proof.
  intros Hw Hnd Hdistinct Hx HF Hj.
  pose proof (writes_linked_all T this h h' F L Hw Hnd Hdistinct x Hx) as Hlink.
  rewrite HF in Hlink. cbn [fst snd] in Hlink. by rewrite (u8_byte j Hj) in Hlink.
Qed.
End accessors.

Section copies.
Context {A : Type} `{Inhabited A}.
Implicit Types (l : list A) (i j : Z).

Lemma copied_nil dst from src l : copied dst 0 from src l l.
Proof. split; [done|]. intros j Hj. rewrite bool_decide_eq_false_2; [done|lia]. Qed.

(** One more entry copied, at the front of the range. *)
Lemma copied_step dst len from src l l' :
  0 ≤ dst → dst < Z.of_nat (length l) → 0 ≤ len →
  copied (dst + 1) len from (src + 1) (put dst (get from src) l) l' →
  copied dst (len + 1) from src l l'.
Proof.
  intros Hdst Hlen Hl [Hlen' Hget]. rewrite length_put in Hlen'. split; [done|].
  intros j Hj. rewrite Hget by done.
  destruct (decide (j = dst)) as [->|Hne].
  - rewrite bool_decide_eq_false_2, bool_decide_eq_true_2 by lia.
    rewrite get_put_eq by lia. f_equal. lia.
  - repeat case_bool_decide; try lia.
    + f_equal. lia.
    + by rewrite get_put_ne by lia.
Qed.
End copies.

(** ** Shrinking a [basic_inode_16] into a [basic_inode_4] *)

Section shrink4_loops.
Implicit Types (h : heap) (this source a b k : Z) (ks ci : list Z) (cs : list node_ptr)
  (n : inode) (c v : node_ptr) (W : list (node_ptr * Z)) (T : node_type).

(** The arrays of another node than the one written. *)
Lemma writes_source T this h h' W source :
  writes T this h h' W → this ≠ source →
  keys_of (h' !!! source) = keys_of (h !!! source) ∧
  indices_of (h' !!! source) = indices_of (h !!! source) ∧
  children_of (h' !!! source) = children_of (h !!! source).
Proof.
  intros Hw Hne. destruct (writes_frame T this h h' W source Hw) as (_ & _ & _ & Hbody).
  unfold keys_of, indices_of, children_of. by rewrite Hbody by done.
Qed.

(** One round of the copy loops. *)
Lemma shrink4_copy_spec this source src index h :
  this ≠ source → static_type (h !!! this) = I4 →
  0 ≤ index → index < Z.of_nat (length (children_of (h !!! this))) →
  let h' := basic_inode_4.shrink_copy this source src index h in
  keys_of (h' !!! this) =
    put index (get (keys_of (h !!! source)) src) (keys_of (h !!! this)) ∧
  children_of (h' !!! this) =
    put index (get (children_of (h !!! source)) src) (children_of (h !!! this)) ∧
  writes I4 this h h' [(get (children_of (h !!! source)) src, index)].
Proof.
  intros Hne Htype Hindex Hlen h'. subst h'. unfold basic_inode_4.shrink_copy.
  set (h1 := store h this (with_keys _)).
  assert (children_of (h1 !!! source) = children_of (h !!! source)) as Hsrc
    by apply store_keys_children.
  rewrite Hsrc.
  set (h2 := store h1 this (with_children _)).
  assert (children_of (h2 !!! this) =
          put index (get (children_of (h !!! source)) src) (children_of (h !!! this)))
    as Hcs.
  { unfold h2. rewrite store_children_of. unfold h1. by rewrite store_keys_children. }
  rewrite Hcs, get_put_eq by done.
  split; [|split].
  - rewrite reparent_keys. unfold h2. rewrite store_children_keys. unfold h1.
    apply store_keys_of. by left.
  - by rewrite reparent_children.
  - apply (writes_app I4 this h h2 _ [] [_]); [|apply writes_one_link].
    apply writes_body; [|apply with_children_body_only].
    apply writes_one_body, with_keys_body_only.
Qed.

(** A copy loop of the constructor. *)
Lemma shrink4_loop_spec fuel this source stop src index h :
  this ≠ source → static_type (h !!! this) = I4 →
  0 ≤ src ≤ stop → stop - src ≤ Z.of_nat fuel → 0 ≤ index →
  index + (stop - src) ≤ Z.of_nat (length (keys_of (h !!! this))) →
  index + (stop - src) ≤ Z.of_nat (length (children_of (h !!! this))) →
  index + (stop - src) < 256 →
  let r := basic_inode_4.shrink_loop fuel this source stop src index h in
  r.2 = index + (stop - src) ∧
  copied index (stop - src) (keys_of (h !!! source)) src
    (keys_of (h !!! this)) (keys_of (r.1 !!! this)) ∧
  copied index (stop - src) (children_of (h !!! source)) src
    (children_of (h !!! this)) (children_of (r.1 !!! this)) ∧
  writes I4 this h r.1
    ((λ s, (get (children_of (h !!! source)) s, index + (s - src))) <$>
       seqZ src (stop - src)).
Proof.
  intros Hne. revert src index h.
  induction fuel as [|fuel IH]; intros src index h Htype Hsrc Hfuel Hindex Hlk Hlc H8 r;
    subst r; cbn [basic_inode_4.shrink_loop].
  { assert (stop - src = 0) as -> by lia. cbn [fst snd].
    split; [lia|]. split; [apply copied_nil|]. split; [apply copied_nil|]. constructor. }
  case_bool_decide as Hstop.
  2:{ assert (stop - src = 0) as -> by lia. cbn [fst snd].
      split; [lia|]. split; [apply copied_nil|]. split; [apply copied_nil|]. constructor. }
  destruct (shrink4_copy_spec this source src index h Hne Htype Hindex ltac:(lia))
    as (Hks1 & Hcs1 & Hw1).
  set (h1 := basic_inode_4.shrink_copy this source src index h) in *.
  destruct (writes_frame I4 this h h1 _ this Hw1) as (_ & _ & Htype1 & _).
  destruct (writes_source I4 this h h1 _ source Hw1 Hne) as (Hsk & _ & Hsc).
  assert (u8 (index + 1) = index + 1) as -> by (apply u8_byte; unfold is_byte; lia).
  destruct (IH (src + 1) (index + 1) h1) as (Hidx & Hks & Hcs & Hw);
    [by rewrite Htype1|lia|lia|lia|rewrite Hks1, length_put; lia
    |rewrite Hcs1, length_put; lia|lia|].
  set (r := basic_inode_4.shrink_loop fuel this source stop (src + 1) (index + 1) h1) in *.
  rewrite Hsk, Hks1 in Hks. rewrite Hsc, Hcs1 in Hcs. rewrite Hsc in Hw.
  replace (stop - (src + 1)) with (stop - src - 1) in * by lia.
  split; [lia|]. split; [|split].
  - replace (stop - src) with (stop - src - 1 + 1) by lia.
    apply copied_step; [lia..|done].
  - replace (stop - src) with (stop - src - 1 + 1) by lia.
    apply copied_step; [lia..|done].
  - rewrite seqZ_cons by lia. rewrite fmap_cons.
    replace (index + (src - src)) with index by lia.
    apply (writes_app I4 this h h1 r.1 [_]); [done|].
    replace (Z.succ src) with (src + 1) by lia.
    replace (Z.pred (stop - src)) with (stop - src - 1) by lia.
    erewrite list_fmap_ext; [exact Hw|]. intros i s Hs. simpl. f_equal. lia.
Qed.
End shrink4_loops.

Section positions_lemmas.
Implicit Types (h : heap) (this source a b k : Z) (ks ci : list Z) (cs : list node_ptr)
  (n : inode) (c v : node_ptr) (W : list (node_ptr * Z)) (T : node_type).

Lemma elem_of_zip_seqZ cs count j c :
  0 ≤ count → count ≤ Z.of_nat (length cs) →
  (j, c) ∈ zip (seqZ 0 count) (firstn_Z count cs) ↔ 0 ≤ j < count ∧ c = get cs j.
Proof.
  intros Hc Hlc. unfold firstn_Z, get. rewrite list_elem_of_lookup. split.
  - intros [i Hi]. apply lookup_zip_with_Some in Hi as (x & y & [= <- <-] & Hx & Hy).
    apply lookup_seqZ in Hx as [-> Hlt]. apply lookup_take_Some in Hy as [Hy _].
    split; [lia|]. replace (0 + Z.of_nat i) with (Z.of_nat i) by lia.
    rewrite Nat2Z.id. by rewrite (list_lookup_total_correct _ _ _ Hy).
  - intros [Hj ->]. exists (Z.to_nat j).
    apply lookup_zip_with_Some. eexists _, _. split; [done|]. split.
    + apply lookup_seqZ. split; lia.
    + rewrite lookup_take_lt by lia. apply list_lookup_lookup_total_lt. lia.
Qed.

(** The positions of the children of a node, read off its arrays. *)
Lemma elem_of_positions n j c :
  node_inv n →
  (j, c) ∈ positions n ↔
  match body n with
  | Body4 _ cs | Body16 _ cs => 0 ≤ j < children_count n ∧ c = get cs j
  | _ => has_entry n j c
  end.
Proof.
  intros Hinv. unfold positions. pose proof (elem_of_observable n j c Hinv) as Hobs.
  unfold node_inv in Hinv. destruct (body n) as [ks cs|ks cs|ci cs|cs]; try done.
  all: destruct Hinv as (_ & Hlc & Hc & _); apply elem_of_zip_seqZ; lia.
Qed.

Lemma positions_sorted n ks cs :
  (body n = Body4 ks cs ∨ body n = Body16 ks cs) →
  positions n = zip (seqZ 0 (children_count n)) (firstn_Z (children_count n) cs).
Proof. unfold positions. by intros [-> | ->]. Qed.

Lemma firstn_Z_all {A} m (l : list A) : Z.of_nat (length l) ≤ m → firstn_Z m l = l.
Proof. intros Hm. unfold firstn_Z. apply take_ge. lia. Qed.

Lemma elem_of_positions_sorted n ks cs j c :
  node_inv n → (body n = Body4 ks cs ∨ body n = Body16 ks cs) →
  (j, c) ∈ positions n ↔ 0 ≤ j < children_count n ∧ c = get cs j.
Proof.
  intros Hinv Hbody. rewrite (elem_of_positions n j c Hinv). by destruct Hbody as [-> | ->].
Qed.

(** The children of a sorted node, in the order of their keys. *)
Lemma children_list_sorted n ks cs :
  (body n = Body4 ks cs ∨ body n = Body16 ks cs) →
  children_count n ≤ Z.of_nat (length ks) →
  children_list n = firstn_Z (children_count n) cs.
Proof.
  intros Hbody Hlk. unfold children_list, observable.
  destruct Hbody as [-> | ->]; apply snd_zip; unfold firstn_Z; rewrite !length_take; lia.
Qed.

(** Two non-leaf pointers at different places of a list of different
    nodes point to different nodes. *)
Lemma distinct_nodes_lookup cs i j c c' :
  distinct_nodes cs → cs !! i = Some c → cs !! j = Some c' → i ≠ j →
  tag c ≠ LEAF → tag c' ≠ LEAF → get_raw c ≠ get_raw c'.
Proof.
  unfold distinct_nodes. revert i j.
  induction cs as [|x cs IH]; intros i j Hnd Hi Hj Hij Hc Hc'; [done|].
  rewrite filter_cons in Hnd.
  assert (∀ y, y ∈ cs → tag y ≠ LEAF → tag x ≠ LEAF → get_raw x ≠ get_raw y) as Hhead.
  { intros y Hy Hty Htx Heq. rewrite decide_True in Hnd by done.
    rewrite fmap_cons in Hnd. apply NoDup_cons in Hnd as [Hnotin _]. apply Hnotin.
    rewrite Heq. apply list_elem_of_fmap. exists y. split; [done|].
    by apply list_elem_of_filter. }
  assert (NoDup (get_raw <$> filter (λ c, tag c ≠ LEAF) cs)) as Htail.
  { case_decide; [|done]. rewrite fmap_cons in Hnd. by apply NoDup_cons in Hnd as [_ ?]. }
  destruct i as [|i], j as [|j]; simpl in *; try done.
  - injection Hi as ->. apply Hhead; [by eapply list_elem_of_lookup_2|done..].
  - injection Hj as ->. intros Heq. symmetry in Heq. revert Heq.
    apply Hhead; [by eapply list_elem_of_lookup_2|done..].
  - apply (IH i j); done || lia.
Qed.

Lemma filter_sublist_mono {A} (P : A → Prop) `{!∀ x, Decision (P x)} (l1 l2 : list A) :
  l1 `sublist_of` l2 → filter P l1 `sublist_of` filter P l2.
Proof.
  induction 1 as [|x l1 l2 _ IH|x l1 l2 _ IH]; [done| |]; rewrite !filter_cons.
  - case_decide; [by constructor|done].
  - case_decide; [by constructor|done].
Qed.

Lemma distinct_nodes_sublist cs cs' :
  distinct_nodes cs → cs' `sublist_of` cs → distinct_nodes cs'.
Proof.
  unfold distinct_nodes. intros Hnd Hsub. eapply sublist_NoDup; [exact Hnd|].
  by apply fmap_sublist, filter_sublist_mono.
Qed.

Lemma distinct_nodes_sorted n ks cs i j :
  (body n = Body4 ks cs ∨ body n = Body16 ks cs) →
  children_count n ≤ Z.of_nat (length ks) → children_count n ≤ Z.of_nat (length cs) →
  distinct_nodes (children_list n) →
  0 ≤ i < children_count n → 0 ≤ j < children_count n → i ≠ j →
  tag (get cs i) ≠ LEAF → tag (get cs j) ≠ LEAF →
  get_raw (get cs i) ≠ get_raw (get cs j).
Proof.
  intros Hbody Hlk Hlc Hd Hi Hj Hij. rewrite (children_list_sorted n ks cs) in Hd by done.
  apply (distinct_nodes_lookup (firstn_Z (children_count n) cs) (Z.to_nat i) (Z.to_nat j));
    [done| | |lia].
  all: unfold firstn_Z, get; rewrite lookup_take_lt by lia;
    apply list_lookup_lookup_total_lt; lia.
Qed.

(** The links after the calls [reparent] for a list of children with
    their positions, when the positions are different bytes and the
    children are different nodes. *)
Lemma writes_back_linked T this h h' (L : list (Z * node_ptr)) :
  writes T this h h' (swap <$> L) → NoDup L.*1 → distinct_nodes L.*2 →
  Forall (λ p, is_byte p.1) L →
  ∀ j c, (j, c) ∈ L → links_to h' (tagged_self T this) c j.
Proof.
  intros Hw Hnd Hdistinct Hbytes j c Hin.
  assert (links_to h' (tagged_self T this) (swap (j, c)).1 (u8 (swap (j, c)).2)) as Hlink.
  { apply (writes_linked_all T this h h' swap L Hw); [by apply NoDup_fmap_1 in Hnd| |done].
    intros x y [i Hx]%list_elem_of_lookup [i' Hy]%list_elem_of_lookup Hxy.
    unfold swap. simpl.
    apply (distinct_nodes_lookup L.*2 i i'); [done|by rewrite list_lookup_fmap, Hx
                                             |by rewrite list_lookup_fmap, Hy|].
    intros ->. rewrite Hx in Hy. by injection Hy. }
  unfold swap in Hlink. simpl in Hlink. rewrite u8_byte in Hlink; [done|].
  rewrite Forall_forall in Hbytes. by apply (Hbytes (j, c)).
Qed.
End positions_lemmas.

Section shrink_16_to_4_theorem.
Implicit Types (h : heap) (this source a b k : Z) (ks ci : list Z) (cs : list node_ptr)
  (n : inode) (c v : node_ptr) (W : list (node_ptr * Z)) (T : node_type).

(** X5. The constructor of a [basic_inode_4] from a [basic_inode_16] at
    its minimum size, for the removal of the child at the index
    [child_to_delete]: the new node is well formed and full, has the
    prefix of the source and, in the order of the keys, the children of
    the source without the removed one; the arrays, count and prefix of
    the source are not written; and when the children of the source are
    different nodes, every child that is not a leaf records the new node
    and its index there. *)
Theorem shrink_16_to_4 h this source n child_to_delete :
  this ≠ source → h !!! source = n → static_type n = I16 → node_inv n →
  basic_inode_16.is_min_size n = true → 0 ≤ child_to_delete < 5 →
  let h' := basic_inode_4.shrink_ctor h this source child_to_delete in
  let n' := h' !!! this in
  observable n' = remove_entry (get (keys_of n) child_to_delete) (observable n) ∧
  wf_node n' ∧ static_type n' = I4 ∧ basic_inode_4.is_full n' = true ∧
  prefix n' = prefix n ∧
  (body (h' !!! source) = body n ∧ children_count (h' !!! source) = children_count n ∧
   prefix (h' !!! source) = prefix n) ∧
  (distinct_nodes (children_list n) → back_linked h' this).
Proof.
  intros Hne Hn Htype Hinv Hmin Hd h' n'.
  apply bool_decide_eq_true in Hmin. unfold basic_inode_16.min_size in Hmin.
  pose proof Hinv as Hinv0. unfold node_inv in Hinv.
  pose proof (body_of_arrays n) as Hbody. rewrite Htype in Hbody. rewrite Hbody in Hinv.
  destruct Hinv as (Hlk & Hlc & _ & Hbytes & Hsorted & Hpresent). rewrite Hmin in *.
  set (sks := keys_of n) in *. set (scs := children_of n) in *.
  subst h' n'. unfold basic_inode_4.shrink_ctor. rewrite Hn.
  set (h0 := <[this := _]> h).
  assert (h0 !!! this = fresh_inode basic_inode_4.capacity (prefix n)
                          (Body4 (replicate 4 0) (replicate 4 nullptr))) as Hthis0
    by apply lookup_total_insert_eq.
  assert (h0 !!! source = n) as Hsource0
    by (unfold h0; rewrite lookup_total_insert_ne by done; done).
  destruct (shrink4_loop_spec 16 this source child_to_delete 0 0 h0 Hne)
    as (Hidx1 & Hks1 & Hcs1 & Hw1);
    [by rewrite Hthis0|lia|lia|lia|rewrite Hthis0; simpl; lia|rewrite Hthis0; simpl; lia|lia|].
  destruct (basic_inode_4.shrink_loop 16 this source child_to_delete 0 0 h0)
    as [h1 index1] eqn:Hloop1. cbn [fst snd] in Hidx1, Hks1, Hcs1, Hw1.
  rewrite Hsource0, Hthis0 in Hks1, Hcs1. rewrite Hsource0 in Hw1.
  change (keys_of (fresh_inode _ _ _)) with (replicate 4 0) in Hks1.
  change (children_of (fresh_inode _ _ _)) with (replicate 4 nullptr) in Hcs1.
  fold sks in Hks1. fold scs in Hcs1, Hw1.
  replace (0 + (child_to_delete - 0)) with child_to_delete in Hidx1 by lia. subst index1.
  replace (child_to_delete - 0) with child_to_delete in * by lia.
  destruct (writes_frame I4 this h0 h1 _ this Hw1) as (Hcount1 & Hprefix1 & Htype1 & _).
  destruct (writes_source I4 this h0 h1 _ source Hw1 Hne) as (Hsk1 & _ & Hsc1).
  rewrite Hsource0 in Hsk1, Hsc1. fold sks in Hsk1. fold scs in Hsc1.
  destruct Hks1 as [Hlk1 Hks1]. destruct Hcs1 as [Hlc1 Hcs1].
  destruct (shrink4_loop_spec 16 this source 5 (child_to_delete + 1) child_to_delete h1 Hne)
    as (_ & Hks2 & Hcs2 & Hw2);
    [by rewrite Htype1, Hthis0|lia|lia|lia|rewrite Hlk1; simpl; lia
    |rewrite Hlc1; simpl; lia|lia|].
  set (h2 := (basic_inode_4.shrink_loop 16 this source 5 (child_to_delete + 1)
                child_to_delete h1).1) in *.
  rewrite Hsk1 in Hks2. rewrite Hsc1 in Hcs2, Hw2.
  destruct Hks2 as [Hlk2 Hks2]. destruct Hcs2 as [Hlc2 Hcs2].
  rewrite Hlk1 in Hlk2. rewrite Hlc1 in Hlc2. simpl in Hlk2, Hlc2.
  pose proof (writes_app I4 this h0 h1 h2 _ _ Hw1 Hw2) as Hw.
  destruct (writes_frame I4 this h0 h2 _ this Hw) as (Hcount2 & Hprefix2 & Htype2 & _).
  destruct (writes_frame I4 this h0 h2 _ source Hw) as (Hcount2s & Hprefix2s & _ & Hbody2s).
  rewrite Hthis0 in Hcount2, Hprefix2, Htype2. rewrite Hsource0 in Hcount2s, Hprefix2s, Hbody2s.
  change (children_count (fresh_inode _ _ _)) with 4 in Hcount2.
  change (prefix (fresh_inode _ _ _)) with (prefix n) in Hprefix2.
  change (static_type (fresh_inode _ _ _)) with I4 in Htype2.
  set (ks2 := keys_of (h2 !!! this)) in *. set (cs2 := children_of (h2 !!! this)) in *.
  assert (body (h2 !!! this) = Body4 ks2 cs2) as Hbody2
    by (rewrite (body_of_arrays (h2 !!! this)), Htype2; done).
  assert (without_entry child_to_delete 5 sks ks2) as Hwk.
  { intros j Hj. rewrite Hks2 by lia. repeat case_bool_decide; try lia.
    - f_equal. lia.
    - rewrite Hks1 by lia. rewrite bool_decide_eq_true_2 by lia. f_equal. lia. }
  assert (without_entry child_to_delete 5 scs cs2) as Hwc.
  { intros j Hj. rewrite Hcs2 by lia. repeat case_bool_decide; try lia.
    - f_equal. lia.
    - rewrite Hcs1 by lia. rewrite bool_decide_eq_true_2 by lia. f_equal. lia. }
  destruct (without_inv child_to_delete 5 sks ks2 scs cs2) as (Hb2 & Hs2 & Hp2);
    [lia|lia|done..|].
  replace (5 - 1) with 4 in Hb2, Hs2, Hp2 by lia.
  assert (node_inv (h2 !!! this)) as Hinv2.
  { unfold node_inv. rewrite Hbody2, Hcount2. split; [done|]. split; [done|].
    split; [lia|]. split; [|done]. apply Forall_get. intros j Hj Hlen. apply Hb2. lia. }
  split; [|split; [|split; [done|split; [|split; [done|split]]]]].
  - apply observable_eq; [done| |].
    + by apply key_sorted_filter, observable_key_sorted.
    + intros k v. rewrite elem_of_remove_entry, elem_of_observable by done.
      unfold has_entry. rewrite Hbody2, Hbody, Hcount2, Hmin. symmetry.
      apply (without_entries child_to_delete 5 sks ks2 scs cs2); done || lia.
  - split; [done|]. unfold min_size_of, capacity_of, num_children.
    rewrite Hbody2, Hcount2. by vm_compute.
  - unfold basic_inode_4.is_full. rewrite Hcount2. by vm_compute.
  - split; [by apply Hbody2s|]. split; [by rewrite Hcount2s|done].
  - intros Hdistinct j c Hin. rewrite Htype2.
    apply (elem_of_positions_sorted (h2 !!! this) ks2 cs2 j c Hinv2) in Hin; [|by left].
    rewrite Hcount2 in Hin. destruct Hin as [Hj ->].
    set (F := λ s, (get scs s, if bool_decide (s < child_to_delete) then s else s - 1)).
    set (L := seqZ 0 child_to_delete ++ seqZ (child_to_delete + 1) (5 - (child_to_delete + 1))).
    assert (writes I4 this h0 h2 (F <$> L)) as HwF.
    { unfold L. rewrite fmap_app.
      erewrite (list_fmap_ext F _ (seqZ 0 child_to_delete)),
        (list_fmap_ext F _ (seqZ (child_to_delete + 1) _)); [exact Hw| |].
      - intros i s [-> Hs]%lookup_seqZ. unfold F.
        rewrite bool_decide_eq_false_2 by lia. f_equal. lia.
      - intros i s [-> Hs]%lookup_seqZ. unfold F.
        rewrite bool_decide_eq_true_2 by lia. f_equal. lia. }
    assert (∀ s, s ∈ L ↔ 0 ≤ s < 5 ∧ s ≠ child_to_delete) as HL.
    { intros s. unfold L. rewrite elem_of_app, !elem_of_seqZ. lia. }
    set (s := if bool_decide (j < child_to_delete) then j else j + 1).
    assert (F s = (get cs2 j, j)) as HFs.
    { unfold F, s. rewrite Hwc by lia.
      repeat case_bool_decide; try lia; f_equal; lia. }
    apply (writes_linked_at I4 this h0 h2 F L s _ _ HwF); [| | |exact HFs|unfold is_byte; lia].
    + unfold L. apply NoDup_app. split; [apply NoDup_seqZ|]. split; [|apply NoDup_seqZ].
      intros x. rewrite !elem_of_seqZ. lia.
    + intros x y [Hx _]%HL [Hy _]%HL Hxy. unfold F. cbn [fst snd].
      apply (distinct_nodes_sorted n sks scs x y);
        [by right|rewrite Hmin; lia|rewrite Hmin; lia|exact Hdistinct
        |rewrite Hmin; lia|rewrite Hmin; lia|exact Hxy].
    + apply HL. unfold s. case_bool_decide; lia.
Qed.
End shrink_16_to_4_theorem.

Section shrink_16_to_4_examples.
Import examples.

Lemma shrink_16_to_4_witness :
  let n := heap16_grown !!! 16 in
  let h' := basic_inode_4.shrink_ctor heap16_grown 5 16 2 in
  let n' := h' !!! 5 in
  observable n' = remove_entry (get (keys_of n) 2) (observable n) ∧
  wf_node n' ∧ static_type n' = I4 ∧ basic_inode_4.is_full n' = true ∧
  prefix n' = prefix n ∧
  (body (h' !!! 16) = body n ∧ children_count (h' !!! 16) = children_count n ∧
   prefix (h' !!! 16) = prefix n) ∧
  (distinct_nodes (children_list n) → back_linked h' 5).
Proof.
  apply (shrink_16_to_4 heap16_grown 5 16 (heap16_grown !!! 16) 2).
  - lia.
  - reflexivity.
  - by vm_compute.
  - apply (bool_decide_unpack _). by vm_compute.
  - by vm_compute.
  - lia.
Defined.

End shrink_16_to_4_examples.

(** ** Growing a [basic_inode_4] into a [basic_inode_16] *)

Section populate16_loops.
Implicit Types (h : heap) (this source a b k : Z) (ks ci : list Z) (cs : list node_ptr)
  (n : inode) (c v : node_ptr) (W : list (node_ptr * Z)) (T : node_type).

(** One key and one child copied from the source into a sorted node, and
    the child reparented. *)
Lemma sorted_copy_step T this source s d j h :
  this ≠ source → static_type (h !!! this) = I4 ∨ static_type (h !!! this) = I16 →
  0 ≤ d → d < Z.of_nat (length (children_of (h !!! this))) →
  let h1 := store h this (with_keys (put d (get (keys_of (h !!! source)) s))) in
  let h2 := store h1 this (with_children (put d (get (children_of (h1 !!! source)) s))) in
  let h3 := reparent T h2 this (get (children_of (h2 !!! this)) d) j in
  keys_of (h3 !!! this) = put d (get (keys_of (h !!! source)) s) (keys_of (h !!! this)) ∧
  children_of (h3 !!! this) =
    put d (get (children_of (h !!! source)) s) (children_of (h !!! this)) ∧
  writes T this h h3 [(get (children_of (h !!! source)) s, j)].
Proof.
  intros Hne Htype Hd Hlen h1 h2 h3.
  assert (children_of (h1 !!! source) = children_of (h !!! source)) as Hsrc
    by apply store_keys_children.
  assert (children_of (h2 !!! this) =
          put d (get (children_of (h !!! source)) s) (children_of (h !!! this))) as Hcs.
  { unfold h2. rewrite store_children_of, Hsrc. unfold h1. by rewrite store_keys_children. }
  subst h3. rewrite Hcs, get_put_eq by done.
  split; [|split].
  - rewrite reparent_keys. unfold h2. rewrite store_children_keys. unfold h1.
    by apply store_keys_of.
  - by rewrite reparent_children.
  - apply (writes_app T this h h2 _ [] [_]); [|apply writes_one_link].
    apply writes_body; [|apply with_children_body_only].
    apply writes_one_body, with_keys_body_only.
Qed.

(** The loop of [populate] over the entries before the insert position. *)
Lemma populate16_head_spec fuel this source pos i h :
  this ≠ source → static_type (h !!! this) = I16 →
  0 ≤ i ≤ pos → pos - i ≤ Z.of_nat fuel →
  pos ≤ Z.of_nat (length (keys_of (h !!! this))) →
  pos ≤ Z.of_nat (length (children_of (h !!! this))) →
  let r := basic_inode_16.populate_head fuel this source pos i h in
  r.2 = pos ∧
  copied i (pos - i) (keys_of (h !!! source)) i
    (keys_of (h !!! this)) (keys_of (r.1 !!! this)) ∧
  copied i (pos - i) (children_of (h !!! source)) i
    (children_of (h !!! this)) (children_of (r.1 !!! this)) ∧
  writes I16 this h r.1 ((λ s, (get (children_of (h !!! source)) s, s)) <$> seqZ i (pos - i)).
Proof.
  intros Hne. revert i h.
  induction fuel as [|fuel IH]; intros i h Htype Hi Hfuel Hlk Hlc r;
    subst r; cbn [basic_inode_16.populate_head].
  { assert (pos - i = 0) as -> by lia. cbn [fst snd].
    split; [lia|]. split; [apply copied_nil|]. split; [apply copied_nil|]. constructor. }
  case_bool_decide as Hlt.
  2:{ assert (pos - i = 0) as -> by lia. cbn [fst snd].
      split; [lia|]. split; [apply copied_nil|]. split; [apply copied_nil|]. constructor. }
  destruct (sorted_copy_step I16 this source i i i h Hne ltac:(by right) ltac:(lia)
              ltac:(lia)) as (Hks1 & Hcs1 & Hw1).
  set (h1 := reparent I16 _ this _ i) in *.
  destruct (writes_frame I16 this h h1 _ this Hw1) as (_ & _ & Htype1 & _).
  destruct (writes_source I16 this h h1 _ source Hw1 Hne) as (Hsk & _ & Hsc).
  destruct (IH (i + 1) h1) as (Hidx & Hks & Hcs & Hw);
    [by rewrite Htype1|lia|lia|rewrite Hks1, length_put; lia
    |rewrite Hcs1, length_put; lia|].
  set (r := basic_inode_16.populate_head fuel this source pos (i + 1) h1) in *.
  rewrite Hsk, Hks1 in Hks. rewrite Hsc, Hcs1 in Hcs. rewrite Hsc in Hw.
  replace (pos - (i + 1)) with (pos - i - 1) in * by lia.
  split; [done|]. split; [|split].
  - replace (pos - i) with (pos - i - 1 + 1) by lia. apply copied_step; [lia..|done].
  - replace (pos - i) with (pos - i - 1 + 1) by lia. apply copied_step; [lia..|done].
  - rewrite seqZ_cons by lia. rewrite fmap_cons.
    apply (writes_app I16 this h h1 r.1 [_]); [done|].
    replace (Z.succ i) with (i + 1) by lia.
    by replace (Z.pred (pos - i)) with (pos - i - 1) by lia.
Qed.

(** The loop of [populate] over the entries after the insert position. *)
Lemma populate16_tail_spec fuel this source i h :
  this ≠ source → static_type (h !!! this) = I16 →
  1 ≤ i ≤ 5 → 5 - i ≤ Z.of_nat fuel →
  5 ≤ Z.of_nat (length (keys_of (h !!! this))) →
  5 ≤ Z.of_nat (length (children_of (h !!! this))) →
  let h' := basic_inode_16.populate_tail fuel this source i h in
  copied i (5 - i) (keys_of (h !!! source)) (i - 1)
    (keys_of (h !!! this)) (keys_of (h' !!! this)) ∧
  copied i (5 - i) (children_of (h !!! source)) (i - 1)
    (children_of (h !!! this)) (children_of (h' !!! this)) ∧
  writes I16 this h h'
    ((λ s, (get (children_of (h !!! source)) s, s + 1)) <$> seqZ (i - 1) (5 - i)).
Proof.
  intros Hne. revert i h.
  induction fuel as [|fuel IH]; intros i h Htype Hi Hfuel Hlk Hlc h';
    subst h'; cbn [basic_inode_16.populate_tail].
  { assert (5 - i = 0) as -> by lia.
    split; [apply copied_nil|]. split; [apply copied_nil|]. constructor. }
  unfold basic_inode_4.capacity. case_bool_decide as Hle.
  2:{ assert (5 - i = 0) as -> by lia.
      split; [apply copied_nil|]. split; [apply copied_nil|]. constructor. }
  destruct (sorted_copy_step I16 this source (i - 1) i i h Hne ltac:(by right) ltac:(lia)
              ltac:(lia)) as (Hks1 & Hcs1 & Hw1).
  set (h1 := reparent I16 _ this _ i) in *.
  destruct (writes_frame I16 this h h1 _ this Hw1) as (_ & _ & Htype1 & _).
  destruct (writes_source I16 this h h1 _ source Hw1 Hne) as (Hsk & _ & Hsc).
  destruct (IH (i + 1) h1) as (Hks & Hcs & Hw);
    [by rewrite Htype1|lia|lia|rewrite Hks1, length_put; lia
    |rewrite Hcs1, length_put; lia|].
  set (h2 := basic_inode_16.populate_tail fuel this source (i + 1) h1) in *.
  rewrite Hsk, Hks1 in Hks. rewrite Hsc, Hcs1 in Hcs. rewrite Hsc in Hw.
  replace (5 - (i + 1)) with (5 - i - 1) in * by lia.
  replace (i + 1 - 1) with (i - 1 + 1) in * by lia.
  split; [|split].
  - replace (5 - i) with (5 - i - 1 + 1) by lia. apply copied_step; [lia..|done].
  - replace (5 - i) with (5 - i - 1 + 1) by lia. apply copied_step; [lia..|done].
  - rewrite seqZ_cons by lia. rewrite fmap_cons.
    replace (i - 1 + 1) with i in * by lia.
    apply (writes_app I16 this h h1 h2 [_]); [done|].
    replace (Z.succ (i - 1)) with i by lia.
    by replace (Z.pred (5 - i)) with (5 - i - 1) by lia.
Qed.
End populate16_loops.

Section grow_4_to_16_theorem.
Implicit Types (h : heap) (this source a b k : Z) (ks ci : list Z) (cs : list node_ptr)
  (n : inode) (c v : node_ptr) (W : list (node_ptr * Z)) (T : node_type).

(** The four compares of [populate] count the keys of the full source
    below [key_byte], which in a sorted array are the first ones. *)
Lemma populate16_position ks b :
  length ks = 4%nat → Forall is_byte ks → sorted_keys 4 ks →
  (∀ i, 0 ≤ i < 4 → get ks i ≠ b) →
  let integer := keys_integer ks in
  let pos := (if bool_decide (Z.land integer 0xFF < b) then 1 else 0) +
             (if bool_decide (Z.land (Z.shiftr integer 8) 0xFF < b) then 1 else 0) +
             (if bool_decide (Z.land (Z.shiftr integer 16) 0xFF < b) then 1 else 0) +
             (if bool_decide (Z.land (Z.shiftr integer 24) 0xFF < b) then 1 else 0) in
  0 ≤ pos ≤ 4 ∧ (∀ i, 0 ≤ i < pos → get ks i < b) ∧ (∀ i, pos ≤ i < 4 → b < get ks i).
Proof.
  intros Hlen Hbytes Hsorted Hfresh integer pos. subst pos integer.
  pose proof (cvtsi32_keys_integer ks Hlen Hbytes) as Hlanes.
  destruct ks as [|k0 [|k1 [|k2 [|k3 [|]]]]]; try done.
  unfold _mm_cvtsi32_si128 in Hlanes. cbn [app] in Hlanes.
  injection Hlanes as -> -> -> ->.
  destruct (get4 k0 k1 k2 k3) as (Hg0 & Hg1 & Hg2 & Hg3).
  pose proof (Hsorted 0 ltac:(lia) 1 ltac:(lia) ltac:(lia)) as H01.
  pose proof (Hsorted 1 ltac:(lia) 2 ltac:(lia) ltac:(lia)) as H12.
  pose proof (Hsorted 2 ltac:(lia) 3 ltac:(lia) ltac:(lia)) as H23.
  pose proof (Hfresh 0 ltac:(lia)) as Hf0. pose proof (Hfresh 1 ltac:(lia)) as Hf1.
  pose proof (Hfresh 2 ltac:(lia)) as Hf2. pose proof (Hfresh 3 ltac:(lia)) as Hf3.
  rewrite ?Hg0, ?Hg1, ?Hg2, ?Hg3 in H01, H12, H23, Hf0, Hf1, Hf2, Hf3.
  repeat case_bool_decide; try lia.
  all: split; [lia|]; split; intros i Hi;
    assert (i = 0 ∨ i = 1 ∨ i = 2 ∨ i = 3) as [-> | [-> | [-> | ->]]] by lia;
    rewrite ?Hg0, ?Hg1, ?Hg2, ?Hg3; lia.
Qed.

(** X6. [populate] of a [basic_inode_16] just constructed, from a full
    [basic_inode_4] and a leaf for a key byte that the source does not
    hold: the new node is well formed and at its minimum size, keeps the
    prefix it was constructed with and has, in the order of the keys, the
    children of the source and the new leaf; the iterator returned is
    that of the new leaf; the arrays, count and prefix of the source are
    not written; and when the children of the source are different
    nodes, every child that is not a leaf records the new node and its
    index there. *)
Theorem grow_4_to_16 h this source n key child b :
  this ≠ source → h !!! source = n → static_type n = I4 → node_inv n →
  basic_inode_4.is_full n = true → is_byte b → ¬ key_present n b → child ≠ 0 →
  let r := basic_inode_16.populate (basic_inode_16.ctor h this key) this source child b in
  let n' := r.1 !!! this in
  observable n' = insert_entry b (create child LEAF) (observable n) ∧
  wf_node n' ∧ static_type n' = I16 ∧ basic_inode_16.is_min_size n' = true ∧
  prefix n' = key ∧
  node r.2 = create child LEAF ∧ designates n' this b r.2 ∧
  (body (r.1 !!! source) = body n ∧ children_count (r.1 !!! source) = children_count n ∧
   prefix (r.1 !!! source) = prefix n) ∧
  (distinct_nodes (children_list n) → back_linked r.1 this).
Proof.
  intros Hne Hn Htype Hinv Hfull Hb Hfresh Hchild r n'.
  apply bool_decide_eq_true in Hfull. unfold basic_inode_4.capacity in Hfull.
  pose proof Hinv as Hinv0. unfold node_inv in Hinv.
  pose proof (body_of_arrays n) as Hbody. rewrite Htype in Hbody. rewrite Hbody in Hinv.
  destruct Hinv as (Hlk & Hlc & _ & Hbytes & Hsorted & Hpresent).
  unfold key_present in Hfresh. rewrite Hbody in Hfresh. rewrite Hfull in *.
  set (sks := keys_of n) in *. set (scs := children_of n) in *.
  destruct (populate16_position sks b Hlk Hbytes Hsorted) as (Hpos & Hlow & Hhigh).
  { intros i Hi Heq. apply Hfresh. by exists i. }
  subst n' r. unfold basic_inode_16.populate, basic_inode_16.ctor.
  set (h0 := <[this := _]> h).
  assert (h0 !!! this = fresh_inode basic_inode_16.min_size key
                          (Body16 (replicate 16 0) (replicate 16 nullptr))) as Hthis0
    by apply lookup_total_insert_eq.
  assert (h0 !!! source = n) as Hsource0
    by (unfold h0; rewrite lookup_total_insert_ne by done; done).
  rewrite Hsource0. fold sks.
  set (pos := _ + _ + _ + _) in *.
  destruct (populate16_head_spec 4 this source pos 0 h0 Hne)
    as (Hidx1 & Hks1 & Hcs1 & Hw1);
    [by rewrite Hthis0|lia|lia|rewrite Hthis0; simpl; lia|rewrite Hthis0; simpl; lia|].
  destruct (basic_inode_16.populate_head 4 this source pos 0 h0) as [h1 i] eqn:Hloop1.
  cbn [fst snd] in Hidx1, Hks1, Hcs1, Hw1. subst i.
  rewrite Hsource0, Hthis0 in Hks1, Hcs1. rewrite Hsource0 in Hw1.
  change (keys_of (fresh_inode _ _ _)) with (replicate 16 0) in Hks1.
  change (children_of (fresh_inode _ _ _)) with (replicate 16 nullptr) in Hcs1.
  fold sks in Hks1. fold scs in Hcs1, Hw1.
  replace (pos - 0) with pos in * by lia.
  destruct Hks1 as [Hlk1 Hks1]. destruct Hcs1 as [Hlc1 Hcs1].
  rewrite length_replicate in Hlk1. rewrite length_replicate in Hlc1.
  destruct (writes_frame I16 this h0 h1 _ this Hw1) as (_ & _ & Htype1 & _).
  rewrite Hthis0 in Htype1. change (static_type (fresh_inode _ _ _)) with I16 in Htype1.
  rewrite (u8_byte b Hb).
  set (h2 := store h1 this (with_keys (put pos b))).
  set (h3 := store h2 this (with_children (put pos (create child LEAF)))).
  assert (writes I16 this h1 h3 []) as Hw3.
  { apply writes_body; [|apply with_children_body_only].
    apply writes_one_body, with_keys_body_only. }
  assert (keys_of (h3 !!! this) = put pos b (keys_of (h1 !!! this))) as Hks3.
  { unfold h3. rewrite store_children_keys. unfold h2. apply store_keys_of. by right. }
  assert (children_of (h3 !!! this) = put pos (create child LEAF) (children_of (h1 !!! this)))
    as Hcs3.
  { unfold h3. rewrite store_children_of. unfold h2. by rewrite store_keys_children. }
  pose proof (writes_app I16 this h0 h1 h3 _ _ Hw1 Hw3) as Hw03. rewrite app_nil_r in Hw03.
  destruct (writes_frame I16 this h0 h3 _ this Hw03) as (_ & _ & Htype3 & _).
  rewrite Hthis0 in Htype3. change (static_type (fresh_inode _ _ _)) with I16 in Htype3.
  destruct (writes_source I16 this h0 h3 _ source Hw03 Hne) as (Hsk3 & _ & Hsc3).
  rewrite Hsource0 in Hsk3, Hsc3. fold sks in Hsk3. fold scs in Hsc3.
  destruct (populate16_tail_spec 5 this source (pos + 1) h3 Hne Htype3)
    as (Hks4 & Hcs4 & Hw4);
    [lia|lia|rewrite Hks3, length_put; lia|rewrite Hcs3, length_put; lia|].
  set (h4 := basic_inode_16.populate_tail 5 this source (pos + 1) h3) in *.
  rewrite Hsk3, Hks3 in Hks4. rewrite Hsc3, Hcs3 in Hcs4. rewrite Hsc3 in Hw4.
  replace (pos + 1 - 1) with pos in * by lia.
  destruct Hks4 as [Hlk4 Hks4]. destruct Hcs4 as [Hlc4 Hcs4].
  rewrite length_put in Hlk4. rewrite length_put in Hlc4.
  rewrite Hlk1 in Hlk4. rewrite Hlc1 in Hlc4.
  pose proof (writes_app I16 this h0 h3 h4 _ _ Hw03 Hw4) as Hw.
  destruct (writes_frame I16 this h0 h4 _ this Hw) as (Hcount4 & Hprefix4 & Htype4 & _).
  destruct (writes_frame I16 this h0 h4 _ source Hw) as (Hcount4s & Hprefix4s & _ & Hbody4s).
  rewrite Hthis0 in Hcount4, Hprefix4, Htype4.
  rewrite Hsource0 in Hcount4s, Hprefix4s, Hbody4s.
  change (children_count (fresh_inode _ _ _)) with 5 in Hcount4.
  change (prefix (fresh_inode _ _ _)) with key in Hprefix4.
  change (static_type (fresh_inode _ _ _)) with I16 in Htype4.
  cbn [fst snd].
  set (ks4 := keys_of (h4 !!! this)) in *. set (cs4 := children_of (h4 !!! this)) in *.
  assert (body (h4 !!! this) = Body16 ks4 cs4) as Hbody4
    by (rewrite (body_of_arrays (h4 !!! this)), Htype4; done).
  assert (with_entry pos 4 b sks ks4) as Hwk.
  { intros j Hj. rewrite Hks4 by lia. repeat case_bool_decide; try lia.
    - f_equal. lia.
    - subst j. by rewrite get_put_eq by lia.
    - rewrite get_put_ne by lia. rewrite Hks1 by lia.
      rewrite bool_decide_eq_true_2 by lia. f_equal. lia. }
  assert (with_entry pos 4 (create child LEAF) scs cs4) as Hwc.
  { intros j Hj. rewrite Hcs4 by lia. repeat case_bool_decide; try lia.
    - f_equal. lia.
    - subst j. by rewrite get_put_eq by lia.
    - rewrite get_put_ne by lia. rewrite Hcs1 by lia.
      rewrite bool_decide_eq_true_2 by lia. f_equal. lia. }
  assert (create child LEAF ≠ nullptr) as Hleaf by (unfold nullptr; congruence).
  destruct (with_inv pos 4 b (create child LEAF) sks ks4 scs cs4) as (Hb4 & Hs4 & Hp4);
    [lia|lia|done..|].
  replace (4 + 1) with 5 in Hs4, Hp4 by lia.
  assert (node_inv (h4 !!! this)) as Hinv4.
  { unfold node_inv. rewrite Hbody4, Hcount4. split; [done|]. split; [done|].
    split; [lia|]. split; [|done]. apply Forall_get. intros j Hj Hlen.
    destruct (decide (j ≤ 4)) as [Hj4|Hj4]; [apply Hb4; lia|].
    rewrite Hks4 by lia. rewrite bool_decide_eq_false_2 by lia.
    rewrite get_put_ne by lia. rewrite Hks1 by lia. rewrite bool_decide_eq_false_2 by lia.
    unfold get. rewrite lookup_total_replicate_2 by lia. by vm_compute. }
  assert (get cs4 pos = create child LEAF) as Hread.
  { rewrite Hwc by lia. by rewrite bool_decide_eq_true_2. }
  assert (get (children_of (h3 !!! this)) pos = create child LEAF) as Hread3.
  { rewrite Hcs3. apply get_put_eq; lia. }
  rewrite Hread3. clearbody h4. clearbody h3. clearbody h2. clearbody h0.
  split; [|split; [|split; [done|split; [|split; [done|split; [done|split; [|split]]]]]]].
  - apply observable_eq; [done| |].
    + by apply insert_entry_sorted, observable_key_sorted.
    + intros k v. rewrite elem_of_insert_entry, elem_of_observable by done.
      unfold has_entry. rewrite Hbody4, Hbody, Hcount4, Hfull. simpl.
      rewrite (with_entries pos 4 b (create child LEAF) sks ks4 scs cs4) by (done || lia).
      split.
      * intros [[= -> ->]|[Hin Hk]]; [by left|by right].
      * intros [[-> ->]|Hin]; [by left|right]. split; [done|].
        intros ->. apply Hfresh. destruct Hin as (i & Hi & Hki & _). by exists i.
  - split; [done|]. unfold min_size_of, capacity_of, num_children.
    rewrite Hbody4, Hcount4. by vm_compute.
  - unfold basic_inode_16.is_min_size. rewrite Hcount4. by vm_compute.
  - unfold designates, static_type. rewrite Hbody4, Hcount4. exists pos.
    split; [lia|]. split; [|by rewrite Hread].
    rewrite Hwk by lia. by rewrite bool_decide_eq_true_2.
  - split; [by apply Hbody4s|]. split; [by rewrite Hcount4s|done].
  - intros Hdistinct j c Hin. rewrite Htype4.
    apply (elem_of_positions_sorted (h4 !!! this) ks4 cs4 j c Hinv4) in Hin; [|by right].
    rewrite Hcount4 in Hin. destruct Hin as [Hj ->].
    destruct (decide (j = pos)) as [->|Hjpos].
    { rewrite Hread. intros Htag. by destruct Htag. }
    set (F := λ s, (get scs s, if bool_decide (s < pos) then s else s + 1)).
    set (L := seqZ 0 pos ++ seqZ pos (5 - (pos + 1))).
    assert (writes I16 this h0 h4 (F <$> L)) as HwF.
    { unfold L. rewrite fmap_app.
      erewrite (list_fmap_ext F _ (seqZ 0 pos)),
        (list_fmap_ext F _ (seqZ pos _)); [exact Hw| |].
      - intros i s [-> Hs]%lookup_seqZ. unfold F.
        by rewrite bool_decide_eq_false_2 by lia.
      - intros i s [-> Hs]%lookup_seqZ. unfold F.
        by rewrite bool_decide_eq_true_2 by lia. }
    assert (∀ s, s ∈ L ↔ 0 ≤ s < 4) as HL.
    { intros s. unfold L. rewrite elem_of_app, !elem_of_seqZ. lia. }
    set (s := if bool_decide (j < pos) then j else j - 1).
    assert (F s = (get cs4 j, j)) as HFs.
    { unfold F, s. rewrite Hwc by lia.
      repeat case_bool_decide; try lia; f_equal; lia. }
    apply (writes_linked_at I16 this h0 h4 F L s _ _ HwF); [| | |exact HFs|unfold is_byte; lia].
    + unfold L. apply NoDup_app. split; [apply NoDup_seqZ|]. split; [|apply NoDup_seqZ].
      intros x. rewrite !elem_of_seqZ. lia.
    + intros x y Hx%HL Hy%HL Hxy. unfold F. cbn [fst snd].
      apply (distinct_nodes_sorted n sks scs x y);
        [by left|rewrite Hfull; lia|rewrite Hfull; lia|exact Hdistinct
        |rewrite Hfull; lia|rewrite Hfull; lia|exact Hxy].
    + apply HL. unfold s. case_bool_decide; lia.
Qed.
End grow_4_to_16_theorem.

Section grow_4_to_16_examples.
Import examples.

Lemma grow_4_to_16_witness :
  let n := heap4_full !!! 4 in
  let r := basic_inode_16.populate (basic_inode_16.ctor heap4_full 16 [7]) 16 4 1064 0x40 in
  let n' := r.1 !!! 16 in
  observable n' = insert_entry 0x40 (create 1064 LEAF) (observable n) ∧
  wf_node n' ∧ static_type n' = I16 ∧ basic_inode_16.is_min_size n' = true ∧
  prefix n' = [7] ∧
  node r.2 = create 1064 LEAF ∧ designates n' 16 0x40 r.2 ∧
  (body (r.1 !!! 4) = body n ∧ children_count (r.1 !!! 4) = children_count n ∧
   prefix (r.1 !!! 4) = prefix n) ∧
  (distinct_nodes (children_list n) → back_linked r.1 16).
Proof.
  apply (grow_4_to_16 heap4_full 16 4 (heap4_full !!! 4) [7] 1064 0x40).
  - lia.
  - reflexivity.
  - by vm_compute.
  - apply (bool_decide_unpack _). by vm_compute.
  - by vm_compute.
  - by vm_compute.
  - apply (bool_decide_unpack _). by vm_compute.
  - lia.
Defined.

End grow_4_to_16_examples.

(** ** Counting the entries of the indexed nodes *)

Section counting.
Implicit Types (h : heap) (this source a b k : Z) (ks ci : list Z) (cs : list node_ptr)
  (n : inode) (c v : node_ptr) (l : list (Z * node_ptr)).

Lemma length_fill {A} (first last : Z) (v : A) (a : list A) :
  0 ≤ first ≤ last → length (basic_inode_48.fill first last v a) = length a.
Proof.
  intros Hf. unfold basic_inode_48.fill.
  rewrite !length_app, length_take, length_replicate, length_drop. lia.
Qed.

Lemma get_fill {A} `{Inhabited A} (first last : Z) (v : A) (a : list A) j :
  0 ≤ first ≤ last → last ≤ Z.of_nat (length a) → 0 ≤ j →
  get (basic_inode_48.fill first last v a) j =
  if bool_decide (first ≤ j < last) then v else get a j.
Proof.
  intros Hf Hl Hj. unfold basic_inode_48.fill, get.
  replace (Z.min last (Z.of_nat (length a))) with last by lia.
  destruct (decide (j < first)) as [Hlt|Hge].
  - rewrite bool_decide_eq_false_2 by lia.
    rewrite lookup_total_app_l by (rewrite length_take; lia).
    by rewrite lookup_total_take_lt by lia.
  - rewrite lookup_total_app_r by (rewrite length_take; lia).
    rewrite length_take. replace (Z.to_nat first `min` length a)%nat with (Z.to_nat first)
      by lia.
    destruct (decide (j < last)) as [Hlt|Hge'].
    + rewrite bool_decide_eq_true_2 by lia.
      rewrite lookup_total_app_l by (rewrite length_replicate; lia).
      apply lookup_total_replicate_2. lia.
    + rewrite bool_decide_eq_false_2 by lia.
      rewrite lookup_total_app_r by (rewrite length_replicate; lia).
      rewrite length_replicate, lookup_total_drop. f_equal. lia.
Qed.

(** The entries of an array that satisfy [P], counted over the indices. *)
Lemma length_filter_indices {A} `{Inhabited A} (P : A → Prop) `{!∀ x, Decision (P x)}
    (pre l : list A) :
  length (filter (λ k, P (get (pre ++ l) k)) (seqZ (Z.of_nat (length pre)) (Z.of_nat (length l)))) =
  length (filter P l).
Proof.
  revert pre. induction l as [|x l IH]; intros pre; [done|].
  rewrite length_cons, seqZ_cons by lia. rewrite !filter_cons.
  assert (get (pre ++ x :: l) (Z.of_nat (length pre)) = x) as Hx.
  { unfold get. rewrite Nat2Z.id. rewrite lookup_total_app_r by lia.
    by replace (length pre - length pre)%nat with 0%nat by lia. }
  rewrite Hx. specialize (IH (pre ++ [x])). rewrite <- app_assoc in IH. cbn [app] in IH.
  rewrite length_app in IH. cbn [length] in IH.
  replace (Z.succ (Z.of_nat (length pre))) with (Z.of_nat (length pre + 1)) by lia.
  replace (Z.pred (Z.of_nat (S (length l)))) with (Z.of_nat (length l)) by lia.
  case_decide; cbn [length]; by rewrite IH.
Qed.

Lemma mapped_observable n ci cs :
  body n = Body48 ci cs → length ci = 256%nat →
  mapped ci = Z.of_nat (length (observable n)).
Proof.
  intros Hbody Hlen. unfold observable, mapped. rewrite Hbody.
  rewrite (length_indexed (λ b, get ci b ≠ empty_child) (λ b, get cs (get ci b))).
  pose proof (length_filter_indices (λ s, s ≠ empty_child) [] ci) as Hcount.
  cbn [app length] in Hcount. rewrite Hlen in Hcount. by rewrite <- Hcount.
Qed.

Lemma population_observable n cs :
  body n = Body256 cs → length cs = 256%nat →
  population cs = Z.of_nat (length (observable n)).
Proof.
  intros Hbody Hlen. unfold observable, population. rewrite Hbody.
  rewrite (length_indexed (λ b, get cs b ≠ nullptr) (λ b, get cs b)).
  pose proof (length_filter_indices (λ c, c ≠ nullptr) [] cs) as Hcount.
  cbn [app length] in Hcount. rewrite Hlen in Hcount. by rewrite <- Hcount.
Qed.

(** The entries of an indexed node are determined by what the arrays
    hold, whatever the count says. *)
Lemma observable_eq_indexed n l :
  static_type n = I48 ∨ static_type n = I256 →
  key_sorted l → (∀ k v, (k, v) ∈ l ↔ has_entry n k v) → observable n = l.
Proof.
  intros Htype Hl Hiff. apply key_sorted_eq; [| done |].
  - unfold observable, static_type in *.
    destruct (body n) as [ks cs|ks cs|ci cs|cs]; [by destruct Htype..| |].
    + apply (indexed_sorted (λ b, get ci b ≠ empty_child) (λ b, get cs (get ci b))).
    + apply (indexed_sorted (λ b, get cs b ≠ nullptr) (λ b, get cs b)).
  - intros [k v]. rewrite Hiff. unfold observable, has_entry, static_type, is_byte in *.
    destruct (body n) as [ks cs|ks cs|ci cs|cs]; [by destruct Htype..| |].
    + rewrite (elem_of_indexed (λ b, get ci b ≠ empty_child) (λ b, get cs (get ci b))).
      by replace (0 + 256) with 256 by lia.
    + rewrite (elem_of_indexed (λ b, get cs b ≠ nullptr) (λ b, get cs b)).
      by replace (0 + 256) with 256 by lia.
Qed.

Lemma length_insert_entry b c l :
  (∀ v, (b, v) ∉ l) → length (insert_entry b c l) = S (length l).
Proof.
  intros Hfresh. unfold insert_entry. rewrite length_app, length_cons.
  set (below := filter (λ kv, kv.1 < b) l). set (above := filter (λ kv, b < kv.1) l).
  assert (length l = (length below + length above)%nat) as ->; [|lia].
  subst below above.
  induction l as [|[k v] l IH]; [done|].
  rewrite !filter_cons. simpl.
  assert (k ≠ b) by (intros ->; apply (Hfresh v); by left).
  rewrite IH at 1 by (intros w Hin; apply (Hfresh w); by right).
  repeat case_decide; simpl; lia.
Qed.

Lemma filter_all {A} (P : A → Prop) `{!∀ x, Decision (P x)} (xs : list A) :
  Forall P xs → filter P xs = xs.
Proof.
  induction 1 as [|x xs Hx _ IH]; [done|]. by rewrite filter_cons_True, IH.
Qed.

Lemma length_remove_entry b c l :
  key_sorted l → (b, c) ∈ l → length l = S (length (remove_entry b l)).
Proof.
  intros Hl Hin. unfold remove_entry.
  induction Hl as [|[k v] l Hl IH Hx]; [by apply elem_of_nil in Hin|].
  rewrite filter_cons. simpl. apply elem_of_cons in Hin as [[= <- <-]|Hin].
  - rewrite decide_False by (intros Hne; by apply Hne). f_equal.
    f_equal. symmetry. apply filter_all.
    rewrite Forall_forall in Hx |- *. intros y Hy. specialize (Hx y Hy).
    unfold key_lt in Hx. simpl in *. lia.
  - rewrite Forall_forall in Hx. specialize (Hx _ Hin) as Hlt. unfold key_lt in Hlt.
    simpl in Hlt. rewrite decide_True by lia. simpl. f_equal. by apply IH.
Qed.


(** A child array whose first [m] slots, and no others, hold a child. *)
Lemma population_prefix cs m :
  0 ≤ m ≤ Z.of_nat (length cs) →
  (∀ j, 0 ≤ j < Z.of_nat (length cs) → get cs j ≠ nullptr ↔ j < m) →
  population cs = m.
Proof.
  revert m. induction cs as [|c cs IH]; intros m Hm Hslots.
  { simpl in Hm. unfold population. simpl. lia. }
  rewrite length_cons in *. rewrite population_cons.
  assert (∀ j, 0 ≤ j < Z.of_nat (length cs) → get cs j = get (c :: cs) (j + 1)) as Hshift.
  { intros j Hj. rewrite get_cons_pos by lia. f_equal. lia. }
  destruct (decide (0 < m)) as [Hpos|Hzero].
  - rewrite bool_decide_eq_true_2 by (apply (Hslots 0); [lia|done]).
    rewrite (IH (m - 1)); [lia|lia|].
    intros j Hj. rewrite Hshift by done. rewrite Hslots by lia. lia.
  - rewrite bool_decide_eq_false_2.
    2:{ intros Hne. apply (Hslots 0) in Hne; lia. }
    rewrite (IH 0); [lia|lia|].
    intros j Hj. rewrite Hshift by done. rewrite Hslots by lia. lia.
Qed.
End counting.

(** ** Growing a [basic_inode_16] into a [basic_inode_48] *)

Section populate48_loops.
Implicit Types (h : heap) (this source a b k : Z) (ks ci : list Z) (cs : list node_ptr)
  (n : inode) (c v : node_ptr) (W : list (node_ptr * Z)) (T : node_type).

End populate48_loops.

Section grow_16_to_48_theorem.
Implicit Types (h : heap) (this source a b k : Z) (ks ci : list Z) (cs : list node_ptr)
  (n : inode) (c v : node_ptr) (W : list (node_ptr * Z)) (T : node_type).

(** In the indexed nodes a child is at the position of its key byte. *)
Lemma positions_indexed n :
  static_type n = I48 ∨ static_type n = I256 → positions n = observable n.
Proof.
  unfold static_type, positions. by destruct (body n); intros [?|?].
Qed.

End grow_16_to_48_theorem.

Section grow_16_to_48_examples.
Import examples.


End grow_16_to_48_examples.

(** ** Shrinking a [basic_inode_48] into a [basic_inode_16] *)

Section shrink16_loops.
Implicit Types (h : heap) (this source a b k : Z) (ks ci : list Z) (cs : list node_ptr)
  (n : inode) (c v : node_ptr) (W : list (node_ptr * Z)) (T : node_type).

Lemma entries_from_end ci cs i : 256 ≤ i → entries_from ci cs i = [].
Proof. intros Hi. unfold entries_from. by rewrite seqZ_nil by lia. Qed.

Lemma entries_from_step ci cs i :
  0 ≤ i < 256 →
  entries_from ci cs i =
  if decide (get ci i ≠ empty_child)
  then (i, get cs (get ci i)) :: entries_from ci cs (i + 1)
  else entries_from ci cs (i + 1).
Proof.
  intros Hi. unfold entries_from. rewrite seqZ_cons by lia. cbn [omap list_omap].
  replace (Z.succ i) with (i + 1) by lia.
  replace (Z.pred (256 - i)) with (256 - (i + 1)) by lia.
  by case_decide.
Qed.

Lemma entries_from_observable n ci cs :
  body n = Body48 ci cs → observable n = entries_from ci cs 0.
Proof. intros Hbody. unfold observable, entries_from. by rewrite Hbody. Qed.

Lemma firstn_Z_cons {A} m (x : A) (l : list A) :
  0 < m → firstn_Z m (x :: l) = x :: firstn_Z (m - 1) l.
Proof.
  intros Hm. unfold firstn_Z. replace (Z.to_nat m) with (S (Z.to_nat (m - 1))) by lia. done.
Qed.

Lemma firstn_Z_put {A} i (x : A) (l : list A) :
  0 ≤ i → i < Z.of_nat (length l) →
  firstn_Z (i + 1) (put i x l) = firstn_Z i l ++ [x].
Proof.
  intros Hi Hlen. unfold firstn_Z, put.
  replace (Z.to_nat (i + 1)) with (S (Z.to_nat i)) by lia.
  rewrite (take_S_r _ _ x) by (apply list_lookup_insert_eq; lia).
  by rewrite take_insert_ge by lia.
Qed.

(** The loop of the shrinking constructor from the key byte [i] on, with
    [next_child] entries written so far: it writes the next
    [16 - next_child] entries of the source, in the order of their key
    bytes, and reparents each child with its index. *)
Lemma shrink16_loop_spec fuel this source i next_child h :
  this ≠ source → static_type (h !!! this) = I16 →
  0 ≤ i → 0 ≤ next_child < 16 →
  length (keys_of (h !!! this)) = 16%nat → length (children_of (h !!! this)) = 16%nat →
  let E := entries_from (indices_of (h !!! source)) (children_of (h !!! source)) i in
  16 - next_child ≤ Z.of_nat (length E) → 256 - i ≤ Z.of_nat fuel →
  let h' := basic_inode_16.shrink_loop fuel this source i next_child h in
  let m := 16 - next_child in
  keys_of (h' !!! this) = firstn_Z next_child (keys_of (h !!! this)) ++ (firstn_Z m E).*1 ∧
  children_of (h' !!! this) =
    firstn_Z next_child (children_of (h !!! this)) ++ (firstn_Z m E).*2 ∧
  writes I16 this h h' (swap <$> zip (seqZ next_child m) (firstn_Z m E).*2).
Proof.
  intros Hne. revert i next_child h.
  induction fuel as [|fuel IH]; intros i next_child h Htype Hi Hnext Hlk Hlc E HE Hfuel h' m;
    subst h' m E; cbn [basic_inode_16.shrink_loop].
  { rewrite entries_from_end in HE by lia. simpl in HE. lia. }
  assert (i < 256) as Hi'.
  { destruct (decide (i < 256)); [done|]. rewrite entries_from_end in HE by lia.
    simpl in HE. lia. }
  set (sci := indices_of (h !!! source)) in *. set (scs := children_of (h !!! source)) in *.
  rewrite entries_from_step in * by lia.
  destruct (decide (get sci i ≠ empty_child)) as [Hentry|Hentry];
    [rewrite bool_decide_eq_true_2 by done|rewrite bool_decide_eq_false_2 by done].
  2:{ destruct (IH (i + 1) next_child h) as (Hks & Hcs & Hw); [done|lia|done..|lia|].
      done. }
  unfold basic_inode_16.capacity.
  assert (u8 i = i) as -> by (apply u8_byte; unfold is_byte; lia).
  set (h1 := store h this (with_keys (put next_child i))).
  assert (children_of (h1 !!! source) = scs) as -> by apply store_keys_children.
  set (ptr := get scs (get sci i)) in *.
  set (h2 := store h1 this (with_children (put next_child ptr))).
  assert (keys_of (h2 !!! this) = put next_child i (keys_of (h !!! this))) as Hks2.
  { unfold h2. rewrite store_children_keys. unfold h1. apply store_keys_of. by right. }
  assert (children_of (h2 !!! this) = put next_child ptr (children_of (h !!! this))) as Hcs2.
  { unfold h2. rewrite store_children_of. unfold h1. by rewrite store_keys_children. }
  rewrite Hcs2, get_put_eq by lia.
  set (h3 := reparent I16 h2 this ptr next_child).
  assert (writes I16 this h h3 [(ptr, next_child)]) as Hw3.
  { apply (writes_app I16 this h h2 _ [] [_]); [|apply writes_one_link].
    apply writes_body; [|apply with_children_body_only].
    apply writes_one_body, with_keys_body_only. }
  assert (keys_of (h3 !!! this) = put next_child i (keys_of (h !!! this))) as Hks3
    by (unfold h3; by rewrite reparent_keys).
  assert (children_of (h3 !!! this) = put next_child ptr (children_of (h !!! this))) as Hcs3
    by (unfold h3; by rewrite reparent_children).
  destruct (writes_frame I16 this h h3 _ this Hw3) as (_ & _ & Htype3 & _).
  destruct (writes_source I16 this h h3 _ source Hw3 Hne) as (_ & Hsi & Hsc).
  fold sci in Hsi. fold scs in Hsc.
  rewrite length_cons in HE.
  rewrite !firstn_Z_cons by lia. rewrite seqZ_cons by lia.
  replace (Z.succ next_child) with (next_child + 1) by lia.
  replace (Z.pred (16 - next_child)) with (16 - next_child - 1) by lia.
  rewrite !fmap_cons. cbn [fst snd zip zip_with fmap list_fmap].
  change (swap (next_child, ptr)) with (ptr, next_child).
  rewrite !cons_middle, !app_assoc.
  rewrite <- (firstn_Z_put next_child i) by lia.
  rewrite <- (firstn_Z_put next_child ptr) by lia.
  rewrite <- Hks3, <- Hcs3.
  case_bool_decide as Hend.
  - assert (16 - next_child - 1 = 0) as -> by lia.
    unfold firstn_Z at 2 4 5. rewrite take_0. cbn [fmap list_fmap zip zip_with].
    rewrite seqZ_nil by lia. cbn [zip zip_with fmap list_fmap]. rewrite !app_nil_r.
    unfold firstn_Z. rewrite !take_ge by (rewrite ?Hks3, ?Hcs3, ?length_put; lia).
    done.
  - destruct (IH (i + 1) (next_child + 1) h3) as (Hks & Hcs & Hw);
      [by rewrite Htype3|lia|lia|rewrite Hks3, length_put; lia
      |rewrite Hcs3, length_put; lia|rewrite Hsi, Hsc; lia|lia|].
    rewrite Hsi, Hsc in Hks, Hcs, Hw.
    replace (16 - (next_child + 1)) with (16 - next_child - 1) in * by lia.
    split; [done|]. split; [done|].
    by apply (writes_app I16 this h h3 _ [_]).
Qed.

(** Clearing the index of a key byte takes its entry away. *)
Lemma entries_from_cleared ci cs d i :
  0 ≤ i → 0 ≤ d → d < Z.of_nat (length ci) →
  entries_from (put d empty_child ci) cs i = remove_entry d (entries_from ci cs i).
Proof.
  intros Hi Hd Hlen. unfold entries_from, remove_entry.
  assert (Forall (λ b, 0 ≤ b) (seqZ i (256 - i))) as Hall.
  { apply Forall_forall. intros b Hb%elem_of_seqZ. lia. }
  induction Hall as [|b L Hb _ IH]; [done|]. cbn [omap list_omap].
  destruct (decide (b = d)) as [->|Hbd].
  - rewrite get_put_eq by lia. rewrite decide_False by (by intros Hc).
    case_decide; [|done]. rewrite filter_cons_False; [done|]. simpl. by intros Hc.
  - rewrite get_put_ne by lia.
    case_decide; [|done]. rewrite filter_cons_True by done. by rewrite IH.
Qed.

(** The keys of entries in key order are sorted in the sense of the
    sorted nodes. *)
Lemma key_sorted_keys (l : list (Z * node_ptr)) :
  key_sorted l → sorted_keys (Z.of_nat (length l)) l.*1.
Proof.
  induction 1 as [|x l Hl IH Hx]; intros i Hi j Hj Hij; simpl in Hi, Hj; [lia|].
  rewrite fmap_cons. rewrite (get_cons_pos _ _ j) by lia.
  destruct (decide (i = 0)) as [->|Hi0].
  - change (get (x.1 :: l.*1) 0) with x.1.
    assert (get l.*1 (j - 1) ∈ l.*1) as Hin
      by (apply get_elem_of; rewrite ?length_fmap; lia).
    apply list_elem_of_fmap in Hin as (y & -> & Hy).
    rewrite Forall_forall in Hx. by apply Hx.
  - rewrite (get_cons_pos _ _ i) by lia. apply IH; lia.
Qed.

Lemma get_fmap_fst (l : list (Z * node_ptr)) i :
  0 ≤ i < Z.of_nat (length l) → get l.*1 i = (get l i).1.
Proof.
  intros Hi. unfold get. rewrite !list_lookup_total_alt, list_lookup_fmap.
  destruct (lookup_lt_is_Some_2 l (Z.to_nat i)) as [x ->]; [lia|done].
Qed.

Lemma get_fmap_snd (l : list (Z * node_ptr)) i :
  0 ≤ i < Z.of_nat (length l) → get l.*2 i = (get l i).2.
Proof.
  intros Hi. unfold get. rewrite !list_lookup_total_alt, list_lookup_fmap.
  destruct (lookup_lt_is_Some_2 l (Z.to_nat i)) as [x ->]; [lia|done].
Qed.

(** A sorted node whose arrays begin with the keys and the children of a
    list of entries shows these entries. *)
Lemma observable_of_entries n ks cs (l : list (Z * node_ptr)) :
  (body n = Body4 ks cs ∨ body n = Body16 ks cs) →
  children_count n = Z.of_nat (length l) →
  firstn_Z (children_count n) ks = l.*1 → firstn_Z (children_count n) cs = l.*2 →
  observable n = l.
Proof.
  intros Hbody Hcount Hks Hcs. unfold observable.
  destruct Hbody as [-> | ->]; rewrite Hks, Hcs; apply zip_fst_snd.
Qed.
End shrink16_loops.

Section shrink_48_to_16_theorem.
Implicit Types (h : heap) (this source a b k : Z) (ks ci : list Z) (cs : list node_ptr)
  (n : inode) (c v : node_ptr) (W : list (node_ptr * Z)) (T : node_type).

(** X8. The constructor of a [basic_inode_16] from a [basic_inode_48] at
    its minimum size, for the removal of the child of the key byte
    [child_to_delete]: the new node is well formed and full, has the
    prefix of the source and, in the order of the key bytes, the children
    of the source without the removed one; in the source only the index
    of the removed key byte is written, its slot and the count are not;
    and when the children of the source are different nodes, every child
    that is not a leaf records the new node and its index there. *)
Theorem shrink_48_to_16 h this source n child_to_delete :
  this ≠ source → h !!! source = n → static_type n = I48 → node_inv n →
  basic_inode_48.is_min_size n = true → is_byte child_to_delete →
  key_present n child_to_delete →
  let h' := basic_inode_16.shrink_ctor h this source child_to_delete in
  let n' := h' !!! this in
  observable n' = remove_entry child_to_delete (observable n) ∧
  wf_node n' ∧ static_type n' = I16 ∧ basic_inode_16.is_full n' = true ∧
  prefix n' = prefix n ∧
  (indices_of (h' !!! source) = put child_to_delete empty_child (indices_of n) ∧
   children_of (h' !!! source) = children_of n ∧
   children_count (h' !!! source) = children_count n ∧
   prefix (h' !!! source) = prefix n) ∧
  (distinct_nodes (children_list n) → back_linked h' this).
Proof.
  intros Hne Hn Htype Hinv Hmin Hd Hpresent h' n'.
  apply bool_decide_eq_true in Hmin. unfold basic_inode_48.min_size in Hmin.
  pose proof Hinv as Hinv0. unfold node_inv in Hinv.
  pose proof (body_of_arrays n) as Hbody. rewrite Htype in Hbody. rewrite Hbody in Hinv.
  destruct Hinv as (Hlci & Hlcs & _ & Hbytes & Hvalid & Hdistinct & Hmapped & Hpop).
  unfold key_present in Hpresent. rewrite Hbody in Hpresent.
  set (sci := indices_of n) in *. set (scs := children_of n) in *.
  unfold is_byte in Hd.
  subst h' n'. unfold basic_inode_16.shrink_ctor. rewrite Hn.
  set (h0 := <[this := _]> h).
  assert (h0 !!! this = fresh_inode basic_inode_16.capacity (prefix n)
                          (Body16 (replicate 16 0) (replicate 16 nullptr))) as Hthis0
    by apply lookup_total_insert_eq.
  assert (h0 !!! source = n) as Hsource0
    by (unfold h0; rewrite lookup_total_insert_ne by done; done).
  set (h1 := store h0 source (with_indices (put child_to_delete empty_child))).
  assert (h1 !!! this = h0 !!! this) as Hthis1 by (apply store_ne; congruence).
  assert (indices_of (h1 !!! source) = put child_to_delete empty_child sci) as Hsi1.
  { unfold h1. rewrite store_indices_of by (by rewrite Hsource0). by rewrite Hsource0. }
  assert (children_of (h1 !!! source) = scs) as Hsc1.
  { unfold h1. rewrite store_indices_children. by rewrite Hsource0. }
  assert (children_count (h1 !!! source) = children_count n ∧
          prefix (h1 !!! source) = prefix n) as [Hcount1 Hprefix1].
  { unfold h1. rewrite store_eq, Hsource0.
    by destruct (with_indices_body_only (put child_to_delete empty_child) n)
      as (-> & _ & _ & -> & _). }
  rewrite Hthis0 in Hthis1. clearbody h0.
  set (E := remove_entry child_to_delete (observable n)).
  assert (entries_from (indices_of (h1 !!! source)) (children_of (h1 !!! source)) 0 = E)
    as HE.
  { rewrite Hsi1, Hsc1, entries_from_cleared by lia.
    unfold E. by rewrite (entries_from_observable n sci scs). }
  assert ((child_to_delete, get scs (get sci child_to_delete)) ∈ observable n) as Hin.
  { apply elem_of_observable; [done|]. unfold has_entry. by rewrite Hbody. }
  assert (length E = 16%nat) as HlE.
  { pose proof (length_remove_entry _ _ _ (observable_key_sorted n Hinv0) Hin) as Hlen.
    pose proof (mapped_observable n sci scs Hbody Hlci) as Hm. fold E in Hlen. lia. }
  assert (key_sorted E) as HsE by (by apply key_sorted_filter, observable_key_sorted).
  assert (∀ k v, (k, v) ∈ E → is_byte k ∧ v ≠ nullptr) as HinE.
  { intros k v [Hkv _]%elem_of_remove_entry. apply elem_of_observable in Hkv; [|done].
    unfold has_entry in Hkv. rewrite Hbody in Hkv. destruct Hkv as (Hk & Hne' & ->).
    split; [done|]. by apply Hvalid. }
  destruct (shrink16_loop_spec 256 this source 0 0 h1 Hne) as (Hks & Hcs & Hw);
    [by rewrite Hthis1|lia|lia|by rewrite Hthis1|by rewrite Hthis1|rewrite HE, HlE; lia|lia|].
  set (h2 := basic_inode_16.shrink_loop 256 this source 0 0 h1) in *.
  rewrite HE in Hks, Hcs, Hw. replace (16 - 0) with 16 in * by lia.
  assert (firstn_Z 16 E = E) as HtE by (apply firstn_Z_all; lia).
  rewrite HtE in Hks, Hcs, Hw. unfold firstn_Z in Hks at 1. unfold firstn_Z in Hcs at 1.
  rewrite take_0 in Hks. rewrite take_0 in Hcs. cbn [app] in Hks, Hcs.
  destruct (writes_frame I16 this h1 h2 _ this Hw) as (Hcount2 & Hprefix2 & Htype2 & _).
  destruct (writes_frame I16 this h1 h2 _ source Hw) as (Hcount2s & Hprefix2s & _).
  destruct (writes_source I16 this h1 h2 _ source Hw Hne) as (_ & Hsi2 & Hsc2).
  rewrite Hthis1 in Hcount2, Hprefix2, Htype2.
  change (children_count (fresh_inode _ _ _)) with 16 in Hcount2.
  change (prefix (fresh_inode _ _ _)) with (prefix n) in Hprefix2.
  change (static_type (fresh_inode _ _ _)) with I16 in Htype2.
  clearbody h2. clearbody h1.
  assert (body (h2 !!! this) = Body16 E.*1 E.*2) as Hbody2
    by (rewrite (body_of_arrays (h2 !!! this)), Htype2, Hks, Hcs; done).
  assert (observable (h2 !!! this) = E) as Hobs.
  { apply (observable_of_entries _ E.*1 E.*2); [by right|rewrite Hcount2, HlE; lia|..];
      rewrite Hcount2; apply firstn_Z_all; rewrite length_fmap; lia. }
  assert (node_inv (h2 !!! this)) as Hinv2.
  { unfold node_inv. rewrite Hbody2, Hcount2.
    split; [by rewrite length_fmap|]. split; [by rewrite length_fmap|].
    split; [lia|]. split; [|split].
    - apply Forall_forall. intros k ([k' v] & -> & Hkv)%list_elem_of_fmap.
      by apply (HinE k' v).
    - pose proof (key_sorted_keys E HsE) as Hsorted. by rewrite HlE in Hsorted.
    - intros i Hi.
      assert (get E.*2 i ∈ E.*2) as Hget by (apply get_elem_of; rewrite ?length_fmap; lia).
      apply list_elem_of_fmap in Hget as ([k v] & -> & Hkv). by apply (HinE k v). }
  split; [done|]. split; [|split; [done|split; [|split; [done|split]]]].
  - split; [done|]. unfold min_size_of, capacity_of, num_children.
    rewrite Hbody2, Hcount2. by vm_compute.
  - unfold basic_inode_16.is_full. rewrite Hcount2. by vm_compute.
  - rewrite Hsi2, Hsc2, Hcount2s, Hprefix2s. done.
  - intros Hnodes j c Hjc. rewrite Htype2.
    apply (writes_back_linked I16 this h1 h2 (zip (seqZ 0 16) E.*2) Hw).
    + rewrite fst_zip by (rewrite length_seqZ, length_fmap; lia). apply NoDup_seqZ.
    + rewrite snd_zip by (rewrite length_seqZ, length_fmap; lia).
      apply (distinct_nodes_sublist (children_list n)); [done|].
      unfold children_list. apply fmap_sublist. unfold E, remove_entry. apply sublist_filter.
    + apply Forall_forall. intros [j' c'] Hin'. apply elem_of_zip_l in Hin'.
      apply elem_of_seqZ in Hin'. unfold is_byte. simpl. lia.
    + rewrite (positions_sorted _ E.*1 E.*2) in Hjc by (by right).
      rewrite Hcount2 in Hjc. by rewrite firstn_Z_all in Hjc by (rewrite length_fmap; lia).
Qed.
End shrink_48_to_16_theorem.

Section shrink_48_to_16_examples.
Import examples.

Lemma shrink_48_to_16_witness :
  let n := heap48_min !!! 48 in
  let h' := basic_inode_16.shrink_ctor heap48_min 17 48 0x80 in
  let n' := h' !!! 17 in
  observable n' = remove_entry 0x80 (observable n) ∧
  wf_node n' ∧ static_type n' = I16 ∧ basic_inode_16.is_full n' = true ∧
  prefix n' = prefix n ∧
  (indices_of (h' !!! 48) = put 0x80 empty_child (indices_of n) ∧
   children_of (h' !!! 48) = children_of n ∧
   children_count (h' !!! 48) = children_count n ∧
   prefix (h' !!! 48) = prefix n) ∧
  (distinct_nodes (children_list n) → back_linked h' 17).
Proof.
  apply (shrink_48_to_16 heap48_min 17 48 (heap48_min !!! 48) 0x80).
  - lia.
  - reflexivity.
  - by vm_compute.
  - apply (bool_decide_unpack _). by vm_compute.
  - by vm_compute.
  - by vm_compute.
  - apply (bool_decide_unpack _). by vm_compute.
Defined.

End shrink_48_to_16_examples.

(** ** Growing a [basic_inode_48] into a [basic_inode_256] *)

Section populate256_loops.
Implicit Types (h : heap) (this source a b k : Z) (ks ci : list Z) (cs : list node_ptr)
  (n : inode) (c v : node_ptr) (W : list (node_ptr * Z)) (T : node_type).

(** The first loop of [populate] from the key byte [i] on, with
    [children_copied] children copied so far: it stops at the key byte of
    the 48th child, having written every slot up to there, and has
    reparented each child copied with its key byte. *)
Lemma populate256_loop_spec fuel this source i children_copied h :
  this ≠ source → static_type (h !!! this) = I256 →
  0 ≤ i → 0 ≤ children_copied < 48 →
  length (children_of (h !!! this)) = 256%nat →
  let sci := indices_of (h !!! source) in
  let scs := children_of (h !!! source) in
  let E := entries_from sci scs i in
  48 - children_copied ≤ Z.of_nat (length E) → 256 - i ≤ Z.of_nat fuel →
  let r := basic_inode_256.populate_loop fuel this source i children_copied h in
  let m := 48 - children_copied in
  i ≤ r.2 < 256 ∧
  entries_from sci scs (r.2 + 1) = drop (Z.to_nat m) E ∧
  length (children_of (r.1 !!! this)) = 256%nat ∧
  (∀ j, 0 ≤ j →
        get (children_of (r.1 !!! this)) j =
        if bool_decide (i ≤ j ≤ r.2) then indexed_child sci scs j
        else get (children_of (h !!! this)) j) ∧
  writes I256 this h r.1 (swap <$> firstn_Z m E).
Proof.
  intros Hne. revert i children_copied h.
  induction fuel as [|fuel IH];
    intros i children_copied h Htype Hi Hcopied Hlc sci scs E HE Hfuel r m;
    subst r m E; cbn [basic_inode_256.populate_loop].
  { rewrite entries_from_end in HE by lia. simpl in HE. lia. }
  assert (i < 256) as Hi'.
  { destruct (decide (i < 256)); [done|]. rewrite entries_from_end in HE by lia.
    simpl in HE. lia. }
  fold sci scs. rewrite (entries_from_step sci scs i) in HE by lia.
  rewrite (entries_from_step sci scs i) by lia.
  destruct (decide (get sci i ≠ empty_child)) as [Hentry|Hentry].
  2:{ rewrite bool_decide_eq_true_2 by (by destruct (decide (get sci i = empty_child))).
      set (h1 := store h this (with_children (put i nullptr))).
      assert (writes I256 this h h1 []) as Hw1
        by apply writes_one_body, with_children_body_only.
      assert (children_of (h1 !!! this) = put i nullptr (children_of (h !!! this))) as Hcs1
        by apply store_children_of.
      destruct (writes_frame I256 this h h1 _ this Hw1) as (_ & _ & Htype1 & _).
      destruct (writes_source I256 this h h1 _ source Hw1 Hne) as (_ & Hsi & Hsc).
      fold sci in Hsi. fold scs in Hsc.
      destruct (IH (i + 1) children_copied h1) as (Hlast & Hrest & Hlen & Hcs & Hw);
        [by rewrite Htype1|lia|done|rewrite Hcs1, length_put; lia
        |rewrite Hsi, Hsc; lia|lia|].
      rewrite Hsi, Hsc in Hrest, Hcs, Hw.
      destruct (basic_inode_256.populate_loop fuel this source (i + 1) children_copied h1)
        as [h2 last]. cbn [fst snd] in *.
      split; [lia|]. split; [done|]. split; [done|]. split.
      - intros j Hj. rewrite Hcs, Hcs1 by done.
        destruct (decide (j = i)) as [->|Hji].
        + rewrite bool_decide_eq_false_2, bool_decide_eq_true_2 by lia.
          rewrite get_put_eq by lia. unfold indexed_child. by rewrite decide_False.
        + rewrite get_put_ne by lia. repeat case_bool_decide; done || lia.
      - by apply (writes_app I256 this h h1 h2 [] _). }
  rewrite bool_decide_eq_false_2 by done.
  unfold basic_inode_48.capacity. fold scs.
  set (ptr := get scs (get sci i)) in *.
  set (h1 := store h this (with_children (put i ptr))).
  assert (children_of (h1 !!! this) = put i ptr (children_of (h !!! this))) as Hcs1
    by apply store_children_of.
  rewrite Hcs1, get_put_eq by lia.
  set (h2 := reparent I256 h1 this ptr i).
  assert (writes I256 this h h2 [(ptr, i)]) as Hw2.
  { apply (writes_app I256 this h h1 _ [] [_]); [|apply writes_one_link].
    apply writes_one_body, with_children_body_only. }
  assert (children_of (h2 !!! this) = put i ptr (children_of (h !!! this))) as Hcs2
    by (unfold h2; by rewrite reparent_children).
  destruct (writes_frame I256 this h h2 _ this Hw2) as (_ & _ & Htype2 & _).
  destruct (writes_source I256 this h h2 _ source Hw2 Hne) as (_ & Hsi & Hsc).
  fold sci in Hsi. fold scs in Hsc.
  rewrite length_cons in HE.
  rewrite firstn_Z_cons by lia. rewrite fmap_cons.
  change (swap (i, ptr)) with (ptr, i).
  replace (Z.to_nat (48 - children_copied))
    with (S (Z.to_nat (48 - children_copied - 1))) by lia.
  rewrite skipn_cons.
  assert (indexed_child sci scs i = ptr) as Hval by (unfold indexed_child; by rewrite decide_True).
  case_bool_decide as Hend; cbn [fst snd].
  - assert (48 - children_copied - 1 = 0) as -> by lia.
    split; [lia|]. split; [done|]. split; [by rewrite Hcs2, length_put|]. split.
    + intros j Hj. rewrite Hcs2.
      destruct (decide (j = i)) as [->|Hji].
      * rewrite bool_decide_eq_true_2 by lia. rewrite get_put_eq by lia. done.
      * rewrite bool_decide_eq_false_2 by lia. by rewrite get_put_ne by lia.
    + done.
  - destruct (IH (i + 1) (children_copied + 1) h2) as (Hlast & Hrest & Hlen & Hcs & Hw);
      [by rewrite Htype2|lia|lia|rewrite Hcs2, length_put; lia
      |rewrite Hsi, Hsc; lia|lia|].
    rewrite Hsi, Hsc in Hrest, Hcs, Hw.
    replace (48 - (children_copied + 1)) with (48 - children_copied - 1) in * by lia.
    destruct (basic_inode_256.populate_loop fuel this source (i + 1)
                (children_copied + 1) h2) as [h3 last]. cbn [fst snd] in *.
    split; [lia|]. split; [done|]. split; [done|]. split.
    + intros j Hj. rewrite Hcs, Hcs2 by done.
      destruct (decide (j = i)) as [->|Hji].
      * rewrite bool_decide_eq_false_2, bool_decide_eq_true_2 by lia.
        rewrite get_put_eq by lia. done.
      * rewrite get_put_ne by lia. repeat case_bool_decide; done || lia.
    + by apply (writes_app I256 this h h2 h3 [_]).
Qed.
End populate256_loops.

Section grow_48_to_256_theorem.
Implicit Types (h : heap) (this source a b k : Z) (ks ci : list Z) (cs : list node_ptr)
  (n : inode) (c v : node_ptr) (W : list (node_ptr * Z)) (T : node_type).

Lemma key_sorted_NoDup_keys (l : list (Z * node_ptr)) : key_sorted l → NoDup l.*1.
Proof.
  induction 1 as [|x l _ IH Hx]; rewrite ?fmap_cons; constructor; [|done].
  intros (y & Hxy & Hy)%list_elem_of_fmap. rewrite Forall_forall in Hx.
  specialize (Hx y Hy). unfold key_lt in Hx. lia.
Qed.

(** X9. [populate] of a [basic_inode_256] at its minimum size, whatever
    its child array holds, from a full [basic_inode_48] and a leaf for a
    key byte that the source does not hold: every slot is written; the
    node is well formed, keeps its prefix and has, in the order of the
    key bytes, the children of the source and the new leaf; the iterator
    returned is that of the new leaf; the arrays, count and prefix of the
    source are not written; and when the children of the source are
    different nodes, every child that is not a leaf records the new node
    and its key byte. *)
Theorem grow_48_to_256 h this source n child b :
  this ≠ source → h !!! source = n → static_type n = I48 → node_inv n →
  basic_inode_48.is_full n = true →
  static_type (h !!! this) = I256 → length (children_of (h !!! this)) = 256%nat →
  basic_inode_256.is_min_size (h !!! this) = true →
  is_byte b → ¬ key_present n b → child ≠ 0 →
  let r := basic_inode_256.populate h this source child b in
  let n' := r.1 !!! this in
  observable n' = insert_entry b (create child LEAF) (observable n) ∧
  wf_node n' ∧ static_type n' = I256 ∧ basic_inode_256.is_min_size n' = true ∧
  prefix n' = prefix (h !!! this) ∧
  node r.2 = create child LEAF ∧ designates n' this b r.2 ∧
  (body (r.1 !!! source) = body n ∧ children_count (r.1 !!! source) = children_count n ∧
   prefix (r.1 !!! source) = prefix n) ∧
  (distinct_nodes (children_list n) → back_linked r.1 this).
Proof.
  intros Hne Hn Htype Hinv Hfull Htype0 Hlc0 Hmin0 Hb Hfresh Hchild r n'.
  apply bool_decide_eq_true in Hfull. unfold basic_inode_48.capacity in Hfull.
  apply bool_decide_eq_true in Hmin0. unfold basic_inode_256.min_size in Hmin0.
  pose proof Hinv as Hinv0. unfold node_inv in Hinv.
  pose proof (body_of_arrays n) as Hbody. rewrite Htype in Hbody. rewrite Hbody in Hinv.
  destruct Hinv as (Hlci & Hlcs & _ & Hbytes & Hvalid & Hdistinct & Hmapped & Hpop).
  unfold key_present in Hfresh. rewrite Hbody in Hfresh.
  set (sci := indices_of n) in *. set (scs := children_of n) in *.
  assert (get sci b = empty_child) as Hfresh'
    by (by destruct (decide (get sci b = empty_child))).
  unfold is_byte in Hb.
  set (E := observable n).
  assert (entries_from (indices_of (h !!! source)) (children_of (h !!! source)) 0 = E) as HE
    by (rewrite Hn; symmetry; by apply entries_from_observable).
  assert (length E = 48%nat) as HlE.
  { pose proof (mapped_observable n sci scs Hbody Hlci) as Hm. fold E in Hm. lia. }
  assert (key_sorted E) as HsE by (by apply observable_key_sorted).
  subst n' r. unfold basic_inode_256.populate.
  destruct (populate256_loop_spec 256 this source 0 0 h Hne Htype0)
    as (Hlast & Hrest & Hlc1 & Hcs1 & Hw1); [lia|lia|done|rewrite HE, HlE; lia|lia|].
  destruct (basic_inode_256.populate_loop 256 this source 0 0 h) as [h1 last].
  cbn [fst snd] in Hlast, Hrest, Hlc1, Hcs1, Hw1.
  rewrite HE in Hrest, Hw1. rewrite Hn in Hrest, Hcs1. fold sci scs in Hrest, Hcs1.
  replace (48 - 0) with 48 in * by lia.
  rewrite drop_ge in Hrest by lia. rewrite firstn_Z_all in Hw1 by lia.
  unfold basic_inode_256.capacity.
  set (h2 := store h1 this (with_children (basic_inode_48.fill (last + 1) 256 nullptr))).
  set (h3 := store h2 this (with_children (put b (create child LEAF)))).
  assert (writes I256 this h h3 (swap <$> E)) as Hw.
  { do 2 (apply writes_body; [|apply with_children_body_only]). done. }
  assert (children_of (h3 !!! this) =
          put b (create child LEAF)
            (basic_inode_48.fill (last + 1) 256 nullptr (children_of (h1 !!! this)))) as Hcs3.
  { unfold h3. rewrite store_children_of. unfold h2. by rewrite store_children_of. }
  destruct (writes_frame I256 this h h3 _ this Hw) as (Hcount3 & Hprefix3 & Htype3 & _).
  destruct (writes_frame I256 this h h3 _ source Hw) as (Hcount3s & Hprefix3s & _ & Hbody3s).
  rewrite Hn in Hcount3s, Hprefix3s, Hbody3s. rewrite Htype0 in Htype3.
  rewrite Hmin0 in Hcount3.
  clearbody h3. clearbody h2.
  set (cs3 := children_of (h3 !!! this)) in *.
  assert (body (h3 !!! this) = Body256 cs3) as Hbody3
    by (rewrite (body_of_arrays (h3 !!! this)), Htype3; done).
  assert (create child LEAF ≠ nullptr) as Hleaf by (unfold nullptr; congruence).
  assert (length cs3 = 256%nat) as Hlcs3.
  { rewrite Hcs3, length_put, length_fill by lia. done. }
  assert (get cs3 b = create child LEAF) as Hread.
  { rewrite Hcs3. apply get_put_eq; [lia|]. rewrite length_fill by lia. lia. }
  assert (∀ k, last < k < 256 → get sci k = empty_child) as Hafter.
  { intros k Hk. destruct (decide (get sci k = empty_child)) as [|Hmapped']; [done|].
    assert ((k, get scs (get sci k)) ∈ entries_from sci scs (last + 1)) as Hin.
    { unfold entries_from. apply elem_of_indexed. split; [lia|done]. }
    rewrite Hrest in Hin. by apply elem_of_nil in Hin. }
  assert (∀ k, 0 ≤ k < 256 → k ≠ b → get cs3 k = indexed_child sci scs k) as Hslots.
  { intros k Hk Hkb. rewrite Hcs3, get_put_ne by lia.
    rewrite get_fill by lia. rewrite Hcs1 by lia.
    repeat case_bool_decide; try lia; [|done].
    unfold indexed_child. rewrite decide_False; [done|]. rewrite Hafter by lia. by intros Hc. }
  assert (∀ k v, has_entry (h3 !!! this) k v ↔
                 (k = b ∧ v = create child LEAF) ∨ has_entry n k v) as Hentries.
  { intros k v. unfold has_entry, is_byte. rewrite Hbody3, Hbody. split.
    - intros (Hk & Hne' & ->). destruct (decide (k = b)) as [->|Hkb]; [by left|right].
      rewrite Hslots in * by done. unfold indexed_child in *.
      split; [done|]. by case_decide.
    - intros [[-> ->]|(Hk & Hmapped' & ->)].
      + by rewrite Hread.
      + assert (k ≠ b) as Hkb by (intros ->; done).
        rewrite Hslots by done. unfold indexed_child. rewrite decide_True by done.
        split; [done|]. split; [|done]. by apply Hvalid. }
  assert (observable (h3 !!! this) = insert_entry b (create child LEAF) E) as Hobs.
  { apply observable_eq_indexed; [right; done| |].
    - by apply insert_entry_sorted.
    - intros k v. unfold E. rewrite elem_of_insert_entry, elem_of_observable, Hentries by done.
      simpl. split.
      + intros [[= -> ->]|[Hin Hk]]; [by left|by right].
      + intros [[-> ->]|Hin]; [by left|right]. split; [done|].
        intros ->. unfold has_entry in Hin. rewrite Hbody in Hin.
        by destruct Hin as (_ & Hmapped' & _). }
  assert (node_inv (h3 !!! this)) as Hinv3.
  { unfold node_inv. rewrite Hbody3, Hcount3. split; [done|]. split; [lia|].
    rewrite (population_observable (h3 !!! this) cs3) by done.
    rewrite Hobs, length_insert_entry.
    - rewrite HlE. unfold num_children. rewrite Hcount3. by vm_compute.
    - intros v Hin. apply elem_of_observable in Hin; [|done].
      unfold has_entry in Hin. rewrite Hbody in Hin. by destruct Hin as (_ & Hmapped' & _). }
  cbn [fst snd node].
  split; [done|]. split; [|split; [done|split; [|split; [done|split; [done|split; [|split]]]]]].
  - split; [done|]. unfold min_size_of, capacity_of, num_children.
    rewrite Hbody3, Hcount3. by vm_compute.
  - unfold basic_inode_256.is_min_size. rewrite Hcount3. by vm_compute.
  - unfold designates, static_type. by rewrite Hbody3.
  - split; [by apply Hbody3s|]. split; done.
  - intros Hnodes k v Hin. rewrite Htype3.
    rewrite positions_indexed in Hin by (by right).
    apply (elem_of_observable (h3 !!! this) k v Hinv3) in Hin.
    apply Hentries in Hin as [[-> ->]|Hin].
    { intros Htag. by destruct Htag. }
    apply (elem_of_observable n k v Hinv0) in Hin.
    apply (writes_back_linked I256 this h h3 E Hw); [|done| |done].
    + by apply key_sorted_NoDup_keys.
    + apply Forall_forall. intros [k' v'] Hin'.
      apply (elem_of_observable n k' v' Hinv0) in Hin'.
      unfold has_entry in Hin'. rewrite Hbody in Hin'. by destruct Hin' as (Hk' & _).
Qed.
End grow_48_to_256_theorem.

Section grow_48_to_256_examples.
Import examples.

Lemma grow_48_to_256_witness :
  let h := basic_inode_256.ctor heap48_filled 256 [9] in
  let n := heap48_filled !!! 48 in
  let r := basic_inode_256.populate h 256 48 4000 0xF0 in
  let n' := r.1 !!! 256 in
  observable n' = insert_entry 0xF0 (create 4000 LEAF) (observable n) ∧
  wf_node n' ∧ static_type n' = I256 ∧ basic_inode_256.is_min_size n' = true ∧
  prefix n' = prefix (h !!! 256) ∧
  node r.2 = create 4000 LEAF ∧ designates n' 256 0xF0 r.2 ∧
  (body (r.1 !!! 48) = body n ∧ children_count (r.1 !!! 48) = children_count n ∧
   prefix (r.1 !!! 48) = prefix n) ∧
  (distinct_nodes (children_list n) → back_linked r.1 256).
Proof.
  apply (grow_48_to_256 (basic_inode_256.ctor heap48_filled 256 [9]) 256 48
           (heap48_filled !!! 48) 4000 0xF0).
  - lia.
  - by vm_compute.
  - by vm_compute.
  - apply (bool_decide_unpack _). by vm_compute.
  - by vm_compute.
  - by vm_compute.
  - by vm_compute.
  - by vm_compute.
  - by vm_compute.
  - apply (bool_decide_unpack _). by vm_compute.
  - lia.
Defined.

End grow_48_to_256_examples.

(** ** Shrinking a [basic_inode_256] into a [basic_inode_48] *)

Section shrink48_loops.
Implicit Types (h : heap) (this source a b k : Z) (ks ci : list Z) (cs : list node_ptr)
  (n : inode) (c v : node_ptr) (W : list (node_ptr * Z)) (T : node_type).

Lemma direct_from_end cs i : 256 ≤ i → direct_from cs i = [].
Proof. intros Hi. unfold direct_from. by rewrite seqZ_nil by lia. Qed.

Lemma direct_from_step cs i :
  0 ≤ i < 256 →
  direct_from cs i =
  if decide (get cs i ≠ nullptr) then (i, get cs i) :: direct_from cs (i + 1)
  else direct_from cs (i + 1).
Proof.
  intros Hi. unfold direct_from. rewrite seqZ_cons by lia. cbn [omap list_omap].
  replace (Z.succ i) with (i + 1) by lia.
  replace (Z.pred (256 - i)) with (256 - (i + 1)) by lia.
  by case_decide.
Qed.

Lemma direct_from_observable n cs : body n = Body256 cs → observable n = direct_from cs 0.
Proof. intros Hbody. unfold observable, direct_from. by rewrite Hbody. Qed.

Lemma elem_of_direct_from cs i k v :
  (k, v) ∈ direct_from cs i ↔ i ≤ k < 256 ∧ get cs k ≠ nullptr ∧ v = get cs k.
Proof.
  unfold direct_from.
  rewrite (elem_of_indexed (λ b, get cs b ≠ nullptr) (λ b, get cs b)). 
  split; intros (? & ? & ?); (split; [lia|done]).
Qed.

(** Nulling the slot of a key byte takes its entry away. *)
Lemma direct_from_cleared cs d i :
  0 ≤ i → 0 ≤ d → d < Z.of_nat (length cs) →
  direct_from (put d nullptr cs) i = remove_entry d (direct_from cs i).
Proof.
  intros Hi Hd Hlen. unfold direct_from, remove_entry.
  assert (Forall (λ b, 0 ≤ b) (seqZ i (256 - i))) as Hall.
  { apply Forall_forall. intros b Hb%elem_of_seqZ. lia. }
  induction Hall as [|b L Hb _ IH]; [done|]. cbn [omap list_omap].
  destruct (decide (b = d)) as [->|Hbd].
  - rewrite get_put_eq by lia. rewrite decide_False by (by intros Hc).
    case_decide; [|done]. rewrite filter_cons_False; [done|]. simpl. by intros Hc.
  - rewrite get_put_ne by lia.
    case_decide; [|done]. rewrite filter_cons_True by done. by rewrite IH.
Qed.

(** The loop of the shrinking constructor from the slot [child_i] of the
    source on, with [next_child] children copied so far: each child left
    in the source goes to the next slot, to which its key byte is
    mapped, and is reparented with its key byte. *)
Lemma shrink48_loop_spec fuel this source child_i next_child h :
  this ≠ source → static_type (h !!! this) = I48 →
  children_count (h !!! this) = 48 →
  0 ≤ child_i → 0 ≤ next_child →
  length (indices_of (h !!! this)) = 256%nat → length (children_of (h !!! this)) = 48%nat →
  let E := direct_from (children_of (h !!! source)) child_i in
  Z.of_nat (length E) = 48 - next_child → 256 - child_i ≤ Z.of_nat fuel →
  let h' := basic_inode_48.shrink_loop fuel this source child_i next_child h in
  length (indices_of (h' !!! this)) = 256%nat ∧
  (∀ t, 0 ≤ t < 48 - next_child → get (indices_of (h' !!! this)) (get E t).1 = next_child + t) ∧
  (∀ k, 0 ≤ k → k ∉ E.*1 → get (indices_of (h' !!! this)) k = get (indices_of (h !!! this)) k) ∧
  children_of (h' !!! this) = firstn_Z next_child (children_of (h !!! this)) ++ E.*2 ∧
  writes I48 this h h' (swap <$> E).
Proof.
  intros Hne. revert child_i next_child h.
  induction fuel as [|fuel IH];
    intros i next_child h Htype Hcount Hi Hnext Hlci Hlcs E HE Hfuel h';
    subst h' E; cbn [basic_inode_48.shrink_loop].
  { rewrite direct_from_end in * by lia. simpl in HE.
    split; [done|]. split; [intros; lia|]. split; [done|]. split; [|constructor].
    cbn [fmap list_fmap]. rewrite app_nil_r. symmetry. apply firstn_Z_all. lia. }
  set (scs := children_of (h !!! source)) in *.
  case_bool_decide as Hi'.
  2:{ rewrite direct_from_end in * by lia. simpl in HE.
      split; [done|]. split; [intros; lia|]. split; [done|]. split; [|constructor].
      cbn [fmap list_fmap]. rewrite app_nil_r. symmetry. apply firstn_Z_all. lia. }
  rewrite (direct_from_step scs i) in HE by lia.
  rewrite (direct_from_step scs i) by lia.
  destruct (decide (get scs i ≠ nullptr)) as [Hentry|Hentry].
  2:{ rewrite bool_decide_eq_true_2 by (by destruct (decide (get scs i = nullptr))).
      destruct (IH (i + 1) next_child h) as (Hlen & Hkeys & Hrest & Hcs & Hw);
        [done|done|lia|done|done|done|done|lia|].
      done. }
  rewrite bool_decide_eq_false_2 by done. rewrite length_cons in HE.
  set (ptr := get scs i) in *.
  set (h1 := store h this (with_indices (put i next_child))).
  assert (children_of (h1 !!! source) = scs) as -> by apply store_indices_children.
  fold ptr.
  set (h2 := store h1 this (with_children (put next_child ptr))).
  assert (indices_of (h2 !!! this) = put i next_child (indices_of (h !!! this))) as Hci2.
  { unfold h2. rewrite store_children_indices. unfold h1. by apply store_indices_of. }
  assert (children_of (h2 !!! this) = put next_child ptr (children_of (h !!! this))) as Hcs2.
  { unfold h2. rewrite store_children_of. unfold h1. by rewrite store_indices_children. }
  rewrite Hcs2, get_put_eq by lia.
  set (h3 := reparent I48 h2 this ptr i).
  assert (writes I48 this h h3 [(ptr, i)]) as Hw3.
  { apply (writes_app I48 this h h2 _ [] [_]); [|apply writes_one_link].
    apply writes_body; [|apply with_children_body_only].
    apply writes_one_body, with_indices_body_only. }
  assert (indices_of (h3 !!! this) = put i next_child (indices_of (h !!! this))) as Hci3
    by (unfold h3; by rewrite reparent_indices).
  assert (children_of (h3 !!! this) = put next_child ptr (children_of (h !!! this))) as Hcs3
    by (unfold h3; by rewrite reparent_children).
  destruct (writes_frame I48 this h h3 _ this Hw3) as (Hcount3 & _ & Htype3 & _).
  destruct (writes_source I48 this h h3 _ source Hw3 Hne) as (_ & _ & Hsc).
  fold scs in Hsc. rewrite Hcount3, Hcount.
  assert (u8 (next_child + 1) = next_child + 1) as ->
    by (apply u8_byte; unfold is_byte; lia).
  rewrite !fmap_cons. cbn [fst snd]. change (swap (i, ptr)) with (ptr, i).
  rewrite cons_middle, app_assoc. rewrite <- (firstn_Z_put next_child ptr) by lia.
  rewrite <- Hcs3.
  assert (i ∉ (direct_from scs (i + 1)).*1) as Hnotin.
  { intros ([k v] & Hk & Hin)%list_elem_of_fmap. simpl in Hk. subst k.
    apply elem_of_direct_from in Hin. lia. }
  case_bool_decide as Hend.
  - destruct (direct_from scs (i + 1)) as [|e E'] eqn:HE'; [|simpl in HE; lia].
    cbn [fmap list_fmap]. rewrite app_nil_r.
    split; [by rewrite Hci3, length_put|]. split; [|split; [|split]].
    + intros t Ht. assert (t = 0) as -> by lia.
      change (get [(i, ptr)] 0) with (i, ptr). cbn [fst].
      rewrite Hci3, get_put_eq by lia. lia.
    + intros k Hk Hnot. rewrite Hci3, get_put_ne; [done|lia|lia|].
      intros ->. apply Hnot. by left.
    + symmetry. apply firstn_Z_all. rewrite Hcs3, length_put. lia.
    + done.
  - destruct (IH (i + 1) (next_child + 1) h3) as (Hlen & Hkeys & Hrest & Hcs & Hw);
      [by rewrite Htype3|by rewrite Hcount3|lia|lia|rewrite Hci3, length_put; lia
      |rewrite Hcs3, length_put; lia|rewrite Hsc; lia|lia|].
    rewrite Hsc in Hkeys, Hrest, Hcs, Hw.
    split; [done|]. split; [|split; [|split]].
    + intros t Ht. destruct (decide (t = 0)) as [->|Ht0].
      * change (get ((i, ptr) :: direct_from scs (i + 1)) 0) with (i, ptr). cbn [fst].
        rewrite Hrest, Hci3 by (done || lia). rewrite get_put_eq by lia. lia.
      * rewrite get_cons_pos by lia. rewrite Hkeys by lia. lia.
    + intros k Hk Hnot. rewrite Hrest, Hci3; [|done|].
      * apply get_put_ne; [lia|lia|]. intros ->. apply Hnot. by left.
      * intros Hin. apply Hnot. by right.
    + done.
    + by apply (writes_app I48 this h h3 _ [_]).
Qed.
End shrink48_loops.

Section shrink_256_to_48_theorem.
Implicit Types (h : heap) (this source a b k : Z) (ks ci : list Z) (cs : list node_ptr)
  (n : inode) (c v : node_ptr) (W : list (node_ptr * Z)) (T : node_type).

(** X10. The constructor of a [basic_inode_48] from a [basic_inode_256]
    at its minimum size, for the removal of the child of the key byte
    [child_to_delete]: the new node is well formed and full, has the
    prefix of the source and, in the order of the key bytes, the children
    of the source without the removed one; in the source only the slot of
    the removed key byte is written, its count is not; and when the
    children of the source are different nodes, every child that is not a
    leaf records the new node and its key byte. *)
Theorem shrink_256_to_48 h this source n child_to_delete :
  this ≠ source → h !!! source = n → static_type n = I256 → node_inv n →
  basic_inode_256.is_min_size n = true → is_byte child_to_delete →
  key_present n child_to_delete →
  let h' := basic_inode_48.shrink_ctor h this source child_to_delete in
  let n' := h' !!! this in
  observable n' = remove_entry child_to_delete (observable n) ∧
  wf_node n' ∧ static_type n' = I48 ∧ basic_inode_48.is_full n' = true ∧
  prefix n' = prefix n ∧
  (children_of (h' !!! source) = put child_to_delete nullptr (children_of n) ∧
   children_count (h' !!! source) = children_count n ∧
   prefix (h' !!! source) = prefix n) ∧
  (distinct_nodes (children_list n) → back_linked h' this).
Proof.
  intros Hne Hn Htype Hinv Hmin Hd Hpresent h' n'.
  apply bool_decide_eq_true in Hmin. unfold basic_inode_256.min_size in Hmin.
  pose proof Hinv as Hinv0. unfold node_inv in Hinv.
  pose proof (body_of_arrays n) as Hbody. rewrite Htype in Hbody. rewrite Hbody in Hinv.
  destruct Hinv as (Hlcs & _ & Hpop).
  unfold num_children in Hpop. rewrite Hmin in Hpop.
  rewrite bool_decide_eq_true_2 in Hpop by lia.
  unfold key_present in Hpresent. rewrite Hbody in Hpresent.
  set (scs := children_of n) in *.
  unfold is_byte in Hd.
  subst h' n'. unfold basic_inode_48.shrink_ctor. rewrite Hn.
  set (h0 := <[this := _]> h).
  assert (h0 !!! this = fresh_inode basic_inode_48.capacity (prefix n)
                          (Body48 (replicate 256 0) (replicate 48 nullptr))) as Hthis0
    by apply lookup_total_insert_eq.
  assert (h0 !!! source = n) as Hsource0
    by (unfold h0; rewrite lookup_total_insert_ne by done; done).
  set (h1 := store h0 source (with_children (put child_to_delete nullptr))).
  assert (h1 !!! this = h0 !!! this) as Hthis1 by (apply store_ne; congruence).
  assert (children_of (h1 !!! source) = put child_to_delete nullptr scs) as Hsc1.
  { unfold h1. rewrite store_children_of. by rewrite Hsource0. }
  assert (children_count (h1 !!! source) = children_count n ∧
          prefix (h1 !!! source) = prefix n) as [Hcount1 Hprefix1].
  { unfold h1. rewrite store_eq, Hsource0.
    by destruct (with_children_body_only (put child_to_delete nullptr) n)
      as (-> & _ & _ & -> & _). }
  rewrite Hthis0 in Hthis1. clearbody h0.
  set (h2 := store h1 this (with_indices (basic_inode_48.fill 0 256 empty_child))).
  assert (writes I48 this h1 h2 []) as Hw12 by apply writes_one_body, with_indices_body_only.
  assert (indices_of (h2 !!! this) = basic_inode_48.fill 0 256 empty_child (replicate 256 0))
    as Hci2.
  { unfold h2. rewrite store_indices_of by (by rewrite Hthis1). by rewrite Hthis1. }
  assert (children_of (h2 !!! this) = replicate 48 nullptr) as Hcs2.
  { unfold h2. rewrite store_indices_children. by rewrite Hthis1. }
  destruct (writes_frame I48 this h1 h2 _ this Hw12) as (Hcount2 & Hprefix2 & Htype2 & _).
  rewrite Hthis1 in Hcount2, Hprefix2, Htype2.
  change (children_count (fresh_inode _ _ _)) with 48 in Hcount2.
  change (prefix (fresh_inode _ _ _)) with (prefix n) in Hprefix2.
  change (static_type (fresh_inode _ _ _)) with I48 in Htype2.
  destruct (writes_source I48 this h1 h2 _ source Hw12 Hne) as (_ & _ & Hsc2).
  rewrite Hsc1 in Hsc2.
  set (E := remove_entry child_to_delete (observable n)).
  assert (direct_from (children_of (h2 !!! source)) 0 = E) as HE.
  { rewrite Hsc2, direct_from_cleared by lia.
    unfold E. by rewrite (direct_from_observable n scs). }
  assert ((child_to_delete, get scs child_to_delete) ∈ observable n) as Hin.
  { apply elem_of_observable; [done|]. unfold has_entry. by rewrite Hbody. }
  assert (length E = 48%nat) as HlE.
  { pose proof (length_remove_entry _ _ _ (observable_key_sorted n Hinv0) Hin) as Hlen.
    pose proof (population_observable n scs Hbody Hlcs) as Hm. fold E in Hlen. lia. }
  assert (key_sorted E) as HsE by (by apply key_sorted_filter, observable_key_sorted).
  assert (∀ k v, (k, v) ∈ E ↔
                 0 ≤ k < 256 ∧ k ≠ child_to_delete ∧ get scs k ≠ nullptr ∧ v = get scs k)
    as HinE.
  { intros k v. unfold E. rewrite elem_of_remove_entry, elem_of_observable by done.
    unfold has_entry, is_byte. rewrite Hbody. simpl. split.
    - by intros [(? & ? & ?) ?].
    - by intros (? & ? & ? & ?). }
  destruct (shrink48_loop_spec 256 this source 0 0 h2 Hne Htype2 Hcount2)
    as (Hlci3 & Hidx & Hnone & Hcs3 & Hw23);
    [lia|lia|rewrite Hci2, length_fill by lia; apply length_replicate
    |rewrite Hcs2; apply length_replicate|rewrite HE, HlE; lia|lia|].
  set (h3 := basic_inode_48.shrink_loop 256 this source 0 0 h2) in *.
  rewrite HE in Hidx, Hnone, Hcs3, Hw23. replace (48 - 0) with 48 in * by lia.
  unfold firstn_Z in Hcs3. rewrite take_0 in Hcs3. cbn [app] in Hcs3.
  pose proof (writes_app I48 this h1 h2 h3 _ _ Hw12 Hw23) as Hw. cbn [app] in Hw.
  destruct (writes_frame I48 this h2 h3 _ this Hw23) as (Hcount3 & Hprefix3 & Htype3 & _).
  destruct (writes_frame I48 this h2 h3 _ source Hw23) as (Hcount3s & Hprefix3s & _).
  destruct (writes_frame I48 this h1 h2 _ source Hw12) as (Hcount2s & Hprefix2s & _).
  destruct (writes_source I48 this h2 h3 _ source Hw23 Hne) as (_ & _ & Hsc3).
  rewrite Hcount2 in Hcount3. rewrite Hprefix2 in Hprefix3. rewrite Htype2 in Htype3.
  rewrite Hcount2s, Hcount1 in Hcount3s. rewrite Hprefix2s, Hprefix1 in Hprefix3s.
  rewrite Hsc2 in Hsc3.
  assert (∀ k, 0 ≤ k < 256 → k ∉ E.*1 →
               get (indices_of (h3 !!! this)) k = empty_child) as Hnone'.
  { intros k Hk Hnot. rewrite Hnone, Hci2 by (done || lia).
    rewrite get_fill by (rewrite ?length_replicate; lia).
    by rewrite bool_decide_eq_true_2 by lia. }
  clearbody h3. clearbody h2. clearbody h1.
  set (ci3 := indices_of (h3 !!! this)) in *.
  assert (body (h3 !!! this) = Body48 ci3 E.*2) as Hbody3
    by (rewrite (body_of_arrays (h3 !!! this)), Htype3, Hcs3; done).
  assert (∀ t, 0 ≤ t < 48 → get E t ∈ E) as HgetE
    by (intros t Ht; apply get_elem_of; lia).
  assert (∀ k, 0 ≤ k < 256 →
               (∃ t, 0 ≤ t < 48 ∧ get E t = (k, get scs k) ∧ get ci3 k = t ∧
                     get scs k ≠ nullptr) ∨
               (get ci3 k = empty_child ∧ ∀ v, (k, v) ∉ E)) as Hclass.
  { intros k Hk.
    destruct (decide (k ≠ child_to_delete ∧ get scs k ≠ nullptr)) as [[Hkd Hnn]|Hno].
    - left. assert ((k, get scs k) ∈ E) as Hkv by (by apply HinE).
      apply elem_of_get in Hkv as (t & Ht0 & Ht & Hget). exists t.
      split; [lia|]. split; [done|]. split; [|done].
      pose proof (Hidx t ltac:(lia)) as Ht'. rewrite Hget in Ht'. cbn [fst] in Ht'. lia.
    - right. assert (∀ v, (k, v) ∉ E) as Hnot.
      { intros v Hkv%HinE. apply Hno. by destruct Hkv as (_ & ? & ? & _). }
      split; [|done]. apply Hnone'; [lia|].
      intros ([k' v] & Hk' & Hkv)%list_elem_of_fmap. simpl in Hk'. subst k'.
      by apply (Hnot v). }
  assert (∀ k v, has_entry (h3 !!! this) k v ↔ (k, v) ∈ E) as Hentries.
  { intros k v. unfold has_entry, is_byte. rewrite Hbody3. split.
    - intros (Hk & Hmapped & ->).
      destruct (Hclass k Hk) as [(t & Ht & Hget & Hci & Hnn)|[Hci _]]; [|done].
      rewrite Hci, get_fmap_snd, Hget by lia. simpl. rewrite <- Hget. by apply HgetE.
    - intros Hkv. pose proof Hkv as (Hk & _ & _ & ->)%HinE. split; [done|].
      destruct (Hclass k Hk) as [(t & Ht & Hget & Hci & Hnn)|[_ Hnot]];
        [|by destruct (Hnot _ Hkv)].
      rewrite Hci. unfold empty_child. split; [lia|].
      by rewrite get_fmap_snd, Hget by lia. }
  assert (observable (h3 !!! this) = E) as Hobs.
  { apply observable_eq_indexed; [by left|done|]. intros k v. by rewrite Hentries. }
  assert (node_inv (h3 !!! this)) as Hinv3.
  { unfold node_inv. rewrite Hbody3, Hcount3. split; [done|].
    split; [by rewrite length_fmap|]. split; [lia|]. split; [|split; [|split; [|split]]].
    - apply Forall_get. intros k Hk Hlen. unfold is_byte.
      destruct (Hclass k ltac:(lia)) as [(t & Ht & _ & -> & _)|[-> _]];
        unfold empty_child; lia.
    - intros k Hk Hmapped.
      destruct (Hclass k Hk) as [(t & Ht & Hget & Hci & Hnn)|[Hci _]]; [|done].
      rewrite Hci. split; [lia|]. by rewrite get_fmap_snd, Hget by lia.
    - intros k Hk k' Hk' Hmapped Heq.
      destruct (Hclass k Hk) as [(t & Ht & Hget & Hci & Hnn)|[Hci _]]; [|done].
      destruct (Hclass k' Hk') as [(t' & Ht' & Hget' & Hci' & Hnn')|[Hci' _]].
      + assert (t = t') as -> by lia. rewrite Hget in Hget'. by injection Hget'.
      + unfold empty_child in Hci'. lia.
    - rewrite (mapped_observable (h3 !!! this) ci3 E.*2) by done. rewrite Hobs. lia.
    - apply population_prefix; [rewrite length_fmap; lia|].
      rewrite length_fmap, HlE. intros j Hj. split; [lia|]. intros _.
      rewrite get_fmap_snd by lia.
      pose proof (HgetE j ltac:(lia)) as Hjin. destruct (get E j) as [k v].
      apply HinE in Hjin as (_ & _ & Hnn & ->). done. }
  split; [done|]. split; [|split; [done|split; [|split; [done|split]]]].
  - split; [done|]. unfold min_size_of, capacity_of, num_children.
    rewrite Hbody3, Hcount3. by vm_compute.
  - unfold basic_inode_48.is_full. rewrite Hcount3. by vm_compute.
  - done.
  - intros Hnodes k v Hkv. rewrite Htype3.
    rewrite positions_indexed in Hkv by (by left). rewrite Hobs in Hkv.
    apply (writes_back_linked I48 this h1 h3 E Hw); [| | |done].
    + by apply key_sorted_NoDup_keys.
    + apply (distinct_nodes_sublist (children_list n)); [done|].
      unfold children_list. apply fmap_sublist. unfold E, remove_entry. apply sublist_filter.
    + apply Forall_forall. intros [k' v'] Hin'. apply HinE in Hin'. unfold is_byte. simpl. lia.
Qed.
End shrink_256_to_48_theorem.

Section shrink_256_to_48_examples.
Import examples.

Lemma shrink_256_to_48_witness :
  let n := heap256_grown !!! 256 in
  let h' := basic_inode_48.shrink_ctor heap256_grown 49 256 0x10 in
  let n' := h' !!! 49 in
  observable n' = remove_entry 0x10 (observable n) ∧
  wf_node n' ∧ static_type n' = I48 ∧ basic_inode_48.is_full n' = true ∧
  prefix n' = prefix n ∧
  (children_of (h' !!! 256) = put 0x10 nullptr (children_of n) ∧
   children_count (h' !!! 256) = children_count n ∧
   prefix (h' !!! 256) = prefix n) ∧
  (distinct_nodes (children_list n) → back_linked h' 49).
Proof.
  apply (shrink_256_to_48 heap256_grown 49 256 (heap256_grown !!! 256) 0x10).
  - lia.
  - reflexivity.
  - by vm_compute.
  - apply (bool_decide_unpack _). by vm_compute.
  - by vm_compute.
  - by vm_compute.
  - apply (bool_decide_unpack _). by vm_compute.
Defined.

End shrink_256_to_48_examples.

(** ** [leftmost_child]: the first child from a position on *)

Section leftmost_child_positions.
Implicit Types (h : heap) (this source a b k : Z) (ks ci : list Z) (cs : list node_ptr)
  (n : inode) (c v : node_ptr) (l : list (Z * node_ptr)).

(** The first of the entries in key order that satisfy a predicate is
    the one with the least key among them. *)
Lemma sorted_filter_head (P : Z * node_ptr → Prop) `{!∀ x, Decision (P x)} l x :
  key_sorted l → x ∈ l → P x → (∀ y, y ∈ l → P y → x.1 ≤ y.1) →
  ∃ t, filter P l = x :: t.
Proof.
  intros Hl Hx HPx Hmin.
  assert (x ∈ filter P l) as Hin by (by apply list_elem_of_filter).
  pose proof (key_sorted_filter P l Hl) as Hs.
  destruct (filter P l) as [|y t] eqn:Hf; [by apply elem_of_nil in Hin|].
  assert (y ∈ filter P l) as Hy by (rewrite Hf; by left).
  apply list_elem_of_filter in Hy as [HPy Hy].
  apply StronglySorted_inv in Hs as [_ Hall]. rewrite Forall_forall in Hall.
  apply elem_of_cons in Hin as [->|Hin]; [by exists t|].
  specialize (Hall x Hin). specialize (Hmin y Hy HPy). unfold key_lt in Hall. lia.
Qed.

Lemma filter_none {A} (P : A → Prop) `{!∀ x, Decision (P x)} (xs : list A) :
  (∀ x, x ∈ xs → ¬ P x) → filter P xs = [].
Proof.
  intros Hnone. destruct (filter P xs) as [|y t] eqn:Hf; [done|].
  assert (y ∈ filter P xs) as Hy by (rewrite Hf; by left).
  apply list_elem_of_filter in Hy as [HPy Hy]. by destruct (Hnone y Hy).
Qed.

Lemma positions_key_sorted n : node_inv n → key_sorted (positions n).
Proof.
  intros Hinv. pose proof (observable_key_sorted n Hinv) as Hobs.
  unfold positions. unfold node_inv in Hinv.
  destruct (body n) as [ks cs|ks cs|ci cs|cs]; try done.
  all: destruct Hinv as (_ & Hlc & Hc & _).
  all: rewrite <- (firstn_Z_all (children_count n) (seqZ 0 (children_count n)))
         by (rewrite length_seqZ; lia).
  all: apply zip_take_sorted; rewrite ?length_seqZ; try lia.
  all: intros i Hi j Hj Hij; unfold get; rewrite !lookup_total_seqZ_lt by lia; lia.
Qed.

(** The scan of [basic_inode_48::leftmost_child] finds the first entry
    from [key_byte] on. *)
Lemma node48_scan_first fuel n ci cs this key_byte :
  body n = Body48 ci cs → 0 ≤ key_byte ≤ 255 → 256 - key_byte ≤ Z.of_nat fuel →
  basic_inode_48.leftmost_scan fuel n this key_byte =
  match entries_from ci cs key_byte with
  | [] => empty_iterator
  | (j, c) :: _ => Iterator c j (tagged_self I48 this)
  end.
Proof.
  intros Hbody. revert key_byte.
  induction fuel as [|fuel IH]; intros key_byte Hk Hfuel; [lia|].
  cbn [basic_inode_48.leftmost_scan]. unfold indices_of, children_of. rewrite Hbody.
  rewrite entries_from_step by lia.
  destruct (decide (get ci key_byte ≠ empty_child)) as [Hentry|Hentry].
  - by rewrite bool_decide_eq_true_2.
  - rewrite bool_decide_eq_false_2 by done. case_bool_decide as Hend.
    + subst key_byte. by rewrite entries_from_end.
    + apply IH; lia.
Qed.

(** The scan of [basic_inode_256::leftmost_child] finds the first entry
    from [key_byte] on. *)
Lemma node256_scan_first fuel n cs this key_byte :
  body n = Body256 cs → 0 ≤ key_byte ≤ 256 → 256 - key_byte ≤ Z.of_nat fuel →
  basic_inode_256.leftmost_scan fuel n this key_byte =
  match direct_from cs key_byte with
  | [] => empty_iterator
  | (j, c) :: _ => Iterator c j (tagged_self I256 this)
  end.
Proof.
  intros Hbody. revert key_byte.
  induction fuel as [|fuel IH]; intros key_byte Hk Hfuel.
  { assert (key_byte = 256) as -> by lia. by rewrite direct_from_end. }
  cbn [basic_inode_256.leftmost_scan]. unfold children_of. rewrite Hbody.
  case_bool_decide as Hend.
  2:{ assert (key_byte = 256) as -> by lia. by rewrite direct_from_end. }
  rewrite direct_from_step by lia.
  destruct (decide (get cs key_byte ≠ nullptr)) as [Hentry|Hentry].
  - by rewrite bool_decide_eq_true_2.
  - rewrite bool_decide_eq_false_2 by done. apply IH; lia.
Qed.

(** The entries from a key byte on are the entries with at least that
    key byte. *)
Lemma filter_entries_from ci cs start :
  0 ≤ start →
  filter (λ jc, start ≤ jc.1) (entries_from ci cs 0) = entries_from ci cs start.
Proof.
  intros Hstart. apply key_sorted_eq.
  - apply key_sorted_filter. unfold entries_from.
    apply (indexed_sorted (λ b, get ci b ≠ empty_child) (λ b, get cs (get ci b))).
  - unfold entries_from.
    apply (indexed_sorted (λ b, get ci b ≠ empty_child) (λ b, get cs (get ci b))).
  - intros [k v]. rewrite list_elem_of_filter. unfold entries_from.
    rewrite !(elem_of_indexed (λ b, get ci b ≠ empty_child) (λ b, get cs (get ci b))).
    simpl. split; [intros (? & ? & ? & ?)|intros (? & ? & ?)]; repeat split; done || lia.
Qed.

Lemma filter_direct_from cs start :
  0 ≤ start →
  filter (λ jc, start ≤ jc.1) (direct_from cs 0) = direct_from cs start.
Proof.
  intros Hstart. apply key_sorted_eq.
  - apply key_sorted_filter. unfold direct_from.
    apply (indexed_sorted (λ b, get cs b ≠ nullptr) (λ b, get cs b)).
  - unfold direct_from. apply (indexed_sorted (λ b, get cs b ≠ nullptr) (λ b, get cs b)).
  - intros [k v]. rewrite list_elem_of_filter, !elem_of_direct_from.
    simpl. split; [intros (? & ? & ? & ?)|intros (? & ? & ?)]; repeat split; done || lia.
Qed.

(** X11. [leftmost_child(node, start)] returns the iterator of the first
    child of the node at a position from [start] on - the array index in
    the sorted nodes, the key byte in the others - and the empty
    iterator when there is none. *)
Theorem leftmost_child_first h p start n :
  h !!! get_raw p = n → static_type n = tag p → node_inv n → 0 ≤ start ≤ 256 →
  basic_inode_impl.leftmost_child h p start =
  Some (match filter (λ jc, start ≤ jc.1) (positions n) with
        | [] => empty_iterator
        | (j, c) :: _ => Iterator c j p
        end).
Proof.
  intros Hn Htype Hinv Hstart. destruct p as [this t]. simpl in Hn, Htype.
  pose proof (positions_key_sorted n Hinv) as Hsorted.
  pose proof (body_of_arrays n) as Hbody. rewrite Htype in Hbody.
  unfold basic_inode_impl.leftmost_child. cbn [tag get_raw].
  assert (∀ cs, (body n = Body4 (keys_of n) cs ∨ body n = Body16 (keys_of n) cs) →
            (if bool_decide (start < children_count n)
             then Iterator (get cs start) start (create this t) else empty_iterator) =
            match filter (λ jc, start ≤ jc.1) (positions n) with
            | [] => empty_iterator
            | (j, c) :: _ => Iterator c j (create this t)
            end) as Hsortedcase.
  { intros cs Hb. case_bool_decide as Hlt.
    - destruct (sorted_filter_head (λ jc, start ≤ jc.1) (positions n) (start, get cs start))
        as [tl ->]; [done| |simpl; lia| |done].
      + apply (elem_of_positions_sorted n (keys_of n) cs); [done..|]. split; [lia|done].
      + intros [j c] Hin HP. simpl in *. done.
    - rewrite filter_none; [done|]. intros [j c] Hin. simpl.
      apply (elem_of_positions_sorted n (keys_of n) cs) in Hin; [|done..]. lia. }
  destruct t; [unfold static_type in Htype; by destruct (body n)|..]; f_equal.
  - unfold basic_inode_4.leftmost_child, tagged_self. rewrite Hn.
    apply Hsortedcase. by left.
  - unfold basic_inode_16.leftmost_child, tagged_self. rewrite Hn.
    apply Hsortedcase. by right.
  - clear Hsortedcase. unfold basic_inode_48.leftmost_child. rewrite Hn.
    rewrite positions_indexed by (left; done).
    rewrite (entries_from_observable n _ _ Hbody), filter_entries_from by lia.
    case_bool_decide as Hlt.
    + by apply node48_scan_first; [|lia|lia].
    + by rewrite entries_from_end by lia.
  - clear Hsortedcase. unfold basic_inode_256.leftmost_child. rewrite Hn.
    rewrite positions_indexed by (right; done).
    rewrite (direct_from_observable n _ Hbody), filter_direct_from by lia.
    by apply node256_scan_first; [|lia|lia].
Qed.
End leftmost_child_positions.

Section leftmost_child_examples.
Import examples.

Lemma leftmost_child_first_witness :
  basic_inode_impl.leftmost_child heap48_full (create 48 I48) 0x50 =
  Some (match filter (λ jc, 0x50 ≤ jc.1) (positions node48_full) with
        | [] => empty_iterator
        | (j, c) :: _ => Iterator c j (create 48 I48)
        end).
Proof.
  apply (leftmost_child_first heap48_full (create 48 I48) 0x50 node48_full).
  - reflexivity.
  - reflexivity.
  - apply (bool_decide_unpack _). by vm_compute.
  - lia.
Defined.

End leftmost_child_examples.

(** ** [self_iterator]: from a child back to its place in the parent *)

Section self_iterator_round_trip.
Implicit Types (h : heap) (this source a b k : Z) (ks ci : list Z) (cs : list node_ptr)
  (n : inode) (c v : node_ptr) (l : list (Z * node_ptr)).

(** X12. In a node whose children record it as their parent, with their
    positions, [self_iterator] of a child that is an inner node is the
    iterator that [find_child] of the parent returns for the key byte of
    that child. *)
Theorem self_iterator_of_child h this n b it :
  h !!! this = n → node_inv n → is_byte b → back_linked h this →
  basic_inode_impl.find_child h (create this (static_type n)) b = Some it →
  is_empty it = false → tag (node it) ≠ LEAF →
  self_iterator h (get_raw (node it)) (tag (node it)) = it.
Proof.
  intros Hn Hinv Hb Hlinked Hfind Hhit Hinner.
  destruct (find_child_hit h this n b it Hn Hinv Hb Hfind Hhit) as [Hpresent Hdes].
  destruct (designates_entry n this b it Hb Hpresent Hdes) as [Hentry Hparent].
  assert ((index it, node it) ∈ positions n) as Hpos.
  { pose proof (sorted_type n) as Hst. unfold designates in Hdes.
    destruct (body n) as [ks cs|ks cs|ci cs|cs] eqn:Hbody.
    - destruct Hdes as (i & Hi & _ & ->). cbn [index node].
      apply (elem_of_positions_sorted n ks cs); [done|by left|done].
    - destruct Hdes as (i & Hi & _ & ->). cbn [index node].
      apply (elem_of_positions_sorted n ks cs); [done|by right|done].
    - rewrite positions_indexed by (unfold static_type; rewrite Hbody; by left).
      apply elem_of_observable; [done|]. subst it. exact Hentry.
    - rewrite positions_indexed by (unfold static_type; rewrite Hbody; by right).
      apply elem_of_observable; [done|]. subst it. exact Hentry. }
  unfold back_linked in Hlinked. rewrite Hn in Hlinked.
  destruct (Hlinked _ _ Hpos Hinner) as [Hp Hi].
  unfold self_iterator. rewrite Hp, Hi, <- Hparent.
  destruct it as [[raw t] i p]. done.
Qed.
End self_iterator_round_trip.

Section self_iterator_examples.
Import examples.

Lemma self_iterator_of_child_witness :
  self_iterator heap_pair 16 I16 = Iterator (create 16 I16) 0 (create 4 I4).
Proof.
  apply (self_iterator_of_child heap_pair 4 node4_pair 0x10
           (Iterator (create 16 I16) 0 (create 4 I4))).
  - reflexivity.
  - apply (bool_decide_unpack _). by vm_compute.
  - by vm_compute.
  - apply (bool_decide_unpack _). by vm_compute.
  - by vm_compute.
  - reflexivity.
  - done.
Defined.

End self_iterator_examples.

(** ** [add_two_to_empty]: the first two children of a [basic_inode_4] *)

Section add_two_to_empty_lemmas.
Implicit Types (h : heap) (this source a b k : Z) (ks ci : list Z) (cs : list node_ptr)
  (n : inode) (c v : node_ptr) (l : list (Z * node_ptr)).

(** X13. [add_two_to_empty] on a [basic_inode_4] just constructed,
    whatever its arrays hold, with two different key bytes: the node is
    well formed and has the two children in the order of their key bytes,
    all four keys are written, the iterator returned is that of the leaf,
    and the first child, when it is an inner node, records the node as
    its parent with its index. *)
Theorem add_two_to_empty_spec h this key1 child1 key2 child2 :
  static_type (h !!! this) = I4 →
  length (keys_of (h !!! this)) = 4%nat → length (children_of (h !!! this)) = 4%nat →
  basic_inode_4.is_min_size (h !!! this) = true →
  is_byte key1 → is_byte key2 → key1 ≠ key2 → child1 ≠ nullptr → child2 ≠ 0 →
  let r := basic_inode_4.add_two_to_empty h this key1 child1 key2 child2 in
  let n' := r.1 !!! this in
  observable n' = insert_entry key2 (create child2 LEAF) [(key1, child1)] ∧
  wf_node n' ∧ static_type n' = I4 ∧ prefix n' = prefix (h !!! this) ∧
  node r.2 = create child2 LEAF ∧ designates n' this key2 r.2 ∧
  back_linked r.1 this.
Proof.
  intros Htype Hlk Hlc Hmin Hk1 Hk2 Hne Hc1 Hc2 r n'.
  apply bool_decide_eq_true in Hmin. unfold basic_inode_4.min_size in Hmin.
  subst n' r. unfold basic_inode_4.add_two_to_empty.
  set (key1_i := if bool_decide (key1 < key2) then 0 else 1).
  set (key2_i := if bool_decide (key1_i = 0) then 1 else 0).
  assert ((key1 < key2 ∧ key1_i = 0 ∧ key2_i = 1) ∨ (key2 < key1 ∧ key1_i = 1 ∧ key2_i = 0))
    as Horder.
  { unfold key2_i, key1_i. repeat case_bool_decide; lia. }
  clearbody key2_i. clearbody key1_i.
  set (h1 := store h this (with_keys (put key1_i key1))).
  set (h2 := store h1 this (with_children (put key1_i child1))).
  set (h3 := reparent I4 h2 this child1 key1_i).
  set (h4 := store h3 this (with_keys (put key2_i key2))).
  set (h5 := store h4 this (with_children (put key2_i (create child2 LEAF)))).
  set (h6 := store h5 this (with_keys (put 2 0))).
  set (h7 := store h6 this (with_keys (put 3 0))).
  assert (writes I4 this h h3 [(child1, key1_i)]) as Hw3.
  { apply (writes_app I4 this h h2 _ [] [_]); [|apply writes_one_link].
    apply writes_body; [|apply with_children_body_only].
    apply writes_one_body, with_keys_body_only. }
  assert (writes I4 this h h7 [(child1, key1_i)]) as Hw.
  { do 2 (apply writes_body; [|apply with_keys_body_only]).
    apply writes_body; [|apply with_children_body_only].
    apply writes_body; [|apply with_keys_body_only]. done. }
  destruct (writes_frame I4 this h h7 _ this Hw) as (Hcount7 & Hprefix7 & Htype7 & _).
  rewrite Hmin in Hcount7. rewrite Htype in Htype7.
  destruct (writes_frame I4 this h h3 _ this Hw3) as (_ & _ & Htype3 & _).
  rewrite Htype in Htype3.
  assert (static_type (h1 !!! this) = I4) as Htype1
    by (unfold h1; by rewrite store_keys_type).
  assert (static_type (h5 !!! this) = I4) as Htype5.
  { unfold h5. rewrite store_children_type. unfold h4. by rewrite store_keys_type. }
  assert (static_type (h6 !!! this) = I4) as Htype6
    by (unfold h6; by rewrite store_keys_type).
  set (ks := keys_of (h !!! this)) in *. set (cs := children_of (h !!! this)) in *.
  assert (keys_of (h7 !!! this) = put 3 0 (put 2 0 (put key2_i key2 (put key1_i key1 ks))))
    as Hks7.
  { unfold h7. rewrite store_keys_of by (by left).
    unfold h6. rewrite store_keys_of by (by left).
    unfold h5. rewrite store_children_keys.
    unfold h4. rewrite store_keys_of by (by left).
    unfold h3. rewrite reparent_keys. unfold h2. rewrite store_children_keys.
    unfold h1. by rewrite store_keys_of by (by left). }
  assert (children_of (h5 !!! this) = put key2_i (create child2 LEAF) (put key1_i child1 cs))
    as Hcs5.
  { unfold h5. rewrite store_children_of. unfold h4. rewrite store_keys_children.
    unfold h3. rewrite reparent_children. unfold h2. rewrite store_children_of.
    unfold h1. by rewrite store_keys_children. }
  assert (children_of (h7 !!! this) = put key2_i (create child2 LEAF) (put key1_i child1 cs))
    as Hcs7.
  { unfold h7. rewrite store_keys_children. unfold h6. by rewrite store_keys_children. }
  assert (links_to h7 (tagged_self I4 this) child1 (u8 key1_i)) as Hlink.
  { apply (writes_linked I4 this h h7 [] child1 key1_i [] Hw). intros c' j' Hin.
    by apply elem_of_nil in Hin. }
  rewrite u8_byte in Hlink by (unfold is_byte; lia).
  clearbody h7. clearbody h6. clearbody h5. clearbody h4. clearbody h3. clearbody h2.
  clearbody h1.
  assert (create child2 LEAF ≠ nullptr) as Hleaf by (unfold nullptr; congruence).
  destruct ks as [|k0 [|k1 [|k2 [|k3 [|]]]]]; try done.
  destruct cs as [|c0 [|c1 [|c2 [|c3 [|]]]]]; try done.
  cbn [fst snd node]. rewrite Hcs7.
  pose proof (body_of_arrays (h7 !!! this)) as Hbody. rewrite Htype7, Hks7, Hcs7 in Hbody.
  unfold is_byte in *.
  destruct Horder as [(Hlt & -> & ->)|(Hlt & -> & ->)].
  - change (put 3 0 (put 2 0 (put 1 key2 (put 0 key1 [k0; k1; k2; k3]))))
      with [key1; key2; 0; 0] in Hbody.
    change (put 1 (create child2 LEAF) (put 0 child1 [c0; c1; c2; c3]))
      with [child1; create child2 LEAF; c2; c3] in *.
    assert (observable (h7 !!! this) = [(key1, child1); (key2, create child2 LEAF)]) as Hobs.
    { unfold observable. rewrite Hbody, Hcount7. done. }
    assert (node_inv (h7 !!! this)) as Hinv.
    { unfold node_inv. rewrite Hbody, Hcount7. split; [done|]. split; [done|].
      split; [lia|]. split; [|split].
      - repeat constructor; unfold is_byte; lia.
      - intros i Hi j Hj Hij. assert (i = 0) as -> by lia. assert (j = 1) as -> by lia. done.
      - intros i Hi. assert (i = 0 ∨ i = 1) as [-> | ->] by lia; done. }
    split; [|split; [|split; [done|split; [done|split; [done|split]]]]].
    + rewrite Hobs. unfold insert_entry. rewrite !filter_cons, !filter_nil. simpl.
      rewrite decide_True, decide_False by lia. done.
    + split; [done|]. unfold min_size_of, capacity_of, num_children.
      rewrite Hbody, Hcount7. by vm_compute.
    + unfold designates. rewrite Hbody, Hcount7. exists 1. split; [lia|]. split; [done|].
      unfold static_type. by rewrite Hbody.
    + intros j c Hin. rewrite Htype7.
      apply (elem_of_positions_sorted _ _ _ j c Hinv (or_introl Hbody)) in Hin.
      rewrite Hcount7 in Hin. destruct Hin as [Hj ->].
      assert (j = 0 ∨ j = 1) as [-> | ->] by lia; [exact Hlink|].
      intros Htag. by destruct Htag.
  - change (put 3 0 (put 2 0 (put 0 key2 (put 1 key1 [k0; k1; k2; k3]))))
      with [key2; key1; 0; 0] in Hbody.
    change (put 0 (create child2 LEAF) (put 1 child1 [c0; c1; c2; c3]))
      with [create child2 LEAF; child1; c2; c3] in *.
    assert (observable (h7 !!! this) = [(key2, create child2 LEAF); (key1, child1)]) as Hobs.
    { unfold observable. rewrite Hbody, Hcount7. done. }
    assert (node_inv (h7 !!! this)) as Hinv.
    { unfold node_inv. rewrite Hbody, Hcount7. split; [done|]. split; [done|].
      split; [lia|]. split; [|split].
      - repeat constructor; unfold is_byte; lia.
      - intros i Hi j Hj Hij. assert (i = 0) as -> by lia. assert (j = 1) as -> by lia. done.
      - intros i Hi. assert (i = 0 ∨ i = 1) as [-> | ->] by lia; done. }
    split; [|split; [|split; [done|split; [done|split; [done|split]]]]].
    + rewrite Hobs. unfold insert_entry. rewrite !filter_cons, !filter_nil. simpl.
      rewrite decide_False, decide_True by lia. done.
    + split; [done|]. unfold min_size_of, capacity_of, num_children.
      rewrite Hbody, Hcount7. by vm_compute.
    + unfold designates. rewrite Hbody, Hcount7. exists 0. split; [lia|]. split; [done|].
      unfold static_type. by rewrite Hbody.
    + intros j c Hin. rewrite Htype7.
      apply (elem_of_positions_sorted _ _ _ j c Hinv (or_introl Hbody)) in Hin.
      rewrite Hcount7 in Hin. destruct Hin as [Hj ->].
      assert (j = 0 ∨ j = 1) as [-> | ->] by lia; [|exact Hlink].
      intros Htag. by destruct Htag.
Qed.
End add_two_to_empty_lemmas.

Section add_two_to_empty_examples.
Import examples.

Lemma add_two_to_empty_spec_witness :
  let h := basic_inode_4.ctor ∅ 4 [] in
  let r := basic_inode_4.add_two_to_empty h 4 0x20 (leaf 1032) 0x10 1016 in
  let n' := r.1 !!! 4 in
  observable n' = insert_entry 0x10 (create 1016 LEAF) [(0x20, leaf 1032)] ∧
  wf_node n' ∧ static_type n' = I4 ∧ prefix n' = prefix (h !!! 4) ∧
  node r.2 = create 1016 LEAF ∧ designates n' 4 0x10 r.2 ∧
  back_linked r.1 4.
Proof.
  apply (add_two_to_empty_spec (basic_inode_4.ctor ∅ 4 []) 4 0x20 (leaf 1032) 0x10 1016).
  - by vm_compute.
  - by vm_compute.
  - by vm_compute.
  - by vm_compute.
  - by vm_compute.
  - by vm_compute.
  - lia.
  - done.
  - lia.
Defined.

End add_two_to_empty_examples.

(** ** [for_each_child] and [delete_subtree] *)

Section delete_subtree_lemmas.
Implicit Types (h : heap) (this source a b k : Z) (ks ci : list Z) (cs : list node_ptr)
  (n : inode) (c v : node_ptr) (l : list (Z * node_ptr)).

Lemma fmap_get_seqZ {A} `{Inhabited A} (xs : list A) count :
  0 ≤ count → count ≤ Z.of_nat (length xs) →
  get xs <$> seqZ 0 count = firstn_Z count xs.
Proof.
  intros Hc Hlen. apply list_eq. intros i. rewrite list_lookup_fmap.
  unfold firstn_Z. destruct (decide (Z.of_nat i < count)) as [Hi|Hi].
  - rewrite lookup_seqZ_lt by done. rewrite lookup_take_lt by lia. simpl.
    unfold get. replace (Z.to_nat (0 + Z.of_nat i)) with i by lia.
    symmetry. apply list_lookup_lookup_total_lt. lia.
  - rewrite lookup_seqZ_ge by lia. by rewrite lookup_take_ge by lia.
Qed.

Lemma omap_filter_fmap {A B} (P : A → Prop) `{!∀ x, Decision (P x)} (g : A → B) (xs : list A) :
  omap (λ x, if decide (P x) then Some (g x) else None) xs = g <$> filter P xs.
Proof.
  induction xs as [|x xs IH]; [done|]. cbn [omap list_omap]. rewrite filter_cons.
  case_decide; [|done]. by rewrite fmap_cons, IH.
Qed.

Lemma delete4_loop_spec fuel n count i :
  0 ≤ i → count ≤ 255 → count - i ≤ Z.of_nat fuel →
  basic_inode_4.delete_loop fuel n count i = get (children_of n) <$> seqZ i (count - i).
Proof.
  revert i. induction fuel as [|fuel IH]; intros i Hi Hc Hfuel;
    cbn [basic_inode_4.delete_loop].
  { by rewrite seqZ_nil by lia. }
  case_bool_decide as Hlt; [|by rewrite seqZ_nil by lia].
  rewrite seqZ_cons by lia. rewrite fmap_cons. f_equal.
  rewrite u8_byte by (unfold is_byte; lia). rewrite IH by lia.
  replace (Z.succ i) with (i + 1) by lia.
  by replace (Z.pred (count - i)) with (count - (i + 1)) by lia.
Qed.

Lemma delete16_loop_spec fuel n count i :
  0 ≤ i → count ≤ 255 → count - i ≤ Z.of_nat fuel →
  basic_inode_16.delete_loop fuel n count i = get (children_of n) <$> seqZ i (count - i).
Proof.
  revert i. induction fuel as [|fuel IH]; intros i Hi Hc Hfuel;
    cbn [basic_inode_16.delete_loop].
  { by rewrite seqZ_nil by lia. }
  case_bool_decide as Hlt; [|by rewrite seqZ_nil by lia].
  rewrite seqZ_cons by lia. rewrite fmap_cons. f_equal.
  rewrite u8_byte by (unfold is_byte; lia). rewrite IH by lia.
  replace (Z.succ i) with (i + 1) by lia.
  by replace (Z.pred (count - i)) with (count - (i + 1)) by lia.
Qed.

Lemma delete48_loop_spec fuel n i :
  0 ≤ i → 48 - i ≤ Z.of_nat fuel →
  basic_inode_48.delete_loop fuel n i =
  get (children_of n) <$> filter (λ s, get (children_of n) s ≠ nullptr) (seqZ i (48 - i)).
Proof.
  revert i. induction fuel as [|fuel IH]; intros i Hi Hfuel;
    cbn [basic_inode_48.delete_loop].
  { by rewrite seqZ_nil by lia. }
  unfold basic_inode_48.capacity.
  case_bool_decide as Hlt; [|by rewrite seqZ_nil by lia].
  rewrite seqZ_cons by lia. rewrite filter_cons.
  replace (Z.succ i) with (i + 1) by lia.
  replace (Z.pred (48 - i)) with (48 - (i + 1)) by lia.
  destruct (decide (get (children_of n) i ≠ nullptr)) as [Hc|Hc].
  - rewrite bool_decide_eq_true_2 by done. rewrite fmap_cons. f_equal. apply IH; lia.
  - rewrite bool_decide_eq_false_2 by done. apply IH; lia.
Qed.

(** [for_each_child] from the slot [i] on calls [func] for the entries
    from there on, in the order of the key bytes. *)
Lemma for_each_child_loop_spec {St} fuel n cs (func : Z → node_ptr → St → St) i s :
  body n = Body256 cs → 0 ≤ i ≤ 256 → 256 - i ≤ Z.of_nat fuel →
  basic_inode_256.for_each_child_loop fuel n func i s =
  foldl (λ s kv, func kv.1 kv.2 s) s (direct_from cs i).
Proof.
  intros Hbody. revert i s. induction fuel as [|fuel IH]; intros i s Hi Hfuel;
    cbn [basic_inode_256.for_each_child_loop].
  { by rewrite direct_from_end by lia. }
  case_bool_decide as Hend; [|by rewrite direct_from_end by lia].
  unfold children_of. rewrite Hbody. rewrite direct_from_step by lia.
  destruct (decide (get cs i ≠ nullptr)) as [Hc|Hc].
  - rewrite bool_decide_eq_true_2 by done. cbn [foldl fst snd]. apply IH; lia.
  - rewrite bool_decide_eq_false_2 by done. apply IH; lia.
Qed.

(** X14. [for_each_child] of a [basic_inode_256] calls [func] with the
    key byte and the pointer of every child of the node, once each, in
    ascending order of the key bytes, and for nothing else. *)
Theorem for_each_child_entries {St} h this n (func : Z → node_ptr → St → St) s :
  h !!! this = n → static_type n = I256 →
  basic_inode_256.for_each_child h this func s =
  foldl (λ s kv, func kv.1 kv.2 s) s (observable n).
Proof.
  intros Hn Htype. pose proof (body_of_arrays n) as Hbody. rewrite Htype in Hbody.
  unfold basic_inode_256.for_each_child. rewrite Hn.
  rewrite (for_each_child_loop_spec 256 n _ func 0 s Hbody) by lia.
  by rewrite (direct_from_observable n _ Hbody).
Qed.

Lemma foldl_snoc_calls (l : list (Z * node_ptr)) (calls : list node_ptr) :
  foldl (λ calls kv, calls ++ [kv.2]) calls l = calls ++ l.*2.
Proof.
  revert calls. induction l as [|kv l IH]; intros calls; cbn [foldl fmap list_fmap].
  - by rewrite app_nil_r.
  - rewrite IH. by rewrite <- app_assoc.
Qed.

(** The slots of a [basic_inode_48] that hold a child are the slots that
    its index table maps the key bytes to, in another order. *)
Lemma node48_slots_permutation n ci cs :
  body n = Body48 ci cs → node_inv n →
  get ci <$> filter (λ k, get ci k ≠ empty_child) (seqZ 0 256) ≡ₚ
  filter (λ s, get cs s ≠ nullptr) (seqZ 0 48).
Proof.
  intros Hbody Hinv. pose proof Hinv as Hinv0. unfold node_inv in Hinv. rewrite Hbody in Hinv.
  destruct Hinv as (Hlci & Hlcs & Hcount & Hbytes & Hvalid & Hdistinct & Hmapped & Hpop).
  apply submseteq_length_Permutation.
  - apply NoDup_submseteq.
    + apply NoDup_fmap_2_strong; [|apply NoDup_filter, NoDup_seqZ].
      intros k k' [Hk Hin]%list_elem_of_filter [Hk' Hin']%list_elem_of_filter Heq.
      apply elem_of_seqZ in Hin, Hin'. apply Hdistinct; done || lia.
    + intros s (k & -> & [Hk Hin]%list_elem_of_filter)%list_elem_of_fmap.
      apply elem_of_seqZ in Hin. destruct (Hvalid k ltac:(lia) Hk) as [Hlt Hnn].
      apply list_elem_of_filter. split; [done|]. apply elem_of_seqZ.
      assert (is_byte (get ci k)) as Hb by (apply Forall_get_1; done || lia).
      unfold is_byte in Hb. lia.
  - rewrite length_fmap.
    pose proof (length_indexed (λ b, get ci b ≠ empty_child) (λ b, get cs (get ci b)) 0 256)
      as Hlen1.
    pose proof (mapped_observable n ci cs Hbody Hlci) as Hlen2.
    unfold observable in Hlen2. rewrite Hbody in Hlen2.
    pose proof (length_filter_indices (λ c, c ≠ nullptr) [] cs) as Hlen3.
    cbn [app length] in Hlen3. rewrite Hlcs in Hlen3. change (Z.of_nat 0) with 0 in Hlen3.
    change (Z.of_nat 48) with 48 in Hlen3. unfold population in Hpop. lia.
Qed.

(** X15. [delete_subtree] of a node passes every child of the node to
    [deallocate] once, and nothing else: the calls are the children of
    the node in some order (for [basic_inode_48] the order of the slots,
    for the others the order of the key bytes). *)
Theorem delete_subtree_children h this n :
  h !!! this = n → node_inv n →
  delete_subtree_at (static_type n) h this ≡ₚ children_list n.
Proof.
  intros Hn Hinv. pose proof Hinv as Hinv0. unfold node_inv in Hinv.
  unfold delete_subtree_at, static_type.
  destruct (body n) as [ks cs|ks cs|ci cs|cs] eqn:Hbody.
  - destruct Hinv as (Hlk & Hlc & Hcount & _).
    unfold basic_inode_4.delete_subtree. rewrite Hn.
    rewrite delete4_loop_spec by lia. replace (children_count n - 0) with (children_count n) by lia.
    rewrite fmap_get_seqZ by (unfold children_of; rewrite ?Hbody; lia).
    rewrite (children_list_sorted n ks cs) by (by left || lia).
    unfold children_of. by rewrite Hbody.
  - destruct Hinv as (Hlk & Hlc & Hcount & _).
    unfold basic_inode_16.delete_subtree. rewrite Hn.
    rewrite delete16_loop_spec by lia. replace (children_count n - 0) with (children_count n) by lia.
    rewrite fmap_get_seqZ by (unfold children_of; rewrite ?Hbody; lia).
    rewrite (children_list_sorted n ks cs) by (by right || lia).
    unfold children_of. by rewrite Hbody.
  - unfold basic_inode_48.delete_subtree. rewrite Hn.
    rewrite delete48_loop_spec by lia. replace (48 - 0) with 48 by lia.
    unfold children_list, observable, children_of. rewrite Hbody.
    rewrite <- (node48_slots_permutation n ci cs Hbody Hinv0).
    rewrite (omap_filter_fmap (λ b, get ci b ≠ empty_child) (λ b, (b, get cs (get ci b)))).
    rewrite <- !list_fmap_compose. done.
  - unfold basic_inode_256.delete_subtree, basic_inode_256.for_each_child. rewrite Hn.
    rewrite (for_each_child_loop_spec 256 n cs) by (done || lia).
    rewrite <- (direct_from_observable n cs Hbody). by rewrite foldl_snoc_calls.
Qed.
End delete_subtree_lemmas.

Section delete_subtree_examples.
Import examples.

Lemma for_each_child_entries_witness :
  basic_inode_256.for_each_child heap256_single 1 (λ k c s, s ++ [(k, c)]) [] =
  foldl (λ s kv, s ++ [(kv.1, kv.2)]) [] (observable node256_single).
Proof.
  apply (for_each_child_entries heap256_single 1 node256_single (λ k c s, s ++ [(k, c)]) []).
  - reflexivity.
  - reflexivity.
Defined.

Lemma delete_subtree_children_witness :
  delete_subtree_at (static_type node48_full) heap48_full 48 ≡ₚ children_list node48_full.
Proof.
  apply (delete_subtree_children heap48_full 48 node48_full).
  - reflexivity.
  - apply (bool_decide_unpack _). by vm_compute.
Defined.

End delete_subtree_examples.

(** ** [leftmost_leaf]: the descent by the first children *)

Section leftmost_descent.
Implicit Types (h : heap) (this a b k : Z) (ks ci : list Z) (cs : list node_ptr)
  (n : inode) (p c v : node_ptr) (pos it : const_iterator).

(** A child at a position of a node is one of its children, not null,
    and its position is a byte. *)
Lemma positions_child n j c :
  node_inv n → (j, c) ∈ positions n →
  0 ≤ j < 256 ∧ c ≠ nullptr ∧ c ∈ children_list n.
Proof.
  intros Hinv Hin. pose proof Hinv as Hinv0. unfold node_inv in Hinv.
  destruct (body n) as [ks cs|ks cs|ci cs|cs] eqn:Hbody.
  - apply (elem_of_positions_sorted n ks cs j c Hinv0 (or_introl Hbody)) in Hin.
    destruct Hinv as (Hlk & Hlc & Hc & _ & _ & Hpresent). destruct Hin as [Hj ->].
    split; [lia|]. split; [by apply Hpresent|].
    apply (sorted_child_in_list n ks cs); [by left|lia..].
  - apply (elem_of_positions_sorted n ks cs j c Hinv0 (or_intror Hbody)) in Hin.
    destruct Hinv as (Hlk & Hlc & Hc & _ & _ & Hpresent). destruct Hin as [Hj ->].
    split; [lia|]. split; [by apply Hpresent|].
    apply (sorted_child_in_list n ks cs); [by right|lia..].
  - rewrite positions_indexed in Hin by (unfold static_type; rewrite Hbody; by left).
    assert (c ∈ children_list n) as Hc.
    { unfold children_list. apply list_elem_of_fmap. by exists (j, c). }
    apply (elem_of_observable n j c Hinv0) in Hin. unfold has_entry in Hin.
    rewrite Hbody in Hin. destruct Hin as (Hj & Hmapped & ->).
    destruct Hinv as (_ & _ & _ & _ & Hvalid & _).
    split; [done|]. split; [|done]. by apply Hvalid.
  - rewrite positions_indexed in Hin by (unfold static_type; rewrite Hbody; by right).
    assert (c ∈ children_list n) as Hc.
    { unfold children_list. apply list_elem_of_fmap. by exists (j, c). }
    apply (elem_of_observable n j c Hinv0) in Hin. unfold has_entry in Hin.
    rewrite Hbody in Hin. by destruct Hin as (Hj & Hpresent & ->).
Qed.

(** A well-formed node has a child at a position from 0 on. *)
Lemma wf_node_has_child n : wf_node n → ∃ j c, (j, c) ∈ positions n ∧ 0 ≤ j.
Proof.
  intros [Hinv Hmin]. pose proof Hinv as Hinv0. unfold node_inv in Hinv.
  unfold min_size_of, capacity_of, num_children in Hmin.
  destruct (body n) as [ks cs|ks cs|ci cs|cs] eqn:Hbody.
  - unfold basic_inode_4.min_size, basic_inode_4.capacity in Hmin.
    assert (2 ≤ children_count n) as Hc2 by (case_bool_decide; lia).
    exists 0, (get cs 0). split; [|lia].
    apply (elem_of_positions_sorted n ks cs 0 _ Hinv0 (or_introl Hbody)). split; [lia|done].
  - unfold basic_inode_16.min_size, basic_inode_16.capacity in Hmin.
    assert (5 ≤ children_count n) as Hc2 by (case_bool_decide; lia).
    exists 0, (get cs 0). split; [|lia].
    apply (elem_of_positions_sorted n ks cs 0 _ Hinv0 (or_intror Hbody)). split; [lia|done].
  - destruct Hinv as (Hlk & Hlc & Hc & _ & _ & _ & Hmapped & _).
    unfold basic_inode_48.min_size, basic_inode_48.capacity in Hmin.
    assert (17 ≤ children_count n) as Hc2 by (case_bool_decide; lia).
    destruct (mapped_exists ci ltac:(lia)) as (b & Hb & Hpresent).
    exists b, (get cs (get ci b)). split; [|lia].
    rewrite positions_indexed by (unfold static_type; rewrite Hbody; by left).
    apply elem_of_observable; [done|]. unfold has_entry, is_byte. rewrite Hbody.
    split; [lia|done].
  - destruct Hinv as (Hlc & Hc & Hpop).
    unfold basic_inode_256.min_size, basic_inode_256.capacity in Hmin.
    unfold num_children in Hpop.
    destruct (population_exists cs) as (b & Hb & Hpresent); [case_bool_decide; lia|].
    exists b, (get cs b). split; [|lia].
    rewrite positions_indexed by (unfold static_type; rewrite Hbody; by right).
    apply elem_of_observable; [done|]. unfold has_entry, is_byte. rewrite Hbody.
    split; [lia|done].
Qed.

(** When a node has a child at a position from [start] on, it has a
    first one. *)
Lemma first_child_exists n start :
  (∃ j c, (j, c) ∈ positions n ∧ start ≤ j) →
  ∃ j c, first_child_from n start = Some (j, c) ∧ (j, c) ∈ positions n ∧ start ≤ j.
Proof.
  intros (j0 & c0 & Hin0 & Hj0). unfold first_child_from.
  destruct (filter (λ jc, start ≤ jc.1) (positions n)) as [|[j c] rest] eqn:Hfilter.
  - exfalso. by apply (filter_nil_not_elem_of _ _ (j0, c0) Hfilter).
  - exists j, c. split; [done|].
    assert ((j, c) ∈ filter (λ jc, start ≤ jc.1) (positions n)) as Hin
      by (rewrite Hfilter; left).
    apply list_elem_of_filter in Hin as [Hj Hin]. done.
Qed.

(** [leftmost_child(node, start)] of a node with a child at a position
    from [start] on is the iterator of the first such child. *)
Lemma leftmost_child_of_first h p start n j c :
  h !!! get_raw p = n → static_type n = tag p → node_inv n → 0 ≤ start →
  first_child_from n start = Some (j, c) →
  basic_inode_impl.leftmost_child h p start = Some (Iterator c j p).
Proof.
  intros Hn Htype Hinv Hstart Hfirst. unfold first_child_from in Hfirst.
  destruct (filter (λ jc, start ≤ jc.1) (positions n)) as [|[j' c'] rest] eqn:Hfilter;
    [done|]. injection Hfirst as -> ->.
  assert ((j, c) ∈ filter (λ jc, start ≤ jc.1) (positions n)) as Hin
    by (rewrite Hfilter; left).
  apply list_elem_of_filter in Hin as [Hj Hin]. cbn [fst] in Hj.
  destruct (positions_child n j c Hinv Hin) as (Hbyte & _ & _).
  pose proof (positions_key_sorted n Hinv) as Hsorted.
  pose proof (body_of_arrays n) as Hbody. rewrite Htype in Hbody.
  destruct p as [this t]. simpl in Hn, Htype.
  unfold basic_inode_impl.leftmost_child. cbn [tag get_raw].
  assert (∀ cs, (body n = Body4 (keys_of n) cs ∨ body n = Body16 (keys_of n) cs) →
            start < children_count n ∧ j = start ∧ c = get cs start) as Hsortedcase.
  { intros cs Hb.
    apply (elem_of_positions_sorted n (keys_of n) cs j c Hinv Hb) in Hin as [Hjc ->].
    assert ((start, get cs start) ∈ filter (λ jc, start ≤ jc.1) (positions n)) as Hs.
    { apply list_elem_of_filter. split; [simpl; lia|].
      apply (elem_of_positions_sorted n (keys_of n) cs); [done..|]. split; [lia|done]. }
    rewrite Hfilter in Hs. apply elem_of_cons in Hs as [Heq|Hs].
    { injection Heq as Hjs _. subst j. split; [lia|done]. }
    exfalso.
    pose proof (key_sorted_filter (λ jc, start ≤ jc.1) _ Hsorted) as Hfs.
    rewrite Hfilter in Hfs. apply StronglySorted_inv in Hfs as [_ Hall].
    rewrite Forall_forall in Hall. specialize (Hall _ Hs). unfold key_lt in Hall.
    simpl in Hall. lia. }
  destruct t; [unfold static_type in Htype; by destruct (body n)|..]; f_equal.
  - destruct (Hsortedcase _ (or_introl Hbody)) as (Hlt & -> & ->).
    unfold basic_inode_4.leftmost_child, tagged_self. rewrite Hn.
    by rewrite bool_decide_eq_true_2.
  - destruct (Hsortedcase _ (or_intror Hbody)) as (Hlt & -> & ->).
    unfold basic_inode_16.leftmost_child, tagged_self. rewrite Hn.
    by rewrite bool_decide_eq_true_2.
  - clear Hsortedcase. unfold basic_inode_48.leftmost_child. rewrite Hn.
    rewrite positions_indexed in Hfilter by (left; done).
    rewrite (entries_from_observable n _ _ Hbody), filter_entries_from in Hfilter by lia.
    rewrite bool_decide_eq_true_2 by lia.
    rewrite (node48_scan_first 256 n _ _ this start Hbody) by lia. by rewrite Hfilter.
  - clear Hsortedcase. unfold basic_inode_256.leftmost_child. rewrite Hn.
    rewrite positions_indexed in Hfilter by (right; done).
    rewrite (direct_from_observable n _ Hbody), filter_direct_from in Hfilter by lia.
    rewrite (node256_scan_first 256 n _ this start Hbody) by lia. by rewrite Hfilter.
Qed.

(** C8. In a finite well-formed tree whose root, when it is an inner
    node, has a child at a position from [start] on, [leftmost_leaf(node,
    start)] terminates: with fuel above the height of the tree the loop
    returns an iterator whose tag is [LEAF], reached from the root by its
    first child at a position from [start] on and then by the first
    child of each inner node, which a well-formed node always has; when
    the root is not null the iterator is not the empty one. *)
Theorem leftmost_leaf_terminates d h p start :
  wf_tree d h p → 0 ≤ start →
  (tag p ≠ LEAF → ∃ j c, (j, c) ∈ positions (h !!! get_raw p) ∧ start ≤ j) →
  ∃ it, (∀ fuel, (d < fuel)%nat → basic_inode_impl.leftmost_leaf fuel h p start = Some it) ∧
        tag (node it) = LEAF ∧
        leftmost_path h (Iterator p 0 nullptr) start it ∧
        (p ≠ nullptr → is_empty it = false).
Proof.
  unfold basic_inode_impl.leftmost_leaf.
  set (pos := Iterator p 0 nullptr). change p with (node pos). clearbody pos. clear p.
  revert pos start. induction d as [|d IH]; intros pos start Hwf Hstart Hchild.
  - cbn [wf_tree] in Hwf. exists pos. split; [|split; [done|split; [by constructor|]]].
    + intros [|fuel] Hfuel; [lia|]. cbn [basic_inode_impl.leftmost_leaf_loop].
      by rewrite bool_decide_eq_false_2 by (intros Hne; by apply Hne).
    + intros Hnn. by apply bool_decide_eq_false.
  - destruct (decide (tag (node pos) = LEAF)) as [Hleaf|Hinner].
    + exists pos. split; [|split; [done|split; [by constructor|]]].
      * intros [|fuel] Hfuel; [lia|]. cbn [basic_inode_impl.leftmost_leaf_loop].
        by rewrite bool_decide_eq_false_2 by (intros Hne; by apply Hne).
      * intros Hnn. by apply bool_decide_eq_false.
    + cbn [wf_tree] in Hwf. rewrite decide_False in Hwf by done.
      destruct (h !! get_raw (node pos)) as [n|] eqn:Hn; [|done].
      destruct Hwf as (Htype & Hwfn & Hchildren).
      apply lookup_total_correct in Hn. rewrite Forall_forall in Hchildren.
      specialize (Hchild Hinner). rewrite Hn in Hchild.
      destruct (first_child_exists n start Hchild) as (j & c & Hfirst & Hin & Hj).
      destruct (positions_child n j c (proj1 Hwfn) Hin) as (_ & Hnn & Hc).
      pose proof (leftmost_child_of_first h (node pos) start n j c Hn Htype
                    (proj1 Hwfn) Hstart Hfirst) as Hhop.
      destruct (IH (Iterator c j (node pos)) 0) as (it & Hfuel & Hleaf & Hpath & Hne);
        [by apply Hchildren|lia| |].
      { cbn [node]. intros Hinner'. destruct d as [|d']; [by apply Hchildren in Hc|].
        apply Hchildren in Hc. cbn [wf_tree] in Hc. rewrite decide_False in Hc by done.
        destruct (h !! get_raw c) as [n'|] eqn:Hn'; [|done].
        destruct Hc as (_ & Hwfn' & _). apply lookup_total_correct in Hn'. rewrite Hn'.
        by apply wf_node_has_child. }
      exists it. split; [|split; [done|split]].
      * intros [|fuel] Hlt; [lia|]. cbn [basic_inode_impl.leftmost_leaf_loop].
        rewrite bool_decide_eq_true_2 by done. rewrite Hhop. apply Hfuel. lia.
      * apply (leftmost_path_hop h pos start j c it); [done|by rewrite Hn|done].
      * intros _. by apply Hne.
Qed.
End leftmost_descent.

Section leftmost_descent_examples.
Import examples.

Lemma leftmost_leaf_terminates_witness :
  ∃ it, (∀ fuel, (2 < fuel)%nat →
                 basic_inode_impl.leftmost_leaf fuel heap_pair (create 4 I4) 0 = Some it) ∧
        tag (node it) = LEAF ∧
        leftmost_path heap_pair (Iterator (create 4 I4) 0 nullptr) 0 it ∧
        (create 4 I4 ≠ nullptr → is_empty it = false).
Proof.
  apply (leftmost_leaf_terminates 2 heap_pair (create 4 I4) 0).
  - apply (bool_decide_unpack _). by vm_compute.
  - lia.
  - intros _. exists 0, (create 16 I16). split; [|lia].
    apply (bool_decide_unpack _). by vm_compute.
Defined.
End leftmost_descent_examples.
